(* ===== verification/_CoqProject ===== *)
-Q . S2P
Prelude.v
GoStrings.v
Paths.v
VfsNode.v
VfsSession.v
VfsFacts.v
VfsSpec.v
VfsCoherence.v
VfsPool.v
VfsLoad.v
VfsLoadFacts.v
VfsGraft.v
Parse.v
Net.v
Proxy.v
Haproxy.v
Geo.v
Util.v
Event.v
Session.v
Server.v
StableSort.v
Feed.v
Analyze.v
Overview.v
OverviewFacts.v
Grouping.v
Portal.v
PortalFacts.v
PortalPage.v
Record.v
Base64.v
Persona.v
PersonaFacts.v
Auth.v
AuthFacts.v
ShellState.v
ShellArith.v
ShellText.v
ShellCmds.v
ShellFigures.v
ShellInter.v
Shell.v
ShellSpec.v
ShellCmdSpec.v
ShellFacts.v
ShellDemo.v
ShellThms.v
ShellLoader.v
ShellCases.v
Sleep.v
Telnet.v
TelnetFacts.v
Ssh.v
SshFacts.v
Ftp.v
Config.v
ConfigFacts.v
Seccomp.v
HttpPages.v
Http.v
HttpFacts.v
PortalMux.v
PortalMuxFacts.v
Honeypot.v
HoneypotFacts.v
Replay.v
ReplayFacts.v
LivePage.v
LogViews.v
Process.v
ProcessFacts.v
Harness.v
PageScript.v
PageScriptFacts.v
