(* ===== verification/Prelude.v ===== *)
(** * SweeTTY verification library

    SweeTTY is a honeypot: it listens on the ports of a made-up host, lets attackers
    talk to simulated Telnet, SSH, HTTP, HTTPS and FTP services and to a simulated
    shell over an in-memory filesystem, and logs what they do.  A portal on loopback
    reads the log back.  Nothing an attacker sends is ever executed.

    ** The parts and how they interact

    [cmd/sweetty/main.go] reads the configuration ([internal/config]) and the persona
    ([internal/persona]), builds the host's filesystem ([internal/fakehost],
    [internal/vfs/load.go]), and starts one server ([internal/server]) per listener.
    The server admits a connection, optionally behind a PROXY header
    ([internal/proxyproto]), wraps it in a session and hands it to the listener's
    protocol ([internal/proto]).  A protocol that reaches a login asks the persona and
    the brute-force policy, and on success runs the shell ([internal/shell]) over an
    overlay ([internal/vfs/session.go]) of the shared tree.  Every step logs events
    ([internal/event]); the portal ([internal/portal]) summarises them with the help
    of [internal/geo].  [internal/haproxy] reports floods an edge proxy stopped.

    ** Files

    Foundations
    - [Prelude]: strings as byte lists, machine integers, the tactics and the hint
      databases; [GoStrings], [Paths], [Base64], [StableSort]: the Go library functions
      the program relies on.

    Host
    - [VfsNode] (vfs.go), [VfsSession] (session.go), [VfsLoad] (load.go and
      [internal/fakehost]): one function per function of the source, the global overlay
      counter passed explicitly.  [VfsFacts], [VfsSpec], [VfsCoherence], [VfsPool],
      [VfsLoadFacts] and [VfsGraft] are their theorems.
    - [Persona] and [Auth]: generation from a list of random draws, the accounts and
      the per-source brute-force table; [PersonaFacts], and [AuthFacts] over a whole
      history of attempts.

    Edge
    - [Net], [Proxy], [Haproxy], [Geo], [Util], [Event]: addresses, the PROXY header,
      the stick table, location, helpers and the log.
    - [Session] (session.go) is the state every protocol works on; [Server] (server.go)
      is the decision path of one connection and, as a step relation, the counters that
      all connections share; [Record] is the session recorder.  [Replay] has the wrappers
      of a connection, the quoting of a cast's lines and the player of the dashboard;
      [ReplayFacts] follows a session's output from its write to the operator's screen.

    Shell
    - [Parse] (parse.go), [ShellArith], [ShellText] (dynamic.go), [ShellCmds]
      (commands.go), [ShellInter] (interactive.go) and [Shell] (shell.go) over the state
      and effects of [ShellState].  [ShellSpec] has the invariant and the rules,
      [ShellCmdSpec] and [ShellFacts] apply them to every command and to the
      interpreter; [ShellThms], [ShellLoader], [ShellFigures], [ShellCases] have the
      results; [ShellDemo] the concrete world of the witnesses; [Sleep] says how long
      the [sleep] command holds a session.

    Services
    - [Telnet], [Ssh], [Ftp], [Http] with [HttpPages]: each protocol's handler, with its
      parsing and its state machine; [TelnetFacts], [SshFacts], [HttpFacts]; the theorems
      about FTP are in [Ftp].

    Portal
    - [Feed] (feed.go), [Analyze] (analyze.go), [Overview] (overview.go), [Grouping] and
      [Portal] (payloads.go, honeytokens.go, replay.go, console.go), [PortalMux]
      (portal.go), [PortalPage] (html.go); [OverviewFacts], [PortalFacts],
      [PortalMuxFacts].  [LivePage] joins the log, the live stream, the browser's
      EventSource and the list the script keeps.
      [PageScript] is the part of the script that draws a source's drawer, over a small
      document tree; [PageScriptFacts] shows that the drawer has what the sessions did.

    Program
    - [Config] (config.go, main.go), [ConfigFacts]; [Seccomp] (seccomp_linux.go).
    - [Honeypot]: the interface of a service (protocol.go), the whole of the server's
      [handle], and the services [buildProtocol] returns as implementations of it;
      [HoneypotFacts]: each keeps the contract, so every connection is accounted for.
    - [LogViews]: the log of an instance as an interleaving of its sessions' logs, and
      the portal's view of one of them.
    - [Process]: the whole program, from the files it starts with to its exit: the
      listeners, the handlers of the connections, the counters and the log as a state
      machine, whose steps are the atomic sections of the goroutines in any order;
      [ProcessFacts]: its invariant and what follows from it.
    - [Harness]: the client the protocol tests drive the services with (its read loops
      and its reading of the log), and that it sees what the session did.

    ** What is proved

    The whole.  Whatever the configuration, the clients and the order the goroutines run
    in, a connection is refused for a stated reason or leaves a log that opens and closes
    with its session, every event of which carries the session's id and a source the
    client did not choose; the file holds what each has logged so far, the portal shows
    exactly that under a session's id, no connection is ever stuck behind the others, and
    memory is given back ([ProcessFacts.program_keeps_account], [portal_sees_session],
    [every_connection_can_end], from the class [Honeypot.Confined] that every service is
    an instance of and the counters of [Server]).

    Isolation and resources.  The overlay memory of all sessions together never exceeds
    its ceiling and comes back when a session ends, whatever the interleaving and
    whatever panics; the caps on connections hold in every interleaving; a peer that is
    not a trusted proxy cannot choose its address; expansion cannot amplify a line; an
    injected command does not touch the connection; the console proxy reaches only what
    the operator listed; the seccomp filter denies exactly its list.

    Admission.  On Telnet and SSH a shell runs only after an accepted credential, and
    every attempt is on record; a source that is let in by guessing has earned that very
    credential under the policy, over the whole history of attempts ([AuthFacts]).

    Capture.  A payload echoed in pieces and run is logged byte for byte; a command
    packed in base64 in a web request is recovered; what a Telnet or SSH client types is
    what the session reads, whatever negotiation, packet boundaries or erasures are
    mixed in; FTP credentials are logged as typed.

    Plausibility.  Listings agree with lookups, files read back as written, a removed
    path is gone, [$((...))] computes what its grammar says, process and port listings
    agree with the persona, every generated persona is usable, and an HTTP answer is one
    well-formed response.

    Reading back.  The view of a session is what the session logged, however the
    connections interleave ([LogViews], [ProcessFacts]).  The live feed delivers each event exactly once, and the page shows
    what a list of events would, through every broken connection; the verdict of a source
    in the list is the one in its drawer, and the drawer draws each session's actions in
    order, as text; the dashboard's figures add up; visits
    partition a history; a verdict is conservative.  Every request the page makes reaches
    its handler.  A recording is replayed as it was written, and the player shows its
    text and nothing else.

    Departures.  Theorems whose names say so prove where the code does not do what it
    means to: see [ShellCases], [cr_nul_line_stalls], [x32_calls_are_allowed],
    [hundredth_header_shifts_body], [broken_in_table_unbounded],
    [query_injection_is_missed], [password_spaces_lost], [long_line_blinds_queries],
    [commands_are_not_capped], [nested_ranges_lose_addresses],
    [typed_commands_are_not_replayed], [negotiation_is_replayed_as_text],
    [loading_misses_an_event], [loading_shows_an_event_twice],
    [quiet_reconnect_misses_an_event], [one_line_outlasts_the_session],
    [huge_sleep_returns_at_once] and [signal_cuts_sessions].

    ** Conventions and bounds

    A Go string is a list of bytes; [int] and [int64] are integers with their
    wrap-around written out where it can matter ([wrap64]).  A map is a [gmap]; where
    the order of a Go map range matters it is an argument.  Time, randomness and the
    formatting of times come from parameters ([World], lists of draws).  A client is the
    list of bytes it will send before it leaves; a read at its end is the end of the
    connection or of the read deadline.

    Fuel appears where recursion is not structural and is always shown to be enough:
    [length line] iterations for [tokenize], four calls per byte for [evalArith], one
    iteration per byte of input for the loops that read lines (each read consumes a
    byte), [maxExecDepth] levels for the recursion of the shell (the code's own limit).

    ** Not modelled

    Sockets, goroutine scheduling beyond the interleavings above, pauses (but that of
    [sleep]), and output on the operator's terminal.  In [Process] what a session does to the state it shares with
    others (the overlay counter, the guessing policy, the trap of a web listener) happens
    when its handler starts it, its events later one by one; [VfsPool] and [AuthFacts]
    have the overlay and the policy under other orders.  Code outside the repository is a parameter:
    golang.org/x/crypto/ssh, the BPF machine of the kernel, the embedded file tree and
    pictures; of the standard library [encoding/json], [encoding/csv], [text/template],
    [time] and [net/url] are parameters too, the rest of what is used is written out.
    The page of the dashboard (html.go) is a constant, byte for byte; of its script the
    live list, the drawer of a source and the replay player have a semantics; the other
    views (which draw the answers [Portal] and [Overview] have), the alarms, sound and
    animation have none.  The package comments ([doc.go]) hold no code. *)

From Stdlib Require Export ZArith Lia Ascii.
From stdpp Require Export base gmap strings list list_numbers sorting.

#[global] Open Scope Z_scope.

(** ** Strings

    A Go string is a sequence of bytes; it is modelled as a list of [ascii]
    (eight bits each), so every list lemma applies to it.  [$$"abc"] is the
    literal. *)
Abbreviation str := (list ascii).
Notation "$$ s" := (String.list_ascii_of_string s%string)
  (at level 1, s at level 0, only parsing).

#[global] Arguments String.list_ascii_of_string : simpl never.

(** Length as a Go [int]. *)
Definition zlen {A} (l : list A) : Z := Z.of_nat (length l).

(** The numeric value of a byte. *)
Definition bz (c : ascii) : Z := Z.of_N (N_of_ascii c).

(** [byte(n)] for an arbitrary integer: conversion keeps the low eight bits. *)
Definition zb (n : Z) : ascii := ascii_of_N (Z.to_N (n mod 256)).

(** ** Machine integers *)

(** Go's [int] is 64 bits wide on the supported platforms. *)
Definition wrap64 (z : Z) : Z := (z + 2 ^ 63) mod 2 ^ 64 - 2 ^ 63.
(** [uint32]. *)
Definition wrapu32 (z : Z) : Z := z mod 2 ^ 32.
Definition max_int64 : Z := 2 ^ 63 - 1.
Definition min_int64 : Z := - 2 ^ 63.

(** ** Decidable tests

    [a =? b] on [str] is Go's [==]. *)
Definition seqb (a b : str) : bool := bool_decide (a = b).
Declare Scope go_scope.
Delimit Scope go_scope with go.
Notation "a =s b" := (seqb a b) (at level 70) : go_scope.
#[global] Open Scope go_scope.

(** ** Hint databases

    [go_len] rewrites lengths; [go] closes the routine side conditions. *)
Create HintDb go.
Create HintDb go_len.

(** ** Generic lemmas *)

Lemma zlen_nonneg {A} (l : list A) : 0 <= zlen l.
Proof. unfold zlen. lia. Qed.

Lemma zlen_nil {A} : zlen (@nil A) = 0.
Proof. done. Qed.

Lemma zlen_cons {A} (x : A) l : zlen (x :: l) = zlen l + 1.
Proof. unfold zlen. simpl. lia. Qed.

Lemma zlen_app {A} (l k : list A) : zlen (l ++ k) = zlen l + zlen k.
Proof. unfold zlen. rewrite length_app. lia. Qed.

Lemma zlen_take {A} n (l : list A) : zlen (take n l) = Z.min (Z.of_nat n) (zlen l).
Proof. unfold zlen. rewrite length_take. lia. Qed.

Lemma zlen_drop {A} n (l : list A) : zlen (drop n l) = Z.max 0 (zlen l - Z.of_nat n).
Proof. unfold zlen. rewrite length_drop. lia. Qed.

Lemma seqb_eq a b : (a =s b) = true <-> a = b.
Proof. unfold seqb. apply bool_decide_eq_true. Qed.

Lemma seqb_neq a b : (a =s b) = false <-> a <> b.
Proof. unfold seqb. apply bool_decide_eq_false. Qed.

Lemma seqb_refl a : (a =s a) = true.
Proof. by apply seqb_eq. Qed.

Lemma bz_range c : 0 <= bz c < 256.
Proof.
  unfold bz. pose proof (N_ascii_bounded c). split; [lia |].
  change 256 with (Z.of_N 256). lia.
Qed.

Lemma bz_inj a b : bz a = bz b -> a = b.
Proof.
  unfold bz. intros H. apply N2Z.inj in H.
  by rewrite <- (ascii_N_embedding a), <- (ascii_N_embedding b), H.
Qed.

Lemma bz_zb n : bz (zb n) = n mod 256.
Proof.
  unfold bz, zb. pose proof (Z.mod_pos_bound n 256 eq_refl).
  rewrite N_ascii_embedding by lia. lia.
Qed.

Lemma zb_bz c : zb (bz c) = c.
Proof. apply bz_inj. rewrite bz_zb. apply Z.mod_small, bz_range. Qed.

Lemma wrap64_range z : min_int64 <= wrap64 z <= max_int64.
Proof.
  unfold wrap64, min_int64, max_int64.
  pose proof (Z.mod_pos_bound (z + 2 ^ 63) (2 ^ 64) eq_refl). lia.
Qed.

Lemma wrap64_small z : min_int64 <= z <= max_int64 -> wrap64 z = z.
Proof.
  unfold wrap64, min_int64, max_int64. intros.
  rewrite Z.mod_small; lia.
Qed.

(** Sum of a measure over a finite map, used for the memory budgets. *)
Definition map_sum {K A} `{Countable K} (f : A -> Z) (m : gmap K A) : Z :=
  map_fold (fun _ a acc => f a + acc) 0 m.

Section map_sum.
Context {K A : Type} `{Countable K} (f : A -> Z).
Implicit Types m : gmap K A.

Lemma map_sum_empty : map_sum f (∅ : gmap K A) = 0.
Proof. done. Qed.

Lemma map_sum_insert_None m k a :
  m !! k = None -> map_sum f (<[k := a]> m) = f a + map_sum f m.
Proof.
  intros Hm. unfold map_sum.
  rewrite (map_fold_insert_L (fun _ a acc => f a + acc)); [done | | done].
  intros. lia.
Qed.

Lemma map_sum_delete_Some m k a :
  m !! k = Some a -> map_sum f (delete k m) = map_sum f m - f a.
Proof.
  intros Hm. rewrite <- (insert_delete_id m k a Hm) at 2.
  rewrite map_sum_insert_None by apply lookup_delete_eq. lia.
Qed.

Lemma map_sum_insert m k a :
  map_sum f (<[k := a]> m) = map_sum f m - from_option f 0 (m !! k) + f a.
Proof.
  destruct (m !! k) as [b |] eqn:E; simpl.
  - rewrite <- insert_delete_eq.
    rewrite map_sum_insert_None by apply lookup_delete_eq.
    rewrite (map_sum_delete_Some m k b E). lia.
  - rewrite map_sum_insert_None by done. lia.
Qed.

Lemma map_sum_delete m k :
  map_sum f (delete k m) = map_sum f m - from_option f 0 (m !! k).
Proof.
  destruct (m !! k) as [b |] eqn:E; simpl.
  - by apply map_sum_delete_Some.
  - rewrite delete_id by done. lia.
Qed.

Lemma map_sum_nonneg m : (forall a, 0 <= f a) -> 0 <= map_sum f m.
Proof.
  intros Hf. unfold map_sum.
  apply (map_fold_weak_ind (fun r _ => 0 <= r)); [lia |].
  intros. specialize (Hf x). lia.
Qed.
End map_sum.

Lemma elem_of_filter_b {A} (f : A -> bool) l x : x ∈ List.filter f l <-> x ∈ l /\ f x = true.
Proof. rewrite !list_elem_of_In. apply filter_In. Qed.

(** Sum of a measure over a list. *)
Definition zsum {A} (f : A -> Z) (l : list A) : Z := foldr (fun x acc => f x + acc) 0 l.
Lemma zsum_cons {A} (f : A -> Z) x l : zsum f (x :: l) = f x + zsum f l.
Proof. done. Qed.
Lemma zsum_ext {A} (f g : A -> Z) l : (forall x, x ∈ l -> f x = g x) -> zsum f l = zsum g l.
Proof.
  intros H. induction l as [| x l IH]; [done |]. rewrite !zsum_cons, (H x) by (by left).
  rewrite IH; [done |]. intros y Hy. apply H. by right.
Qed.
Lemma zsum_zero {A} (f : A -> Z) l : (forall x, x ∈ l -> f x = 0) -> zsum f l = 0.
Proof. intros H. rewrite (zsum_ext f (fun _ => 0) l H). clear H. induction l; [done |]. by rewrite zsum_cons, IHl. Qed.
Lemma zsum_one {A} (l : list A) : zsum (fun _ => 1) l = zlen l.
Proof. induction l; [done |]. rewrite zsum_cons, zlen_cons, IHl. lia. Qed.
Lemma zsum_app {A} (f : A -> Z) l k : zsum f (l ++ k) = zsum f l + zsum f k.
Proof. unfold zsum. induction l as [| x l IH]; simpl; [done |]. rewrite IH. lia. Qed.
Lemma zsum_snoc {A} (f : A -> Z) l x : zsum f (l ++ [x]) = zsum f l + f x.
Proof. rewrite zsum_app. unfold zsum. simpl. lia. Qed.
Lemma zsum_nonneg {A} (f : A -> Z) l : (forall x, 0 <= f x) -> 0 <= zsum f l.
Proof. intros Hf. unfold zsum. induction l as [| x l IH]; simpl; [done |]. specialize (Hf x). lia. Qed.
#[export] Instance zsum_perm {A} (f : A -> Z) : Proper ((≡ₚ) ==> (=)) (zsum f).
Proof. unfold zsum. induction 1; simpl; lia. Qed.

#[export] Hint Rewrite @zlen_nil @zlen_cons @zlen_app @zlen_take @zlen_drop : go_len.
#[export] Hint Resolve zlen_nonneg bz_range seqb_refl : go.

(** ** Tactics *)

(** Case analysis on every test of the goal, keeping the equations. *)
Ltac cases := repeat (case_match; simplify_eq/=; try done).

(** Turn boolean hypotheses into propositions. *)
Ltac bool_hyps :=
  repeat match goal with
  | H : (_ && _) = true |- _ => apply andb_prop in H; destruct H
  | H : (_ || _) = false |- _ => apply orb_false_elim in H; destruct H
  | H : negb _ = true |- _ => apply negb_true_iff in H
  | H : negb _ = false |- _ => apply negb_false_iff in H
  | H : seqb _ _ = true |- _ => apply seqb_eq in H
  | H : seqb _ _ = false |- _ => apply seqb_neq in H
  | H : (_ <? _) = true |- _ => apply Z.ltb_lt in H
  | H : (_ <? _) = false |- _ => apply Z.ltb_ge in H
  | H : (_ <=? _) = true |- _ => apply Z.leb_le in H
  | H : (_ <=? _) = false |- _ => apply Z.leb_gt in H
  | H : (_ =? _) = true |- _ => apply Z.eqb_eq in H
  | H : (_ =? _) = false |- _ => apply Z.eqb_neq in H
  end.

(** Lengths and linear arithmetic. *)
Ltac len := autorewrite with go_len in *; unfold zlen in *; lia.

(** Evaluate the lengths of literals. *)
Ltac lit_len :=
  repeat match goal with
  | |- context [length (String.list_ascii_of_string ?s)] =>
      let n := eval vm_compute in (length (String.list_ascii_of_string s)) in
      change (length (String.list_ascii_of_string s)) with n
  | H : context [length (String.list_ascii_of_string ?s)] |- _ =>
      let n := eval vm_compute in (length (String.list_ascii_of_string s)) in
      change (length (String.list_ascii_of_string s)) with n in H
  end.
