(* ===== verification/GoStrings.v ===== *)
(** * GoStrings: the part of Go's standard library the program relies on

    [strings], [strconv] and [path] as executable functions on byte lists, with
    the lemmas the components use.  Case mapping covers ASCII letters (the
    protocols' verbs, header names and file extensions); a non-ASCII byte is
    left unchanged.  White space is Go's [unicode.IsSpace], multi-byte
    encodings included. *)

From S2P Require Import Prelude.

(** ** Searching *)

(** [strings.HasPrefix] and [strings.HasSuffix]. *)
Fixpoint has_prefix (s p : str) {struct p} : bool :=
  match p, s with
  | [], _ => true
  | x :: p', y :: s' => bool_decide (x = y) && has_prefix s' p'
  | _ :: _, [] => false
  end.

Definition has_suffix (s p : str) : bool := has_prefix (rev s) (rev p).

(** [strings.IndexByte], [None] for -1. *)
Fixpoint index_byte (s : str) (c : ascii) : option nat :=
  match s with
  | [] => None
  | x :: s' => if bool_decide (x = c) then Some 0%nat else S <$> index_byte s' c
  end.

(** [strings.LastIndexByte]. *)
Fixpoint last_index_byte (s : str) (c : ascii) : option nat :=
  match s with
  | [] => None
  | x :: s' =>
      match last_index_byte s' c with
      | Some i => Some (S i)
      | None => if bool_decide (x = c) then Some 0%nat else None
      end
  end.

(** [strings.Index] for a substring. *)
Fixpoint index_str (s sub : str) : option nat :=
  if has_prefix s sub then Some 0%nat
  else match s with
       | [] => None
       | _ :: s' => S <$> index_str s' sub
       end.

(** [strings.LastIndex] for a substring. *)
Fixpoint last_index_str (s sub : str) : option nat :=
  match s with
  | [] => if has_prefix s sub then Some 0%nat else None
  | _ :: s' =>
      match last_index_str s' sub with
      | Some i => Some (S i)
      | None => if has_prefix s sub then Some 0%nat else None
      end
  end.

Definition contains (s sub : str) : bool :=
  match index_str s sub with Some _ => true | None => false end.

(** [strings.IndexAny] for a set of bytes. *)
Fixpoint index_any (s : str) (set : str) : option nat :=
  match s with
  | [] => None
  | x :: s' => if bool_decide (x ∈ set) then Some 0%nat else S <$> index_any s' set
  end.

Definition contains_any (s set : str) : bool :=
  match index_any s set with Some _ => true | None => false end.

(** [strings.Count] of a one-byte substring. *)
Fixpoint count_byte (s : str) (c : ascii) : Z :=
  match s with
  | [] => 0
  | x :: s' => (if bool_decide (x = c) then 1 else 0) + count_byte s' c
  end.

(** ** Splitting and joining *)

(** [strings.Split] on a one-byte separator. *)
Fixpoint split_byte (c : ascii) (s : str) : list str :=
  match s with
  | [] => [[]]
  | x :: s' =>
      if bool_decide (x = c) then [] :: split_byte c s'
      else match split_byte c s' with
           | h :: t => (x :: h) :: t
           | [] => [[x]]
           end
  end.

Fixpoint join (sep : str) (l : list str) : str :=
  match l with
  | [] => []
  | [x] => x
  | x :: l' => x ++ sep ++ join sep l'
  end.

(** [strings.ReplaceAll] of one byte by a string. *)
Definition replace_byte (c : ascii) (new : str) (s : str) : str :=
  flat_map (fun x => if bool_decide (x = c) then new else [x]) s.

(** [strings.ReplaceAll] of a non-empty string: [skip] bytes of a match are
    still to be dropped. *)
Fixpoint replace_from (old new : str) (skip : nat) (s : str) : str :=
  match s with
  | [] => []
  | x :: s' =>
      match skip with
      | S k => replace_from old new k s'
      | O => if has_prefix s old then new ++ replace_from old new (length old - 1) s'
             else x :: replace_from old new 0 s'
      end
  end.
Definition replace_all (s old new : str) : str := replace_from old new 0 s.

(** ** Trimming *)

Fixpoint drop_while (f : ascii -> bool) (s : str) : str :=
  match s with
  | [] => []
  | x :: s' => if f x then drop_while f s' else s
  end.

Definition trim_right_fn (f : ascii -> bool) (s : str) : str := rev (drop_while f (rev s)).
Definition in_set (set : str) (c : ascii) : bool := bool_decide (c ∈ set).

(** [strings.TrimRight], [strings.TrimLeft] and [strings.Trim] for a cutset of
    ASCII bytes. *)
Definition trim_right (s set : str) : str := trim_right_fn (in_set set) s.
Definition trim_left (s set : str) : str := drop_while (in_set set) s.
Definition trim (s set : str) : str := trim_right (trim_left s set) set.

(** [strings.TrimPrefix] and [strings.TrimSuffix]. *)
Definition trim_prefix (s p : str) : str := if has_prefix s p then drop (length p) s else s.
Definition trim_suffix (s p : str) : str :=
  if has_suffix s p then take (length s - length p) s else s.

(** The UTF-8 encodings of the code points of [unicode.IsSpace]. *)
Definition bytes (l : list Z) : str := map zb l.
Definition spaces : list str :=
  map bytes
    ([[9]; [10]; [11]; [12]; [13]; [32]; [194; 133]; [194; 160]; [225; 154; 128]]
     ++ map (fun k => [226; 128; k]) (seqZ 128 11)
     ++ [[226; 128; 168]; [226; 128; 169]; [226; 128; 175]; [226; 129; 159]; [227; 128; 128]]).

(** Width of the white-space rune a string starts with, 0 if none; [rev_space_width]
    reads the string backwards, for the trailing end. *)
Definition space_width (s : str) : nat :=
  match List.find (has_prefix s) spaces with Some e => length e | None => 0%nat end.
Definition rev_space_width (s : str) : nat :=
  match List.find (fun e => has_prefix s (rev e)) spaces with
  | Some e => length e | None => 0%nat
  end.

(** Drop leading white space as [width] measures it; [skip] bytes of a
    multi-byte space are still to be dropped. *)
Fixpoint drop_spaces (width : str -> nat) (skip : nat) (s : str) : str :=
  match s with
  | [] => []
  | _ :: s' =>
      match skip with
      | S k => drop_spaces width k s'
      | O => match width s with O => s | S k => drop_spaces width k s' end
      end
  end.

(** [strings.TrimSpace]. *)
Definition trim_space (s : str) : str :=
  rev (drop_spaces rev_space_width 0 (rev (drop_spaces space_width 0 s))).

(** [strings.Fields]. *)
Definition flush_field (cur : str) : list str := match cur with [] => [] | _ => [cur] end.
Fixpoint fields_from (skip : nat) (cur s : str) : list str :=
  match s with
  | [] => flush_field cur
  | x :: s' =>
      match skip with
      | S k => fields_from k cur s'
      | O => match space_width s with
             | O => fields_from 0 (cur ++ [x]) s'
             | S k => flush_field cur ++ fields_from k [] s'
             end
      end
  end.
Definition fields (s : str) : list str := fields_from 0 [] s.

(** ** Case *)

Definition in_range (c : ascii) (lo hi : Z) : bool := (lo <=? bz c) && (bz c <=? hi).
Definition is_digit (c : ascii) : bool := in_range c 48 57.
Definition is_upper (c : ascii) : bool := in_range c 65 90.
Definition is_lower (c : ascii) : bool := in_range c 97 122.
(** A hexadecimal digit's value, as [net/url] reads one. *)
Definition unhex (c : ascii) : option Z :=
  if is_digit c then Some (bz c - 48)
  else if in_range c 97 102 then Some (bz c - 87)
  else if in_range c 65 70 then Some (bz c - 55) else None.
Definition upper_byte (c : ascii) : ascii := if is_lower c then zb (bz c - 32) else c.
Definition lower_byte (c : ascii) : ascii := if is_upper c then zb (bz c + 32) else c.
Definition to_upper (s : str) : str := map upper_byte s.
Definition to_lower (s : str) : str := map lower_byte s.

(** ** Decimal numbers *)

(** Digits of a non-negative integer, most significant first, in front of
    [acc]; the fuel bounds the number of digits. *)
Fixpoint digits (base : Z) (fuel : nat) (n : Z) (acc : str) : str :=
  match fuel with
  | O => acc
  | S f =>
      let d := n mod base in
      let acc := zb (if d <? 10 then 48 + d else 87 + d) :: acc in
      if n / base =? 0 then acc else digits base f (n / base) acc
  end.
Definition digit_fuel (n : Z) : nat := S (Z.to_nat (Z.log2 n)).
(** [strconv.Itoa]. *)
Definition itoa (n : Z) : str :=
  if n <? 0 then "-"%char :: digits 10 (digit_fuel (- n)) (- n) []
  else digits 10 (digit_fuel n) n [].

Definition digit_val (base : Z) (c : ascii) : option Z :=
  if is_digit c && (bz c - 48 <? base) then Some (bz c - 48) else None.
Fixpoint parse_digits (base : Z) (s : str) (acc : Z) : option Z :=
  match s with
  | [] => Some acc
  | c :: s' =>
      match digit_val base c with
      | Some d => parse_digits base s' (acc * base + d)
      | None => None
      end
  end.

(** [strconv.Atoi]: the value and whether the error is nil.  A number out of
    range yields the nearest [int] together with an error. *)
Definition atoi (s : str) : Z * bool :=
  let '(neg, body) :=
    match s with
    | c :: s' => if bool_decide (c = "-"%char) then (true, s')
                 else if bool_decide (c = "+"%char) then (false, s') else (false, s)
    | [] => (false, s)
    end in
  match body with
  | [] => (0, false)
  | _ =>
      match parse_digits 10 body 0 with
      | None => (0, false)
      | Some v =>
          let v := if neg : bool then - v else v in
          if v <? min_int64 then (min_int64, false)
          else if max_int64 <? v then (max_int64, false) else (v, true)
      end
  end.

(** [strconv.ParseUint(s, base, bits)], base at most 10: [None] on error. *)
Definition parse_uint (base bits : Z) (s : str) : option Z :=
  match s with
  | [] => None
  | _ => match parse_digits base s 0 with
         | Some v => if v <? 2 ^ bits then Some v else None
         | None => None
         end
  end.

(** [fmt] padding: ["%8d"]-style and ["%-8s"]-style (widths count bytes here,
    which agrees with Go on ASCII text). *)
Definition pad_left (w : Z) (s : str) : str := repeat " "%char (Z.to_nat (w - zlen s)) ++ s.
Definition pad_right (w : Z) (s : str) : str := s ++ repeat " "%char (Z.to_nat (w - zlen s)).
Definition pad_zero (w : Z) (s : str) : str := repeat "0"%char (Z.to_nat (w - zlen s)) ++ s.

(** ** Order *)

(** Byte-wise string order, Go's [<=] on strings. *)
Fixpoint str_le (a b : str) : bool :=
  match a, b with
  | [], _ => true
  | _ :: _, [] => false
  | x :: a', y :: b' => if bz x <? bz y then true else if bz x =? bz y then str_le a' b' else false
  end.

(** ** Slash-separated paths (package [path]) *)

Definition slash : ascii := "/"%char.

(** The component stack of [path.Clean]; [acc] is the reversed output. *)
Fixpoint clean_comps (rooted : bool) (acc : list str) (cs : list str) : list str :=
  match cs with
  | [] => rev acc
  | c :: cs' =>
      if (c =s []) || (c =s $$".") then clean_comps rooted acc cs'
      else if c =s $$".." then
        match acc with
        | [] => clean_comps rooted (if rooted then [] else [c]) cs'
        | a :: acc' =>
            if a =s $$".." then clean_comps rooted (c :: acc) cs'
            else clean_comps rooted acc' cs'
        end
      else clean_comps rooted (c :: acc) cs'
  end.

(** [path.Clean]. *)
Definition path_clean (p : str) : str :=
  if has_prefix p [slash] then slash :: join [slash] (clean_comps true [] (split_byte slash p))
  else match join [slash] (clean_comps false [] (split_byte slash p)) with
       | [] => $$"."
       | out => out
       end.

(** [path.Join] of two elements. *)
Definition path_join (a b : str) : str :=
  match List.filter (fun e => negb (e =s [])) [a; b] with
  | [] => []
  | l => path_clean (join [slash] l)
  end.

(** [path.Dir]. *)
Definition path_dir (p : str) : str :=
  path_clean (match last_index_byte p slash with Some i => take (S i) p | None => [] end).

(** [path.Base]. *)
Definition path_base (p : str) : str :=
  match p with
  | [] => $$"."
  | _ =>
      let p := trim_right p [slash] in
      let p := match last_index_byte p slash with Some i => drop (S i) p | None => p end in
      match p with [] => [slash] | _ => p end
  end.

(** * Lemmas *)

Lemma has_prefix_spec s p : has_prefix s p = true <-> exists t, s = p ++ t.
Proof.
  revert s. induction p as [| x p IH]; intros s; simpl.
  { split; [by exists s | done]. }
  destruct s as [| y s]; [split; [done | by intros [? [=]]] |].
  rewrite andb_true_iff, bool_decide_eq_true, IH.
  split; [intros [-> [t ->]]; by exists t | intros [t [= -> ->]]; by split; [| exists t]].
Qed.

Lemma has_prefix_app p t : has_prefix (p ++ t) p = true.
Proof. apply has_prefix_spec. eauto. Qed.

Lemma trim_prefix_app p t : trim_prefix (p ++ t) p = t.
Proof. unfold trim_prefix. rewrite has_prefix_app. apply drop_app_length. Qed.

Lemma index_byte_Some s c i :
  index_byte s c = Some i -> exists a b, s = a ++ c :: b /\ c ∉ a /\ length a = i.
Proof.
  revert i. induction s as [| x s IH]; intros i; simpl; [done |].
  case_bool_decide as Hx.
  - intros [= <-]. subst. exists [], s. set_solver.
  - destruct (index_byte s c) as [j |]; simpl; [| done]. intros [= <-].
    destruct (IH j eq_refl) as (a & b & -> & Ha & <-).
    exists (x :: a), b. set_solver.
Qed.

Lemma index_byte_None s c : index_byte s c = None <-> c ∉ s.
Proof.
  induction s as [| x s IH]; simpl; [set_solver |].
  case_bool_decide; [set_solver |].
  rewrite fmap_None, IH. set_solver.
Qed.

Lemma index_byte_app a b c : c ∉ a -> index_byte (a ++ c :: b) c = Some (length a).
Proof.
  induction a as [| x a IH]; simpl; intros Ha.
  - by rewrite bool_decide_eq_true_2.
  - rewrite bool_decide_eq_false_2 by set_solver. rewrite IH by set_solver. done.
Qed.

Lemma last_index_byte_None s c : c ∉ s -> last_index_byte s c = None.
Proof.
  induction s as [| x s IH]; simpl; [done |]. intros Hx.
  rewrite IH by set_solver. rewrite bool_decide_eq_false_2; set_solver.
Qed.

Lemma last_index_byte_app a b c : c ∉ b -> last_index_byte (a ++ c :: b) c = Some (length a).
Proof.
  intros Hb. induction a as [| x a IH]; simpl.
  - rewrite last_index_byte_None by done. by rewrite bool_decide_eq_true_2.
  - by rewrite IH.
Qed.

(** ** Split and join are inverse *)

Lemma split_byte_cons c s : exists h t, split_byte c s = h :: t.
Proof. induction s as [| x s (h & t & E)]; simpl; [eauto |]. rewrite E. case_bool_decide; eauto. Qed.

Lemma join_cons sep x l : l <> [] -> join sep (x :: l) = x ++ sep ++ join sep l.
Proof. by destruct l. Qed.

Lemma join_snoc sep l x : l <> [] -> join sep (l ++ [x]) = join sep l ++ sep ++ x.
Proof.
  induction l as [| y l IH]; [done |]. intros _. destruct (decide (l = [])) as [-> | Hl]; [done |].
  change ((y :: l) ++ [x]) with (y :: (l ++ [x])).
  rewrite !join_cons by (done || by destruct l). rewrite IH by done. by rewrite <- !app_assoc.
Qed.

Lemma join_split c s : join [c] (split_byte c s) = s.
Proof.
  induction s as [| x s IH]; [done |]. simpl.
  destruct (split_byte_cons c s) as (h & t & E). rewrite E in IH |- *.
  case_bool_decide as Hx.
  - subst. rewrite join_cons by done. simpl. by f_equal.
  - destruct t as [| h2 t]; simpl in *; by f_equal.
Qed.

Lemma split_byte_no c s : c ∉ s -> split_byte c s = [s].
Proof.
  induction s as [| x s IH]; [done |]. intros Hx. simpl.
  rewrite bool_decide_eq_false_2 by set_solver. by rewrite IH by set_solver.
Qed.

Lemma split_byte_sep c a b : split_byte c (a ++ c :: b) = split_byte c a ++ split_byte c b.
Proof.
  induction a as [| x a IH]; simpl.
  - by rewrite bool_decide_eq_true_2.
  - rewrite IH. case_bool_decide; [done |].
    by destruct (split_byte_cons c a) as (h & t & ->).
Qed.

Lemma split_join c l :
  l <> [] -> Forall (fun s => c ∉ s) l -> split_byte c (join [c] l) = l.
Proof.
  induction l as [| x l IH]; [done |]. intros _ [Hx Hl]%Forall_cons.
  destruct (decide (l = [])) as [-> | Hn].
  - simpl. by apply split_byte_no.
  - rewrite join_cons by done. simpl. rewrite split_byte_sep, IH by done.
    by rewrite split_byte_no.
Qed.

Lemma split_byte_Forall c s : Forall (fun w => c ∉ w) (split_byte c s).
Proof.
  induction s as [| x s IH]; simpl; [repeat constructor; set_solver |].
  case_bool_decide; [constructor; [set_solver | done] |].
  destruct (split_byte c s) as [| h t]; inversion_clear IH; repeat constructor; set_solver.
Qed.

(** ** Trimming *)

Lemma drop_while_id f s : (forall x t, s = x :: t -> f x = false) -> drop_while f s = s.
Proof. destruct s as [| x t]; [done |]. simpl. intros H. by rewrite (H x t). Qed.

Lemma trim_right_fn_id f s : (forall x t, s = t ++ [x] -> f x = false) -> trim_right_fn f s = s.
Proof.
  intros H. unfold trim_right_fn. rewrite drop_while_id; [apply rev_involutive |].
  intros x t E. apply (H x (rev t)).
  by rewrite <- (rev_involutive s), E.
Qed.

(** ** Printable ASCII is not white space *)

Definition plain (c : ascii) : Prop := in_range c 33 126 = true.

Lemma not_spaces (l : list str) c t :
  Forall (fun e => match e with x :: _ => in_range x 33 126 = false | [] => False end) l ->
  plain c -> List.find (has_prefix (c :: t)) l = None.
Proof.
  intros Hl Hc. induction Hl as [| e l He _ IH]; [done |]. simpl.
  destruct e as [| x e]; [done |]. simpl.
  rewrite bool_decide_eq_false_2; [done |]. intros ->. unfold plain in Hc. congruence.
Qed.

Lemma space_width_plain c t : plain c -> space_width (c :: t) = 0%nat.
Proof.
  intros Hc. unfold space_width. rewrite not_spaces; [done | | done].
  by repeat constructor.
Qed.

Lemma rev_space_width_plain c t : plain c -> rev_space_width (c :: t) = 0%nat.
Proof.
  intros Hc. unfold rev_space_width.
  assert (List.find (fun e => has_prefix (c :: t) (rev e)) spaces = None) as ->; [| done].
  assert (forall l, List.find (has_prefix (c :: t)) (map (@rev ascii) l) = None ->
    List.find (fun e => has_prefix (c :: t) (rev e)) l = None) as H.
  { induction l as [| e l IH]; [done |]. cbn [map List.find].
    destruct (has_prefix (c :: t) (rev e)); [done | auto]. }
  apply H, not_spaces; [| done]. by repeat constructor.
Qed.

(** A string that starts and ends with printable ASCII is not trimmed. *)
Lemma trim_space_id s :
  (forall c t, s = c :: t -> plain c) -> (forall c t, s = t ++ [c] -> plain c) -> trim_space s = s.
Proof.
  intros Hh Hl. unfold trim_space.
  assert (drop_spaces space_width 0 s = s) as ->.
  { destruct s as [| c t]; [done |]. cbn [drop_spaces]. by rewrite space_width_plain by by apply (Hh c t). }
  destruct (rev s) as [| c t] eqn:E; simpl.
  - by rewrite <- (rev_involutive s), E.
  - rewrite rev_space_width_plain, <- E; [apply rev_involutive |].
    apply (Hl c (rev t)). by rewrite <- (rev_involutive s), E.
Qed.

(** ** Decimal round trip *)

Lemma zb_digit d : 0 <= d < 10 -> digit_val 10 (zb (48 + d)) = Some d /\ is_digit (zb (48 + d)) = true.
Proof.
  intros Hd. unfold digit_val, is_digit, in_range. rewrite !bz_zb, Z.mod_small by lia.
  replace (48 <=? 48 + d) with true by (symmetry; apply Z.leb_le; lia).
  replace (48 + d <=? 57) with true by (symmetry; apply Z.leb_le; lia). cbn [andb].
  replace (48 + d - 48) with d by lia.
  replace (d <? 10) with true by (symmetry; apply Z.ltb_lt; lia). done.
Qed.

Lemma digits_step fuel n acc :
  0 <= n -> digits 10 (S fuel) n acc =
  if n / 10 =? 0 then zb (48 + n mod 10) :: acc else digits 10 fuel (n / 10) (zb (48 + n mod 10) :: acc).
Proof.
  intros Hn. cbn [digits]. pose proof (Z.mod_pos_bound n 10 eq_refl).
  replace (n mod 10 <? 10) with true by (symmetry; apply Z.ltb_lt; lia). done.
Qed.

Lemma parse_digits_digits fuel n acc :
  0 <= n < 10 ^ Z.of_nat fuel -> (0 < fuel)%nat ->
  parse_digits 10 (digits 10 fuel n acc) 0 = parse_digits 10 acc n.
Proof.
  revert n acc. induction fuel as [| fuel IH]; [lia |]. intros n acc Hn _.
  pose proof (Z.mod_pos_bound n 10 eq_refl) as Hm. destruct (zb_digit (n mod 10)) as [Hv _]; [lia |].
  pose proof (Z.div_mod n 10 ltac:(lia)) as Hdm.
  rewrite digits_step by lia. destruct (n / 10 =? 0) eqn:E; bool_hyps.
  - cbn [parse_digits]. rewrite Hv. f_equal. lia.
  - assert (0 < n / 10) by (pose proof (Z.div_pos n 10); lia).
    assert (0 < fuel)%nat.
    { destruct fuel; [| lia]. change (10 ^ Z.of_nat 1) with 10 in Hn.
      pose proof (Z.div_lt_upper_bound n 10 1). lia. }
    rewrite IH; [| | done].
    + cbn [parse_digits]. rewrite Hv. f_equal. lia.
    + split; [lia |]. apply Z.div_lt_upper_bound; [lia |].
      rewrite Nat2Z.inj_succ, Z.pow_succ_r in Hn by lia. lia.
Qed.

Lemma digits_all fuel n acc : 0 <= n -> Forall (fun c => is_digit c = true) acc ->
  Forall (fun c => is_digit c = true) (digits 10 fuel n acc).
Proof.
  revert n acc. induction fuel as [| fuel IH]; intros n acc Hn Ha; [done |].
  pose proof (Z.mod_pos_bound n 10 eq_refl). destruct (zb_digit (n mod 10)) as [_ Hd]; [lia |].
  rewrite digits_step by done. destruct (n / 10 =? 0); [by constructor |].
  apply IH; [apply Z.div_pos; lia | by constructor].
Qed.

Lemma digit_fuel_enough n : 0 <= n -> n < 10 ^ Z.of_nat (digit_fuel n).
Proof.
  intros Hn. unfold digit_fuel. rewrite Nat2Z.inj_succ, Z2Nat.id by apply Z.log2_nonneg.
  destruct (decide (n = 0)) as [-> | Hz]; [done |].
  eapply Z.lt_le_trans; [apply Z.log2_spec; lia |].
  apply Z.pow_le_mono_l. lia.
Qed.

(** The decimal text of a number reads back as that number. *)
Lemma itoa_nonneg n :
  0 <= n -> parse_digits 10 (itoa n) 0 = Some n /\ Forall (fun c => is_digit c = true) (itoa n) /\ itoa n <> [].
Proof.
  intros Hn. unfold itoa. replace (n <? 0) with false by (symmetry; apply Z.ltb_ge; lia).
  assert (parse_digits 10 (digits 10 (digit_fuel n) n []) 0 = Some n) as E.
  { rewrite parse_digits_digits; [done | | unfold digit_fuel; lia]. split; [done | by apply digit_fuel_enough]. }
  split_and!; [done | by apply digits_all |]. intros E0.
  unfold digit_fuel in E0. rewrite digits_step in E0 by done.
  assert (forall f m acc, acc <> [] -> digits 10 f m acc <> []) as Hne.
  { induction f as [| f IH]; intros m acc Ha; [done |]. cbn [digits]. by destruct (m / 10 =? 0); [| apply IH]. }
  destruct (n / 10 =? 0); [done | by eapply Hne, E0].
Qed.

Lemma atoi_itoa n : 0 <= n <= max_int64 -> atoi (itoa n) = (n, true).
Proof.
  intros Hn. destruct (itoa_nonneg n) as (Hp & Hd & Hne); [lia |].
  unfold atoi. destruct (itoa n) as [| c s] eqn:E; [done |].
  apply Forall_cons in Hd as [Hc _].
  rewrite !bool_decide_eq_false_2 by (intros ->; done). rewrite Hp.
  replace (n <? min_int64) with false by (symmetry; apply Z.ltb_ge; unfold min_int64; lia).
  by replace (max_int64 <? n) with false by (symmetry; apply Z.ltb_ge; lia).
Qed.

(** ** Order *)

Lemma str_le_refl a : str_le a a = true.
Proof. induction a as [| x a IH]; simpl; [done |]. by rewrite Z.ltb_irrefl, Z.eqb_refl. Qed.

Lemma str_le_total a b : str_le a b = true \/ str_le b a = true.
Proof.
  revert b. induction a as [| x a IH]; intros [| y b]; simpl; auto.
  destruct (Z.lt_trichotomy (bz x) (bz y)) as [H | [H | H]].
  - left. by apply Z.ltb_lt in H as ->.
  - rewrite H, Z.ltb_irrefl, Z.eqb_refl. apply IH.
  - right. by apply Z.ltb_lt in H as ->.
Qed.

Lemma str_le_trans a b c : str_le a b = true -> str_le b c = true -> str_le a c = true.
Proof.
  revert b c. induction a as [| x a IH]; intros [| y b] [| z c]; simpl; try done.
  intros H1 H2.
  destruct (bz x <? bz y) eqn:E1; [| destruct (bz x =? bz y) eqn:E1'; [| done]];
  (destruct (bz y <? bz z) eqn:E2; [| destruct (bz y =? bz z) eqn:E2'; [| done]]); bool_hyps;
  destruct (bz x <? bz z) eqn:E3; bool_hyps; try done; try lia.
  replace (bz x =? bz z) with true by (symmetry; apply Z.eqb_eq; lia). by eapply IH.
Qed.

Lemma str_le_antisym a b : str_le a b = true -> str_le b a = true -> a = b.
Proof.
  revert b. induction a as [| x a IH]; intros [| y b]; simpl; try done. intros H1 H2.
  destruct (bz x <? bz y) eqn:E1; bool_hyps.
  - replace (bz y <? bz x) with false in H2 by (symmetry; apply Z.ltb_ge; lia).
    replace (bz y =? bz x) with false in H2 by (symmetry; apply Z.eqb_neq; lia). done.
  - destruct (bz x =? bz y) eqn:E2; [| done]. bool_hyps.
    replace (bz y <? bz x) with false in H2 by (symmetry; apply Z.ltb_ge; lia).
    replace (bz y =? bz x) with true in H2 by (symmetry; apply Z.eqb_eq; lia).
    f_equal; [by apply bz_inj | by apply IH].
Qed.
