(* ===== verification/Paths.v ===== *)
(** * Paths: canonical absolute paths

    The virtual filesystem keys everything by cleaned absolute path strings.
    [abs_path cs] is the path with components [cs]; [good_comp] is what a
    component of a cleaned path is.  The lemmas turn [path.Clean], [path.Join],
    [path.Dir] and [path.Base] on such strings into list operations. *)

From S2P Require Import Prelude GoStrings.

Definition good_comp (c : str) : Prop :=
  c <> [] /\ c <> $$"." /\ c <> $$".." /\ slash ∉ c.

#[export] Instance good_comp_dec c : Decision (good_comp c).
Proof. unfold good_comp. apply _. Defined.

Definition abs_path (cs : list str) : str := slash :: join [slash] cs.

(** A cleaned absolute path. *)
Definition canonical (p : str) : Prop := exists cs, Forall good_comp cs /\ p = abs_path cs.

(** The components a path string denotes. *)
Definition comps_of (p : str) : list str := clean_comps true [] (split_byte slash p).

Lemma good_no_slash cs : Forall good_comp cs -> Forall (fun s => slash ∉ s) cs.
Proof. intros H. eapply Forall_impl; [exact H |]. by intros c (_ & _ & _ & ?). Qed.

Lemma abs_path_not_nil cs : abs_path cs <> [].
Proof. done. Qed.

Lemma abs_path_prefix cs : has_prefix (abs_path cs) [slash] = true.
Proof. done. Qed.

Lemma split_abs_path cs :
  Forall good_comp cs ->
  split_byte slash (abs_path cs) = [] :: (match cs with [] => [[]] | _ => cs end).
Proof.
  intros Hg. unfold abs_path. simpl. f_equal.
  destruct cs as [| c cs]; [done |].
  by rewrite split_join by (done || by apply good_no_slash).
Qed.

Lemma clean_comps_app rooted acc cs c :
  good_comp c -> clean_comps rooted acc (cs ++ [c]) = clean_comps rooted acc cs ++ [c].
Proof.
  intros (H0 & H1 & H2 & _). apply seqb_neq in H0, H1, H2.
  revert acc. induction cs as [| x cs IH]; intros acc; simpl.
  - by rewrite H0, H1, H2.
  - destruct (_ || _); [apply IH |].
    destruct (x =s $$".."); [| apply IH].
    destruct acc as [| a acc]; [destruct rooted; apply IH |].
    destruct (a =s $$".."); apply IH.
Qed.

Lemma clean_comps_good cs acc :
  Forall good_comp cs -> clean_comps true acc cs = rev acc ++ cs.
Proof.
  revert acc. induction cs as [| c cs IH]; intros acc Hg; simpl.
  { by rewrite app_nil_r. }
  apply Forall_cons in Hg as [(H0 & H1 & H2 & _) Hg].
  apply seqb_neq in H0, H1, H2. rewrite H0, H1, H2. simpl.
  rewrite IH by done. simpl. by rewrite <- app_assoc.
Qed.

(** Whatever the input, the rooted component stack holds only good
    components: no empty, [.] or [..] component survives. *)
Lemma clean_comps_all_good cs acc :
  Forall (fun s => slash ∉ s) cs -> Forall good_comp acc ->
  Forall good_comp (clean_comps true acc cs).
Proof.
  revert acc. induction cs as [| c cs IH]; intros acc Hs Ha; simpl.
  { by apply Forall_rev. }
  apply Forall_cons in Hs as [Hc Hs].
  destruct (_ || _) eqn:E1; [by apply IH |].
  destruct (c =s $$"..") eqn:E2.
  - destruct acc as [| a acc]; [by apply IH |].
    apply Forall_cons in Ha as [Hga Ha].
    destruct (a =s $$"..") eqn:E3; [| by apply IH].
    bool_hyps. by destruct Hga as (_ & _ & ? & _).
  - bool_hyps. apply IH; [done |]. constructor; [| done]. by repeat split.
Qed.

Lemma comps_of_good p : Forall good_comp (comps_of p).
Proof. apply clean_comps_all_good; [apply split_byte_Forall | constructor]. Qed.

Lemma comps_of_abs_path cs : Forall good_comp cs -> comps_of (abs_path cs) = cs.
Proof.
  intros Hg. unfold comps_of. rewrite split_abs_path by done.
  destruct cs as [| c cs]; [done |].
  change (clean_comps true [] ([] :: c :: cs)) with (clean_comps true [] (c :: cs)).
  by rewrite clean_comps_good.
Qed.

Lemma abs_path_inj cs ds :
  Forall good_comp cs -> Forall good_comp ds -> abs_path cs = abs_path ds -> cs = ds.
Proof.
  intros Hc Hd E. by rewrite <- (comps_of_abs_path cs), <- (comps_of_abs_path ds), E.
Qed.

Lemma path_clean_rooted p :
  has_prefix p [slash] = true -> path_clean p = abs_path (comps_of p).
Proof. intros H. unfold path_clean. by rewrite H. Qed.

Lemma path_clean_abs cs : Forall good_comp cs -> path_clean (abs_path cs) = abs_path cs.
Proof. intros Hg. by rewrite path_clean_rooted, comps_of_abs_path. Qed.

Lemma clean_comps_app_empty rooted acc cs :
  clean_comps rooted acc (cs ++ [[]]) = clean_comps rooted acc cs.
Proof.
  revert acc. induction cs as [| x cs IH]; intros acc; simpl; [done |].
  destruct (_ || _); [apply IH |].
  destruct (x =s $$".."); [| apply IH].
  destruct acc as [| a acc]; [destruct rooted; apply IH |].
  destruct (a =s $$".."); apply IH.
Qed.

(** A trailing slash is dropped. *)
Lemma comps_of_trailing cs :
  Forall good_comp cs -> comps_of (abs_path cs ++ [slash]) = cs.
Proof.
  intros Hg. unfold comps_of. rewrite (split_byte_sep slash (abs_path cs) []).
  simpl split_byte at 2. rewrite clean_comps_app_empty. by apply comps_of_abs_path.
Qed.

Lemma abs_path_snoc cs c :
  abs_path (cs ++ [c]) = match cs with [] => slash :: c | _ => abs_path cs ++ slash :: c end.
Proof.
  destruct cs as [| x cs]; [done |]. unfold abs_path. rewrite join_snoc by done. done.
Qed.

Lemma path_join_comp cs c :
  Forall good_comp cs -> good_comp c -> path_join (abs_path cs) c = abs_path (cs ++ [c]).
Proof.
  intros Hg Hc. unfold path_join. simpl.
  replace (c =s []) with false by (symmetry; apply seqb_neq; apply Hc). simpl.
  change (slash :: join [slash] cs ++ slash :: c) with (abs_path cs ++ slash :: c).
  rewrite path_clean_rooted by done. f_equal. unfold comps_of.
  rewrite split_byte_sep, (split_byte_no slash c) by apply Hc.
  rewrite clean_comps_app by done. f_equal. by apply comps_of_abs_path.
Qed.

Lemma path_dir_snoc cs c :
  Forall good_comp cs -> good_comp c -> path_dir (abs_path (cs ++ [c])) = abs_path cs.
Proof.
  intros Hg Hc. unfold path_dir. rewrite abs_path_snoc.
  destruct cs as [| x cs].
  - pose proof (last_index_byte_app [] c slash (proj2 (proj2 (proj2 Hc)))) as E.
    rewrite app_nil_l in E. by rewrite E.
  - rewrite last_index_byte_app by apply Hc.
    replace (take _ _) with (abs_path (x :: cs) ++ [slash]).
    + rewrite path_clean_rooted by done. by rewrite comps_of_trailing.
    + rewrite take_app. rewrite take_ge by lia. f_equal.
      replace (S (length (abs_path (x :: cs))) - length (abs_path (x :: cs)))%nat with 1%nat by lia.
      done.
Qed.

Lemma path_dir_root : path_dir (abs_path []) = abs_path [].
Proof. done. Qed.

Lemma path_base_snoc cs c : good_comp c -> path_base (abs_path (cs ++ [c])) = c.
Proof.
  intros Hc. unfold path_base.
  destruct (abs_path (cs ++ [c])) as [| y l] eqn:E; [done |]. rewrite <- E.
  assert (abs_path (cs ++ [c]) = (match cs with [] => [] | _ => abs_path cs end) ++ slash :: c) as ->.
  { rewrite abs_path_snoc. by destruct cs. }
  set (a := match cs with [] => [] | _ => abs_path cs end).
  replace (trim_right (a ++ slash :: c) [slash]) with (a ++ slash :: c).
  - rewrite last_index_byte_app by apply Hc.
    rewrite drop_app_ge by lia.
    replace (S (length a) - length a)%nat with 1%nat by lia. simpl.
    destruct c; [by destruct Hc | done].
  - symmetry. apply trim_right_fn_id. intros x t Et. unfold in_set.
    apply bool_decide_eq_false. intros Hx%list_elem_of_singleton.
    destruct Hc as (Hn & _ & _ & Hs).
    destruct (@exists_last _ c Hn) as (c' & z & ->).
    change (a ++ slash :: c' ++ [z]) with (a ++ (slash :: c') ++ [z]) in Et.
    rewrite app_assoc in Et. apply app_inj_tail in Et as [_ Ez]. set_solver.
Qed.

Lemma canonical_abs_path cs : Forall good_comp cs -> canonical (abs_path cs).
Proof. by exists cs. Qed.

Lemma canonical_comps p : canonical p -> p = abs_path (comps_of p).
Proof. intros (cs & Hg & ->). by rewrite comps_of_abs_path. Qed.

Lemma abs_path_root_iff cs : abs_path cs = abs_path [] -> Forall good_comp cs -> cs = [].
Proof. intros E Hg. by apply abs_path_inj in E. Qed.

#[export] Hint Resolve comps_of_good canonical_abs_path : go.
