(* ===== verification/VfsNode.v ===== *)
(** * VfsNode: filesystem entries (internal/vfs/vfs.go)

    [node] is the struct [Node]; the accessors are the exported methods.  A map
    of children is a [gmap]; a nil map and an empty one read the same and are
    both [∅]. *)

From S2P Require Import Prelude GoStrings Paths.

(** [fs.FileMode] bits. *)
Definition ModeDir : Z := 2 ^ 31.
Definition ModeSymlink : Z := 2 ^ 27.
Definition ModeSetuid : Z := 2 ^ 23.
Definition ModeSetgid : Z := 2 ^ 22.
Definition ModeSticky : Z := 2 ^ 20.
(** [fs.ModeType]: the directory, symlink, pipe, socket, device, character
    device and irregular bits. *)
Definition ModeType : Z :=
  2 ^ 31 + 2 ^ 27 + 2 ^ 25 + 2 ^ 24 + 2 ^ 26 + 2 ^ 21 + 2 ^ 19.

Inductive err : Set := ErrNotExist | ErrPermission | ErrNotDir | ErrIsDir | ErrExist | ErrNoSpace.
#[export] Instance err_eq_dec : EqDecision err.
Proof. solve_decision. Defined.

(** Results of fallible operations. *)
Inductive res (A : Type) : Type := Ok (a : A) | Err (e : err).
Arguments Ok {A} a.
Arguments Err {A} e.

Definition is_ok {A} (r : res A) : bool := match r with Ok _ => true | Err _ => false end.

Inductive node : Type := Node {
  name : str;
  mode : Z;
  uid : Z; gid : Z;
  uname : str; gname : str;
  mtime : Z;                 (* nanoseconds since the epoch *)
  content : str;
  link : str;
  stub : bool;
  fsize : Z;
  children : gmap str node
}.

Definition IsDir (n : node) : bool := negb (Z.land (mode n) ModeDir =? 0).
Definition IsLink (n : node) : bool := negb (Z.land (mode n) ModeSymlink =? 0).

(** [elfStub]: 64 zero bytes with the ELF identification and header fields set. *)
Definition elfStub : str :=
  let b := bytes [127; 69; 76; 70; 2; 1; 1; 0] ++ repeat (zb 0) 56 in
  <[16%nat := zb 2]> (<[18%nat := zb 62]> (<[20%nat := zb 1]> b)).

Definition Size (n : node) : Z :=
  if IsDir n then 4096
  else if stub n && (0 <? fsize n) then fsize n
  else zlen (content n).

Definition LinkCount (n : node) : Z :=
  if IsDir n
  then map_fold (fun _ c links => if IsDir c then links + 1 else links) 2 (children n)
  else 1.

Definition Content (n : node) : str := if stub n then elfStub else content n.

(** [childOf]; the nil directory is the caller's [None]. *)
Definition childOf (dir : node) (nm : str) : option node := children dir !! nm.

(** The child count is what a real directory shows: two plus one per immediate
    subdirectory. *)
Lemma LinkCount_dir n :
  IsDir n = true ->
  LinkCount n = 2 + Z.of_nat (size (filter (fun kv => IsDir kv.2 = true) (children n))).
Proof.
  intros Hd. unfold LinkCount. rewrite Hd. generalize (children n) as m.
  apply (map_ind (fun m => map_fold _ 2 m = 2 + Z.of_nat (size (filter _ m)))).
  - done.
  - intros k c m Hk IH.
    rewrite (map_fold_insert_L (fun _ c links => if IsDir c then links + 1 else links)) by
      (done || intros; repeat case_match; lia).
    rewrite IH. destruct (IsDir c) eqn:E.
    + rewrite map_filter_insert_True by done.
      rewrite map_size_insert_None; [lia |]. apply map_lookup_filter_None. by left.
    + rewrite map_filter_insert_False by (simpl; congruence).
      by rewrite delete_id.
Qed.
