(* ===== verification/VfsSession.v ===== *)
(** * VfsSession: the per-connection overlay (internal/vfs/session.go)

    [session] is the struct [Session]; the process-wide counter
    [globalOverlayBytes] is passed explicitly as [g].  Every operation returns
    the new counter, the new session and its error.  [now] stands for
    [time.Now()]. *)

From S2P Require Import Prelude GoStrings Paths VfsNode.

Definition maxOverlayBytes : Z := Z.shiftl 8 20.
Definition maxOverlayFileBytes : Z := Z.shiftl 2 20.
Definition maxOverlayEntries : Z := 2048.
Definition maxGlobalOverlayBytes : Z := Z.shiftl 256 20.

(** [reserveOverlay]: the new counter and the verdict. *)
Definition reserveOverlay (g delta : Z) : Z * bool :=
  if delta <=? 0 then (g + delta, true)
  else if maxGlobalOverlayBytes <? g + delta then (g + delta + - delta, false)
  else (g + delta, true).

Record session : Type := Session {
  base : node;                  (* root of the shared read-only tree *)
  overlay : gmap str node;
  deleted : gset str;
  cwd : str;
  nbytes : Z
}.

(** ** Path helpers *)

Definition cleanAbs (p : str) : str :=
  path_clean (if has_prefix p [slash] then p else slash :: p).
Definition splitPath (abs : str) : list str :=
  match trim abs [slash] with [] => [] | t => split_byte slash t end.
Definition parentDir (abs : str) : str := path_dir abs.
Definition baseName (abs : str) : str := path_base abs.

#[global] Arguments cleanAbs : simpl never.
#[global] Arguments parentDir : simpl never.
#[global] Arguments baseName : simpl never.

Definition NewSession (f : node) (wd : str) : session :=
  Session f ∅ ∅ (cleanAbs (match wd with [] => [slash] | _ => wd end)) 0.

Definition entries (s : session) : Z :=
  Z.of_nat (size (overlay s)) + Z.of_nat (size (deleted s)).

Definition Resolve (s : session) (p : str) : str :=
  match p with
  | [] => cwd s
  | _ => cleanAbs (if has_prefix p [slash] then p else path_join (cwd s) p)
  end.

(** ** Resolution *)

(** The loop of [isDeleted]; the fuel bounds the number of ancestors. *)
Fixpoint isDeleted_from (fuel : nat) (del : gset str) (p : str) : option bool :=
  match fuel with
  | O => None
  | S f =>
      if bool_decide (p ∈ del) then Some true
      else if p =s [slash] then Some false
      else isDeleted_from f del (parentDir p)
  end.
Definition isDeleted (s : session) (abs : str) : bool :=
  default false (isDeleted_from (S (length abs)) (deleted s) abs).

Definition child (s : session) (parentAbs : str) (parentNode : node) (nm : str) : option node :=
  let childAbs := path_join parentAbs nm in
  if isDeleted s childAbs then None
  else match overlay s !! childAbs with
       | Some ov => Some ov
       | None => childOf parentNode nm
       end.

Definition maxLinkDepth : nat := 40.

(** Target path of a link met in directory [parentAbs]. *)
Definition link_target (parentAbs : str) (l : node) : str :=
  if has_prefix (link l) [slash] then cleanAbs (link l)
  else cleanAbs (path_join parentAbs (link l)).

(** The component loop of [lookup]; [resolve] is [resolveLink] one level
    deeper. *)
Fixpoint walk (s : session) (resolve : str -> res node) (followFinal : bool)
    (cur : str) (nd : node) (parts : list str) : res node :=
  match parts with
  | [] => Ok nd
  | nm :: rest =>
      if negb (IsDir nd) then Err ErrNotDir
      else match child s cur nd nm with
           | None => Err ErrNotExist
           | Some c =>
               let isFinal := match rest with [] => true | _ => false end in
               if IsLink c && (negb isFinal || followFinal) then
                 match resolve (link_target cur c) with
                 | Err e => Err e
                 | Ok target => walk s resolve followFinal (path_join cur nm) target rest
                 end
               else walk s resolve followFinal (path_join cur nm) c rest
           end
  end.

(** [lookup] and [resolveLink].  [n] is the number of levels left, that is
    [maxLinkDepth + 1 - depth]: at 0 the depth exceeds the bound. *)
Fixpoint lookup_at (s : session) (n : nat) (abs : str) (followFinal : bool) : res node :=
  match n with
  | O => Err ErrNotExist
  | S n' =>
      let abs := cleanAbs abs in
      if isDeleted s abs then Err ErrNotExist
      else if abs =s [slash] then Ok (base s)
      else walk s (fun target => lookup_at s n' target true) followFinal [slash] (base s)
             (splitPath abs)
  end.
Definition lookup (s : session) (abs : str) (followFinal : bool) : res node :=
  lookup_at s (S maxLinkDepth) abs followFinal.

(** ** Reads *)

Definition Stat (s : session) (p : str) : res node := lookup s (Resolve s p) true.
Definition Lstat (s : session) (p : str) : res node := lookup s (Resolve s p) false.

Definition ReadFile (s : session) (p : str) : res str :=
  match lookup s (Resolve s p) true with
  | Err e => Err e
  | Ok n => if IsDir n then Err ErrIsDir else Ok (Content n)
  end.

Definition Exists (s : session) (p : str) : bool := is_ok (lookup s (Resolve s p) true).

(** Names in the order of [sort]. *)
Definition name_le (a b : node) : Prop := str_le (name a) (name b) = true.
#[export] Instance name_le_dec a b : Decision (name_le a b).
Proof. unfold name_le. apply _. Defined.

(** The merged directory view before tombstones and sorting. *)
Definition seen_entries (s : session) (abs : str) (nd : node) : gmap str node :=
  map_fold (fun op on seen => if parentDir op =s abs then <[baseName op := on]> seen else seen)
    (children nd) (overlay s).

Definition ReadDir (s : session) (p : str) : res (list node) :=
  let abs := Resolve s p in
  match lookup s abs true with
  | Err e => Err e
  | Ok nd =>
      if negb (IsDir nd) then Err ErrNotDir
      else
        let seen := seen_entries s abs nd in
        let out := map snd (List.filter (fun kv => negb (isDeleted s (path_join abs kv.1)))
                              (map_to_list seen)) in
        Ok (merge_sort name_le out)
  end.

(** ** Writes *)

Definition set_cwd (s : session) (d : str) : session :=
  Session (base s) (overlay s) (deleted s) d (nbytes s).

Definition Chdir (s : session) (p : str) : session * option err :=
  let abs := Resolve s p in
  match lookup s abs true with
  | Err e => (s, Some e)
  | Ok n => if IsDir n then (set_cwd s abs, None) else (s, Some ErrNotDir)
  end.

Definition new_file (abs body : str) (now : Z) : node :=
  Node (baseName abs) 420 0 0 $$"root" $$"root" now body [] false 0 ∅.
Definition new_dir (abs : str) (now : Z) : node :=
  Node (baseName abs) (Z.lor ModeDir 493) 0 0 $$"root" $$"root" now [] [] false 0 ∅.

(** Bytes an overlay entry accounts for. *)
Definition overlay_len (n : node) : Z := if IsDir n then 0 else zlen (content n).

Definition WriteFile (now g : Z) (s : session) (p body : str) : Z * session * option err :=
  let abs := Resolve s p in
  if abs =s [slash] then (g, s, Some ErrIsDir)
  else match lookup s (parentDir abs) true with
  | Err _ => (g, s, Some ErrNotExist)
  | Ok pn =>
      if negb (IsDir pn) then (g, s, Some ErrNotDir)
      else if match lookup s abs false with Ok e => IsDir e | Err _ => false end
      then (g, s, Some ErrIsDir)
      else if maxOverlayFileBytes <? zlen body then (g, s, Some ErrNoSpace)
      else
        let oldLen := from_option overlay_len 0 (overlay s !! abs) in
        if maxOverlayBytes <? nbytes s - oldLen + zlen body then (g, s, Some ErrNoSpace)
        else if bool_decide (overlay s !! abs = None) && (maxOverlayEntries <=? entries s)
        then (g, s, Some ErrNoSpace)
        else
          let '(g', ok) := reserveOverlay g (zlen body - oldLen) in
          if negb ok then (g', s, Some ErrNoSpace)
          else (g', Session (base s) (<[abs := new_file abs body now]> (overlay s))
                      (deleted s ∖ {[abs]}) (cwd s) (nbytes s - oldLen + zlen body), None)
  end.

Definition Mkdir (now g : Z) (s : session) (p : str) : Z * session * option err :=
  let abs := Resolve s p in
  if abs =s [slash] then (g, s, Some ErrExist)
  else match lookup s (parentDir abs) true with
  | Err _ => (g, s, Some ErrNotExist)
  | Ok pn =>
      if negb (IsDir pn) then (g, s, Some ErrNotDir)
      else if is_ok (lookup s abs false) then (g, s, Some ErrExist)
      else if bool_decide (abs ∉ deleted s) && (maxOverlayEntries <=? entries s)
      then (g, s, Some ErrNoSpace)
      else (g, Session (base s) (<[abs := new_dir abs now]> (overlay s))
                 (deleted s ∖ {[abs]}) (cwd s) (nbytes s), None)
  end.

Definition Remove (g : Z) (s : session) (p : str) : Z * session * option err :=
  let abs := Resolve s p in
  if abs =s [slash] then (g, s, Some ErrPermission)
  else match lookup s abs false with
  | Err e => (g, s, Some e)
  | Ok _ =>
      let freed := from_option overlay_len 0 (overlay s !! abs) in
      let g' := match overlay s !! abs with
                | Some prev => if IsDir prev then g else fst (reserveOverlay g (- freed))
                | None => g
                end in
      (g', Session (base s) (delete abs (overlay s)) ({[abs]} ∪ deleted s) (cwd s)
             (nbytes s - freed), None)
  end.

Definition Release (g : Z) (s : session) : Z * session :=
  if nbytes s =? 0 then (g, s)
  else (fst (reserveOverlay g (- nbytes s)),
        Session (base s) (overlay s) (deleted s) (cwd s) 0).
