(* ===== verification/VfsFacts.v ===== *)
(** * VfsFacts: how resolution behaves on canonical paths

    Resolution is described on component lists: a lookup of [cs ++ [c]] is a
    lookup of [cs] followed by one step ([lookup_at_snoc]), more levels never
    lose a result ([lookup_at_mono]), and a change of one overlay entry whose
    parent resolves leaves that parent's resolution alone
    ([lookup_parent_stable]). *)

From S2P Require Import Prelude GoStrings Paths VfsNode VfsSession.

(** ** Path helpers on canonical paths *)

Lemma cleanAbs_canonical p : canonical (cleanAbs p).
Proof.
  unfold cleanAbs. destruct (has_prefix p [slash]) eqn:E;
    (rewrite path_clean_rooted by done; apply canonical_abs_path, comps_of_good).
Qed.

Lemma cleanAbs_abs cs : Forall good_comp cs -> cleanAbs (abs_path cs) = abs_path cs.
Proof. intros Hg. unfold cleanAbs. by rewrite abs_path_prefix, path_clean_abs. Qed.

Lemma Resolve_canonical s p : canonical (cwd s) -> canonical (Resolve s p).
Proof. intros Hc. unfold Resolve. destruct p; [done | apply cleanAbs_canonical]. Qed.

Lemma Resolve_abs s cs : Forall good_comp cs -> Resolve s (abs_path cs) = abs_path cs.
Proof. intros Hg. unfold Resolve. simpl. by apply cleanAbs_abs. Qed.

Lemma drop_while_none f (s : str) : Forall (fun c => f c = false) (take 1 s) -> drop_while f s = s.
Proof. destruct s as [| x s]; [done |]. simpl. intros H. inversion_clear H. by rewrite H0. Qed.

Lemma splitPath_abs cs : Forall good_comp cs -> splitPath (abs_path cs) = cs.
Proof.
  intros Hg. unfold splitPath, trim, abs_path, trim_left. simpl drop_while.
  replace (in_set [slash] slash) with true by done.
  destruct cs as [| c cs]; [done |].
  set (t := join [slash] (c :: cs)).
  assert (Hs : split_byte slash t = c :: cs).
  { apply split_join; [done | by apply good_no_slash]. }
  assert (Hl : forall x u, t = x :: u -> in_set [slash] x = false).
  { intros x u Et. apply bool_decide_eq_false. intros Hx%list_elem_of_singleton. subst x.
    rewrite Et in Hs. simpl in Hs. injection Hs as Hc _.
    apply Forall_cons in Hg as [[? _] _]. congruence. }
  assert (Hr : forall x u, t = u ++ [x] -> in_set [slash] x = false).
  { intros x u Et. apply bool_decide_eq_false. intros Hx%list_elem_of_singleton. subst x.
    rewrite Et, split_byte_sep in Hs.
    assert ([] ∈ c :: cs) as Hin by (rewrite <- Hs; apply elem_of_app; right; by left).
    rewrite Forall_forall in Hg. by destruct (Hg [] Hin). }
  rewrite (drop_while_id _ t Hl). unfold trim_right. rewrite (trim_right_fn_id _ t Hr).
  clear Hl Hr. clearbody t. destruct t; [| done].
  simpl in Hs. injection Hs as <- _. apply Forall_cons in Hg as [[? _] _]. done.
Qed.

Lemma parentDir_snoc cs c :
  Forall good_comp cs -> good_comp c -> parentDir (abs_path (cs ++ [c])) = abs_path cs.
Proof. apply path_dir_snoc. Qed.

Lemma baseName_snoc cs c : good_comp c -> baseName (abs_path (cs ++ [c])) = c.
Proof. apply path_base_snoc. Qed.

Lemma good_snoc cs c : Forall good_comp (cs ++ [c]) -> Forall good_comp cs /\ good_comp c.
Proof. rewrite Forall_app, Forall_singleton. done. Qed.

Lemma abs_path_snoc_root cs c : Forall good_comp (cs ++ [c]) -> abs_path (cs ++ [c]) <> [slash].
Proof.
  intros Hg E. apply (abs_path_inj (cs ++ [c]) [] Hg) in E; [| constructor].
  by destruct cs.
Qed.

Lemma abs_path_eqb_root cs c : Forall good_comp (cs ++ [c]) -> (abs_path (cs ++ [c]) =s [slash]) = false.
Proof. intros. apply seqb_neq. by apply abs_path_snoc_root. Qed.

(** ** Tombstones *)

Lemma length_abs_path cs : Forall good_comp cs -> (length cs < length (abs_path cs))%nat.
Proof.
  intros Hg. unfold abs_path. cbn [length]. apply le_n_S.
  induction Hg as [| c cs [Hc _] Hg IH]; [done |].
  assert (1 <= length c)%nat by (destruct c; simpl; [done | lia]).
  destruct (decide (cs = [])) as [-> | Hn]; [cbn; lia |].
  rewrite join_cons by done. rewrite !length_app. cbn [length]. lia.
Qed.

Lemma isDeleted_from_spec fuel del cs :
  Forall good_comp cs -> (length cs < fuel)%nat ->
  exists b, isDeleted_from fuel del (abs_path cs) = Some b /\
    (b = true <-> exists pre suf, cs = pre ++ suf /\ abs_path pre ∈ del).
Proof.
  revert fuel. induction cs as [| c cs IH] using rev_ind; intros fuel Hg Hf.
  - destruct fuel as [| f]; [simpl in Hf; lia |]. simpl.
    case_bool_decide as Hd; eexists; (split; [done |]).
    + split; [| done]. intros _. by exists [], [].
    + split; [done |]. intros (pre & suf & E & Hp).
      symmetry in E. apply app_nil in E as [-> _]. done.
  - destruct fuel as [| f]; [rewrite length_app in Hf; simpl in Hf; lia |]. simpl.
    apply good_snoc in Hg as Hg'. destruct Hg' as [Hcs Hc].
    case_bool_decide as Hd.
    { eexists; (split; [done |]). split; [| done]. intros _. exists (cs ++ [c]), [].
      by rewrite app_nil_r. }
    rewrite abs_path_eqb_root, parentDir_snoc by done.
    destruct (IH f Hcs) as (b & E & Hb); [rewrite length_app in Hf; simpl in Hf; lia |].
    exists b. split; [done |]. rewrite Hb. split.
    + intros (pre & suf & -> & Hp). exists pre, (suf ++ [c]). by rewrite app_assoc.
    + intros (pre & suf & E' & Hp).
      destruct suf as [| x suf _] using rev_ind.
      { rewrite app_nil_r in E'. by subst pre. }
      rewrite app_assoc in E'. apply app_inj_tail in E' as [-> ->]. by exists pre, suf.
Qed.

Lemma isDeleted_iff s cs :
  Forall good_comp cs ->
  isDeleted s (abs_path cs) = true <->
  exists pre suf, cs = pre ++ suf /\ abs_path pre ∈ deleted s.
Proof.
  intros Hg. unfold isDeleted.
  destruct (isDeleted_from_spec (S (length (abs_path cs))) (deleted s) cs Hg) as (b & -> & Hb);
    [pose proof (length_abs_path cs Hg); lia |].
  exact Hb.
Qed.

Lemma isDeleted_app s cs ds :
  Forall good_comp (cs ++ ds) ->
  isDeleted s (abs_path cs) = true -> isDeleted s (abs_path (cs ++ ds)) = true.
Proof.
  intros Hg. apply Forall_app in Hg as Hg'. destruct Hg' as [Hcs _].
  rewrite !isDeleted_iff by done.
  intros (pre & suf & -> & Hp). exists pre, (suf ++ ds). by rewrite <- app_assoc.
Qed.

Lemma isDeleted_snoc s cs c :
  Forall good_comp (cs ++ [c]) ->
  isDeleted s (abs_path (cs ++ [c])) =
  isDeleted s (abs_path cs) || bool_decide (abs_path (cs ++ [c]) ∈ deleted s).
Proof.
  intros Hg. apply good_snoc in Hg as Hg'. destruct Hg' as [Hcs Hc].
  apply Bool.eq_iff_eq_true. rewrite orb_true_iff, bool_decide_eq_true, !isDeleted_iff by done.
  split.
  - intros (pre & suf & E & Hp). destruct suf as [| x suf _] using rev_ind.
    { rewrite app_nil_r in E. subst pre. by right. }
    rewrite app_assoc in E. apply app_inj_tail in E as [-> ->]. left. by exists pre, suf.
  - intros [(pre & suf & -> & Hp) | Hp].
    + exists pre, (suf ++ [c]). by rewrite app_assoc.
    + exists (cs ++ [c]), []. by rewrite app_nil_r.
Qed.

Lemma isDeleted_mono s s' cs :
  Forall good_comp cs -> deleted s' ⊆ deleted s ->
  isDeleted s (abs_path cs) = false -> isDeleted s' (abs_path cs) = false.
Proof.
  intros Hg Hsub. rewrite <- !not_true_iff_false, !isDeleted_iff by done.
  intros Hn (pre & suf & -> & Hp). apply Hn. exists pre, suf. set_solver.
Qed.

(** ** One step of resolution *)

(** What the directory node [nd] at path [cs] shows under the name [c], when
    nothing on the way is tombstoned. *)
Definition entry (s : session) (cs : list str) (c : str) (nd : node) : option node :=
  match overlay s !! abs_path (cs ++ [c]) with
  | Some ov => Some ov
  | None => childOf nd c
  end.

Lemma child_abs s cs c nd :
  Forall good_comp (cs ++ [c]) ->
  child s (abs_path cs) nd c =
  if isDeleted s (abs_path (cs ++ [c])) then None else entry s cs c nd.
Proof.
  intros [Hcs Hc]%good_snoc. unfold child, entry. by rewrite path_join_comp.
Qed.

Lemma lookup_at_abs s n cs ff :
  Forall good_comp cs ->
  lookup_at s (S n) (abs_path cs) ff =
  if isDeleted s (abs_path cs) then Err ErrNotExist
  else walk s (fun t => lookup_at s n t true) ff (abs_path []) (base s) cs.
Proof.
  intros Hg. simpl. rewrite cleanAbs_abs by done. case_match; [done |].
  destruct cs as [| c cs]; [done |].
  replace (abs_path (c :: cs) =s [slash]) with false.
  - by rewrite splitPath_abs.
  - symmetry. apply seqb_neq. intros E. by apply (abs_path_inj _ []) in E.
Qed.

Lemma walk_app s r ff pre nd cs c ds :
  Forall good_comp (pre ++ cs) ->
  walk s r ff (abs_path pre) nd (cs ++ c :: ds) =
  match walk s r true (abs_path pre) nd cs with
  | Err e => Err e
  | Ok nd' => walk s r ff (abs_path (pre ++ cs)) nd' (c :: ds)
  end.
Proof.
  revert pre nd. induction cs as [| x cs IH]; intros pre nd Hg.
  { by rewrite app_nil_r. }
  assert (Forall good_comp ((pre ++ [x]) ++ cs)) as Hg' by by rewrite <- app_assoc.
  assert (Hj : path_join (abs_path pre) x = abs_path (pre ++ [x])).
  { apply Forall_app in Hg' as [[? ?]%good_snoc _]. by apply path_join_comp. }
  specialize (IH (pre ++ [x])). rewrite <- app_assoc in IH. simpl in IH.
  simpl. destruct (negb (IsDir nd)); [done |].
  destruct (child s (abs_path pre) nd x) as [ch |]; [| done].
  rewrite orb_true_r, andb_true_r.
  replace (match cs ++ c :: ds with [] => true | _ => false end) with false by by destruct cs.
  simpl. rewrite andb_true_r, Hj.
  destruct (IsLink ch); [destruct (r _); [| done] |]; apply IH; by rewrite <- app_assoc in Hg'.
Qed.

(** A lookup of [cs ++ [c]] is a lookup of [cs] and one step. *)
Lemma lookup_at_snoc s n cs c ff :
  Forall good_comp (cs ++ [c]) ->
  lookup_at s (S n) (abs_path (cs ++ [c])) ff =
  if isDeleted s (abs_path (cs ++ [c])) then Err ErrNotExist
  else match lookup_at s (S n) (abs_path cs) true with
       | Err e => Err e
       | Ok nd =>
           if negb (IsDir nd) then Err ErrNotDir
           else match entry s cs c nd with
                | None => Err ErrNotExist
                | Some ch =>
                    if IsLink ch && ff then lookup_at s n (link_target (abs_path cs) ch) true
                    else Ok ch
                end
       end.
Proof.
  intros Hg. apply good_snoc in Hg as Hg'. destruct Hg' as [Hcs Hc].
  rewrite !lookup_at_abs by done. destruct (isDeleted s (abs_path (cs ++ [c]))) eqn:Hd; [done |].
  replace (isDeleted s (abs_path cs)) with false
    by (rewrite isDeleted_snoc in Hd by done; by bool_hyps).
  rewrite walk_app by done. simpl app.
  destruct (walk _ _ _ _ _ cs) as [nd | e]; [| done].
  simpl. case_match; [done |]. rewrite child_abs, Hd by done.
  destruct (entry s cs c nd) as [ch |]; [| done]. simpl.
  destruct (IsLink ch && ff); [| done]. by destruct (lookup_at _ _ _ _).
Qed.

(** ** More levels never lose a result *)

Lemma walk_mono s (r r' : str -> res node) ff cur nd parts x :
  (forall t y, r t = Ok y -> r' t = Ok y) ->
  walk s r ff cur nd parts = Ok x -> walk s r' ff cur nd parts = Ok x.
Proof.
  intros Hr. revert cur nd. induction parts as [| p parts IH]; intros cur nd; simpl; [done |].
  case_match; [done |]. destruct (child _ _ _ _) as [c |]; [| done].
  destruct (_ && _); [| apply IH].
  destruct (r _) eqn:E; [| done]. rewrite (Hr _ _ E). apply IH.
Qed.

Lemma lookup_at_mono s n p ff x :
  lookup_at s n p ff = Ok x -> lookup_at s (S n) p ff = Ok x.
Proof.
  revert p ff x. induction n as [| n IH]; intros p ff x; [done |].
  change (lookup_at s (S (S n)) p ff) with
    (let abs := cleanAbs p in
     if isDeleted s abs then Err ErrNotExist
     else if abs =s [slash] then Ok (base s)
     else walk s (fun t => lookup_at s (S n) t true) ff [slash] (base s) (splitPath abs)).
  simpl lookup_at at 1. cbv zeta. case_match; [done |]. case_match; [done |].
  apply walk_mono. intros t y. apply IH.
Qed.

Lemma lookup_at_mono_le s n m p ff x :
  (n <= m)%nat -> lookup_at s n p ff = Ok x -> lookup_at s m p ff = Ok x.
Proof.
  induction 1 as [| m _ IH]; [done |]. intros H. by apply lookup_at_mono, IH.
Qed.

(** ** A change at one path does not disturb the resolution of its parent *)

Section stable.
Context (s s' : session) (cs : list str) (c : str).
Context (Hgood : Forall good_comp (cs ++ [c])).
Context (Hbase : base s' = base s).
Context (Hdel : deleted s' ⊆ deleted s).
Context (Hov : forall k, k <> abs_path (cs ++ [c]) -> overlay s' !! k = overlay s !! k).

Lemma child_stable pre nm nd x :
  Forall good_comp (pre ++ [nm]) -> pre ++ [nm] <> cs ++ [c] ->
  child s (abs_path pre) nd nm = Some x -> child s' (abs_path pre) nd nm = Some x.
Proof.
  intros Hg Hne. rewrite !child_abs by done. unfold entry.
  destruct (isDeleted s _) eqn:Hd; [done |].
  rewrite (isDeleted_mono s s') by done. rewrite Hov; [done |].
  intros E. by apply abs_path_inj in E.
Qed.

(** If no proper prefix walk reaches the changed entry, the walk is stable. *)
Lemma walk_stable (r r' : str -> res node) ff suf pre nd x :
  (forall t y, r t = Ok y -> r' t = Ok y) ->
  Forall good_comp (pre ++ suf) ->
  (forall p q, suf = p ++ q -> pre ++ p = cs -> q = [] \/
     forall y, walk s r true (abs_path pre) nd p <> Ok y) ->
  walk s r ff (abs_path pre) nd suf = Ok x -> walk s' r' ff (abs_path pre) nd suf = Ok x.
Proof.
  intros Hr. revert pre nd. induction suf as [| nm suf IH]; intros pre nd Hg Hmiss; [done |].
  assert (Forall good_comp ((pre ++ [nm]) ++ suf)) as Hg' by by rewrite <- app_assoc.
  apply Forall_app in Hg' as Hg''. destruct Hg'' as [Hpn _].
  assert (Hj : path_join (abs_path pre) nm = abs_path (pre ++ [nm])).
  { apply good_snoc in Hpn as [? ?]. by apply path_join_comp. }
  simpl. destruct (negb (IsDir nd)) eqn:Hdir; [done |].
  destruct (child s (abs_path pre) nd nm) as [ch |] eqn:Hch; [| done].
  assert (pre ++ [nm] <> cs ++ [c]) as Hne.
  { intros [-> ->]%app_inj_tail. destruct (Hmiss [] (c :: suf)) as [? | Hno];
      [done | by rewrite app_nil_r | done |]. by apply (Hno nd). }
  rewrite (child_stable _ _ _ _ Hpn Hne Hch), Hj.
  set (isF := match suf with [] => true | _ => false end).
  assert (Hnext : forall nd', (if IsLink ch then r (link_target (abs_path pre) ch) else Ok ch) = Ok nd'
                   \/ suf = [] ->
    walk s r ff (abs_path (pre ++ [nm])) nd' suf = Ok x ->
    walk s' r' ff (abs_path (pre ++ [nm])) nd' suf = Ok x).
  { intros nd' [Hstep | ->]; [| done]. apply IH; [done |].
    intros p q -> Hp. destruct (Hmiss (nm :: p) q) as [? | Hno]; [done | by rewrite <- Hp, <- app_assoc | by left |].
    right. intros y Hy. apply (Hno y). simpl. rewrite Hdir, Hch, Hj, orb_true_r, andb_true_r.
    destruct (IsLink ch); [by rewrite Hstep | by injection Hstep as ->]. }
  destruct (IsLink ch) eqn:Hl; simpl.
  - destruct (negb isF || ff) eqn:Hfollow.
    + destruct (r (link_target (abs_path pre) ch)) as [nd' |] eqn:Er; [| done].
      rewrite (Hr _ _ Er). apply Hnext. by left.
    + apply Hnext. right. subst isF. by destruct suf.
  - apply Hnext. by left.
Qed.

(** Below the first level at which the parent resolves, every successful
    lookup is stable. *)
Lemma lookup_below_stable n :
  (forall m y, (m <= n)%nat -> lookup_at s m (abs_path cs) true <> Ok y) ->
  forall q ff x, lookup_at s n q ff = Ok x -> lookup_at s' n q ff = Ok x.
Proof.
  induction n as [| n IH]; intros Hno q ff x; [done |].
  destruct (cleanAbs_canonical q) as (ds & Hds & Eq).
  assert (forall t, lookup_at t (S n) q ff = lookup_at t (S n) (abs_path ds) ff) as Hq.
  { intros t. simpl. by rewrite Eq, cleanAbs_abs. }
  rewrite !Hq, !lookup_at_abs by done.
  destruct (isDeleted s (abs_path ds)) eqn:Hd; [done |].
  rewrite (isDeleted_mono s s'), Hbase by done.
  apply walk_stable; [| done |].
  - intros t y. apply IH. intros m z Hm. apply Hno. lia.
  - intros p k -> Hp. simpl in Hp. subst p. right. intros y Hy.
    apply (Hno (S n) y); [done |]. apply Forall_app in Hds as Hds'. destruct Hds' as [Hcs _].
    rewrite lookup_at_abs by done. destruct (isDeleted s (abs_path cs)) eqn:Hd'; [| done].
    by rewrite (isDeleted_app s cs k Hds Hd') in Hd.
Qed.

Lemma lookup_parent_stable n x :
  lookup_at s n (abs_path cs) true = Ok x -> lookup_at s' n (abs_path cs) true = Ok x.
Proof.
  apply good_snoc in Hgood as Hg. destruct Hg as [Hcs _].
  induction n as [n IHn] using lt_wf_ind. intros Hn.
  destruct (existsb (fun m => is_ok (lookup_at s m (abs_path cs) true)) (seq 0 n)) eqn:Hex.
  - apply existsb_exists in Hex as (m & Hm & Hok). apply in_seq in Hm.
    destruct (lookup_at s m (abs_path cs) true) as [y |] eqn:Hy; [| done].
    assert (lookup_at s n (abs_path cs) true = Ok y) as E
      by (eapply lookup_at_mono_le; [| exact Hy]; lia).
    rewrite Hn in E. injection E as <-.
    apply (lookup_at_mono_le _ m); [lia |]. apply IHn; [lia | done].
  - destruct n as [| n]; [done |].
    revert Hn. rewrite !lookup_at_abs by done.
    destruct (isDeleted s (abs_path cs)) eqn:Hd; [done |].
    rewrite (isDeleted_mono s s'), Hbase by done.
    apply walk_stable; [| done |].
    + intros t y. apply lookup_below_stable. intros m z Hm Hz. rewrite <- not_true_iff_false in Hex. apply Hex, existsb_exists.
      exists m. rewrite Hz. split; [apply in_seq; lia | done].
    + intros p q Hpq Hp. simpl in Hp. subst p. left.
      apply (f_equal length) in Hpq. rewrite length_app in Hpq.
      destruct q; [done | simpl in Hpq; lia].
Qed.
End stable.
