(* ===== verification/VfsSpec.v ===== *)
(** * VfsSpec: what a session promises

    The well-formedness invariant of a session and its preservation, the memory
    budgets per session and across sessions, and the functional behaviour of the
    mutating operations. *)

From S2P Require Import Prelude GoStrings Paths VfsNode VfsSession VfsFacts.

(** ** The invariant *)

(** An overlay entry sits at a cleaned path below the root, carries that path's
    base name, is no symlink, and is within the per-file limit. *)
Definition entry_ok (k : str) (n : node) : Prop :=
  exists cs c, Forall good_comp (cs ++ [c]) /\ k = abs_path (cs ++ [c]) /\
    name n = c /\ IsLink n = false /\ zlen (content n) <= maxOverlayFileBytes /\
    children n = ∅.

Record wf (s : session) : Prop := {
  wf_cwd : canonical (cwd s);
  wf_overlay : forall k n, overlay s !! k = Some n -> entry_ok k n;
  wf_deleted : forall k, k ∈ deleted s -> canonical k /\ k <> [slash] /\ overlay s !! k = None;
  wf_bytes : nbytes s = map_sum overlay_len (overlay s);
  wf_budget : nbytes s <= maxOverlayBytes
}.

(** The mutating operations of a session. *)
Inductive op : Type :=
| OpWrite (p body : str) | OpMkdir (p : str) | OpRemove (p : str) | OpChdir (p : str).

Definition exec (now g : Z) (s : session) (o : op) : Z * session * option err :=
  match o with
  | OpWrite p body => WriteFile now g s p body
  | OpMkdir p => Mkdir now g s p
  | OpRemove p => Remove g s p
  | OpChdir p => let '(s', e) := Chdir s p in (g, s', e)
  end.

Lemma overlay_len_nonneg n : 0 <= overlay_len n.
Proof. unfold overlay_len. case_match; [done | apply zlen_nonneg]. Qed.

(** ** Shape of a target path *)

Lemma target_snoc s p :
  wf s -> (Resolve s p =s [slash]) = false ->
  exists cs c, Forall good_comp (cs ++ [c]) /\ Resolve s p = abs_path (cs ++ [c]).
Proof.
  intros Hwf Hr. destruct (Resolve_canonical s p (wf_cwd s Hwf)) as (ds & Hg & E).
  destruct ds as [| c cs _] using rev_ind; [| by exists cs, c].
  rewrite E in Hr. done.
Qed.

(** When the parent directory resolves, the only thing hiding an overlay entry
    is its own tombstone. *)
Lemma lookup_overlay s cs c pn n ff :
  Forall good_comp (cs ++ [c]) ->
  lookup s (abs_path cs) true = Ok pn -> IsDir pn = true ->
  overlay s !! abs_path (cs ++ [c]) = Some n -> IsLink n = false ->
  abs_path (cs ++ [c]) ∉ deleted s ->
  lookup s (abs_path (cs ++ [c])) ff = Ok n.
Proof.
  intros Hg Hp Hdir Hov Hl Hnd. unfold lookup in *.
  apply good_snoc in Hg as Hg'. destruct Hg' as [Hcs Hc].
  rewrite lookup_at_snoc, isDeleted_snoc, Hp, Hdir by done.
  unfold entry. rewrite Hov, Hl, bool_decide_eq_false_2, orb_false_r by done. simpl.
  destruct (isDeleted s (abs_path cs)) eqn:Hd; [| done].
  rewrite lookup_at_abs, Hd in Hp by done. done.
Qed.

Lemma entry_ok_file cs c body now :
  Forall good_comp (cs ++ [c]) -> zlen body <= maxOverlayFileBytes ->
  entry_ok (abs_path (cs ++ [c])) (new_file (abs_path (cs ++ [c])) body now).
Proof.
  intros Hg Hb. exists cs, c. apply good_snoc in Hg as Hg'. destruct Hg' as [_ Hc].
  simpl. by rewrite baseName_snoc.
Qed.

Lemma entry_ok_dir cs c now :
  Forall good_comp (cs ++ [c]) ->
  entry_ok (abs_path (cs ++ [c])) (new_dir (abs_path (cs ++ [c])) now).
Proof.
  intros Hg. exists cs, c. apply good_snoc in Hg as Hg'. destruct Hg' as [_ Hc].
  simpl. by rewrite baseName_snoc.
Qed.

(** Inserting a well-formed entry keeps the invariant when the byte count is
    adjusted. *)
Lemma wf_insert s k n b :
  wf s -> entry_ok k n ->
  b = nbytes s - from_option overlay_len 0 (overlay s !! k) + overlay_len n ->
  b <= maxOverlayBytes ->
  wf (Session (base s) (<[k := n]> (overlay s)) (deleted s ∖ {[k]}) (cwd s) b).
Proof.
  intros [Hc Ho Hd Hb Hbud] Hk -> Hmax. split; simpl; [done | | | | done].
  - intros k' n'. rewrite lookup_insert_Some. intros [[<- <-] | [_ ?]]; [done | by apply Ho].
  - intros k' [Hin Hne]%elem_of_difference. destruct (Hd k' Hin) as (? & ? & ?).
    rewrite lookup_insert_ne; [done | set_solver].
  - by rewrite map_sum_insert, Hb.
Qed.

(** ** Preservation *)

(** Close the branches that return the session as it was. *)
Ltac unchanged := intros; simplify_eq; split_and!; (done || lia).

Lemma WriteFile_wf now g s p body g' s' e :
  wf s -> WriteFile now g s p body = (g', s', e) ->
  wf s' /\ g' - g = nbytes s' - nbytes s /\ (g <= maxGlobalOverlayBytes -> g' <= maxGlobalOverlayBytes).
Proof.
  intros Hwf. unfold WriteFile. destruct (_ =s _) eqn:Hr; [unchanged |].
  destruct (target_snoc s p Hwf Hr) as (cs & c & Hg & E). rewrite E.
  destruct (lookup s (parentDir _) true) as [pn |]; [| unchanged].
  destruct (negb (IsDir pn)); [unchanged |].
  destruct (match lookup s (abs_path _) false with Ok e => IsDir e | Err _ => false end);
    [unchanged |].
  destruct (maxOverlayFileBytes <? zlen body) eqn:Hfile; [unchanged |].
  set (old := from_option overlay_len 0 (overlay s !! _)).
  destruct (maxOverlayBytes <? _) eqn:Hbud; [unchanged |].
  destruct (bool_decide _ && _); [unchanged |].
  destruct (reserveOverlay g (zlen body - old)) as [g1 ok] eqn:Hres.
  unfold reserveOverlay in Hres. bool_hyps.
  assert (Hg1 : ok = true /\ g1 = g + (zlen body - old) /\ (g <= maxGlobalOverlayBytes -> g1 <= maxGlobalOverlayBytes)
          \/ ok = false /\ g1 = g).
  { destruct (_ <=? _) eqn:?; [| destruct (_ <? _) eqn:?]; simplify_eq; bool_hyps; [left | right | left]; lia. }
  destruct Hg1 as [(-> & -> & Hle) | [-> ->]]; simpl; intros; simplify_eq; [| split_and!; (done || lia)].
  split; [| simpl; split; [lia | done]].
  apply (wf_insert s); [done | by apply entry_ok_file | done | done].
Qed.

Lemma Mkdir_wf now g s p g' s' e :
  wf s -> Mkdir now g s p = (g', s', e) -> wf s' /\ g' = g /\ nbytes s' = nbytes s.
Proof.
  intros Hwf. unfold Mkdir. destruct (_ =s _) eqn:Hr; [unchanged |].
  destruct (target_snoc s p Hwf Hr) as (cs & c & Hg & E). rewrite E.
  apply good_snoc in Hg as Hg'. destruct Hg' as [Hcs Hc]. rewrite parentDir_snoc by done.
  destruct (lookup s _ true) as [pn |] eqn:Hp; [| unchanged].
  destruct (negb _) eqn:Hdir; [unchanged |].
  destruct (is_ok _) eqn:Hex; [unchanged |].
  destruct (bool_decide _ && _); [unchanged |]. intros; simplify_eq.
  split; [| done]. apply (wf_insert s); [done | by apply entry_ok_dir | | apply Hwf].
  destruct (overlay s !! abs_path (cs ++ [c])) as [n |] eqn:Hov;
    unfold overlay_len; simpl; [| lia].
  exfalso. bool_hyps. destruct (wf_overlay s Hwf _ _ Hov) as (_ & _ & _ & _ & _ & Hl & _ & _).
  rewrite (lookup_overlay s cs c pn n) in Hex; try done.
  intros Hin. destruct (wf_deleted s Hwf _ Hin) as (_ & _ & ?). congruence.
Qed.

Lemma Remove_wf g s p g' s' e :
  wf s -> Remove g s p = (g', s', e) ->
  wf s' /\ g' - g = nbytes s' - nbytes s /\ g' <= g.
Proof.
  intros Hwf. unfold Remove. destruct (_ =s _) eqn:Hr; [unchanged |].
  destruct (target_snoc s p Hwf Hr) as (cs & c & Hg & E). rewrite E.
  destruct (lookup s _ false); [| unchanged].
  set (k := abs_path (cs ++ [c])). set (old := from_option overlay_len 0 (overlay s !! k)).
  intros; simplify_eq.
  assert (0 <= old) by (subst old; destruct (overlay s !! k); simpl; [apply overlay_len_nonneg | lia]).
  assert (Hg' : match overlay s !! k with
                | Some prev => if IsDir prev then g else fst (reserveOverlay g (- old))
                | None => g end = g - old).
  { subst old. destruct (overlay s !! k) as [prev |]; simpl in *; [| lia].
    unfold overlay_len in *. destruct (IsDir prev); [lia |].
    unfold reserveOverlay. replace (_ <=? 0) with true by (symmetry; apply Z.leb_le; lia). simpl. lia. }
  rewrite Hg'. simpl. split_and!; [| lia | lia].
  destruct Hwf as [Hc Ho Hd Hb Hbud]. split; simpl; [done | | | | lia].
  - intros k' n'. rewrite lookup_delete_Some. intros [_ ?]. by apply Ho.
  - intros k' [-> %elem_of_singleton | Hin]%elem_of_union.
    + split_and!; [by apply canonical_abs_path | by apply abs_path_snoc_root | apply lookup_delete_eq].
    + destruct (Hd k' Hin) as (? & ? & Hn). by rewrite lookup_delete_None; auto.
  - by rewrite map_sum_delete, Hb.
Qed.

Lemma Chdir_wf s p s' e : wf s -> Chdir s p = (s', e) -> wf s' /\ nbytes s' = nbytes s.
Proof.
  intros Hwf. unfold Chdir. destruct (lookup s _ _) as [n |]; [destruct (IsDir n) |];
    intros; simplify_eq; try done.
  split; [| done]. destruct Hwf as [Hc Ho Hd Hb Hbud]. split; simpl; try done.
  by apply Resolve_canonical.
Qed.

Lemma exec_wf now g s o g' s' e :
  wf s -> exec now g s o = (g', s', e) -> wf s'.
Proof.
  intros Hwf. destruct o as [p body | p | p | p]; simpl; intros H.
  - by eapply WriteFile_wf.
  - by eapply Mkdir_wf.
  - by eapply Remove_wf.
  - destruct (Chdir s p) as [s1 e1] eqn:E. simplify_eq. by eapply Chdir_wf.
Qed.

(** every mutating operation of a session keeps the invariant: keys stay
    cleaned paths carrying their entry's name, tombstones and entries stay
    disjoint, the byte counter stays the exact sum of the overlay's file sizes
    and within 8 MiB. *)
Theorem exec_preserves_wf now g s o g' s' e :
  wf s -> exec now g s o = (g', s', e) -> wf s'.
Proof. apply exec_wf. Qed.

(** The counter moves with the session's own count, and only up to the ceiling. *)
Lemma exec_counter now g s o g' s' e :
  wf s -> exec now g s o = (g', s', e) ->
  g' - g = nbytes s' - nbytes s /\ (g <= maxGlobalOverlayBytes -> g' <= maxGlobalOverlayBytes).
Proof.
  intros Hwf. destruct o as [p body | p | p | p]; simpl; intros H.
  - by eapply WriteFile_wf in H as (_ & ? & ?).
  - eapply Mkdir_wf in H as (_ & -> & ->); [| done]. lia.
  - eapply Remove_wf in H as (_ & ? & ?); [| done]. lia.
  - destruct (Chdir s p) as [s1 e1] eqn:E. simplify_eq.
    eapply Chdir_wf in E as [_ ->]; [| done]. lia.
Qed.

Lemma wf_nbytes_nonneg s : wf s -> 0 <= nbytes s.
Proof. intros Hwf. rewrite (wf_bytes s Hwf). apply map_sum_nonneg, overlay_len_nonneg. Qed.

Lemma NewSession_wf f wd : wf (NewSession f wd).
Proof. split; simpl; [apply cleanAbs_canonical | done | done | done | done]. Qed.

(** ** Reads after writes *)

Lemma WriteFile_ok now g s p body g' s' :
  wf s -> WriteFile now g s p body = (g', s', None) ->
  exists cs c pn, Forall good_comp (cs ++ [c]) /\ Resolve s p = abs_path (cs ++ [c]) /\
    lookup s (abs_path cs) true = Ok pn /\ IsDir pn = true /\
    s' = Session (base s) (<[abs_path (cs ++ [c]) := new_file (abs_path (cs ++ [c])) body now]> (overlay s))
           (deleted s ∖ {[abs_path (cs ++ [c])]}) (cwd s)
           (nbytes s - from_option overlay_len 0 (overlay s !! abs_path (cs ++ [c])) + zlen body) /\
    (overlay s !! abs_path (cs ++ [c]) = None -> entries s < maxOverlayEntries).
Proof.
  intros Hwf. unfold WriteFile. destruct (_ =s _) eqn:Hr; [done |].
  destruct (target_snoc s p Hwf Hr) as (cs & c & Hg & E). rewrite E.
  apply good_snoc in Hg as Hg'. destruct Hg' as [Hcs Hc]. rewrite parentDir_snoc by done.
  destruct (lookup s (abs_path cs) true) as [pn |] eqn:Hp; [| done].
  destruct (negb (IsDir pn)) eqn:Hdir; [done |].
  destruct (match lookup s (abs_path _) false with Ok e => IsDir e | Err _ => false end); [done |].
  destruct (maxOverlayFileBytes <? zlen body); [done |].
  destruct (maxOverlayBytes <? _); [done |].
  destruct (bool_decide _ && _) eqn:He; [done |].
  destruct (reserveOverlay _ _) as [g1 ok]. destruct ok; simpl; [| done].
  intros; simplify_eq. bool_hyps. exists cs, c, pn. split_and!; try done.
  intros Hn. rewrite bool_decide_eq_true_2 in He by done. simpl in He. by bool_hyps.
Qed.

Lemma Mkdir_ok now g s p g' s' :
  wf s -> Mkdir now g s p = (g', s', None) ->
  exists cs c pn, Forall good_comp (cs ++ [c]) /\ Resolve s p = abs_path (cs ++ [c]) /\
    lookup s (abs_path cs) true = Ok pn /\ IsDir pn = true /\ g' = g /\
    s' = Session (base s) (<[abs_path (cs ++ [c]) := new_dir (abs_path (cs ++ [c])) now]> (overlay s))
           (deleted s ∖ {[abs_path (cs ++ [c])]}) (cwd s) (nbytes s) /\
    (abs_path (cs ++ [c]) ∉ deleted s -> entries s < maxOverlayEntries).
Proof.
  intros Hwf. unfold Mkdir. destruct (_ =s _) eqn:Hr; [done |].
  destruct (target_snoc s p Hwf Hr) as (cs & c & Hg & E). rewrite E.
  apply good_snoc in Hg as Hg'. destruct Hg' as [Hcs Hc]. rewrite parentDir_snoc by done.
  destruct (lookup s (abs_path cs) true) as [pn |] eqn:Hp; [| done].
  destruct (negb (IsDir pn)) eqn:Hdir; [done |].
  destruct (is_ok _); [done |].
  destruct (bool_decide _ && _) eqn:He; [done |].
  intros; simplify_eq. bool_hyps. exists cs, c, pn. split_and!; try done.
  intros Hn. rewrite bool_decide_eq_true_2 in He by done. simpl in He. by bool_hyps.
Qed.

(** The entry just written is what a lookup of its path returns. *)
Lemma lookup_written s k n b cs c pn ff :
  Forall good_comp (cs ++ [c]) -> k = abs_path (cs ++ [c]) ->
  lookup s (abs_path cs) true = Ok pn -> IsDir pn = true -> IsLink n = false ->
  lookup (Session (base s) (<[k := n]> (overlay s)) (deleted s ∖ {[k]}) (cwd s) b) k ff = Ok n.
Proof.
  intros Hg -> Hp Hdir Hl. apply (lookup_overlay _ _ _ pn); simpl; try done.
  - unfold lookup in *. apply (lookup_parent_stable s _ cs c); simpl; try done; [set_solver |].
    intros k' Hk. by rewrite lookup_insert_ne.
  - apply lookup_insert_eq.
  - set_solver.
Qed.

(** C32: a file that was written successfully reads back with exactly the bytes
    written, whatever symlinks its path goes through. *)
Theorem write_then_read now g s p body g' s' :
  wf s -> WriteFile now g s p body = (g', s', None) -> ReadFile s' p = Ok body.
Proof.
  intros Hwf (cs & c & pn & Hg & E & Hp & Hdir & -> & _)%WriteFile_ok; [| done].
  unfold ReadFile. replace (Resolve (Session _ _ _ _ _) p) with (Resolve s p) by done.
  rewrite E, (lookup_written s _ _ _ cs c pn) by done. done.
Qed.

(** a directory that was created can be entered: the change of directory
    succeeds and lands on the created path. *)
Theorem mkdir_then_chdir now g s p g' s' :
  wf s -> Mkdir now g s p = (g', s', None) -> Chdir s' p = (set_cwd s' (Resolve s p), None).
Proof.
  intros Hwf (cs & c & pn & Hg & E & Hp & Hdir & _ & -> & _)%Mkdir_ok; [| done].
  unfold Chdir. replace (Resolve (Session _ _ _ _ _) p) with (Resolve s p) by done.
  rewrite E, (lookup_written s _ _ _ cs c pn) by done. done.
Qed.

Lemma Remove_ok g s p g' s' :
  wf s -> Remove g s p = (g', s', None) ->
  exists cs c, Forall good_comp (cs ++ [c]) /\ Resolve s p = abs_path (cs ++ [c]) /\
    overlay s' = delete (abs_path (cs ++ [c])) (overlay s) /\
    deleted s' = {[abs_path (cs ++ [c])]} ∪ deleted s /\ cwd s' = cwd s /\ base s' = base s.
Proof.
  intros Hwf. unfold Remove. destruct (_ =s _) eqn:Hr; [done |].
  destruct (target_snoc s p Hwf Hr) as (cs & c & Hg & E). rewrite E.
  destruct (lookup s _ false); [| done]. intros; simplify_eq. by exists cs, c.
Qed.

(** after a successful removal neither the path nor anything below it
    resolves any more. *)
Theorem removed_is_gone g s p g' s' cs ds ff :
  wf s -> Remove g s p = (g', s', None) ->
  Resolve s p = abs_path cs -> Forall good_comp (cs ++ ds) ->
  lookup s' (abs_path (cs ++ ds)) ff = Err ErrNotExist.
Proof.
  intros Hwf (cs' & c & Hg & E & _ & Hdel & _)%Remove_ok Er Hds; [| done].
  rewrite E in Er. apply abs_path_inj in Er; [subst cs | done | by apply Forall_app in Hds as []].
  unfold lookup. rewrite lookup_at_abs by done.
  replace (isDeleted s' _) with true; [done |]. symmetry.
  apply isDeleted_app; [done |]. apply isDeleted_iff; [done |].
  exists (cs' ++ [c]), []. rewrite app_nil_r, Hdel. set_solver.
Qed.

(** removing a directory and creating it again brings back the files the
    session had put into it: their overlay entries survive the removal and the
    new directory lifts the only tombstone above them. *)
Theorem removed_directory_comes_back_full now g s d x f g1 s1 g2 s2 :
  wf s -> Forall good_comp (d ++ [x]) ->
  overlay s !! abs_path (d ++ [x]) = Some f -> abs_path (d ++ [x]) ∉ deleted s ->
  Remove g s (abs_path d) = (g1, s1, None) ->
  Mkdir now g1 s1 (abs_path d) = (g2, s2, None) ->
  lookup s2 (abs_path (d ++ [x])) false = Ok f.
Proof.
  intros Hwf Hg Hov Hnd Hrm Hmk. apply good_snoc in Hg as Hg'. destruct Hg' as [Hd Hx].
  assert (Hwf1 : wf s1) by by eapply Remove_wf.
  apply Remove_ok in Hrm as (cs & c & Hgc & E & Hov1 & Hdel1 & Hcwd & Hb); [| done].
  rewrite Resolve_abs in E by done. apply abs_path_inj in E; [subst d | done..].
  apply Mkdir_ok in Hmk as (cs' & c' & pn & Hg1 & E1 & Hp & Hdir & _ & -> & _); [| done].
  rewrite Resolve_abs in E1 by done.
  apply abs_path_inj in E1 as [-> ->]%app_inj_tail; [| done..].
  set (k := abs_path (cs' ++ [c'])).
  assert (k <> abs_path ((cs' ++ [c']) ++ [x])) as Hne.
  { intros Ek. apply abs_path_inj in Ek; [| done..].
    apply (f_equal length) in Ek. rewrite !length_app in Ek. simpl in Ek. lia. }
  destruct (wf_overlay s Hwf _ _ Hov) as (_ & _ & _ & _ & _ & Hl & _ & _).
  apply (lookup_overlay _ _ _ (new_dir k now)); simpl; try done.
  - by apply (lookup_written s1 _ _ _ cs' c' pn).
  - rewrite lookup_insert_ne, Hov1, lookup_delete_ne by done. done.
  - rewrite Hdel1. set_solver.
Qed.

(** * Witnesses *)

(** A host with [/tmp] and [/etc/passwd]. *)
Definition demo_dir (nm : str) (cs : gmap str node) : node :=
  Node nm (Z.lor ModeDir 493) 0 0 $$"root" $$"root" 0 [] [] false 0 cs.
Definition demo_file (nm body : str) : node :=
  Node nm 420 0 0 $$"root" $$"root" 0 body [] false 0 ∅.
Definition demo_root : node :=
  demo_dir [slash] (<[$$"tmp" := demo_dir $$"tmp" ∅]>
    (<[$$"etc" := demo_dir $$"etc" {[$$"passwd" := demo_file $$"passwd" $$"root:x:0:0"]}]> ∅)).
Definition demo : session := NewSession demo_root $$"/tmp".
Definition after (r : Z * session * option err) : session := r.1.2.

Lemma demo_wf : wf demo.
Proof. apply NewSession_wf. Qed.

Lemma exec_preserves_wf_witness : wf (after (exec 5 0 demo (OpWrite $$"x" $$"payload"))).
Proof.
  apply (exec_preserves_wf 5 0 demo (OpWrite $$"x" $$"payload") 7
    (after (exec 5 0 demo (OpWrite $$"x" $$"payload"))) None); [apply demo_wf | by vm_compute].
Defined.

Lemma write_then_read_witness :
  ReadFile (after (WriteFile 5 0 demo $$"../etc/passwd" $$"owned")) $$"../etc/passwd" = Ok $$"owned".
Proof.
  apply (write_then_read 5 0 demo $$"../etc/passwd" $$"owned" 5
    (after (WriteFile 5 0 demo $$"../etc/passwd" $$"owned"))); [apply demo_wf | by vm_compute].
Defined.

Lemma mkdir_then_chdir_witness :
  let s' := after (Mkdir 5 0 demo $$".x") in Chdir s' $$".x" = (set_cwd s' $$"/tmp/.x", None).
Proof.
  apply (mkdir_then_chdir 5 0 demo $$".x" 0 (after (Mkdir 5 0 demo $$".x")));
    [apply demo_wf | by vm_compute].
Defined.

Lemma removed_is_gone_witness :
  lookup (after (Remove 0 demo $$"/etc")) $$"/etc/passwd" true = Err ErrNotExist.
Proof.
  apply (removed_is_gone 0 demo $$"/etc" 0 (after (Remove 0 demo $$"/etc")) [$$"etc"] [$$"passwd"]);
    [apply demo_wf | by vm_compute | by vm_compute |].
  by apply (bool_decide_unpack _); vm_compute.
Defined.

Lemma removed_directory_comes_back_full_witness :
  let s1 := after (Mkdir 5 0 demo $$"/tmp/d") in
  let s2 := after (WriteFile 5 0 s1 $$"/tmp/d/f" $$"data") in
  let s3 := after (Remove 4 s2 $$"/tmp/d") in
  let s4 := after (Mkdir 6 4 s3 $$"/tmp/d") in
  lookup s4 $$"/tmp/d/f" false = Ok (new_file $$"/tmp/d/f" $$"data" 5).
Proof.
  intros s1 s2 s3 s4.
  apply (removed_directory_comes_back_full 6 4 s2 [$$"tmp"; $$"d"] $$"f"
    (new_file $$"/tmp/d/f" $$"data" 5) 4 s3 4 s4).
  - apply (exec_wf 5 0 s1 (OpWrite $$"/tmp/d/f" $$"data") 4 s2 None); [| by vm_compute].
    apply (exec_wf 5 0 demo (OpMkdir $$"/tmp/d") 0 s1 None); [apply demo_wf | by vm_compute].
  - by apply (bool_decide_unpack _); vm_compute.
  - by vm_compute.
  - by apply (bool_decide_unpack _); vm_compute.
  - by vm_compute.
  - by vm_compute.
Defined.
