(* ===== verification/VfsCoherence.v ===== *)
(** * VfsCoherence: listings agree with lookups

    [ReadDir] merges the base children with the overlay and hides tombstones;
    [Lstat] resolves one path.  [ReadDir_Lstat] shows that the two agree on every
    name, over any base tree whose maps are keyed by legal names ([tree_wf]). *)

From S2P Require Import Prelude GoStrings Paths VfsNode VfsSession VfsFacts VfsSpec.

(** A node whose children, all the way down, are stored under their own names,
    which are legal path components. *)
Inductive tree_wf : node -> Prop :=
| tree_wf_intro n :
    (forall k c, children n !! k = Some c -> good_comp k /\ name c = k) ->
    (forall k c, children n !! k = Some c -> tree_wf c) -> tree_wf n.

Lemma tree_wf_child n k c : tree_wf n -> children n !! k = Some c -> tree_wf c.
Proof. destruct 1 as [n _ H]. apply H. Qed.

Lemma tree_wf_name n k c : tree_wf n -> children n !! k = Some c -> good_comp k /\ name c = k.
Proof. destruct 1 as [n H _]. apply H. Qed.

Lemma entry_ok_tree k n : entry_ok k n -> tree_wf n.
Proof.
  intros (cs & c & _ & _ & _ & _ & _ & Hch). constructor; intros k' c' H; by rewrite Hch in H.
Qed.

Section lookup_tree.
Context (s : session) (Hwf : wf s) (Hbase : tree_wf (base s)).

Lemma child_tree cur nd nm c : tree_wf nd -> child s cur nd nm = Some c -> tree_wf c.
Proof.
  intros Hnd. unfold child. destruct (isDeleted _ _); [done |].
  destruct (overlay s !! _) as [ov |] eqn:E.
  - intros [= <-]. by eapply entry_ok_tree, (wf_overlay s Hwf).
  - unfold childOf. by apply tree_wf_child.
Qed.

Lemma walk_tree r ff parts cur nd x :
  (forall t y, r t = Ok y -> tree_wf y) -> tree_wf nd ->
  walk s r ff cur nd parts = Ok x -> tree_wf x.
Proof.
  intros Hr. revert cur nd. induction parts as [| p parts IH]; intros cur nd Hnd; simpl.
  { by intros [= <-]. }
  case_match; [done |]. destruct (child s cur nd p) as [c |] eqn:Hc; [| done].
  destruct (_ && _).
  - destruct (r _) as [t |] eqn:E; [| done]. by apply IH, (Hr _ _ E).
  - by eapply IH, child_tree.
Qed.

Lemma lookup_at_tree n p ff x : lookup_at s n p ff = Ok x -> tree_wf x.
Proof.
  revert p ff x. induction n as [| n IH]; intros p ff x; simpl; [done |].
  case_match; [done |]. case_match; [by intros [= <-] |].
  apply walk_tree; [intros t y; apply IH | done].
Qed.
End lookup_tree.

(** ** The merged view *)

Section seen.
Context (s : session) (Hwf : wf s).
Context (cs : list str) (Hcs : Forall good_comp cs) (nd : node) (Hnd : tree_wf nd).

Lemma seen_entries_spec (m : gmap str node) :
  (forall k n, m !! k = Some n -> entry_ok k n) ->
  let seen := map_fold (fun op on seen =>
    if parentDir op =s abs_path cs then <[baseName op := on]> seen else seen) (children nd) m in
  forall nm, (seen !! nm = if decide (good_comp nm)
                           then match m !! abs_path (cs ++ [nm]) with
                                | Some ov => Some ov | None => children nd !! nm end
                           else None).
Proof.
  apply (map_fold_weak_ind (fun (r : gmap str node) (m : gmap str node) =>
    (forall k n, m !! k = Some n -> entry_ok k n) ->
    forall nm, r !! nm = if decide (good_comp nm)
                         then match m !! abs_path (cs ++ [nm]) with
                              | Some ov => Some ov | None => children nd !! nm end
                         else None)).
  - intros _ nm. rewrite lookup_empty. case_decide as Hnm; [done |].
    destruct (children nd !! nm) eqn:E; [| done].
    by destruct (tree_wf_name _ _ _ Hnd E).
  - intros k n m' r Hk IH Hok nm.
    specialize (IH (fun k' n' H => Hok k' n' (lookup_weaken _ _ _ _ H (insert_subseteq _ _ _ Hk)))).
    destruct (Hok k n (lookup_insert_eq _ _ _)) as (ds & d & Hg & -> & _).
    apply good_snoc in Hg as Hg'. destruct Hg' as [Hds Hd].
    rewrite parentDir_snoc, baseName_snoc by done.
    destruct (abs_path ds =s abs_path cs) eqn:E; bool_hyps.
    + apply abs_path_inj in E; [subst ds | done..].
      destruct (decide (nm = d)) as [-> | Hne].
      * by rewrite lookup_insert_eq, decide_True, lookup_insert_eq by done.
      * rewrite lookup_insert_ne, IH by done. case_decide as Hnm; [| done].
        rewrite lookup_insert_ne; [done |]. intros Ek.
        apply abs_path_inj in Ek; [by apply app_inj_tail in Ek as [_ ->] | done |].
        rewrite Forall_app, Forall_singleton. done.
    + rewrite IH. case_decide as Hnm; [| done]. rewrite lookup_insert_ne; [done |].
      intros Ek. apply abs_path_inj in Ek; [apply app_inj_tail in Ek as [-> _]; done | done |].
      rewrite Forall_app, Forall_singleton. done.
Qed.
End seen.

#[export] Instance name_le_total : Total name_le.
Proof. intros a b. apply str_le_total. Qed.
#[export] Instance name_le_trans : Transitive name_le.
Proof. intros a b c. apply str_le_trans. Qed.

(** C30: a listing and single-path lookups never disagree.  A directory lists an
    entry exactly when looking its path up (without following a final symlink)
    finds that entry, and the listing is sorted by name. *)
Theorem ReadDir_agrees_with_Lstat s p l cs :
  wf s -> tree_wf (base s) -> Resolve s p = abs_path cs -> Forall good_comp cs ->
  ReadDir s p = Ok l ->
  StronglySorted name_le l /\
  forall e, e ∈ l <-> exists c, good_comp c /\ lookup s (abs_path (cs ++ [c])) false = Ok e.
Proof.
  intros Hwf Hbase E Hcs. unfold ReadDir. rewrite E.
  destruct (lookup s (abs_path cs) true) as [nd |] eqn:Hp; [| done].
  destruct (negb (IsDir nd)) eqn:Hdir; [done |]. intros [= <-].
  split; [apply (StronglySorted_merge_sort name_le) |]. intros e.
  pose proof (lookup_at_tree s Hwf Hbase _ _ _ _ Hp) as Hnd.
  pose proof (seen_entries_spec cs Hcs nd Hnd (overlay s) (wf_overlay s Hwf)) as Hseen.
  change (map_fold _ _ _) with (seen_entries s (abs_path cs) nd) in Hseen.
  rewrite merge_sort_Permutation, list_elem_of_In, in_map_iff.
  assert (forall c, good_comp c ->
    lookup s (abs_path (cs ++ [c])) false = Ok e <->
    isDeleted s (abs_path (cs ++ [c])) = false /\ entry s cs c nd = Some e) as Hlk.
  { intros c Hc. unfold lookup in *. rewrite lookup_at_snoc by (rewrite Forall_app; auto).
    rewrite Hp, Hdir. destruct (isDeleted _ _); [naive_solver |].
    destruct (entry s cs c nd) as [ch |]; [| naive_solver].
    rewrite andb_false_r. naive_solver. }
  split.
  - intros ([nm n] & Hsnd & Hin). simpl in Hsnd. subst n.
    apply filter_In in Hin as [Hin Hnd']. simpl in Hnd'. bool_hyps.
    apply list_elem_of_In, elem_of_map_to_list in Hin. rewrite Hseen in Hin.
    destruct (decide (good_comp nm)) as [Hnm |]; [| done].
    rewrite path_join_comp in Hnd' by done. exists nm. split; [done |]. by apply Hlk.
  - intros (c & Hc & [Hd He]%Hlk); [| done]. exists (c, e). split; [done |].
    apply filter_In. simpl. rewrite path_join_comp, Hd by done. split; [| done].
    apply list_elem_of_In, elem_of_map_to_list. by rewrite Hseen, decide_True.
Qed.

(** * Witness *)

Lemma tree_wf_leaf n : children n = ∅ -> tree_wf n.
Proof. intros E. constructor; intros k c; by rewrite E. Qed.

Lemma tree_wf_insert nm m k c :
  tree_wf (demo_dir nm m) -> good_comp k -> name c = k -> tree_wf c ->
  tree_wf (demo_dir nm (<[k := c]> m)).
Proof.
  intros Hm Hk Hn Hc. constructor; cbn [children demo_dir]; intros k' c';
    rewrite lookup_insert_Some; intros [[<- <-] | [_ H]].
  - by split.
  - by apply (tree_wf_name (demo_dir nm m)).
  - exact Hc.
  - by apply (tree_wf_child (demo_dir nm m) k').
Qed.

Lemma demo_tree_wf : tree_wf demo_root.
Proof.
  unfold demo_root. rewrite <- insert_empty.
  repeat first [apply tree_wf_insert | by apply tree_wf_leaf
               | by apply (bool_decide_unpack _); vm_compute | reflexivity].
Qed.

Lemma ReadDir_agrees_with_Lstat_witness :
  let s := after (WriteFile 5 0 demo $$"x" $$"payload") in
  StronglySorted name_le [new_file $$"/tmp/x" $$"payload" 5] /\
  forall e, e ∈ [new_file $$"/tmp/x" $$"payload" 5] <->
    exists c, good_comp c /\ lookup s (abs_path ([$$"tmp"] ++ [c])) false = Ok e.
Proof.
  intros s. apply (ReadDir_agrees_with_Lstat s $$"." [new_file $$"/tmp/x" $$"payload" 5] [$$"tmp"]).
  - apply (exec_wf 5 0 demo (OpWrite $$"x" $$"payload") 7 s None); [apply demo_wf | by vm_compute].
  - apply demo_tree_wf.
  - by vm_compute.
  - by apply (bool_decide_unpack _); vm_compute.
  - by vm_compute.
Defined.
