(* ===== verification/VfsPool.v ===== *)
(** * VfsPool: the overlay memory of the whole process

    [globalOverlayBytes] is shared by every live session.  [pool_step] runs whole
    operations of any session in any order; [reserve_step] runs the individual
    atomic additions of [reserveOverlay] by any number of goroutines. *)

From S2P Require Import Prelude GoStrings Paths VfsNode VfsSession VfsFacts VfsSpec.

(** ** Sessions sharing the counter *)

Record pool : Type := Pool { live : gmap nat session; global : Z }.

Inductive pool_step (now : Z) : pool -> pool -> Prop :=
| step_new i f wd (p : pool) :
    live p !! i = None ->
    pool_step now p (Pool (<[i := NewSession f wd]> (live p)) (global p))
| step_exec i s o g' s' e (p : pool) :
    live p !! i = Some s -> exec now (global p) s o = (g', s', e) ->
    pool_step now p (Pool (<[i := s']> (live p)) g')
| step_release i s (p : pool) :
    live p !! i = Some s ->
    pool_step now p (Pool (delete i (live p)) (fst (Release (global p) s))).

Definition pool_reachable (p : pool) : Prop :=
  rtc (fun a b => exists now, pool_step now a b) (Pool ∅ 0) p.

Record pool_inv (p : pool) : Prop := {
  inv_wf : forall i s, live p !! i = Some s -> wf s;
  inv_sum : global p = map_sum nbytes (live p);
  inv_max : global p <= maxGlobalOverlayBytes
}.

Lemma Release_counter g s : wf s -> fst (Release g s) = g - nbytes s.
Proof.
  intros Hwf%wf_nbytes_nonneg. unfold Release, reserveOverlay.
  destruct (nbytes s =? 0) eqn:E; bool_hyps; simpl; [lia |].
  replace (- nbytes s <=? 0) with true by (symmetry; apply Z.leb_le; lia). simpl. lia.
Qed.

Lemma pool_step_inv now p p' : pool_inv p -> pool_step now p p' -> pool_inv p'.
Proof.
  intros [Hwf Hsum Hmax] Hstep. destruct Hstep as [i f wd p Hi | i s o g' s' e p Hi He | i s p Hi].
  - split; simpl; [| by rewrite map_sum_insert_None | done].
    intros j s. rewrite lookup_insert_Some. intros [[<- <-] | [_ ?]]; [apply NewSession_wf | eauto].
  - pose proof (Hwf i s Hi) as Hs.
    destruct (exec_counter _ _ _ _ _ _ _ Hs He) as [Hd Hle].
    split; simpl; [| | auto].
    + intros j t. rewrite lookup_insert_Some.
      intros [[<- <-] | [_ ?]]; [by eapply exec_wf | eauto].
    + rewrite map_sum_insert, Hi. simpl. lia.
  - pose proof (Hwf i s Hi) as Hs. rewrite Release_counter by done.
    pose proof (wf_nbytes_nonneg s Hs). split; simpl; [| | lia].
    + intros j t [_ ?]%lookup_delete_Some. eauto.
    + rewrite map_sum_delete, Hi. simpl. lia.
Qed.

Lemma pool_reachable_inv p : pool_reachable p -> pool_inv p.
Proof.
  intros H. unfold pool_reachable in H.
  remember (Pool ∅ 0) as p0 eqn:E.
  assert (pool_inv p0) as H0 by (subst; split; simpl; done).
  clear E. induction H as [| a b c [now Hs] _ IH]; [done |].
  by eapply IH, pool_step_inv.
Qed.

(** C2: however many connections are opened, used and closed, in any order, the
    process-wide counter equals the bytes the live sessions hold, every session
    stays within 8 MiB, and the total never exceeds 256 MiB. *)
Theorem overlay_memory_bounded p :
  pool_reachable p ->
  global p = map_sum nbytes (live p) /\ 0 <= global p <= maxGlobalOverlayBytes /\
  forall i s, live p !! i = Some s ->
    map_sum overlay_len (overlay s) = nbytes s /\ nbytes s <= maxOverlayBytes.
Proof.
  intros [Hwf Hsum Hmax]%pool_reachable_inv. split; [done |]. split.
  - split; [| done]. rewrite Hsum. clear Hsum Hmax. destruct p as [m g]. simpl in *.
    revert Hwf. apply (map_ind (fun m => (forall i s, m !! i = Some s -> wf s) -> 0 <= map_sum nbytes m)); [done |].
    intros i s m' Hi IH Hall. rewrite map_sum_insert_None by done.
    assert (0 <= nbytes s) by (eapply wf_nbytes_nonneg, (Hall i), lookup_insert_eq).
    assert (0 <= map_sum nbytes m'); [| lia].
    apply IH. intros j t Hj. apply (Hall j). rewrite lookup_insert_ne; [done |]. congruence.
  - intros i s Hi. destruct (Hwf i s Hi) as [_ _ _ Hb Hbud]. by rewrite Hb in Hbud |- *.
Qed.

(** when the last connection has ended, every reserved byte is back in the
    pool. *)
Theorem released_pool_is_empty p : pool_reachable p -> live p = ∅ -> global p = 0.
Proof. intros [_ -> _]%pool_reachable_inv ->. done. Qed.

(** ** The atomic steps of [reserveOverlay]

    [Add] returns the new value, so the verdict of a goroutine is fixed by its
    first addition; a losing goroutine still has to roll its addition back. *)

Record rstate : Type := RState {
  counter : Z;                 (* globalOverlayBytes *)
  committed : Z;               (* bytes of successful reservations *)
  pending : gmap nat Z         (* goroutine -> delta still to be rolled back *)
}.

Inductive reserve_step : rstate -> rstate -> Prop :=
| reserve_try_ok t d c k m :
    m !! t = None -> 0 < d -> c + d <= maxGlobalOverlayBytes ->
    reserve_step (RState c k m) (RState (c + d) (k + d) m)
| reserve_try_over t d c k m :
    m !! t = None -> 0 < d -> maxGlobalOverlayBytes < c + d ->
    reserve_step (RState c k m) (RState (c + d) k (<[t := d]> m))
| reserve_rollback t d c k m :
    m !! t = Some d -> reserve_step (RState c k m) (RState (c + - d) k (delete t m))
| reserve_free t d c k m :
    m !! t = None -> 0 <= d <= k ->
    reserve_step (RState c k m) (RState (c + - d) (k + - d) m).

(** under every interleaving of reservations, rollbacks and releases, the
    bytes really granted stay within 256 MiB, and once no rollback is in flight
    the counter is exactly the granted bytes. *)
Theorem reservations_never_overcommit st :
  rtc reserve_step (RState 0 0 ∅) st ->
  0 <= committed st <= maxGlobalOverlayBytes /\
  counter st = committed st + map_sum id (pending st).
Proof.
  intros H. remember (RState 0 0 ∅) as st0 eqn:E.
  assert (0 <= committed st0 <= maxGlobalOverlayBytes /\
          counter st0 = committed st0 + map_sum id (pending st0) /\
          map_Forall (fun _ d => 0 <= d) (pending st0)) as H0 by (subst; by split).
  clear E.
  enough (0 <= committed st <= maxGlobalOverlayBytes /\
          counter st = committed st + map_sum id (pending st) /\
          map_Forall (fun _ d => 0 <= d) (pending st)) by tauto.
  induction H as [st | a b st Hs _ IH]; [done |]. apply IH. clear IH.
  destruct H0 as (Hk & Hc & Hp).
  assert (0 <= map_sum id (pending a)) as Hs0.
  { clear -Hp. revert Hp. generalize (pending a).
    apply (map_ind (fun m => map_Forall (fun _ d => 0 <= d) m -> 0 <= map_sum id m)); [done |].
    intros i d m Hi IH [Hd Hm]%map_Forall_insert; [| done].
    rewrite map_sum_insert_None by done. unfold id at 1. specialize (IH Hm). lia. }
  destruct Hs as [t d c k m Ht Hd Hle | t d c k m Ht Hd Hgt | t d c k m Ht | t d c k m Ht Hd];
    simpl in *.
  - split_and!; try done; lia.
  - split_and!; [lia | lia | | by apply map_Forall_insert; [| split; [lia |]]].
    rewrite map_sum_insert_None by done. unfold id at 1. lia.
  - split_and!; [lia | lia | | by apply map_Forall_delete].
    rewrite map_sum_delete, Ht. simpl. unfold id in *. lia.
  - split_and!; try done; lia.
Qed.

(** ** Entry budget *)

Lemma size_insert_None (m : gmap str node) k n : m !! k = None -> size (<[k := n]> m) = S (size m).
Proof. apply map_size_insert_None. Qed.

Lemma size_insert_Some (m : gmap str node) k n : is_Some (m !! k) -> size (<[k := n]> m) = size m.
Proof. intros H. by apply map_size_insert_Some. Qed.

Lemma size_difference_le (X : gset str) k : (size (X ∖ {[k]}) <= size X)%nat.
Proof. apply subseteq_size. set_solver. Qed.

Lemma size_difference_in (X : gset str) k : k ∈ X -> size X = S (size (X ∖ {[k]})).
Proof.
  intros Hk.
  replace X with ({[k]} ∪ (X ∖ {[k]})) at 1 by (apply set_eq; intros x; destruct (decide (x = k)); set_solver).
  rewrite size_union by set_solver. by rewrite size_singleton.
Qed.

(** Recording a path in the overlay: at most one more entry, and none when the
    path was there or was a tombstone. *)
Lemma entries_insert b ov del wd nb nb' k n :
  let s := Session b ov del wd nb in
  let s' := Session b (<[k := n]> ov) (del ∖ {[k]}) wd nb' in
  entries s' <= entries s + 1 /\
  (is_Some (ov !! k) \/ k ∈ del -> entries s' <= entries s).
Proof.
  unfold entries. simpl. pose proof (size_difference_le del k).
  destruct (ov !! k) eqn:E.
  - rewrite size_insert_Some by eauto. split; [lia | intros _; lia].
  - rewrite size_insert_None by done. split; [lia |].
    intros [[? [=]] | Hin]. pose proof (size_difference_in del k Hin). lia.
Qed.

(** creating files and directories never pushes a session past its 2048
    overlay entries: a write or mkdir that would add an entry to a full overlay
    is refused with ENOSPC and changes nothing. *)
Theorem creation_respects_entry_budget now g s p body :
  entries s <= maxOverlayEntries ->
  entries (snd (fst (WriteFile now g s p body))) <= maxOverlayEntries /\
  entries (snd (fst (Mkdir now g s p))) <= maxOverlayEntries.
Proof.
  intros He. destruct s as [b ov del wd nb].
  assert (forall n nb', let s := Session b ov del wd nb in
    (is_Some (ov !! Resolve s p) \/ Resolve s p ∈ del \/ entries s < maxOverlayEntries) ->
    entries (Session b (<[Resolve s p := n]> ov) (del ∖ {[Resolve s p]}) wd nb') <= maxOverlayEntries) as Hin.
  { intros n nb' s Hor. destruct (entries_insert b ov del wd nb nb' (Resolve s p) n) as [H1 H2].
    fold s in H1, H2. destruct Hor as [? | [? | ?]]; [| |lia];
      (etrans; [apply H2; tauto | done]). }
  split.
  - unfold WriteFile. repeat (case_match; try done); simpl; apply Hin; simpl in *;
      match goal with H : bool_decide _ && _ = false |- _ => apply andb_false_iff in H; destruct H as [H | H] end;
      bool_hyps; try tauto;
      match goal with H : bool_decide _ = false |- _ => apply bool_decide_eq_false in H end;
      left; by apply not_eq_None_Some.
  - unfold Mkdir. repeat (case_match; try done); simpl; apply Hin; simpl in *;
      match goal with H : bool_decide _ && _ = false |- _ => apply andb_false_iff in H; destruct H as [H | H] end;
      bool_hyps; try tauto;
      match goal with H : bool_decide _ = false |- _ => apply bool_decide_eq_false, dec_stable in H end;
      tauto.
Qed.

(** * Witnesses *)

(** One connection that wrote seven bytes. *)
Definition demo_pool : pool := Pool {[1%nat := after (WriteFile 5 0 demo $$"x" $$"payload")]} 7.

Lemma demo_pool_reachable : pool_reachable demo_pool.
Proof.
  apply (rtc_l _ _ (Pool {[1%nat := demo]} 0) _).
  { exists 0. by apply (step_new 0 1%nat demo_root $$"/tmp" (Pool ∅ 0)). }
  apply rtc_once. exists 5.
  pose proof (step_exec 5 1%nat demo (OpWrite $$"x" $$"payload") 7
    (after (WriteFile 5 0 demo $$"x" $$"payload")) None (Pool {[1%nat := demo]} 0)) as H.
  cbn [live global] in H. rewrite insert_singleton_eq in H. apply H; by vm_compute.
Qed.

Lemma overlay_memory_bounded_witness :
  global demo_pool = map_sum nbytes (live demo_pool) /\ 0 <= global demo_pool <= maxGlobalOverlayBytes /\
  forall i s, live demo_pool !! i = Some s ->
    map_sum overlay_len (overlay s) = nbytes s /\ nbytes s <= maxOverlayBytes.
Proof. apply (overlay_memory_bounded demo_pool). apply demo_pool_reachable. Defined.

Lemma released_pool_is_empty_witness :
  global (Pool ∅ (fst (Release 7 (after (WriteFile 5 0 demo $$"x" $$"payload"))))) = 0.
Proof.
  apply (released_pool_is_empty (Pool ∅ (fst (Release 7 (after (WriteFile 5 0 demo $$"x" $$"payload")))))).
  - eapply rtc_r; [apply demo_pool_reachable |]. exists 9.
    pose proof (step_release 9 1%nat (after (WriteFile 5 0 demo $$"x" $$"payload")) demo_pool) as H.
    unfold demo_pool in H at 2. cbn [live global demo_pool] in H.
    rewrite delete_singleton_eq in H. apply H. by vm_compute.
  - reflexivity.
Defined.

Lemma reservations_never_overcommit_witness :
  0 <= committed (RState 5 5 ∅) <= maxGlobalOverlayBytes /\
  counter (RState 5 5 ∅) = committed (RState 5 5 ∅) + map_sum id (pending (RState 5 5 ∅)).
Proof.
  apply (reservations_never_overcommit (RState 5 5 ∅)).
  apply rtc_once. apply (reserve_try_ok 1%nat 5 0 0 ∅); [done | lia | by vm_compute].
Defined.

Lemma creation_respects_entry_budget_witness :
  entries (after (WriteFile 5 0 demo $$"x" $$"payload")) <= maxOverlayEntries /\
  entries (after (Mkdir 5 0 demo $$"x")) <= maxOverlayEntries.
Proof. apply (creation_respects_entry_budget 5 0 demo $$"x" $$"payload"). by vm_compute. Defined.
