(* ===== verification/VfsLoad.v ===== *)
(** * VfsLoad: building the base tree (internal/vfs/load.go, internal/fakehost)

    A tree is its root node.  Where the code holds a pointer to a directory and
    changes it afterwards, the model passes what is done to that directory as a
    continuation [k]; the new tree is returned.  [embed.FS] is an inductive tree
    with sorted directories.  [encoding/json] and [time.Parse] are parameters. *)

From S2P Require Import Prelude GoStrings Paths VfsNode VfsSession VfsFacts VfsSpec VfsCoherence.

(** ** Field updates *)

Definition set_child (n : node) (k : str) (c : node) : node :=
  Node (name n) (mode n) (uid n) (gid n) (uname n) (gname n) (mtime n) (content n) (link n)
    (stub n) (fsize n) (<[k := c]> (children n)).
Definition set_mode (n : node) (m : Z) : node :=
  Node (name n) m (uid n) (gid n) (uname n) (gname n) (mtime n) (content n) (link n)
    (stub n) (fsize n) (children n).
Definition set_mtime (n : node) (t : Z) : node :=
  Node (name n) (mode n) (uid n) (gid n) (uname n) (gname n) t (content n) (link n)
    (stub n) (fsize n) (children n).
Definition set_owner (n : node) (u g : Z) (un gn : str) : node :=
  Node (name n) (mode n) u g un gn (mtime n) (content n) (link n)
    (stub n) (fsize n) (children n).

(** ** The manifest *)

Record manifestDefaults : Type := ManifestDefaults {
  md_uid : Z; md_gid : Z; md_uname : str; md_gname : str;
  md_dirmode : str; md_filemode : str; md_mtime : str
}.
Record metaOverride : Type := MetaOverride {
  mo_mode : str; mo_uid : option Z; mo_gid : option Z; mo_uname : str; mo_gname : str; mo_mtime : str
}.
Record dirEntry : Type := DirEntry {
  de_path : str; de_mode : str; de_uname : str; de_gname : str; de_uid : option Z; de_gid : option Z
}.
Record linkEntry : Type := LinkEntry { le_path : str; le_target : str }.
Record binGroup : Type := BinGroup { bg_dir : str; bg_names : list str; bg_mode : str; bg_size : Z }.

(** [Meta] is a Go map: the list is the order in which [range] visits it. *)
Record manifest : Type := Manifest {
  m_defaults : manifestDefaults;
  m_meta : list (str * metaOverride);
  m_dirs : list dirEntry;
  m_links : list linkEntry;
  m_binaries : list binGroup
}.
Definition empty_manifest : manifest := Manifest (ManifestDefaults 0 0 [] [] [] [] []) [] [] [] [].

Record loader : Type := Loader {
  defDir : Z; defFile : Z; ld_uid : Z; ld_gid : Z; ld_uname : str; ld_gname : str; baseMtime : Z
}.

(** ** Parsing helpers *)

Definition parseMode (s : str) : option Z :=
  match s with
  | [] => None
  | _ =>
      match parse_uint 8 32 s with
      | None => None
      | Some v =>
          let m := Z.land v 511 in
          let m := if Z.land v 2048 =? 0 then m else Z.lor m ModeSetuid in
          let m := if Z.land v 1024 =? 0 then m else Z.lor m ModeSetgid in
          Some (if Z.land v 512 =? 0 then m else Z.lor m ModeSticky)
      end
  end.
Definition modeOr (s : str) (def : Z) : Z := default def (parseMode s).
Definition orStr (s def : str) : str := if s =s [] then def else s.

Definition second : Z := 1000000000.

(** A relative offset: [Some] when [parseWhen] returns from its first branch. *)
Definition parseOffset (s : str) (now : Z) : option Z :=
  if has_prefix s $$"-" && (3 <=? zlen s) then
    match atoi (take (length s - 2) (drop 1 s)) with
    | (_, false) => None
    | (n, true) =>
        let back d := now + wrap64 (- d) in
        match last s with
        | Some "d"%char => Some (back (wrap64 (wrap64 (n * 24) * (3600 * second))))
        | Some "h"%char => Some (back (wrap64 (n * (3600 * second))))
        | Some "m"%char => Some (back (wrap64 (n * (60 * second))))
        | Some "s"%char => Some (back (wrap64 (n * second)))
        | _ => Some now
        end
    end
  else None.

Section load.
Context (unmarshal : str -> option manifest)         (* json.Unmarshal *)
        (parse_rfc3339 parse_date : str -> option Z). (* time.Parse *)

Definition parseWhen (s : str) (now : Z) : Z :=
  match s with
  | [] => now
  | _ =>
      match parseOffset s now with
      | Some t => t
      | None =>
          match parse_rfc3339 s with
          | Some t => t
          | None => default now (parse_date s)
          end
      end
  end.

(** ** Growing the tree *)

(** Descend along [parts], replacing everything that is not a directory by a
    fresh directory [mk name]; [k] is applied to the directory reached. *)
Fixpoint ensure_in (mk : str -> node) (k : node -> node) (parts : list str) (nd : node) : node :=
  match parts with
  | [] => k nd
  | nm :: rest =>
      let c := match children nd !! nm with
               | Some c => if IsDir c then c else mk nm
               | None => mk nm
               end in
      set_child nd nm (ensure_in mk k rest c)
  end.

Definition ld_dir (ld : loader) (nm : str) : node :=
  Node nm (defDir ld) (ld_uid ld) (ld_gid ld) (ld_uname ld) (ld_gname ld) (baseMtime ld)
    [] [] false 0 ∅.

Definition ensureDir (ld : loader) (abs : str) (k : node -> node) (root : node) : node :=
  if (abs =s [slash]) || (abs =s $$".") then k root
  else ensure_in (ld_dir ld) k (splitPath abs) root.

Definition addFile (ld : loader) (abs content : str) (root : node) : node :=
  ensureDir ld (parentDir abs) (fun parent =>
    set_child parent (baseName abs)
      (Node (baseName abs) (defFile ld) (ld_uid ld) (ld_gid ld) (ld_uname ld) (ld_gname ld)
         (baseMtime ld) content [] false 0 ∅)) root.

Definition mkdirAll (abs : str) (k : node -> node) (root : node) : node :=
  let abs := cleanAbs abs in
  if (abs =s [slash]) || (abs =s $$".") then k root
  else ensure_in (fun nm => Node nm (Z.lor ModeDir 493) 0 0 (uname root) (gname root) (mtime root)
                              [] [] false 0 ∅) k (splitPath abs) root.

(** [FS.Mkdir] and [FS.Place]. *)
Definition FS_Mkdir (abs : str) (md : Z) (un gn : str) (mt : Z) (root : node) : node :=
  let abs := cleanAbs abs in
  if abs =s [slash] then root
  else mkdirAll (parentDir abs) (fun parent =>
    let nm := baseName abs in
    let fresh := Node nm 0 0 0 [] [] 0 [] [] false 0 ∅ in
    let n := match children parent !! nm with
             | Some n => if IsDir n then n else fresh
             | None => fresh
             end in
    set_child parent nm
      (set_mtime (set_owner (set_mode n (Z.lor ModeDir md)) (uid n) (gid n) un gn) mt)) root.

Definition Place (abs content : str) (md : Z) (un gn : str) (mt : Z) (root : node) : node :=
  let abs := cleanAbs abs in
  if abs =s [slash] then root
  else mkdirAll (parentDir abs) (fun parent =>
    set_child parent (baseName abs)
      (Node (baseName abs) md 0 0 un gn mt content [] false 0 ∅)) root.

Fixpoint get_in (parts : list str) (nd : node) : option node :=
  match parts with
  | [] => Some nd
  | nm :: rest => match children nd !! nm with Some c => get_in rest c | None => None end
  end.
Definition getNode (root : node) (abs : str) : option node :=
  if abs =s [slash] then Some root else get_in (splitPath abs) root.

(** A change of the node [getNode] returns, through its pointer. *)
Fixpoint modify_in (f : node -> node) (parts : list str) (nd : node) : node :=
  match parts with
  | [] => f nd
  | nm :: rest =>
      match children nd !! nm with
      | Some c => set_child nd nm (modify_in f rest c)
      | None => nd
      end
  end.
Definition modifyNode (f : node -> node) (abs : str) (root : node) : node :=
  if abs =s [slash] then f root else modify_in f (splitPath abs) root.

Definition applyOwner (n : node) (un gn : str) (u g : option Z) : node :=
  set_owner n (default (uid n) u) (default (gid n) g)
    (if un =s [] then uname n else un) (if gn =s [] then gname n else gn).

(** ** [Load] *)

(** An embedded directory tree; directory entries are in name order. *)
Inductive etree : Type := EFile (body : str) | EDir (ents : list (str * etree)).

Definition skipped (nm : str) : bool := (nm =s $$"manifest.json") || (nm =s $$".DS_Store").

(** [fs.WalkDir] with the callback of [Load], below the directory [abs]. *)
Fixpoint walk_tree (transform : str -> str -> str) (ld : loader) (abs : str) (t : etree)
    (root : node) : node :=
  match t with
  | EFile body => addFile ld abs (transform abs body) root
  | EDir ents =>
      (fix go ents root :=
         match ents with
         | [] => root
         | (nm, t') :: rest =>
             if skipped nm then go rest root
             else go rest (walk_tree transform ld (abs ++ slash :: nm) t'
                             (match t' with
                              | EDir _ => ensureDir ld (abs ++ slash :: nm) id root
                              | EFile _ => root
                              end))
         end) ents root
  end.

Definition add_dir (ld : loader) (root : node) (de : dirEntry) : node :=
  ensureDir ld (cleanAbs (de_path de)) (fun n =>
    let n := match parseMode (de_mode de) with
             | Some pm => set_mode n (Z.lor ModeDir pm) | None => n end in
    applyOwner n (de_uname de) (de_gname de) (de_uid de) (de_gid de)) root.

Definition add_binaries (ld : loader) (root : node) (bg : binGroup) : node :=
  let md := default 493 (parseMode (bg_mode bg)) in
  let size := if bg_size bg =? 0 then 35112 else bg_size bg in
  ensureDir ld (cleanAbs (bg_dir bg)) (fun dir =>
    foldl (fun dir nm => set_child dir nm
             (Node nm md (ld_uid ld) (ld_gid ld) (ld_uname ld) (ld_gname ld) (baseMtime ld)
                [] [] true size ∅)) dir (bg_names bg)) root.

Definition add_link (ld : loader) (root : node) (le : linkEntry) : node :=
  let abs := cleanAbs (le_path le) in
  ensureDir ld (parentDir abs) (fun parent =>
    set_child parent (baseName abs)
      (Node (baseName abs) (Z.lor ModeSymlink 511) 0 0 (ld_uname ld) (ld_gname ld) (baseMtime ld)
         [] (le_target le) false 0 ∅)) root.

Definition override (now : Z) (ov : metaOverride) (n : node) : node :=
  let n := match parseMode (mo_mode ov) with
           | Some pm => set_mode n (Z.lor (Z.land (mode n) ModeType) pm) | None => n end in
  let n := applyOwner n (mo_uname ov) (mo_gname ov) (mo_uid ov) (mo_gid ov) in
  if mo_mtime ov =s [] then n else set_mtime n (parseWhen (mo_mtime ov) now).

Definition add_meta (now : Z) (root : node) (pm : str * metaOverride) : node :=
  modifyNode (override now pm.2) (cleanAbs pm.1) root.

Definition new_loader (now : Z) (m : manifest) : loader :=
  let d := m_defaults m in
  Loader (Z.lor ModeDir (modeOr (md_dirmode d) 493)) (modeOr (md_filemode d) 420)
    (md_uid d) (md_gid d) (orStr (md_uname d) $$"root") (orStr (md_gname d) $$"root")
    (parseWhen (md_mtime d) now).

Definition root_node (ld : loader) : node :=
  Node [slash] (Z.lor ModeDir 493) 0 0 (ld_uname ld) (ld_gname ld) (baseMtime ld) [] [] false 0 ∅.

Definition build (transform : str -> str -> str) (now : Z) (m : manifest) (tree : list (str * etree))
    : node :=
  let ld := new_loader now m in
  let root := walk_tree transform ld [] (EDir tree) (root_node ld) in
  let root := foldl (add_dir ld) root (m_dirs m) in
  let root := foldl (add_binaries ld) root (m_binaries m) in
  let root := foldl (add_link ld) root (m_links m) in
  foldl (add_meta now) root (m_meta m).

(** [None] is the error of [json.Unmarshal]. *)
Definition Load (transform : str -> str -> str) (now : Z) (tree : list (str * etree)) : option node :=
  match List.find (fun e => e.1 =s $$"manifest.json") tree with
  | Some (_, EFile data) =>
      match unmarshal data with
      | Some m => Some (build transform now m tree)
      | None => None
      end
  | _ => Some (build transform now empty_manifest tree)
  end.
End load.

(** ** fakehost *)

Definition binaryExt : list str :=
  [$$".png"; $$".jpg"; $$".jpeg"; $$".gif"; $$".pdf"; $$".gz"; $$".tgz"; $$".zip"; $$".tar"; $$".bin";
   $$".ico"; $$".so"].
Definition isBinaryPath (p : str) : bool := existsb (has_suffix (to_lower p)) binaryExt.

(** [renderer]: [render] is parsing and executing the template, [None] when
    either fails. *)
Definition renderer (render : str -> str -> option str) (p content : str) : str :=
  if isBinaryPath p || negb (contains content $$"{{") then content
  else default content (render p content).

Definition baitNames : list str :=
  [$$"aws_root_keys.png"; $$"prod_db_credentials.png"; $$"wallet_seed_phrase.png";
   $$"vpn_config_admin.png"; $$"ssl_private_backup.jpg"; $$"customer_export_full.jpg";
   $$"payroll_2026_q2.jpg"].

Definition graftLoot (png jpg : str) (now : Z) (lootPath : str) (root : node) : node :=
  match lootPath with
  | [] => root
  | _ =>
      let hour := 3600 * second in
      let root := FS_Mkdir lootPath 448 $$"root" $$"root" (now - 6 * 24 * hour) root in
      foldl (fun root ib =>
               let '(i, nm) := ib in
               let data := if has_suffix nm $$".jpg" || has_suffix nm $$".jpeg" then jpg else png in
               Place (lootPath ++ slash :: nm) data 384 $$"root" $$"root"
                 (now - (5 * 24 - Z.of_nat i * 7) * hour) root)
        root (zip (seq 0 (length baitNames)) baitNames)
  end.
