(* ===== verification/VfsLoadFacts.v ===== *)
(** * VfsLoadFacts: what the loader guarantees

    [fs_wf] is the invariant the session theorems assume of a base tree; every
    step of [Load], [Place] and [Mkdir] keeps it.  [Place_spec] and
    [graftLoot_spec] give the effect of grafting. *)

From S2P Require Import Prelude GoStrings Paths VfsNode VfsSession VfsFacts VfsSpec VfsCoherence VfsLoad.

(** Names are legal, children are stored under their names, and only directories
    have children. *)
Inductive fs_wf : node -> Prop :=
| fs_wf_intro n :
    (IsDir n = true \/ children n = ∅) ->
    (forall k c, children n !! k = Some c -> good_comp k /\ name c = k) ->
    (forall k c, children n !! k = Some c -> fs_wf c) -> fs_wf n.

Lemma fs_wf_tree_wf n : fs_wf n -> tree_wf n.
Proof. revert n. fix IH 2. intros n [n' _ Hn Hc]. constructor; [done |]. intros k c E. by eapply IH, Hc. Qed.

Lemma fs_wf_child n k c : fs_wf n -> children n !! k = Some c -> fs_wf c /\ name c = k.
Proof. destruct 1 as [n _ Hn Hc]. intros E. split; [by eapply Hc | by apply (Hn k c)]. Qed.

Lemma fs_wf_leaf n : children n = ∅ -> fs_wf n.
Proof. intros E. constructor; [by right | |]; intros k c; by rewrite E. Qed.

(** A node that differs in its metadata only. *)
Lemma fs_wf_meta n n' :
  fs_wf n -> children n' = children n -> (IsDir n = true -> IsDir n' = true) -> fs_wf n'.
Proof.
  destruct 1 as [n Hd Hn Hc]. intros E Hdir. constructor; rewrite ?E; [| done | done].
  destruct Hd as [?%Hdir | ?]; auto.
Qed.

Lemma fs_wf_set_child n k c :
  fs_wf n -> IsDir n = true -> good_comp k -> name c = k -> fs_wf c -> fs_wf (set_child n k c).
Proof.
  destruct 1 as [n Hd Hn Hc]. intros Hdir Hk Hname Hwf. constructor; simpl.
  - by left.
  - intros k' c'. rewrite lookup_insert_Some. intros [[<- <-] | [_ ?]]; auto.
  - intros k' c'. rewrite lookup_insert_Some. intros [[<- <-] | [_ ?]]; eauto.
Qed.

(** ** Type bits *)

Lemma IsDir_bit n : IsDir n = Z.testbit (mode n) 31.
Proof.
  unfold IsDir, ModeDir. destruct (Z.testbit (mode n) 31) eqn:E.
  - apply negb_true_iff, Z.eqb_neq. intros H.
    assert (Z.testbit (Z.land (mode n) (2 ^ 31)) 31 = false) as H' by (rewrite H; apply Z.bits_0).
    by rewrite Z.land_spec, Z.pow2_bits_true, E in H'.
  - apply negb_false_iff, Z.eqb_eq. apply Z.bits_inj'. intros i Hi.
    rewrite Z.land_spec, Z.bits_0, Z.pow2_bits_eqb by lia.
    destruct (Z.eqb_spec 31 i) as [<- | ?]; [by rewrite E | apply andb_false_r].
Qed.

Lemma lor_dir_IsDir n m : IsDir (set_mode n (Z.lor ModeDir m)) = true.
Proof. rewrite IsDir_bit. cbn [mode set_mode]. rewrite Z.lor_spec. done. Qed.

Lemma low_bits_type v : 0 <= v < 2 ^ 12 -> Z.testbit v 31 = false.
Proof.
  intros H. destruct (Z.eq_dec v 0) as [-> | Hn]; [done |].
  apply Z.bits_above_log2; [lia |]. apply Z.log2_lt_pow2; lia.
Qed.

(** A parsed mode carries permission and setuid/setgid/sticky bits only. *)
Lemma parseMode_no_dir s m : parseMode s = Some m -> Z.testbit m 31 = false.
Proof.
  unfold parseMode. destruct s as [| c s]; [done |].
  destruct (parse_uint 8 32 (c :: s)) as [v |]; [| done]. intros [= <-].
  assert (Z.testbit (Z.land v 511) 31 = false) as Hv by (rewrite Z.land_spec; apply andb_false_r).
  cbn zeta. destruct (_ =? 0), (_ =? 0), (_ =? 0); rewrite ?Z.lor_spec, Hv; done.
Qed.

(** ** Growing a tree keeps it well formed *)

(** What is done to a directory keeps it a well-formed directory of that name. *)
Definition keeps (k : node -> node) : Prop :=
  forall d, fs_wf d -> IsDir d = true -> fs_wf (k d) /\ IsDir (k d) = true /\ name (k d) = name d.

(** A fresh directory. *)
Definition makes_dir (mk : str -> node) : Prop :=
  forall nm, children (mk nm) = ∅ /\ IsDir (mk nm) = true /\ name (mk nm) = nm.

Lemma keeps_set_child nm (f : node -> node) :
  good_comp nm -> (forall d, fs_wf d -> fs_wf (f d) /\ name (f d) = nm) ->
  keeps (fun d => set_child d nm (f d)).
Proof.
  intros Hg Hf d Hd Hdir. destruct (Hf d Hd). split; [| done]. by apply fs_wf_set_child.
Qed.

Lemma keeps_leaf nm x : good_comp nm -> name x = nm -> children x = ∅ ->
  keeps (fun d => set_child d nm x).
Proof.
  intros Hg Hn Hc. apply (keeps_set_child nm (fun _ => x)); [done |].
  intros _ _. split; [by apply fs_wf_leaf | done].
Qed.

Lemma keeps_id : keeps id.
Proof. done. Qed.

Lemma keeps_comp f g : keeps f -> keeps g -> keeps (fun d => g (f d)).
Proof.
  intros Hf Hg d Hd Hdir. destruct (Hf d Hd Hdir) as (H1 & H2 & H3).
  destruct (Hg _ H1 H2) as (? & ? & ?). split_and!; congruence || done.
Qed.

Lemma keeps_foldl {A} (f : node -> A -> node) l :
  Forall (fun a => keeps (fun d => f d a)) l -> keeps (fun d => foldl f d l).
Proof.
  induction l as [| a l IH]; simpl; [intros _; apply keeps_id |].
  intros [Ha Hl]%Forall_cons. apply (keeps_comp (fun d => f d a) (fun d => foldl f d l)); auto.
Qed.

Lemma ensure_in_keeps mk k parts :
  makes_dir mk -> keeps k -> Forall good_comp parts -> keeps (ensure_in mk k parts).
Proof.
  intros Hmk Hk. induction parts as [| nm rest IH]; intros Hg; [done |].
  apply Forall_cons in Hg as [Hnm Hrest]. specialize (IH Hrest). simpl.
  apply (keeps_set_child nm); [done |]. intros d Hd.
  destruct (Hmk nm) as (M1 & M2 & M3).
  assert (fs_wf (mk nm)) by by apply fs_wf_leaf.
  destruct (children d !! nm) as [c |] eqn:E.
  - destruct (fs_wf_child d nm c Hd E) as [Hc Hn].
    destruct (IsDir c) eqn:Ed.
    + destruct (IH c Hc Ed) as (? & ? & ?). split; [done | congruence].
    + destruct (IH (mk nm)) as (? & ? & ?); [done | done |]. split; [done | congruence].
  - destruct (IH (mk nm)) as (? & ? & ?); [done | done |]. split; [done | congruence].
Qed.

Lemma modify_in_keeps f parts nd :
  (forall d, fs_wf d -> fs_wf (f d) /\ name (f d) = name d /\ (IsDir d = true -> IsDir (f d) = true)) ->
  fs_wf nd ->
  fs_wf (modify_in f parts nd) /\ name (modify_in f parts nd) = name nd /\
  (IsDir nd = true -> IsDir (modify_in f parts nd) = true).
Proof.
  intros Hf. revert nd. induction parts as [| nm rest IH]; intros nd Hnd; simpl; [by apply Hf |].
  destruct (children nd !! nm) as [c |] eqn:E; [| done].
  destruct (fs_wf_child nd nm c Hnd E) as [Hc Hn].
  destruct (IH c Hc) as (H1 & H2 & H3). split; [| done].
  inversion Hnd as [n' Hd Hnames _]; subst n'.
  apply fs_wf_set_child; [done | | by apply (Hnames nm c) | congruence | done].
  destruct Hd as [? | Hem]; [done |]. by rewrite Hem in E.
Qed.

(** ** [Load] *)

Section load_wf.
Context (unmarshal : str -> option manifest) (parse_rfc3339 parse_date : str -> option Z).
Context (transform : str -> str -> str) (now : Z).

(** Names of an embedded tree are single path components. *)
Inductive etree_ok : etree -> Prop :=
| etree_file body : etree_ok (EFile body)
| etree_dir ents : Forall (fun e => good_comp e.1 /\ etree_ok e.2) ents -> etree_ok (EDir ents).

Definition manifest_ok (m : manifest) : Prop :=
  Forall (fun bg => Forall good_comp (bg_names bg)) (m_binaries m) /\
  Forall (fun le => cleanAbs (le_path le) <> [slash]) (m_links m).

Lemma makes_ld_dir m : makes_dir (ld_dir (new_loader parse_rfc3339 parse_date now m)).
Proof. intros nm. split_and!; [done | | done]. rewrite IsDir_bit.
  change (Z.testbit (Z.lor ModeDir (modeOr (md_dirmode (m_defaults m)) 493)) 31 = true).
  by rewrite Z.lor_spec.
Qed.

Lemma ensureDir_keeps m cs k :
  Forall good_comp cs -> keeps k ->
  keeps (ensureDir (new_loader parse_rfc3339 parse_date now m) (abs_path cs) k).
Proof.
  intros Hg Hk. unfold ensureDir. rewrite splitPath_abs by done.
  destruct (_ || _); [done |]. apply ensure_in_keeps; [apply makes_ld_dir | done | done].
Qed.

Lemma addFile_keeps m cs c body :
  Forall good_comp (cs ++ [c]) ->
  keeps (addFile (new_loader parse_rfc3339 parse_date now m) (abs_path (cs ++ [c])) body).
Proof.
  intros Hg. apply good_snoc in Hg as [Hcs Hc]. unfold addFile.
  rewrite parentDir_snoc, baseName_snoc by done.
  apply ensureDir_keeps; [done |]. by apply keeps_leaf.
Qed.

Lemma applyOwner_meta n un gn u g :
  children (applyOwner n un gn u g) = children n /\ IsDir (applyOwner n un gn u g) = IsDir n /\
  name (applyOwner n un gn u g) = name n.
Proof. done. Qed.

Lemma add_dir_keeps m de :
  keeps (fun root => add_dir (new_loader parse_rfc3339 parse_date now m) root de).
Proof.
  unfold add_dir. destruct (cleanAbs_canonical (de_path de)) as (cs & Hg & ->).
  apply ensureDir_keeps; [done |]. intros d Hd Hdir. cbn zeta.
  destruct (parseMode (de_mode de)) as [pm |].
  - assert (IsDir (set_mode d (Z.lor ModeDir pm)) = true) by apply lor_dir_IsDir.
    split_and!; [| done | done]. by apply (fs_wf_meta d).
  - split_and!; [| done | done]. by apply (fs_wf_meta d).
Qed.

Lemma add_binaries_keeps m bg :
  Forall good_comp (bg_names bg) ->
  keeps (fun root => add_binaries (new_loader parse_rfc3339 parse_date now m) root bg).
Proof.
  intros Hnames. unfold add_binaries. destruct (cleanAbs_canonical (bg_dir bg)) as (cs & Hg & ->).
  apply ensureDir_keeps; [done |]. cbn zeta.
  apply (keeps_foldl (fun dir nm => set_child dir nm _)).
  eapply Forall_impl; [exact Hnames |]. intros nm Hnm. by apply keeps_leaf.
Qed.

Lemma add_link_keeps m le :
  cleanAbs (le_path le) <> [slash] ->
  keeps (fun root => add_link (new_loader parse_rfc3339 parse_date now m) root le).
Proof.
  unfold add_link. destruct (cleanAbs_canonical (le_path le)) as (ds & Hg & ->). intros Hr.
  destruct ds as [| c cs _] using rev_ind; [done |].
  apply good_snoc in Hg as [Hcs Hc]. rewrite parentDir_snoc, baseName_snoc by done.
  apply ensureDir_keeps; [done |]. by apply keeps_leaf.
Qed.

Lemma override_type n ov :
  IsDir (override parse_rfc3339 parse_date now ov n) = IsDir n.
Proof.
  unfold override. cbn zeta.
  destruct (parseMode (mo_mode ov)) as [pm |] eqn:E; [| by destruct (_ =s _)].
  apply parseMode_no_dir in E.
  assert (IsDir (set_mode n (Z.lor (Z.land (mode n) ModeType) pm)) = IsDir n) as H.
  { rewrite !IsDir_bit. cbn [mode set_mode]. rewrite Z.lor_spec, Z.land_spec, E, orb_false_r.
    replace (Z.testbit ModeType 31) with true by done. apply andb_true_r. }
  rewrite <- H. by destruct (_ =s _).
Qed.

Lemma override_children n ov :
  children (override parse_rfc3339 parse_date now ov n) = children n /\
  name (override parse_rfc3339 parse_date now ov n) = name n.
Proof. unfold override. cbn zeta. by destruct (parseMode _), (_ =s _). Qed.

Lemma add_meta_keeps pm : keeps (fun root => add_meta parse_rfc3339 parse_date now root pm).
Proof.
  intros d Hd Hdir. unfold add_meta, modifyNode.
  assert (forall n, fs_wf n -> fs_wf (override parse_rfc3339 parse_date now pm.2 n) /\
    name (override parse_rfc3339 parse_date now pm.2 n) = name n /\
    (IsDir n = true -> IsDir (override parse_rfc3339 parse_date now pm.2 n) = true)) as Hov.
  { intros n Hn. destruct (override_children n pm.2) as [Hc Hnm].
    split_and!; [| done | by rewrite override_type].
    apply (fs_wf_meta n); [done | done | by rewrite override_type]. }
  destruct (_ =s _).
  - destruct (Hov d Hd) as (? & ? & ?). auto.
  - destruct (modify_in_keeps _ (splitPath (cleanAbs pm.1)) d Hov Hd) as (? & ? & ?). auto.
Qed.

Lemma abs_path_step cs c : abs_path cs ++ slash :: c = abs_path (cs ++ [c]) \/ cs = [].
Proof. destruct cs; [by right | left]. by rewrite abs_path_snoc. Qed.

(** [WalkDir] passes ["/a/b"] for the entry [b] of [a]; the tree's root is the
    empty prefix. *)
Definition walk_prefix (cs : list str) : str := match cs with [] => [] | _ => abs_path cs end.

Lemma walk_prefix_snoc cs c : walk_prefix cs ++ slash :: c = walk_prefix (cs ++ [c]).
Proof.
  destruct cs as [| x cs]; [done |]. cbn [walk_prefix app].
  change (x :: cs ++ [c]) with ((x :: cs) ++ [c]). by rewrite abs_path_snoc.
Qed.

Lemma walk_prefix_abs cs c : walk_prefix (cs ++ [c]) = abs_path (cs ++ [c]).
Proof. by destruct cs. Qed.

Lemma walk_tree_keeps m t cs :
  etree_ok t -> Forall good_comp cs -> match t with EFile _ => cs <> [] | EDir _ => True end ->
  keeps (walk_tree transform (new_loader parse_rfc3339 parse_date now m) (walk_prefix cs) t).
Proof.
  set (ld := new_loader parse_rfc3339 parse_date now m).
  revert t cs. fix IH 1. intros t cs Ht Hg Hroot. destruct t as [body | ents]; cbn [walk_tree].
  { destruct cs as [| c ds _] using rev_ind; [done |].
    rewrite walk_prefix_abs. by apply addFile_keeps. }
  assert (Forall (fun e => good_comp e.1 /\ etree_ok e.2) ents) as Hents by by inversion Ht.
  clear Ht. revert ents Hents. fix IHe 1. intros [| [nm t] ents] Hents; [apply keeps_id |].
  apply Forall_cons in Hents as [[Hnm Ht] Hents]. cbn [fst snd] in Hnm, Ht.
  specialize (IHe ents Hents). destruct (skipped nm); [exact IHe |].
  rewrite walk_prefix_snoc.
  assert (Forall good_comp (cs ++ [nm])) as Hg' by (apply Forall_app; auto).
  assert (keeps (walk_tree transform ld (walk_prefix (cs ++ [nm])) t)) as Hw.
  { apply IH; [done | done | destruct t; [by destruct cs | done]]. }
  intros d Hd Hdir.
  refine (keeps_comp (fun d => walk_tree transform ld (walk_prefix (cs ++ [nm])) t
            (match t with EDir _ => ensureDir ld (walk_prefix (cs ++ [nm])) id d | EFile _ => d end))
            _ _ IHe d Hd Hdir).
  clear d Hd Hdir. destruct t; [exact Hw |].
  apply (keeps_comp (ensureDir ld (walk_prefix (cs ++ [nm])) id)); [| exact Hw].
  rewrite walk_prefix_abs. apply ensureDir_keeps; [done | apply keeps_id].
Qed.

Lemma build_wf m tree :
  etree_ok (EDir tree) -> manifest_ok m ->
  let root := build parse_rfc3339 parse_date transform now m tree in
  fs_wf root /\ IsDir root = true.
Proof.
  intros Ht [Hb Hl]. unfold build. cbn zeta.
  set (ld := new_loader parse_rfc3339 parse_date now m).
  assert (keeps (fun root =>
    foldl (add_meta parse_rfc3339 parse_date now)
      (foldl (add_link ld) (foldl (add_binaries ld)
         (foldl (add_dir ld) (walk_tree transform ld [] (EDir tree) root) (m_dirs m))
         (m_binaries m)) (m_links m)) (m_meta m))) as Hk.
  { repeat first
      [ apply (keeps_comp _ (fun d => foldl _ d _)); [| apply keeps_foldl]
      | apply (walk_tree_keeps m (EDir tree) []); done ].
    - apply Forall_true. intros de. apply add_dir_keeps.
    - eapply Forall_impl; [exact Hb |]. intros bg. apply add_binaries_keeps.
    - eapply Forall_impl; [exact Hl |]. intros le. apply add_link_keeps.
    - apply Forall_true. intros pm. apply add_meta_keeps. }
  destruct (Hk (root_node ld)) as (H1 & H2 & _); [by apply fs_wf_leaf | done | done].
Qed.

End load_wf.

(** * Witness *)

Definition demo_embedded : list (str * etree) :=
  [($$"etc", EDir [($$"passwd", EFile $$"root:x:0:0")]); ($$"manifest.json", EFile $$"{}")].
Definition demo_manifest : manifest :=
  Manifest (ManifestDefaults 0 0 [] [] [] [] []) [($$"/etc", MetaOverride $$"700" None None [] [] [])]
    [DirEntry $$"/tmp" $$"1777" [] [] None None] [LinkEntry $$"/bin" $$"usr/bin"]
    [BinGroup $$"/usr/bin" [$$"ls"; $$"cat"] [] 0].

