(* ===== verification/VfsGraft.v ===== *)
(** * VfsGraft: the effect of placing files and overriding metadata

    [Place_spec] is the lookup-after-update law of the base tree, frame
    included; [graftLoot_spec] is its use for the per-instance loot directory. *)

From S2P Require Import Prelude GoStrings Paths VfsNode VfsSession VfsFacts VfsSpec VfsCoherence VfsLoad VfsLoadFacts.

(** ** Lookups after [ensure_in] *)

Lemma get_in_app a b nd :
  get_in (a ++ b) nd = match get_in a nd with Some c => get_in b c | None => None end.
Proof.
  revert nd. induction a as [| x a IH]; intros nd; simpl; [done |].
  destruct (children nd !! x); [apply IH | done].
Qed.

Lemma ensure_in_get mk k parts nd :
  exists d, get_in parts (ensure_in mk k parts nd) = Some (k d).
Proof.
  revert nd. induction parts as [| nm rest IH]; intros nd; simpl; [eauto |].
  rewrite lookup_insert_eq. apply IH.
Qed.

(** The directory found at the end of the path is the one that was there. *)
Lemma ensure_in_reached mk k parts nd d :
  makes_dir mk -> get_in parts nd = Some d -> IsDir d = true -> fs_wf nd ->
  get_in parts (ensure_in mk k parts nd) = Some (k d).
Proof.
  intros Hmk. revert nd. induction parts as [| nm rest IH]; intros nd; simpl; [congruence |].
  rewrite lookup_insert_eq. destruct (children nd !! nm) as [c |] eqn:E; [| done].
  intros Hg Hd Hwf. destruct (fs_wf_child nd nm c Hwf E) as [Hc _].
  destruct (IsDir c) eqn:Ec; [by apply IH |].
  destruct rest as [| nm2 rest]; [simpl in Hg; congruence |].
  inversion Hc as [c' [? | Hem] _ _]; [congruence |]. simpl in Hg. by rewrite Hem in Hg.
Qed.

(** Paths that leave [parts] before its end. *)
Inductive diverges : list str -> list str -> Prop :=
| diverge_here a b as' bs : a <> b -> diverges (a :: as') (b :: bs)
| diverge_later a as' bs : diverges as' bs -> diverges (a :: as') (a :: bs).

Lemma ensure_in_frame mk k parts nd ds :
  makes_dir mk -> fs_wf nd -> diverges ds parts ->
  get_in ds (ensure_in mk k parts nd) = get_in ds nd.
Proof.
  intros Hmk. revert nd ds. induction parts as [| nm rest IH]; intros nd ds Hwf Hdiv;
    [by inversion Hdiv |].
  inversion Hdiv as [a b as' bs Hab | a as' bs Hd]; subst; simpl.
  - by rewrite lookup_insert_ne.
  - rewrite lookup_insert_eq. destruct (Hmk nm) as (M1 & M2 & M3).
    assert (get_in as' (mk nm) = None) as Hmn.
    { inversion Hd; subst; simpl; by rewrite M1. }
    destruct (children nd !! nm) as [c |] eqn:E.
    + destruct (fs_wf_child nd nm c Hwf E) as [Hc _]. destruct (IsDir c) eqn:Ec; [by apply IH |].
      rewrite IH, Hmn by (first [assumption | by apply fs_wf_leaf]).
      inversion Hc as [c' [? | Hem] _ _]; [congruence |].
      inversion Hd; subst; simpl; by rewrite Hem.
    + rewrite IH, Hmn by (first [assumption | by apply fs_wf_leaf]). done.
Qed.

Lemma diverges_snoc ds cs c :
  diverges ds (cs ++ [c]) -> diverges ds cs \/ exists x ds', ds = cs ++ x :: ds' /\ x <> c.
Proof.
  revert ds. induction cs as [| y cs IH]; intros ds H; simpl in H.
  - inversion H as [a b as' bs Hab | a as' bs Hd]; subst; [right; eauto | by inversion Hd].
  - inversion H as [a b as' bs Hab | a as' bs Hd]; subst.
    + left. by constructor.
    + destruct (IH _ Hd) as [? | (x & ds' & -> & ?)]; [left; by constructor | right; by exists x, ds'].
Qed.

(** A file or directory set below the directory [cs], and every other path. *)
Lemma ensure_child_frame mk (f : node -> node) cs c nd ds :
  makes_dir mk -> fs_wf nd -> diverges ds (cs ++ [c]) ->
  get_in ds (ensure_in mk (fun d => set_child d c (f d)) cs nd) = get_in ds nd.
Proof.
  intros Hmk Hwf Hdiv. destruct (diverges_snoc ds cs c Hdiv) as [? | (x & ds' & -> & Hx)].
  { by apply ensure_in_frame. }
  clear Hdiv. revert nd Hwf. induction cs as [| nm rest IH]; intros nd Hwf; simpl.
  - by rewrite lookup_insert_ne.
  - rewrite lookup_insert_eq. destruct (Hmk nm) as (M1 & M2 & M3).
    assert (get_in (rest ++ x :: ds') (mk nm) = None) as Hmn by (destruct rest; simpl; by rewrite M1).
    assert (fs_wf (mk nm)) by by apply fs_wf_leaf.
    destruct (children nd !! nm) as [ch |] eqn:E; [| by rewrite IH, Hmn].
    destruct (fs_wf_child nd nm ch Hwf E) as [Hc _]. destruct (IsDir ch) eqn:Ec; [by apply IH |].
    rewrite IH, Hmn by done.
    inversion Hc as [c' [? | Hem] _ _]; [congruence |]. destruct rest; simpl; by rewrite Hem.
Qed.

Lemma getNode_abs root cs : Forall good_comp cs -> getNode root (abs_path cs) = get_in cs root.
Proof.
  intros Hg. unfold getNode. destruct (_ =s _) eqn:E.
  - bool_hyps. by rewrite (abs_path_root_iff cs E Hg).
  - by rewrite splitPath_abs.
Qed.

Lemma mkdirAll_abs cs k root :
  Forall good_comp cs ->
  mkdirAll (abs_path cs) k root =
  ensure_in (fun nm => Node nm (Z.lor ModeDir 493) 0 0 (uname root) (gname root) (mtime root)
                         [] [] false 0 ∅) k cs root.
Proof.
  intros Hg. unfold mkdirAll. rewrite cleanAbs_abs, splitPath_abs by done.
  destruct (_ || _) eqn:E; [| done]. apply orb_true_iff in E as [E | E]; bool_hyps.
  - by rewrite (abs_path_root_iff cs E Hg).
  - done.
Qed.

Definition placed_file (c body : str) (md : Z) (un gn : str) (mt : Z) : node :=
  Node c md 0 0 un gn mt body [] false 0 ∅.

Lemma Place_abs cs c body md un gn mt root p :
  Forall good_comp (cs ++ [c]) -> cleanAbs p = abs_path (cs ++ [c]) ->
  Place p body md un gn mt root =
  ensure_in (fun nm => Node nm (Z.lor ModeDir 493) 0 0 (uname root) (gname root) (mtime root)
                         [] [] false 0 ∅)
    (fun d => set_child d c (placed_file c body md un gn mt)) cs root.
Proof.
  intros Hg E. unfold Place. rewrite E, abs_path_eqb_root by done.
  apply good_snoc in Hg as [Hcs Hc]. by rewrite parentDir_snoc, baseName_snoc, mkdirAll_abs.
Qed.

Lemma makes_conventional root :
  makes_dir (fun nm => Node nm (Z.lor ModeDir 493) 0 0 (uname root) (gname root) (mtime root)
                         [] [] false 0 ∅).
Proof. done. Qed.

Lemma Place_effect p body md un gn mt root cs c :
  fs_wf root -> cleanAbs p = abs_path (cs ++ [c]) -> Forall good_comp (cs ++ [c]) ->
  getNode (Place p body md un gn mt root) (cleanAbs p) = Some (placed_file c body md un gn mt) /\
  forall ds, Forall good_comp ds -> diverges ds (cs ++ [c]) ->
    getNode (Place p body md un gn mt root) (abs_path ds) = getNode root (abs_path ds).
Proof.
  intros Hwf E Hg. rewrite (Place_abs cs c) by done. split.
  - rewrite E, getNode_abs, get_in_app by done.
    destruct (ensure_in_get (fun nm => Node nm (Z.lor ModeDir 493) 0 0 (uname root) (gname root)
       (mtime root) [] [] false 0 ∅)
       (fun d => set_child d c (placed_file c body md un gn mt)) cs root) as [d ->].
    simpl. by rewrite lookup_insert_eq.
  - intros ds Hds Hdiv. rewrite !getNode_abs by done.
    by apply (ensure_child_frame _ (fun _ => placed_file c body md un gn mt)).
Qed.

(** placing a file at any path other than the root makes exactly that file
    readable there, whatever was in the way, and no path that branches off
    elsewhere changes. *)
Theorem Place_spec p body md un gn mt root cs c :
  fs_wf root -> cleanAbs p = abs_path (cs ++ [c]) -> Forall good_comp (cs ++ [c]) ->
  getNode (Place p body md un gn mt root) (cleanAbs p) = Some (placed_file c body md un gn mt) /\
  forall ds, Forall good_comp ds -> diverges ds (cs ++ [c]) ->
    getNode (Place p body md un gn mt root) (abs_path ds) = getNode root (abs_path ds).
Proof. apply Place_effect. Qed.

(** ** The loot directory *)

Lemma cleanAbs_snoc p c :
  p <> [] -> good_comp c ->
  exists cs, Forall good_comp cs /\ cleanAbs p = abs_path cs /\
    cleanAbs (p ++ slash :: c) = abs_path (cs ++ [c]).
Proof.
  intros Hp Hc. unfold cleanAbs.
  assert (has_prefix (p ++ slash :: c) [slash] = has_prefix p [slash]) as -> by (by destruct p).
  set (q := if has_prefix p [slash] then p else slash :: p).
  assert (has_prefix q [slash] = true) as Hq.
  { unfold q. destruct (has_prefix p [slash]) eqn:E; done. }
  assert ((if has_prefix p [slash] then p ++ slash :: c else slash :: p ++ slash :: c) = q ++ slash :: c)
    as -> by (unfold q; by destruct (has_prefix p [slash])).
  assert (has_prefix (q ++ slash :: c) [slash] = true) as Hq' by (by destruct q).
  exists (comps_of q). split; [apply comps_of_good |].
  rewrite !path_clean_rooted by done. split; [done |]. f_equal. unfold comps_of.
  rewrite split_byte_sep, (split_byte_no slash c) by apply Hc. by rewrite clean_comps_app.
Qed.

Lemma Place_wf p body md un gn mt root :
  fs_wf root -> IsDir root = true ->
  fs_wf (Place p body md un gn mt root) /\ IsDir (Place p body md un gn mt root) = true.
Proof.
  intros Hwf Hd. destruct (cleanAbs_canonical p) as (ds & Hg & E).
  destruct ds as [| c cs _] using rev_ind.
  { unfold Place. rewrite E. done. }
  rewrite (Place_abs cs c) by done. apply good_snoc in Hg as [Hcs Hc].
  destruct (ensure_in_keeps _ (fun d => set_child d c (placed_file c body md un gn mt)) cs
    (makes_conventional root) (keeps_leaf c (placed_file c body md un gn mt) Hc eq_refl eq_refl) Hcs
    root Hwf Hd) as (? & ? & _).
  by split.
Qed.

Lemma FS_Mkdir_wf p md un gn mt root :
  fs_wf root -> IsDir root = true ->
  fs_wf (FS_Mkdir p md un gn mt root) /\ IsDir (FS_Mkdir p md un gn mt root) = true.
Proof.
  intros Hwf Hd. unfold FS_Mkdir. cbn zeta.
  destruct (cleanAbs_canonical p) as (ds & Hg & ->).
  destruct ds as [| c cs _] using rev_ind; [done |].
  rewrite abs_path_eqb_root by done. apply good_snoc in Hg as [Hcs Hc].
  rewrite parentDir_snoc, baseName_snoc, mkdirAll_abs by done.
  set (k := fun parent => set_child parent c _).
  enough (keeps k) as Hk.
  { destruct (ensure_in_keeps _ k cs (makes_conventional root) Hk Hcs root Hwf Hd) as (? & ? & _).
    by split. }
  unfold k. apply (keeps_set_child c); [exact Hc |]. intros d Hwfd.
  assert (forall n, fs_wf n -> fs_wf (set_mtime (set_owner (set_mode n (Z.lor ModeDir md))
    (uid n) (gid n) un gn) mt)) as Hset.
  { intros n Hn. apply (fs_wf_meta n); [exact Hn | done |]. intros _. apply (lor_dir_IsDir n md). }
  destruct (children d !! c) as [n |] eqn:E.
  - destruct (fs_wf_child d c n Hwfd E) as [Hn Hnm].
    destruct (IsDir n); (split; [apply Hset; first [exact Hn | by apply fs_wf_leaf] | first [exact Hnm | reflexivity]]).
  - split; [apply Hset; by apply fs_wf_leaf | reflexivity].
Qed.

Lemma diverges_sibling cs a b : a <> b -> diverges (cs ++ [a]) (cs ++ [b]).
Proof. intros Hab. induction cs; simpl; by constructor. Qed.

Section place_all.
Context {A : Type} (nm_of : A -> str) (dir : str) (body : A -> str) (md : Z) (un gn : str)
  (mt : A -> Z).

Definition place_one (root : node) (a : A) : node :=
  Place (dir ++ slash :: nm_of a) (body a) md un gn (mt a) root.

Lemma place_all_wf l root :
  fs_wf root -> IsDir root = true ->
  fs_wf (foldl place_one root l) /\ IsDir (foldl place_one root l) = true.
Proof.
  revert root. induction l as [| a l IH]; intros root Hwf Hd; simpl; [by split |].
  destruct (Place_wf (dir ++ slash :: nm_of a) (body a) md un gn (mt a) root Hwf Hd). by apply IH.
Qed.

Lemma place_all_get cs l root a :
  dir <> [] -> cleanAbs dir = abs_path cs -> Forall good_comp cs ->
  Forall (fun a => good_comp (nm_of a)) l -> NoDup (map nm_of l) ->
  fs_wf root -> IsDir root = true -> a ∈ l ->
  getNode (foldl place_one root l) (abs_path (cs ++ [nm_of a])) =
    Some (placed_file (nm_of a) (body a) md un gn (mt a)).
Proof.
  intros Hdir Hcl Hcs Hg Hnd Hwf Hd. revert a.
  induction l as [| b l IH] using rev_ind; intros a Ha; [by apply not_elem_of_nil in Ha |].
  apply Forall_app in Hg as [Hgl Hgb]. inversion_clear Hgb as [| ? ? Hgb' _]. rename Hgb' into Hgb.
  rewrite map_app in Hnd. apply NoDup_app in Hnd as (Hndl & Hdisj & _).
  rewrite foldl_app. cbn [foldl].
  destruct (place_all_wf l root Hwf Hd) as [Hwf' Hd'].
  destruct (cleanAbs_snoc dir (nm_of b) Hdir Hgb) as (cs' & Hcs' & E1 & E2).
  assert (cs' = cs) as -> by (apply abs_path_inj; congruence).
  assert (Forall good_comp (cs ++ [nm_of b])) as Hgs by (apply Forall_app; auto).
  destruct (Place_effect (dir ++ slash :: nm_of b) (body b) md un gn (mt b) (foldl place_one root l)
    cs (nm_of b) Hwf' E2 Hgs) as [Hat Hframe].
  apply elem_of_app in Ha as [Ha | ->%list_elem_of_singleton].
  - assert (good_comp (nm_of a)) by (rewrite Forall_forall in Hgl; by apply Hgl).
    unfold place_one at 1. rewrite Hframe.
    + by apply IH.
    + apply Forall_app; auto.
    + apply diverges_sibling. intros Heq. apply (Hdisj (nm_of a)).
      * by apply list_elem_of_fmap_2.
      * rewrite Heq. set_solver.
  - unfold place_one at 1. by rewrite <- E2.
Qed.
End place_all.

Definition bait_data (png jpg nm : str) : str :=
  if has_suffix nm $$".jpg" || has_suffix nm $$".jpeg" then jpg else png.

(** grafting the loot directory plants every bait, under its own name and
    with the picture its extension promises, as a root-owned 0600 file in the
    persona's loot directory, whatever that path looks like. *)
Theorem graftLoot_spec png jpg now lootPath root i nm :
  fs_wf root -> IsDir root = true -> lootPath <> [] -> baitNames !! i = Some nm ->
  let t := graftLoot png jpg now lootPath root in
  getNode t (cleanAbs (lootPath ++ slash :: nm)) =
    Some (placed_file nm (bait_data png jpg nm) 384 $$"root" $$"root"
            (now - (5 * 24 - Z.of_nat i * 7) * (3600 * second))) /\
  fs_wf t.
Proof.
  intros Hwf Hd Hl Hi t.
  assert (Forall good_comp baitNames) as Hgb by by apply (bool_decide_unpack _); vm_compute.
  assert (good_comp nm) as Hnm by (rewrite Forall_lookup in Hgb; eauto).
  destruct (cleanAbs_snoc lootPath nm Hl Hnm) as (cs & Hcs & E1 & E2). rewrite E2.
  unfold t, graftLoot. destruct lootPath as [| x lp]; [done |].
  destruct (FS_Mkdir_wf (x :: lp) 448 $$"root" $$"root" (now - 6 * 24 * (3600 * second)) root Hwf Hd)
    as [Hwf1 Hd1].
  set (root1 := FS_Mkdir _ _ _ _ _ _) in *. cbn zeta.
  set (mt := fun ib : nat * str => now - (5 * 24 - Z.of_nat ib.1 * 7) * (3600 * second)).
  set (body := fun ib : nat * str => bait_data png jpg ib.2).
  assert (foldl (place_one snd (x :: lp) body 384 $$"root" $$"root" mt) root1
            (zip (seq 0 (length baitNames)) baitNames) =
          foldl (fun root ib => let '(i, nm) := ib in
               Place ((x :: lp) ++ slash :: nm)
                 (if has_suffix nm $$".jpg" || has_suffix nm $$".jpeg" then jpg else png)
                 384 $$"root" $$"root"
                 (now - (5 * 24 - Z.of_nat i * 7) * (3600 * second)) root)
            root1 (zip (seq 0 (length baitNames)) baitNames)) as <-.
  { generalize root1, (zip (seq 0 (length baitNames)) baitNames). intros r l. revert r.
    induction l as [| [j b] l IH]; intros r; [done |]. cbn [foldl]. by rewrite <- IH. }
  split; [| by apply place_all_wf].
  rewrite (place_all_get snd (x :: lp) body 384 $$"root" $$"root" mt cs _ root1 (i, nm)); try done.
  - by apply (bool_decide_unpack _); vm_compute.
  - by apply (bool_decide_unpack _); vm_compute.
  - apply list_elem_of_lookup. exists i. rewrite lookup_zip_with, Hi.
    rewrite lookup_seq_lt; [done |]. by apply lookup_lt_Some in Hi.
Qed.

(** ** Metadata overrides *)

Section meta.
Context (f g : node -> node)
  (f_child : forall n k c, f (set_child n k c) = set_child (f n) k c)
  (g_child : forall n k c, g (set_child n k c) = set_child (g n) k c)
  (f_children : forall n, children (f n) = children n)
  (g_children : forall n, children (g n) = children n).

Lemma modify_in_commute p q nd :
  p <> q -> modify_in f p (modify_in g q nd) = modify_in g q (modify_in f p nd).
Proof.
  revert q nd. induction p as [| x p IH]; intros [| y q] nd Hne; simpl; [done | | |].
  - rewrite f_children. destruct (children nd !! y); [by rewrite f_child | done].
  - rewrite g_children. destruct (children nd !! x); [by rewrite g_child | done].
  - destruct (decide (x = y)) as [<- | Hxy].
    + destruct (children nd !! x) as [c |] eqn:E; [| by rewrite E].
      cbn [children set_child]. rewrite !lookup_insert_eq.
      rewrite IH by congruence. unfold set_child. cbn. by rewrite !insert_insert_eq.
    + destruct (children nd !! y) as [cy |] eqn:Ey, (children nd !! x) as [cx |] eqn:Ex;
        cbn [children set_child]; rewrite ?lookup_insert_ne, ?Ex, ?Ey by done; try done.
      unfold set_child. cbn. by rewrite insert_insert_ne.
Qed.
End meta.

Section meta_order.
Context (parse_rfc3339 parse_date : str -> option Z) (now : Z).
Notation over := (override parse_rfc3339 parse_date now).

Lemma override_child ov n k c : over ov (set_child n k c) = set_child (over ov n) k c.
Proof. unfold override. cbn zeta. by destruct (parseMode _), (_ =s _). Qed.

Lemma modifyNode_abs f root cs :
  Forall good_comp cs -> modifyNode f (abs_path cs) root = modify_in f cs root.
Proof.
  intros Hg. unfold modifyNode. destruct (_ =s _) eqn:E.
  - bool_hyps. by rewrite (abs_path_root_iff cs E Hg).
  - by rewrite splitPath_abs.
Qed.

Lemma add_meta_commute a b root :
  cleanAbs a.1 <> cleanAbs b.1 ->
  add_meta parse_rfc3339 parse_date now (add_meta parse_rfc3339 parse_date now root a) b =
  add_meta parse_rfc3339 parse_date now (add_meta parse_rfc3339 parse_date now root b) a.
Proof.
  unfold add_meta. destruct (cleanAbs_canonical a.1) as (cs & Hcs & ->),
    (cleanAbs_canonical b.1) as (ds & Hds & ->). intros Hne.
  rewrite !modifyNode_abs by done. apply modify_in_commute; try congruence;
    first [intros; apply override_child | intros; by apply override_children].
Qed.

(** Go visits the manifest's [meta] map in an unspecified order; when no two
    keys name the same path the loaded tree does not depend on it. *)
Theorem meta_order_irrelevant transform m meta' tree :
  NoDup (map (fun pm => cleanAbs pm.1) (m_meta m)) -> Permutation (m_meta m) meta' ->
  build parse_rfc3339 parse_date transform now m tree =
  build parse_rfc3339 parse_date transform now
    (Manifest (m_defaults m) meta' (m_dirs m) (m_links m) (m_binaries m)) tree.
Proof.
  intros Hnd Hp. unfold build. cbn [m_defaults m_meta m_dirs m_links m_binaries new_loader].
  change (new_loader parse_rfc3339 parse_date now (Manifest (m_defaults m) meta' (m_dirs m) (m_links m) (m_binaries m)))
    with (new_loader parse_rfc3339 parse_date now m).
  cbn zeta. generalize (foldl (add_link (new_loader parse_rfc3339 parse_date now m))
    (foldl (add_binaries (new_loader parse_rfc3339 parse_date now m))
     (foldl (add_dir (new_loader parse_rfc3339 parse_date now m))
       (walk_tree transform (new_loader parse_rfc3339 parse_date now m) [] (EDir tree)
          (root_node (new_loader parse_rfc3339 parse_date now m))) (m_dirs m)) (m_binaries m)) (m_links m)).
  revert Hnd Hp. generalize (m_meta m). intros meta Hnd Hp.
  induction Hp as [| a l l' Hp IH | a b l | l l' l'' H1 IH1 H2 IH2]; intros root; simpl; [done | | |].
  - inversion Hnd; subst. by apply IH.
  - inversion Hnd as [| ? ? Hin _]; subst. rewrite add_meta_commute; [done |].
    intros E. apply Hin. simpl. rewrite E. set_solver.
  - rewrite IH1 by done. apply IH2. by rewrite <- H1.
Qed.
End meta_order.

(** * Witnesses *)

Lemma demo_root_fs_wf : fs_wf demo_root /\ IsDir demo_root = true.
Proof.
  assert (demo_root = set_child (set_child (demo_dir [slash] ∅) $$"etc"
    (set_child (demo_dir $$"etc" ∅) $$"passwd" (demo_file $$"passwd" $$"root:x:0:0"))) $$"tmp"
    (demo_dir $$"tmp" ∅)) as -> by done.
  split; [| done].
  repeat first [apply fs_wf_set_child | by apply fs_wf_leaf
               | by apply (bool_decide_unpack _); vm_compute | reflexivity].
Qed.

Lemma Place_spec_witness :
  let t := Place $$"/srv/../opt/a/b" $$"x" 420 $$"root" $$"root" 0 demo_root in
  getNode t $$"/opt/a/b" = Some (placed_file $$"b" $$"x" 420 $$"root" $$"root" 0) /\
  forall ds, Forall good_comp ds -> diverges ds ([$$"opt"; $$"a"] ++ [$$"b"]) ->
    getNode t (abs_path ds) = getNode demo_root (abs_path ds).
Proof.
  apply (Place_spec $$"/srv/../opt/a/b" $$"x" 420 $$"root" $$"root" 0 demo_root [$$"opt"; $$"a"] $$"b").
  - apply demo_root_fs_wf.
  - by vm_compute.
  - by apply (bool_decide_unpack _); vm_compute.
Defined.

Lemma graftLoot_spec_witness :
  let t := graftLoot $$"P" $$"J" 0 $$"/srv/.private" demo_root in
  getNode t (cleanAbs ($$"/srv/.private" ++ slash :: $$"ssl_private_backup.jpg")) =
    Some (placed_file $$"ssl_private_backup.jpg" (bait_data $$"P" $$"J" $$"ssl_private_backup.jpg") 384
            $$"root" $$"root" (0 - (5 * 24 - 4 * 7) * (3600 * second))) /\ fs_wf t.
Proof.
  apply (graftLoot_spec $$"P" $$"J" 0 $$"/srv/.private" demo_root 4%nat);
    [apply demo_root_fs_wf | apply demo_root_fs_wf | done | done].
Defined.

Lemma meta_order_irrelevant_witness :
  let a := ($$"/etc", MetaOverride $$"700" None None [] [] []) in
  let b := ($$"/etc/passwd", MetaOverride $$"600" None None [] [] []) in
  let m := Manifest (m_defaults demo_manifest) [a; b] [] [] [] in
  build (fun _ => None) (fun _ => None) (fun _ x => x) 0 m demo_embedded =
  build (fun _ => None) (fun _ => None) (fun _ x => x) 0
    (Manifest (m_defaults m) [b; a] (m_dirs m) (m_links m) (m_binaries m)) demo_embedded.
Proof.
  intros a b m. apply (meta_order_irrelevant (fun _ => None) (fun _ => None) 0 (fun _ x => x) m [b; a]).
  - by apply (bool_decide_unpack _); vm_compute.
  - apply perm_swap.
Defined.
