(* ===== verification/Parse.v ===== *)
(** * Parse: command lines to pipelines (internal/shell/parse.go)

    [tokenize] and [parse] are the two functions of the same name.  The token
    loop runs on the remaining bytes with [cur] and [has] as its builder and
    flag; every iteration consumes a byte, so [length line] iterations are
    enough ([tokenize_total]). *)

From S2P Require Import Prelude GoStrings.

Record stage : Type := Stage {
  args : list str;
  assigns : gmap str str;
  outNull : bool;
  outFile : str;
  appendT : bool
}.
Record statement : Type := Statement { stages : list stage; chain : str }.
Record token : Type := Token { val : str; is_op : bool }.

Definition word (s : str) : token := Token s false.
Definition opr (s : str) : token := Token s true.

(** ** Tokens *)

(** Bytes up to the next [c], and what follows that [c] ([None] when the line
    ends first). *)
Fixpoint until (c : ascii) (s : str) : str * option str :=
  match s with
  | [] => ([], None)
  | x :: s' =>
      if bool_decide (x = c) then ([], Some s')
      else let '(a, r) := until c s' in (x :: a, r)
  end.

(** The body of a substitution up to and including the parenthesis that closes
    [depth] open ones. *)
Fixpoint balanced (depth : nat) (s : str) : str * str :=
  match depth, s with
  | O, _ => ([], s)
  | _, [] => ([], [])
  | S d, x :: s' =>
      let depth' := if bool_decide (x = "("%char) then S (S d)
                    else if bool_decide (x = ")"%char) then d else S d in
      let '(a, r) := balanced depth' s' in (x :: a, r)
  end.

Definition nl : ascii := zb 10.
Definition cr : ascii := zb 13.
Definition tab : ascii := zb 9.
Definition dquote : ascii := zb 34.
Definition backtick : ascii := "`"%char.

Definition flush (has : bool) (cur : str) : list token := if has then [word cur] else [].

(** One iteration: the tokens it appends, the builder, the flag and the rest. *)
Definition tok_step (c : ascii) (s' cur : str) (has : bool) : list token * str * bool * str :=
  let eqc x := bool_decide (c = x) in
  let next_is x := match s' with y :: _ => bool_decide (y = x) | [] => false end in
  let op o n := (flush has cur ++ [opr o], [], false, drop n s') in
  if eqc " "%char || eqc tab then (flush has cur, [], false, s')
  else if eqc nl || eqc cr then op $$";" 0%nat
  else if eqc "("%char || eqc ")"%char then (flush has cur ++ [word [c]], [], false, s')
  else if eqc "'"%char then
    let '(a, r) := until "'"%char s' in ([], cur ++ a, true, default [] r)
  else if eqc dquote then
    let '(a, r) := until dquote s' in ([], cur ++ a, true, default [] r)
  else if eqc "|"%char then
    if next_is "|"%char then op $$"||" 1%nat else op $$"|" 0%nat
  else if eqc "&"%char then
    if next_is "&"%char then op $$"&&" 1%nat
    else if next_is ">"%char then op $$"&>" 1%nat
    else (flush has cur, [], false, s')
  else if eqc ";"%char then op $$";" 0%nat
  else if eqc ">"%char then
    if next_is ">"%char then op $$">>" 1%nat else op $$">" 0%nat
  else if eqc "<"%char then op $$"<" 0%nat
  else if eqc "2"%char && (2 <=? zlen s') && next_is ">"%char then
    if has_prefix s' $$">&1" then op $$"2>&1" 3%nat else op $$"2>" 1%nat
  else if eqc "$"%char && next_is "("%char then
    let '(a, r) := balanced 1 (drop 1 s') in ([], cur ++ "$"%char :: "("%char :: a, true, r)
  else if eqc backtick then
    let '(a, r) := until backtick s' in
    ([], cur ++ backtick :: a ++ match r with Some _ => [backtick] | None => [] end, true, default [] r)
  else ([], cur ++ [c], true, s').

Fixpoint tok_loop (fuel : nat) (s cur : str) (has : bool) : option (list token) :=
  match s with
  | [] => Some (flush has cur)
  | c :: s' =>
      match fuel with
      | O => None
      | S f =>
          let '(out, cur', has', rest) := tok_step c s' cur has in
          app out <$> tok_loop f rest cur' has'
      end
  end.

Definition tokenize (line : str) : list token := default [] (tok_loop (length line) line [] false).

(** ** Statements *)

Definition name_byte (first : bool) (c : ascii) : bool :=
  bool_decide (c = "_"%char) || in_range c 65 90 || in_range c 97 122 || (negb first && is_digit c).
Definition valid_name (nm : str) : bool :=
  match nm with
  | [] => true
  | c :: r => name_byte true c && forallb (name_byte false) r
  end.

Definition splitAssign (s : str) : option (str * str) :=
  match index_byte s "="%char with
  | None | Some O => None
  | Some eq => if valid_name (take eq s) then Some (take eq s, drop (S eq) s) else None
  end.

Definition empty_stage : stage := Stage [] ∅ false [] false.

Definition finishStage (stg : stage) (cur : list stage) : list stage :=
  if (0 <? zlen (args stg)) || negb (bool_decide (assigns stg = ∅)) then cur ++ [stg] else cur.
Definition finishStmt (ch : str) (stg : stage) (cur : list stage) (stmts : list statement)
    : list statement :=
  match finishStage stg cur with
  | [] => stmts
  | st => stmts ++ [Statement st ch]
  end.

Definition grouping (v : str) : bool :=
  (v =s $$"(") || (v =s $$")") || (v =s $$"{") || (v =s $$"}").

Definition redirect (stg : stage) (op target : str) : stage :=
  if target =s $$"/dev/null" then Stage (args stg) (assigns stg) true (outFile stg) (appendT stg)
  else Stage (args stg) (assigns stg) (outNull stg) target (op =s $$">>").

(** The token loop of [parse]; the last argument is the token list from [i]. *)
Fixpoint parse_loop (stg : stage) (cur : list stage) (stmts : list statement) (toks : list token)
    : list statement :=
  match toks with
  | [] => finishStmt [] stg cur stmts
  | t :: rest =>
      if negb (is_op t) then
        if grouping (val t) then parse_loop stg cur stmts rest
        else
          match (match args stg with [] => splitAssign (val t) | _ => None end) with
          | Some (k, v) =>
              parse_loop (Stage (args stg) (<[k := v]> (assigns stg)) (outNull stg) (outFile stg) (appendT stg))
                cur stmts rest
          | None =>
              parse_loop (Stage (args stg ++ [val t]) (assigns stg) (outNull stg) (outFile stg) (appendT stg))
                cur stmts rest
          end
      else if val t =s $$"|" then parse_loop empty_stage (finishStage stg cur) stmts rest
      else if (val t =s $$";") || (val t =s $$"&&") || (val t =s $$"||") then
        parse_loop empty_stage [] (finishStmt (val t) stg cur stmts) rest
      else if (val t =s $$">") || (val t =s $$">>") || (val t =s $$"&>") then
        match rest with
        | target :: rest' => parse_loop (redirect stg (val t) (val target)) cur stmts rest'
        | [] => parse_loop stg cur stmts rest
        end
      else if (val t =s $$"2>") || (val t =s $$"<") then
        match rest with
        | _ :: rest' => parse_loop stg cur stmts rest'
        | [] => parse_loop stg cur stmts rest
        end
      else parse_loop stg cur stmts rest
  end.

Definition parse (line : str) : list statement := parse_loop empty_stage [] [] (tokenize line).

(** * Theorems *)

Lemma until_length c s : (length (default [] (until c s).2) <= length s)%nat.
Proof.
  induction s as [| x s IH]; simpl; [lia |]. case_bool_decide; simpl; [lia |].
  destruct (until c s) as [a r]; simpl in *. lia.
Qed.

Lemma balanced_length d s : (length (balanced d s).2 <= length s)%nat.
Proof.
  revert d. induction s as [| x s IH]; intros [| d]; simpl; try lia.
  match goal with |- context [balanced ?d' s] => specialize (IH d'); destruct (balanced d' s) end.
  simpl in *. lia.
Qed.

Lemma until_sum c s :
  (length (until c s).1 + length (default [] (until c s).2) +
   (if (until c s).2 then 1 else 0) <= length s)%nat.
Proof.
  induction s as [| x s IH]; simpl; [lia |]. case_bool_decide; simpl; [lia |].
  destruct (until c s) as [a r]; simpl in *. lia.
Qed.

Lemma balanced_sum d s : (length (balanced d s).1 + length (balanced d s).2 <= length s)%nat.
Proof.
  revert d. induction s as [| x s IH]; intros [| d]; simpl; try lia.
  match goal with |- context [balanced ?d' s] => specialize (IH d'); destruct (balanced d' s) end.
  simpl in *. lia.
Qed.

(** Bytes held by a list of tokens. *)
Definition tok_bytes (l : list token) : nat := sum_list_with (fun t => length (val t)) l.

Lemma tok_bytes_app a b : tok_bytes (a ++ b) = (tok_bytes a + tok_bytes b)%nat.
Proof. unfold tok_bytes. by rewrite sum_list_with_app. Qed.

Lemma flush_bytes has cur : (tok_bytes (flush has cur) <= length cur)%nat.
Proof. destruct has; cbn; lia. Qed.

(** An iteration never invents a byte: what it emits and keeps is covered by
    what it held and what it read. *)
Lemma tok_step_bytes c s' cur has out cur' has' rest :
  tok_step c s' cur has = (out, cur', has', rest) ->
  (length rest <= length s' /\ tok_bytes out + length cur' + length rest <= length cur + S (length s'))%nat.
Proof.
  pose proof (flush_bytes has cur) as Hf. unfold tok_step. cbn zeta.
  pose proof (until_sum "'"%char s') as H1. pose proof (until_sum dquote s') as H2.
  pose proof (until_sum backtick s') as H3. pose proof (balanced_sum 1 (drop 1 s')) as H4.
  destruct (until "'"%char s') as [a1 r1], (until dquote s') as [a2 r2],
    (until backtick s') as [a3 r3], (balanced 1 (drop 1 s')) as [a4 r4]. simpl in H1, H2, H3, H4.
  rewrite length_drop in H4.
  assert (forall x, (match s' with y :: _ => bool_decide (y = x) | [] => false end) = true ->
    (1 <= length s')%nat) as Hn by (intros x; destruct s'; simpl; [done | lia]).
  assert (has_prefix s' $$">&1" = true -> (3 <= length s')%nat) as H5.
  { intros (t & ->)%has_prefix_spec. rewrite length_app. lit_len. lia. }
  repeat match goal with
    | |- (if ?b then _ else _) = _ -> _ => destruct b eqn:?; bool_hyps
    end; intros [= <- <- <- <-];
    rewrite ?tok_bytes_app, ?length_app, ?length_drop; simpl;
    repeat match goal with H : match s' with _ => _ end = true |- _ => apply Hn in H end;
    try (destruct r1; simpl in *); try (destruct r2; simpl in *); try (destruct r3; simpl in *);
    try (specialize (H5 eq_refl)); cbn in *; rewrite ?length_app; cbn; lit_len; try lia.
Qed.

(** ** Termination *)

Lemma tok_loop_total f s cur has : (length s <= f)%nat -> is_Some (tok_loop f s cur has).
Proof.
  revert s cur has. induction f as [| f IH]; intros [| c s'] cur has Hf; simpl in *; try lia; eauto.
  destruct (tok_step c s' cur has) as [[[out cur'] has'] rest] eqn:E.
  apply tok_step_bytes in E as [Hr _].
  destruct (IH rest cur' has') as [x ->]; [lia | eauto].
Qed.

Lemma tok_loop_fuel f g s cur has :
  (length s <= f)%nat -> (length s <= g)%nat -> tok_loop f s cur has = tok_loop g s cur has.
Proof.
  revert g s cur has. induction f as [| f IH]; intros [| g] [| c s'] cur has Hf Hg;
    simpl in *; try lia; try done.
  destruct (tok_step c s' cur has) as [[[out cur'] has'] rest] eqn:E.
  apply tok_step_bytes in E as [Hr _]. rewrite (IH g); [done | lia | lia].
Qed.

(** Tokens of the rest of a line. *)
Definition toks (s cur : str) (has : bool) : list token := default [] (tok_loop (length s) s cur has).

Lemma toks_nil cur has : toks [] cur has = flush has cur.
Proof. done. Qed.

Lemma toks_cons c s' cur has :
  toks (c :: s') cur has =
  let '(out, cur', has', rest) := tok_step c s' cur has in out ++ toks rest cur' has'.
Proof.
  unfold toks at 1. simpl.
  destruct (tok_step c s' cur has) as [[[out cur'] has'] rest] eqn:E.
  apply tok_step_bytes in E as [Hr _]. unfold toks.
  rewrite (tok_loop_fuel (length s') (length rest)) by lia.
  destruct (tok_loop_total (length rest) rest cur' has') as [x ->]; [lia | done].
Qed.

(** [tokenize] terminates on every line, and the words and operators it
    returns never hold more bytes than the line: parsing cannot amplify input. *)
Theorem tokenize_total line :
  tok_loop (length line) line [] false = Some (tokenize line) /\
  (tok_bytes (tokenize line) <= length line)%nat.
Proof.
  split.
  { unfold tokenize. destruct (tok_loop_total (length line) line [] false) as [x ->]; done. }
  change (tokenize line) with (toks line [] false).
  enough (forall n s cur has, (length s <= n)%nat ->
    (tok_bytes (toks s cur has) <= length cur + length s)%nat) as H.
  { specialize (H (length line) line [] false). simpl in H. lia. }
  induction n as [| n IH]; intros [| c s'] cur has Hn; simpl in Hn; try lia;
    try (rewrite toks_nil; pose proof (flush_bytes has cur); simpl; lia).
  rewrite toks_cons. destruct (tok_step c s' cur has) as [[[out cur'] has'] rest] eqn:E.
  apply tok_step_bytes in E as [Hr Hb]. rewrite tok_bytes_app.
  specialize (IH rest cur' has'). simpl. lia.
Qed.

(** ** Quoting *)

Definition squote (w : str) : str := "'"%char :: w ++ $$"'".

Lemma until_found c w r : c ∉ w -> until c (w ++ c :: r) = (w, Some r).
Proof.
  induction w as [| x w IH]; simpl; intros Hw; [by rewrite bool_decide_eq_true_2 |].
  rewrite bool_decide_eq_false_2 by set_solver. by rewrite IH by set_solver.
Qed.

Lemma toks_squote w r cur has :
  "'"%char ∉ w -> toks (squote w ++ r) cur has = toks r (cur ++ w) true.
Proof.
  intros Hw. unfold squote. rewrite <- app_comm_cons, <- app_assoc, toks_cons.
  change ($$"'" ++ r) with ("'"%char :: r).
  unfold tok_step. cbn zeta. change (bool_decide ("'"%char = " "%char)) with false.
  cbn [orb bool_decide]. rewrite (until_found "'"%char w r Hw). done.
Qed.

Lemma toks_space r cur has : toks (" "%char :: r) cur has = flush has cur ++ toks r [] false.
Proof. by rewrite toks_cons. Qed.

Lemma tokenize_squotes ws :
  Forall (fun w => "'"%char ∉ w) ws -> tokenize (join $$" " (map squote ws)) = map word ws.
Proof.
  change (tokenize ?l) with (toks l [] false).
  induction ws as [| w ws IH]; [done |]. intros [Hw Hws]%Forall_cons.
  destruct (decide (ws = [])) as [-> | Hn].
  - simpl. rewrite <- (app_nil_r (squote w)), toks_squote, toks_nil by done. done.
  - cbn [map]. rewrite join_cons by by destruct ws.
    rewrite toks_squote by done.
    change ($$" " ++ ?x) with (" "%char :: x). rewrite toks_space, IH by done. done.
Qed.

Lemma parse_loop_words stg cur stmts ws :
  args stg <> [] -> Forall (fun w => grouping w = false) ws ->
  parse_loop stg cur stmts (map word ws) =
  finishStmt [] (Stage (args stg ++ ws) (assigns stg) (outNull stg) (outFile stg) (appendT stg))
    cur stmts.
Proof.
  revert stg. induction ws as [| w ws IH]; intros stg Ha Hg; simpl.
  - rewrite app_nil_r. by destruct stg.
  - apply Forall_cons in Hg as [-> Hg]. destruct (args stg) as [| a l] eqn:E; [done |].
    rewrite IH by (simpl; by try apply app_cons_not_nil). simpl. by rewrite <- app_assoc.
Qed.

(** quoting works: a command whose arguments are single-quoted is parsed to
    exactly those arguments, byte for byte (spaces, operators, [$] and newlines
    included).  The exceptions are the code's own: a lone bracket or brace is
    dropped and a leading [NAME=value] is an assignment even when quoted. *)
Theorem parse_quoted_words w ws :
  Forall (fun w => "'"%char ∉ w) (w :: ws) -> Forall (fun w => grouping w = false) (w :: ws) ->
  splitAssign w = None ->
  parse (join $$" " (map squote (w :: ws))) = [Statement [Stage (w :: ws) ∅ false [] false] []].
Proof.
  intros Hq Hg Ha. unfold parse. rewrite tokenize_squotes by done.
  apply Forall_cons in Hg as [Hw Hws]. cbn [map parse_loop is_op word negb val].
  rewrite Hw. simpl. rewrite Ha. by rewrite parse_loop_words.
Qed.

(** quotes do not protect a lone bracket: [echo '('] parses like [echo]. *)
Theorem quoted_parenthesis_dropped : parse $$"echo '('" = parse $$"echo".
Proof. by vm_compute. Qed.

(** ** Shape of the result *)

Definition stage_ok (stg : stage) : Prop := args stg <> [] \/ assigns stg <> ∅.
Definition stmt_ok (st : statement) : Prop :=
  stages st <> [] /\ Forall stage_ok (stages st) /\
  chain st ∈ [$$"&&"; $$"||"; $$";"; []].

Lemma finishStage_ok stg cur : Forall stage_ok cur -> Forall stage_ok (finishStage stg cur).
Proof.
  intros Hc. unfold finishStage. destruct (_ || _) eqn:E; [| done].
  apply Forall_app. split; [done |]. constructor; [| constructor].
  apply orb_true_iff in E as [E | E].
  - left. intros Ha. by rewrite Ha in E.
  - right. by apply negb_true_iff, bool_decide_eq_false in E.
Qed.

Lemma finishStmt_ok ch stg cur stmts :
  ch ∈ [$$"&&"; $$"||"; $$";"; []] -> Forall stage_ok cur -> Forall stmt_ok stmts ->
  Forall stmt_ok (finishStmt ch stg cur stmts).
Proof.
  intros Hch Hc Hs. unfold finishStmt. pose proof (finishStage_ok stg cur Hc) as Hf.
  destruct (finishStage stg cur) as [| a l]; [done |].
  apply Forall_app. split; [done |]. apply Forall_singleton. split_and!; simpl; [done | exact Hf | exact Hch].
Qed.

(** whatever the attacker types, the parser yields statements with at least
    one stage, every stage with an argument or an assignment, and a chain
    operator among the four the runner knows. *)
Theorem parse_well_formed line : Forall stmt_ok (parse line).
Proof.
  unfold parse. generalize (tokenize line) as l.
  assert (Forall stage_ok []) as H1 by constructor.
  assert (Forall stmt_ok []) as H2 by constructor. revert H1 H2.
  generalize empty_stage (@nil stage) (@nil statement).
  intros stg cur stmts H1 H2 l.
  remember (length l) as n eqn:En. assert (length l <= n)%nat as Hn by lia. clear En.
  revert l Hn stg cur stmts H1 H2. induction n as [| n IH]; intros [| t l] Hn stg cur stmts H1 H2;
    cbn [parse_loop length] in *; try lia; try (apply finishStmt_ok; [set_solver | done | done]).
  assert (forall ch, val t = ch -> ch ∈ [$$"&&"; $$"||"; $$";"] -> val t ∈ [$$"&&"; $$"||"; $$";"; []])
    as Hch by (intros ch ->; set_solver).
  repeat match goal with
    | |- context [if ?b then _ else _] => destruct b eqn:?
    | |- context [match ?m with Some _ => _ | None => _ end] => destruct m as [[? ?] |]
    | |- context [match ?r with [] => _ | _ :: _ => _ end] => destruct r; cbn [length] in *
    end; apply IH; try (simpl in *; lia); try done; try (by apply finishStage_ok); try constructor.
  all: match goal with H : (_ || _) = true |- _ => rewrite !orb_true_iff in H end;
    apply finishStmt_ok; try done;
    repeat match goal with H : _ \/ _ |- _ => destruct H end; bool_hyps; eapply Hch; eauto; set_solver.
Qed.

(** * Witness *)

Lemma parse_quoted_words_witness :
  parse $$"'echo' 'a b;c' '$(id)'" =
  [Statement [Stage [$$"echo"; $$"a b;c"; $$"$(id)"] ∅ false [] false] []].
Proof.
  apply (parse_quoted_words $$"echo" [$$"a b;c"; $$"$(id)"]).
  - by apply (bool_decide_unpack _); vm_compute.
  - by apply (bool_decide_unpack _); vm_compute.
  - by vm_compute.
Defined.
