(* ===== verification/Net.v ===== *)
(** * Net: IP addresses as Go's [net] and [net/netip] treat them

    Parsing, printing and classifying addresses, and splitting and joining
    host:port pairs.  An address is its integer value: 32 bits for IPv4, 128
    for IPv6 together with its zone. *)

From S2P Require Import Prelude GoStrings.

Inductive addr : Type := A4 (v : Z) | A6 (v : Z) (zone : str).

#[export] Instance addr_eq_dec : EqDecision addr.
Proof. solve_decision. Defined.

Definition Is4 (a : addr) : bool := match a with A4 _ => true | A6 _ _ => false end.

Definition dot : ascii := "."%char.
Definition colon : ascii := ":"%char.

(** ** Parsing *)

(** One octet of dotted notation: no sign, no leading zero, at most 255. *)
Definition parse_octet (s : str) : option Z :=
  match s with
  | [] => None
  | c :: r =>
      if bool_decide (c = "0"%char) && negb (r =s []) then None
      else if 3 <? zlen s then None
      else match parse_digits 10 s 0 with
           | Some v => if v <=? 255 then Some v else None
           | None => None
           end
  end.

Definition parse4 (s : str) : option Z :=
  match split_byte dot s with
  | [a; b; c; d] =>
      match parse_octet a, parse_octet b, parse_octet c, parse_octet d with
      | Some a, Some b, Some c, Some d => Some (((a * 256 + b) * 256 + c) * 256 + d)
      | _, _, _, _ => None
      end
  | _ => None
  end.

Definition hex_val (c : ascii) : option Z :=
  if is_digit c then Some (bz c - 48)
  else if in_range c 97 102 then Some (bz c - 87)
  else if in_range c 65 70 then Some (bz c - 55)
  else None.

(** Leading hexadecimal digits: value, count and rest. *)
Fixpoint hex_run (s : str) (acc : Z) (n : nat) : Z * nat * str :=
  match s with
  | [] => (acc, n, [])
  | c :: s' => match hex_val c with
               | Some d => hex_run s' (acc * 16 + d) (S n)
               | None => (acc, n, s)
               end
  end.

(** Groups of an IPv6 address; [left] groups may follow, [acc] are those read and
    [ell] the position of the ellipsis. *)
Fixpoint v6_groups (left : nat) (s : str) (acc : list Z) (ell : option nat)
    : option (list Z * option nat * str) :=
  match left with
  | O => Some (acc, ell, s)
  | S left' =>
      let '(v, n, rest) := hex_run s 0 0 in
      if (n =? 0)%nat || (4 <? n)%nat then None
      else if has_prefix rest [dot] then
        if (match ell with None => true | _ => false end) && negb (length acc =? 6)%nat then None
        else if (6 <? length acc)%nat then None
        else match parse4 s with
             | Some v4 => Some (acc ++ [v4 / 65536; v4 mod 65536], ell, [])
             | None => None
             end
      else
        let acc := acc ++ [v] in
        match rest with
        | [] => Some (acc, ell, [])
        | c :: rest' =>
            if negb (bool_decide (c = colon)) then None
            else match rest' with
                 | [] => None
                 | c2 :: rest'' =>
                     if bool_decide (c2 = colon) then
                       match ell with
                       | Some _ => None
                       | None =>
                           match rest'' with
                           | [] => Some (acc, Some (length acc), [])
                           | _ => v6_groups left' rest'' acc (Some (length acc))
                           end
                       end
                     else v6_groups left' rest' acc ell
                 end
        end
  end.

Definition groups_value (gs : list Z) : Z := foldl (fun v g => v * 65536 + g) 0 gs.

Definition parse6_body (s : str) : option Z :=
  let finish r :=
    match r with
    | Some (gs, ell, []) =>
        if (length gs <? 8)%nat then
          match ell with
          | Some e => Some (groups_value (take e gs ++ repeat 0 (8 - length gs) ++ drop e gs))
          | None => None
          end
        else match ell with Some _ => None | None => Some (groups_value gs) end
    | _ => None
    end in
  if has_prefix s $$"::" then
    match drop 2 s with
    | [] => Some 0
    | s' => finish (v6_groups 8 s' [] (Some 0%nat))
    end
  else finish (v6_groups 8 s [] None).

Definition parse6 (s : str) : option addr :=
  match index_byte s "%"%char with
  | Some i =>
      match drop (S i) s with
      | [] => None
      | zone => (fun v => A6 v zone) <$> parse6_body (take i s)
      end
  | None => (fun v => A6 v []) <$> parse6_body s
  end.

(** [netip.ParseAddr]: the first of the three bytes decides. *)
Definition ParseAddr (s : str) : option addr :=
  match index_any s $$".:%" with
  | Some i => match s !! i with
              | Some "."%char => A4 <$> parse4 s
              | Some ":"%char => parse6 s
              | _ => None
              end
  | None => None
  end.

(** [net.ParseIP] rejects a zone. *)
Definition ParseIP (s : str) : option addr :=
  match ParseAddr s with
  | Some (A6 v (_ :: _)) => None
  | r => r
  end.

Definition ParseAddrPort (s : str) : option addr :=
  match last_index_byte s colon with
  | None => None
  | Some i =>
      let ip := take i s in
      let port := drop (S i) s in
      let bracketed := has_prefix ip $$"[" in
      if (ip =s []) || (port =s []) then None
      else if bracketed && ((zlen ip <? 2) || negb (has_suffix ip $$"]")) then None
      else
        match parse_uint 10 16 port, ParseAddr (if bracketed then take (length ip - 2) (drop 1 ip) else ip) with
        | Some _, Some a => if Bool.eqb bracketed (Is4 a) then None else Some a
        | _, _ => None
        end
  end.

(** [netip.ParsePrefix]: the address and the number of bits. *)
Definition ParsePrefix (s : str) : option (addr * Z) :=
  match last_index_byte s slash with
  | None => None
  | Some i =>
      match ParseAddr (take i s) with
      | None | Some (A6 _ (_ :: _)) => None
      | Some a =>
          let bits := drop (S i) s in
          let lead := match bits with c :: _ :: _ => in_range c 49 57 | _ => true end in
          match atoi bits with
          | (n, true) => if lead && (0 <=? n) && (n <=? (if Is4 a then 32 else 128)) then Some (a, n) else None
          | _ => None
          end
      end
  end.

(** ** Printing *)

Definition v4_bytes (v : Z) : list Z :=
  [Z.land (Z.shiftr v 24) 255; Z.land (Z.shiftr v 16) 255; Z.land (Z.shiftr v 8) 255; Z.land v 255].
Definition show4 (v : Z) : str := join [dot] (map itoa (v4_bytes v)).

Definition v6_group (v : Z) (i : nat) : Z := Z.land (Z.shiftr v (16 * (7 - Z.of_nat i))) 65535.

(** Length of the run of zero groups starting at the head. *)
Fixpoint zero_run (gs : list Z) : nat :=
  match gs with g :: gs' => if g =? 0 then S (zero_run gs') else O | [] => O end.
(** The longest run of at least two zero groups, the first on ties: start, length. *)
Fixpoint best_run (i : nat) (gs : list Z) (best : nat * nat) : nat * nat :=
  match gs with
  | [] => best
  | _ :: gs' =>
      let l := zero_run gs in
      best_run (S i) gs' (if (2 <=? l)%nat && (best.2 <? l)%nat then (i, l) else best)
  end.
Definition hex (g : Z) : str := digits 16 (digit_fuel g) g [].
Definition show6 (v : Z) : str :=
  let gs := map (v6_group v) (seq 0 8) in
  let '(st, l) := best_run 0 gs (255%nat, 0%nat) in
  if (l =? 0)%nat then join [colon] (map hex gs)
  else join [colon] (map hex (take st gs)) ++ $$"::" ++ join [colon] (map hex (drop (st + l) gs)).

Definition mapped4 (v : Z) : bool := Z.shiftr v 32 =? 65535.

(** [net.IP.String] of a 4-byte and of a 16-byte address. *)
Definition IP4_String (v : Z) : str := show4 v.
Definition IP16_String (v : Z) : str := if mapped4 v then show4 (Z.land v 4294967295) else show6 v.

(** ** Host and port *)

Definition JoinHostPort (host port : str) : str :=
  if bool_decide (colon ∈ host) then $$"[" ++ host ++ $$"]:" ++ port else host ++ $$":" ++ port.

(** [net.SplitHostPort]: [None] on error. *)
Definition SplitHostPort (hp : str) : option (str * str) :=
  match last_index_byte hp colon with
  | None => None
  | Some i =>
      let bracket c l := bool_decide (c ∈ (l : str)) in
      match hp with
      | "["%char :: _ =>
          match index_byte hp "]"%char with
          | Some e =>
              if (S e =? i)%nat && negb (bracket "["%char (drop 1 hp)) && negb (bracket "]"%char (drop (S e) hp))
              then Some (take (e - 1) (drop 1 hp), drop (S i) hp) else None
          | None => None
          end
      | _ =>
          if bracket colon (take i hp) || bracket "["%char hp || bracket "]"%char hp then None
          else Some (take i hp, drop (S i) hp)
      end
  end.

(** ** Classification *)

Definition Unmap (a : addr) : addr :=
  match a with
  | A6 v _ => if mapped4 v then A4 (Z.land v 4294967295) else a
  | A4 _ => a
  end.
Definition IsUnspecified (a : addr) : bool :=
  match a with A4 v => v =? 0 | A6 v z => (v =? 0) && (z =s []) end.
Definition IsLoopback (a : addr) : bool :=
  match Unmap a with A4 v => Z.shiftr v 24 =? 127 | A6 v _ => v =? 1 end.
Definition IsMulticast (a : addr) : bool :=
  match Unmap a with A4 v => Z.shiftr v 28 =? 14 | A6 v _ => Z.shiftr v 120 =? 255 end.
Definition IsLinkLocalUnicast (a : addr) : bool :=
  match Unmap a with A4 v => Z.shiftr v 16 =? 43518 | A6 v _ => Z.shiftr v 118 =? 1018 end.
Definition IsPrivate (a : addr) : bool :=
  match Unmap a with
  | A4 v => (Z.shiftr v 24 =? 10) || (Z.shiftr v 20 =? 2753) || (Z.shiftr v 16 =? 49320)
  | A6 v _ => Z.shiftr v 121 =? 126
  end.

(** [Prefix.Contains], for a prefix of [bits] bits. *)
Definition prefix_contains (p : addr) (bits : Z) (a : addr) : bool :=
  match p, a with
  | A4 x, A4 y => Z.shiftr x (32 - bits) =? Z.shiftr y (32 - bits)
  | A6 x _, A6 y [] => Z.shiftr x (128 - bits) =? Z.shiftr y (128 - bits)
  | _, _ => false
  end.

(** [netip.Prefix.Masked] for IPv4. *)
Definition mask4 (v bits : Z) : Z := Z.shiftl (Z.shiftr v (32 - bits)) (32 - bits).

Example parse_v4 : ParseAddr $$"198.51.100.7" = Some (A4 3325256711). Proof. reflexivity. Qed.
Example parse_v6 : ParseAddr $$"2001:db8::1" = Some (A6 42540766411282592856903984951653826561 []).
Proof. reflexivity. Qed.
Example parse_v6_mapped : Unmap <$> ParseAddr $$"::ffff:10.0.0.1" = Some (A4 167772161).
Proof. reflexivity. Qed.
Example show_v6 : IP16_String 42540766411282592856903984951653826561 = $$"2001:db8::1". Proof. reflexivity. Qed.
Example show_v6_zero : IP16_String 0 = $$"::". Proof. reflexivity. Qed.

(** ** Dotted notation round trip *)

Lemma octet_itoa n : 0 <= n < 256 -> parse_octet (itoa n) = Some n /\ dot ∉ itoa n.
Proof.
  intros Hn. assert (n ∈ seqZ 0 256) as Hin by (apply elem_of_seqZ; lia). clear Hn.
  revert n Hin. apply Forall_forall. by apply (bool_decide_unpack _); vm_compute.
Qed.

Lemma v4_bytes_range v : Forall (fun b => 0 <= b < 256) (v4_bytes v).
Proof.
  unfold v4_bytes. repeat constructor;
    change 255 with (Z.ones 8); rewrite ?Z.land_ones by lia; apply Z.mod_pos_bound; lia.
Qed.

Lemma v4_bytes_value v :
  0 <= v < 2 ^ 32 ->
  match v4_bytes v with
  | [a; b; c; d] => ((a * 256 + b) * 256 + c) * 256 + d = v
  | _ => False
  end.
Proof.
  intros Hv. unfold v4_bytes. change 255 with (Z.ones 8).
  rewrite !Z.land_ones, !Z.shiftr_div_pow2 by lia.
  change (2 ^ 8) with 256. change (2 ^ 24) with (256 * 256 * 256). change (2 ^ 16) with (256 * 256).
  rewrite <- !Z.div_div by lia. rewrite (Z.mod_small (v / 256 / 256 / 256)).
  - pose proof (Z.div_mod v 256). pose proof (Z.div_mod (v / 256) 256).
    pose proof (Z.div_mod (v / 256 / 256) 256). lia.
  - split; [repeat (apply Z.div_pos; [| lia]); lia |].
    rewrite !Z.div_div by lia. apply Z.div_lt_upper_bound; lia.
Qed.

(** Every IPv4 address survives printing and parsing. *)
Lemma parse_show4 v : 0 <= v < 2 ^ 32 -> ParseAddr (show4 v) = Some (A4 v).
Proof.
  intros Hv. pose proof (v4_bytes_value v Hv) as Hval. pose proof (v4_bytes_range v) as Hr.
  unfold show4. destruct (v4_bytes v) as [| a [| b [| c [| d [|]]]]]; try done.
  rewrite !Forall_cons in Hr. destruct Hr as (Ha & Hb & Hc & Hd & _).
  destruct (octet_itoa a Ha) as [Pa Na], (octet_itoa b Hb) as [Pb Nb],
    (octet_itoa c Hc) as [Pc Nc], (octet_itoa d Hd) as [Pd Nd].
  assert (parse4 (join [dot] (map itoa [a; b; c; d])) = Some v) as H4.
  { unfold parse4. rewrite split_join; [| done | by repeat constructor].
    cbn [map]. rewrite Pa, Pb, Pc, Pd. by f_equal. }
  unfold ParseAddr.
  assert (exists pre post, join [dot] (map itoa [a; b; c; d]) = pre ++ dot :: post /\
    Forall (fun x => x ∉ $$".:%") pre) as (pre & post & E & Hpre).
  { exists (itoa a), (join [dot] (map itoa [b; c; d])). split; [done |].
    assert (a ∈ seqZ 0 256) as Hin by (apply elem_of_seqZ; lia). clear -Hin. revert a Hin.
    apply Forall_forall. by apply (bool_decide_unpack _); vm_compute. }
  rewrite H4.
  assert (index_any (join [dot] (map itoa [a; b; c; d])) $$".:%" = Some (length pre)) as ->.
  { rewrite E. clear -Hpre. induction Hpre as [| x l Hx _ IH]; [done |]. simpl.
    rewrite bool_decide_eq_false_2 by done. by rewrite IH. }
  assert (join [dot] (map itoa [a; b; c; d]) !! length pre = Some dot) as ->.
  { rewrite E. by apply list_lookup_middle. }
  done.
Qed.
