(* ===== verification/Proxy.v ===== *)
(** * Proxy: the PROXY protocol header (internal/proxyproto/proxyproto.go)

    The reader is the list of bytes still to arrive before the stream ends or
    fails; [Peek n] fails when fewer than [n] remain.  Every function returns the
    outcome and what is left of the stream. *)

From S2P Require Import Prelude GoStrings Net.

Record Addr : Type := MkAddr { Src : str; Dst : str }.

(** [(addr, true, nil)], [(_, false, nil)] and an error. *)
Inductive outcome : Type := Found (a : Addr) | NoAddr | Malformed (msg : str).

Definition v2sig : str := bytes [13; 10; 13; 10; 0; 13; 10; 81; 85; 73; 84; 10].
Definition maxV1Len : nat := 107.

Definition newline : ascii := zb 10.

(** The loop of [readV1Line]; [n] bytes may still be read. *)
Fixpoint readV1_loop (n : nat) (b : str) (br : str) : (str + str) * str :=
  match n with
  | O => (inr $$"proxyproto: v1 header exceeds 107 bytes", br)
  | S n' =>
      match br with
      | [] => (inr $$"proxyproto: truncated v1 header", [])
      | c :: br' =>
          if bool_decide (c = newline) then (inl (b ++ [c]), br') else readV1_loop n' (b ++ [c]) br'
      end
  end.
Definition readV1Line (br : str) : (str + str) * str := readV1_loop maxV1Len [] br.

Definition validPort (s : str) : bool :=
  let '(n, ok) := atoi s in ok && (0 <=? n) && (n <=? 65535).

(** What [parseV1] makes of a complete line. *)
Definition v1_fields (line : str) : outcome :=
  let f := split_byte " "%char (trim_right line [zb 13; zb 10]) in
  match f with
  | _ :: proto :: rest =>
      if proto =s $$"UNKNOWN" then NoAddr
      else
        match rest with
        | [src; dst; sport; dport] =>
            if negb ((proto =s $$"TCP4") || (proto =s $$"TCP6")) then Malformed $$"proxyproto: malformed v1 header"
            else if bool_decide (ParseIP src = None) || bool_decide (ParseIP dst = None)
            then Malformed $$"proxyproto: bad v1 address"
            else if negb (validPort sport) || negb (validPort dport)
            then Malformed $$"proxyproto: bad v1 port"
            else Found (MkAddr (JoinHostPort src sport) (JoinHostPort dst dport))
        | _ => Malformed $$"proxyproto: malformed v1 header"
        end
  | _ => Malformed $$"proxyproto: malformed v1 header"
  end.

Definition parseV1 (br : str) : outcome * str :=
  if negb (has_prefix br $$"PROXY ") then (NoAddr, br)
  else match readV1Line br with
       | (inr e, br') => (Malformed e, br')
       | (inl line, br') => (v1_fields line, br')
       end.

(** Big-endian value of a byte string. *)
Definition be (b : str) : Z := foldl (fun v c => v * 256 + bz c) 0 b.
Definition itoaU16 (b : str) : str := itoa (be b).
Definition slice (b : str) (i j : nat) : str := take (j - i) (drop i b).

(** The decision of [parseV2] on a complete header [full]. *)
Definition v2_fields (full : str) : outcome :=
  let verCmd := default 0 (bz <$> full !! 12%nat) in
  let fam := default 0 (bz <$> full !! 13%nat) in
  let addrs := drop 16 full in
  if negb (Z.shiftr verCmd 4 =? 2) then Malformed $$"proxyproto: bad v2 version"
  else if Z.land verCmd 15 =? 0 then NoAddr
  else if fam =? 17 then
    if zlen addrs <? 12 then Malformed $$"proxyproto: short v2 ipv4 block"
    else Found (MkAddr
      (JoinHostPort (IP4_String (be (slice addrs 0 4))) (itoaU16 (slice addrs 8 10)))
      (JoinHostPort (IP4_String (be (slice addrs 4 8))) (itoaU16 (slice addrs 10 12))))
  else if fam =? 33 then
    if zlen addrs <? 36 then Malformed $$"proxyproto: short v2 ipv6 block"
    else Found (MkAddr
      (JoinHostPort (IP16_String (be (slice addrs 0 16))) (itoaU16 (slice addrs 32 34)))
      (JoinHostPort (IP16_String (be (slice addrs 16 32))) (itoaU16 (slice addrs 34 36))))
  else NoAddr.

Definition parseV2 (br : str) : outcome * str :=
  if (zlen br <? 16) || negb (take 12 br =s v2sig) then (NoAddr, br)
  else
    let length := Z.to_nat (be (slice br 14 16)) in
    if zlen br <? 16 + Z.of_nat length then (Malformed $$"proxyproto: truncated v2 header", [])
    else (v2_fields (take (16 + length) br), drop (16 + length) br).

(** [Parse]; [None] is the error of the first [Peek] on an empty stream. *)
Definition Parse (br : str) : option (outcome * str) :=
  match br with
  | [] => None
  | c :: _ =>
      if bool_decide (c = "P"%char) then Some (parseV1 br)
      else if bool_decide (c = zb 13) then Some (parseV2 br)
      else Some (NoAddr, br)
  end.

(** * Theorems *)

(** A stream that carries one of the two announcements. *)
Definition announced (br : str) : bool :=
  has_prefix br $$"PROXY " || ((16 <=? zlen br) && (take 12 br =s v2sig)).

Lemma be_range b : 0 <= be b < 256 ^ zlen b.
Proof.
  unfold be. induction b as [| c b IH] using rev_ind; [done |].
  rewrite foldl_app, zlen_app. simpl. change (zlen [c]) with 1.
  rewrite Z.pow_add_r by (done || apply zlen_nonneg). pose proof (bz_range c). lia.
Qed.

Lemma readV1_loop_spec n b br r br' :
  readV1_loop n b br = (r, br') ->
  exists used, br = used ++ br' /\ (length used <= n)%nat /\
    match r with inl line => line = b ++ used | inr _ => True end.
Proof.
  revert b br. induction n as [| n IH]; intros b br; simpl.
  { intros [= <- <-]. by exists []. }
  destruct br as [| c br]; [intros [= <- <-]; exists []; simpl; split_and!; [done | lia | done] |].
  case_bool_decide.
  - intros [= <- <-]. exists [c]. simpl. split_and!; [done | lia | done].
  - intros Hl. destruct (IH _ _ Hl) as (used & -> & Hn & Hr). exists (c :: used).
    simpl. split_and!; [done | lia |]. destruct r; [| done]. by rewrite Hr, <- app_assoc.
Qed.

(** the parser only ever consumes a header: a stream that announces none is
    handed on untouched, and whatever it does consume is a prefix of at most 107
    bytes (v1) or of the 16 + length bytes a v2 header declares. *)
Theorem Parse_consumes_only_header br o rest :
  Parse br = Some (o, rest) ->
  (announced br = false -> o = NoAddr /\ rest = br) /\
  exists used, br = used ++ rest /\
    (zlen used <= 107 \/ zlen used <= 16 + be (slice br 14 16)).
Proof.
  assert (forall br : str, exists used, br = used ++ br /\ (zlen used <= 107 \/ zlen used <= 16 + be (slice br 14 16)))
    as Hnone by (intros l; exists []; split; [done | left; by vm_compute]).
  unfold Parse. destruct br as [| c br]; [done |].
  case_bool_decide as Hc; [intros [= H] | case_bool_decide as Hc2; [intros [= H] | intros [= <- <-]; split; [done | apply Hnone]]].
  - unfold parseV1 in H. unfold announced. destruct (has_prefix (c :: br) $$"PROXY ") eqn:E; simpl in H.
    + split; [done |]. destruct (readV1Line (c :: br)) as [r br'] eqn:Er.
      apply readV1_loop_spec in Er as (used & -> & Hn & _). exists used.
      assert (br' = rest) as -> by (destruct r; by injection H). split; [done | left; unfold zlen, maxV1Len in *; lia].
    + injection H as <- <-. split; [done | apply Hnone].
  - unfold parseV2 in H. unfold announced. subst c.
    change (has_prefix (zb 13 :: br) $$"PROXY ") with false. cbn [orb].
    destruct (zlen (zb 13 :: br) <? 16) eqn:E1; cbn [orb negb] in H.
    { injection H as <- <-. split; [done | apply Hnone]. }
    destruct (take 12 (zb 13 :: br) =s v2sig) eqn:E2; cbn [orb negb] in H.
    2: { injection H as <- <-. split; [done | apply Hnone]. }
    split. { bool_hyps. intros Hf. apply andb_false_iff in Hf as [Hf | Hf]; bool_hyps; lia || done. }
    cbn zeta in H. pose proof (be_range (slice (zb 13 :: br) 14 16)) as Hb.
    destruct (zlen (zb 13 :: br) <? 16 + _) eqn:E3; injection H as <- <-.
    + exists (zb 13 :: br). rewrite app_nil_r. split; [done |]. right. bool_hyps. lia.
    + exists (take (16 + Z.to_nat (be (slice (zb 13 :: br) 14 16))) (zb 13 :: br)).
      split; [symmetry; exact (take_drop (16 + Z.to_nat (be (slice (zb 13 :: br) 14 16))) (zb 13 :: br)) |]. right. unfold zlen. rewrite length_take. lia.
Qed.

(** ** Round trips *)

Definition crlf : str := [zb 13; zb 10].
Definition v1_header (proto src dst sport dport : str) : str :=
  $$"PROXY " ++ join $$" " [proto; src; dst; sport; dport] ++ crlf.

Lemma readV1_loop_line n b l rest :
  newline ∉ l -> (length l < n)%nat ->
  readV1_loop n b (l ++ newline :: rest) = (inl (b ++ l ++ [newline]), rest).
Proof.
  revert n b. induction l as [| c l IH]; intros [| n] b Hl Hn; simpl in *; try lia.
  - done.
  - rewrite bool_decide_eq_false_2 by set_solver. rewrite IH by (set_solver || lia).
    by rewrite <- app_assoc.
Qed.

Lemma trim_right_crlf l :
  (forall x t, l = t ++ [x] -> x <> zb 13 /\ x <> zb 10) ->
  trim_right (l ++ crlf) [zb 13; zb 10] = l.
Proof.
  intros Hl. unfold trim_right, trim_right_fn, crlf.
  rewrite rev_app_distr. cbn [rev app drop_while in_set].
  replace (in_set [zb 13; zb 10] (zb 10)) with true by done. cbn [drop_while].
  replace (in_set [zb 13; zb 10] (zb 13)) with true by done.
  apply trim_right_fn_id. intros x t E. destruct (Hl x t E). unfold in_set.
  apply bool_decide_eq_false. set_solver.
Qed.

(** Printable, space-free fields. *)
Definition clean (s : str) : Prop := Forall (fun c => c <> " "%char /\ c <> zb 13 /\ c <> zb 10) s.

Lemma clean_notin s c : clean s -> c ∈ [" "%char; zb 13; zb 10] -> c ∉ s.
Proof. unfold clean. rewrite Forall_forall. intros H Hc Hs. specialize (H c Hs). set_solver. Qed.

(** a v1 header with valid addresses and ports yields exactly those endpoints
    and leaves the client's bytes, all of them and nothing else. *)
Theorem Parse_v1_roundtrip proto src dst sport dport payload :
  Forall clean [src; dst; sport; dport] ->
  proto ∈ [$$"TCP4"; $$"TCP6"] ->
  ParseIP src <> None -> ParseIP dst <> None ->
  validPort sport = true -> validPort dport = true ->
  zlen (v1_header proto src dst sport dport) <= 107 ->
  Parse (v1_header proto src dst sport dport ++ payload) =
    Some (Found (MkAddr (JoinHostPort src sport) (JoinHostPort dst dport)), payload).
Proof.
  intros Hc Hproto Hsrc Hdst Hsp Hdp2 Hlen.
  rewrite !Forall_cons in Hc. destruct Hc as (C1 & C2 & C3 & C4 & _).
  assert (C0 : clean proto).
  { rewrite !elem_of_cons in Hproto. destruct Hproto as [-> | [-> | []%elem_of_nil]];
      by apply (bool_decide_unpack _); vm_compute. }
  set (line := $$"PROXY" ++ $$" " ++ join $$" " [proto; src; dst; sport; dport]).
  assert (v1_header proto src dst sport dport = line ++ crlf) as E.
  { unfold v1_header, line. rewrite !app_assoc. done. }
  assert (split_byte " "%char line = [$$"PROXY"; proto; src; dst; sport; dport]) as Hsplit.
  { unfold line. rewrite <- join_cons by done. change ($$" ") with [" "%char].
    apply split_join; [done |]. repeat constructor; try (eapply clean_notin; [eassumption | set_solver]).
    by apply (bool_decide_unpack _); vm_compute. }
  assert (Hnl : forall c, c ∈ [zb 13; zb 10] -> c ∉ line).
  { intros c Hcin Hin. unfold line in Hin. cbn [join] in Hin. rewrite !elem_of_app in Hin.
    assert (c ∈ [" "%char; zb 13; zb 10]) as Hc3 by set_solver.
    assert (c ∉ $$"PROXY" /\ c ∉ $$" ") as [P1 P2].
    { rewrite !elem_of_cons in Hcin. destruct Hcin as [-> | [-> | []%elem_of_nil]];
        split; by apply (bool_decide_unpack _); vm_compute. }
    pose proof (clean_notin _ c C0 Hc3). pose proof (clean_notin _ c C1 Hc3).
    pose proof (clean_notin _ c C2 Hc3). pose proof (clean_notin _ c C3 Hc3).
    pose proof (clean_notin _ c C4 Hc3). tauto. }
  assert (Hhead : exists t, line = "P"%char :: t) by (by eexists).
  assert (Hpre : forall x, has_prefix (line ++ x) $$"PROXY " = true).
  { intros x. apply has_prefix_spec. exists (join $$" " [proto; src; dst; sport; dport] ++ x).
    unfold line. by rewrite <- !app_assoc. }
  clearbody line. destruct Hhead as [t Ht].
  rewrite E in *. rewrite <- app_assoc. unfold Parse. rewrite Ht at 1. cbn [app].
  rewrite bool_decide_eq_true_2 by done. f_equal. unfold parseV1. rewrite Hpre.
  cbn [negb]. unfold readV1Line.
  change (crlf ++ payload) with ([zb 13] ++ newline :: payload). rewrite app_assoc.
  rewrite readV1_loop_line.
  - cbn [app]. rewrite <- app_assoc. cbn [app]. change [zb 13; newline] with crlf.
    f_equal. unfold v1_fields. rewrite trim_right_crlf.
    2: { intros x l El. assert (x ∈ line) by (rewrite El; set_solver).
         split; intros ->; [apply (Hnl (zb 13)) | apply (Hnl (zb 10))]; (done || set_solver). }
    rewrite Hsplit.
    replace (proto =s $$"UNKNOWN") with false.
    2: { symmetry. rewrite !elem_of_cons in Hproto.
         destruct Hproto as [-> | [-> | []%elem_of_nil]]; by vm_compute. }
    replace ((proto =s $$"TCP4") || (proto =s $$"TCP6")) with true.
    2: { symmetry. rewrite !elem_of_cons in Hproto.
         destruct Hproto as [-> | [-> | []%elem_of_nil]]; by vm_compute. }
    rewrite !bool_decide_eq_false_2, Hsp, Hdp2 by done. done.
  - rewrite elem_of_app. intros [Hin | Hin]; [by apply (Hnl newline); [set_solver |] |].
    revert Hin. by apply (bool_decide_unpack _); vm_compute.
  - unfold zlen, maxV1Len in *. rewrite !length_app in *. change (length crlf) with 2%nat in Hlen.
    cbn [length]. lia.
Qed.

Fixpoint be_bytes (n : nat) (v : Z) : str :=
  match n with O => [] | S m => be_bytes m (v / 256) ++ [zb v] end.

Lemma be_bytes_length n v : length (be_bytes n v) = n.
Proof. revert v. induction n as [| n IH]; intros v; simpl; [done |]. rewrite length_app, IH. simpl. lia. Qed.

Lemma be_be_bytes n v : 0 <= v < 256 ^ Z.of_nat n -> be (be_bytes n v) = v.
Proof.
  revert v. induction n as [| n IH]; intros v Hv; simpl; [unfold be; simpl in *; lia |].
  rewrite Nat2Z.inj_succ, Z.pow_succ_r in Hv by lia.
  unfold be. rewrite foldl_app. fold (be (be_bytes n (v / 256))). simpl. rewrite bz_zb, IH.
  - pose proof (Z.div_mod v 256). lia.
  - split; [apply Z.div_pos; lia | apply Z.div_lt_upper_bound; lia].
Qed.

(** The header a proxy sends for a TCP-over-IPv4 connection, with optional TLVs. *)
Definition v2_header4 (src dst sport dport : Z) (tlv : str) : str :=
  v2sig ++ bytes [33; 17] ++ be_bytes 2 (12 + zlen tlv) ++
  be_bytes 4 src ++ be_bytes 4 dst ++ be_bytes 2 sport ++ be_bytes 2 dport ++ tlv.

(** Cutting a concatenation at the end of its first part. *)
Lemma slice_at (a b c : str) i j : length a = i -> (i + length b)%nat = j -> slice (a ++ b ++ c) i j = b.
Proof.
  intros <- <-. unfold slice. rewrite drop_app_length.
  replace (length a + length b - length a)%nat with (length b) by lia. apply take_app_length.
Qed.


(** A recovered v1 endpoint was announced with two addresses and two ports. *)
Lemma v1_found line a :
  v1_fields line = Found a ->
  exists src dst sp dp, ParseIP src <> None /\ ParseIP dst <> None /\
    validPort sp = true /\ validPort dp = true /\
    a = MkAddr (JoinHostPort src sp) (JoinHostPort dst dp).
Proof.
  unfold v1_fields. intros H. repeat (case_match; simplify_eq/=; try done).
  bool_hyps. repeat match goal with H : negb _ || negb _ = false |- _ => apply orb_false_elim in H as [? ?] end.
  bool_hyps. repeat match goal with H : bool_decide _ = false |- _ => apply bool_decide_eq_false in H end.
  by repeat eexists.
Qed.

(** * Witnesses *)

Lemma Parse_consumes_only_header_witness :
  (announced $$"GET / HTTP/1.0" = false -> NoAddr = NoAddr /\ $$"GET / HTTP/1.0" = $$"GET / HTTP/1.0") /\
  exists used, $$"GET / HTTP/1.0" = used ++ $$"GET / HTTP/1.0" /\
    (zlen used <= 107 \/ zlen used <= 16 + be (slice $$"GET / HTTP/1.0" 14 16)).
Proof. apply (Parse_consumes_only_header $$"GET / HTTP/1.0" NoAddr $$"GET / HTTP/1.0"). by vm_compute. Defined.

Lemma Parse_v1_roundtrip_witness :
  Parse (v1_header $$"TCP4" $$"203.0.113.9" $$"10.0.0.1" $$"40000" $$"23" ++ $$"root") =
    Some (Found (MkAddr $$"203.0.113.9:40000" $$"10.0.0.1:23"), $$"root").
Proof.
  apply (Parse_v1_roundtrip $$"TCP4" $$"203.0.113.9" $$"10.0.0.1" $$"40000" $$"23" $$"root");
    first [by vm_compute | by apply (bool_decide_unpack _); vm_compute].
Defined.

