(* ===== verification/Haproxy.v ===== *)
(** * Haproxy: the edge's stick table (internal/haproxy)

    [ParseStickTable] reads the text of "show table"; [Flooding] decides which
    sources are due for a report.  Times are integers (nanoseconds). *)

From S2P Require Import Prelude GoStrings.

Record Source : Type := MkSource { IP : str; ConnCur : Z; ConnRate : Z }.

(** ** Parsing *)

(** [bufio.Scanner] with a 1 MiB buffer: scanning stops at a line that does not
    fit. *)
Definition maxToken : Z := 2 ^ 20.
Definition drop_cr (l : str) : str := trim_suffix l [zb 13].
Fixpoint scan (lines : list str) : list str :=
  match lines with
  | [] | [[]] => []
  | l :: rest => if zlen l <? maxToken then drop_cr l :: scan rest else []
  end.
Definition scan_lines (text : str) : list str := scan (split_byte (zb 10) text).

Definition upto_space (s : str) : str :=
  match index_byte s " "%char with Some j => take j s | None => s end.

Definition field (line prefix : str) : str :=
  match index_str line prefix with
  | None => []
  | Some i => upto_space (drop (i + length prefix) line)
  end.

Definition atoi_field (s : str) : Z := (atoi (trim_space s)).1.

Definition connRate (line : str) : Z :=
  match index_str line $$"conn_rate(" with
  | None => 0
  | Some i =>
      match index_byte (drop i line) "="%char with
      | None => 0
      | Some eq => atoi_field (upto_space (drop (S eq) (drop i line)))
      end
  end.

Definition parse_line (raw : str) : option Source :=
  let line := trim_space raw in
  if (line =s []) || has_prefix line $$"#" then None
  else match field line $$"key=" with
       | [] => None
       | key => Some (MkSource key (atoi_field (field line $$"conn_cur=")) (connRate line))
       end.

Definition ParseStickTable (text : str) : list Source := omap parse_line (scan_lines text).

(** ** The watcher *)

Record Watcher : Type := MkWatcher { threshold : Z; cooldown : Z; last_report : gmap str Z }.
Definition NewWatcher (thr cd : Z) : Watcher := MkWatcher thr cd ∅.

(** The loop over the sources: the [last] map, the [over] set and [due]. *)
Definition flood_step (w : Watcher) (now : Z) (acc : gmap str Z * gset str * list Source) (s : Source)
    : gmap str Z * gset str * list Source :=
  let '(last, over, due) := acc in
  if ConnRate s <? threshold w then acc
  else
    let over := {[IP s]} ∪ over in
    if match last !! IP s with Some t => now - t <? cooldown w | None => false end
    then (last, over, due)
    else (<[IP s := now]> last, over, due ++ [s]).

Definition Flooding (w : Watcher) (srcs : list Source) (now : Z) : list Source * Watcher :=
  let '(last, over, due) := foldl (flood_step w now) (last_report w, ∅, []) srcs in
  (due, MkWatcher (threshold w) (cooldown w) (filter (fun kv => kv.1 ∈ over) last)).

(** * Theorems *)

Definition is_over (w : Watcher) (s : Source) : bool := negb (ConnRate s <? threshold w).
(** A source over the threshold with no recent report. *)
Definition is_due (w : Watcher) (now : Z) (s : Source) : bool :=
  is_over w s &&
  match last_report w !! IP s with Some t => negb (now - t <? cooldown w) | None => true end.

Lemma flood_fold w now srcs :
  NoDup (map IP srcs) ->
  forall last over due, (forall s, s ∈ srcs -> last !! IP s = last_report w !! IP s) ->
  foldl (flood_step w now) (last, over, due) srcs =
    (foldl (fun l s => <[IP s := now]> l) last (List.filter (is_due w now) srcs),
     list_to_set (map IP (List.filter (is_over w) srcs)) ∪ over,
     due ++ List.filter (is_due w now) srcs).
Proof.
  induction srcs as [| s srcs IH]; intros Hnd last over due Hl; simpl.
  - by rewrite app_nil_r, (left_id_L ∅ (∪)).
  - inversion Hnd as [| ? ? Hin Hnd']; subst.
    assert (is_over w s = negb (ConnRate s <? threshold w)) as Ho by done.
    assert (is_due w now s = negb (ConnRate s <? threshold w) &&
      match last !! IP s with Some t => negb (now - t <? cooldown w) | None => true end) as ->
      by (by rewrite (Hl s) by set_solver).
    rewrite Ho. clear Ho.
    assert (forall s', s' ∈ srcs -> IP s' <> IP s) as Hne.
    { intros s' Hs' E. apply Hin. rewrite <- E. by apply list_elem_of_fmap_2. }
    destruct (ConnRate s <? threshold w); simpl.
    { apply IH; [done |]. set_solver. }
    destruct (last !! IP s) as [t |]; [destruct (now - t <? cooldown w) |]; simpl.
    + rewrite IH by (done || set_solver). f_equal. f_equal. set_solver.
    + rewrite IH; [| done |].
      * rewrite <- app_assoc. f_equal. f_equal. set_solver.
      * intros s' Hs'. rewrite lookup_insert_ne by (symmetry; auto). set_solver.
    + rewrite IH; [| done |].
      * rewrite <- app_assoc. f_equal. f_equal. set_solver.
      * intros s' Hs'. rewrite lookup_insert_ne by (symmetry; auto). set_solver.
Qed.

Lemma insert_all_lookup (now : Z) (l : list Source) m k :
  foldl (fun l s => <[IP s := now]> l) m l !! k =
  if bool_decide (k ∈ map IP l) then Some now else (m : gmap str Z) !! k.
Proof.
  revert m. induction l as [| s l IH]; intros m; simpl; [done |]. rewrite IH.
  case_bool_decide as H1; [by rewrite bool_decide_eq_true_2 by set_solver |].
  destruct (decide (IP s = k)) as [<- | Hk].
  - by rewrite lookup_insert_eq, bool_decide_eq_true_2 by set_solver.
  - by rewrite lookup_insert_ne, bool_decide_eq_false_2 by set_solver.
Qed.

Lemma NoDup_same_IP srcs s s' :
  NoDup (map IP srcs) -> s ∈ srcs -> s' ∈ srcs -> IP s = IP s' -> s = s'.
Proof.
  intros Hnd Hs Hs' E. induction srcs as [| x l IH]; [by apply not_elem_of_nil in Hs |].
  inversion Hnd as [| ? ? Hin Hnd']; subst. apply elem_of_cons in Hs, Hs'.
  destruct Hs as [-> | Hs], Hs' as [-> | Hs']; [done | | | auto];
    exfalso; apply Hin; [rewrite E | rewrite <- E]; by apply list_elem_of_fmap_2.
Qed.

Lemma filter_mem f srcs s :
  NoDup (map IP srcs) -> s ∈ srcs -> IP s ∈ map IP (List.filter f srcs) <-> f s = true.
Proof.
  intros Hnd Hs. split.
  - intros (s' & E & [Hs' Hf]%elem_of_filter_b)%list_elem_of_fmap.
    by rewrite (NoDup_same_IP srcs s s').
  - intros Hf. by apply list_elem_of_fmap_2, elem_of_filter_b.
Qed.

(** The effect of one poll in which no address appears twice. *)
Lemma Flooding_effect w srcs now due w' :
  NoDup (map IP srcs) -> Flooding w srcs now = (due, w') ->
  due = List.filter (is_due w now) srcs /\
  threshold w' = threshold w /\ cooldown w' = cooldown w /\
  forall s, s ∈ srcs -> last_report w' !! IP s =
    if is_over w s then (if is_due w now s then Some now else last_report w !! IP s) else None.
Proof.
  intros Hnd. unfold Flooding. rewrite flood_fold by done. intros [= <- <-].
  split_and!; [done | done | done |]. intros s Hs. cbn [last_report].
  assert (forall f, IP s ∈ map IP (List.filter f srcs) <-> f s = true) as Hmem by (intros; by apply filter_mem).
  rewrite map_lookup_filter, insert_all_lookup, (right_id_L ∅ (∪)).
  destruct (is_over w s) eqn:Ho.
  - assert (IP s ∈ (list_to_set (map IP (List.filter (is_over w) srcs)) : gset str)) as Hov.
    { apply elem_of_list_to_set, Hmem, Ho. }
    destruct (is_due w now s) eqn:Hd.
    + rewrite bool_decide_eq_true_2 by by apply Hmem. simpl. by rewrite option_guard_True.
    + rewrite bool_decide_eq_false_2 by (rewrite Hmem; congruence).
      destruct (last_report w !! IP s); simpl; [by rewrite option_guard_True | done].
  - assert (IP s ∉ (list_to_set (map IP (List.filter (is_over w) srcs)) : gset str)) as Hov.
    { rewrite elem_of_list_to_set, Hmem. congruence. }
    destruct (bool_decide _); [simpl; by rewrite option_guard_False |].
    destruct (last_report w !! IP s); simpl; [by rewrite option_guard_False | done].
Qed.

(** one poll reports exactly the sources at or over the threshold that have
    not been reported within the cooldown; those are stamped with the poll's time,
    other flooding sources keep their stamp, and calm ones are forgotten. *)
Theorem Flooding_spec w srcs now due w' :
  NoDup (map IP srcs) -> Flooding w srcs now = (due, w') ->
  (forall s, s ∈ due <-> s ∈ srcs /\ threshold w <= ConnRate s /\
     (last_report w !! IP s = None \/ exists t, last_report w !! IP s = Some t /\ cooldown w <= now - t)) /\
  forall s, s ∈ srcs -> last_report w' !! IP s =
    if is_over w s then (if is_due w now s then Some now else last_report w !! IP s) else None.
Proof.
  intros Hnd HF. destruct (Flooding_effect w srcs now due w' Hnd HF) as (-> & _ & _ & Hl).
  split; [| done]. intros s. rewrite elem_of_filter_b.
  apply and_iff_compat_l. unfold is_due, is_over. rewrite andb_true_iff, negb_true_iff, Z.ltb_ge.
  apply and_iff_compat_l. destruct (last_report w !! IP s) as [t |]; [| by split; [left |]].
  rewrite negb_true_iff, Z.ltb_ge. split; [intros; right; eauto | intros [? | (? & [= <-] & ?)]; done].
Qed.

(** ** A sustained flood *)

(** A sequence of polls in which one address is seen at every poll, at or over
    the threshold: [reports] lists the times at which it was reported. *)
Fixpoint reports (w : Watcher) (ip : str) (ps : list (list Source * Z)) : list Z :=
  match ps with
  | [] => []
  | (srcs, now) :: ps' =>
      let '(due, w') := Flooding w srcs now in
      (if bool_decide (ip ∈ map IP due) then [now] else []) ++ reports w' ip ps'
  end.

Definition flooding_at (thr : Z) (ip : str) (p : list Source * Z) : Prop :=
  NoDup (map IP p.1) /\ exists s, s ∈ p.1 /\ IP s = ip /\ thr <= ConnRate s.

(** Consecutive elements at least [d] apart, the first at least [d] after [t]. *)
Fixpoint spaced (d : Z) (t : option Z) (l : list Z) : Prop :=
  match l with
  | [] => True
  | x :: l' => match t with Some t => d <= x - t | None => True end /\ spaced d (Some x) l'
  end.

(** a sustained flood produces a periodic event, not one per poll: while a
    source stays at or over the threshold, its reports are at least a cooldown
    apart, and the first one comes at the first poll. *)
Theorem flood_reports_spaced w ip p ps :
  Forall (flooding_at (threshold w) ip) (p :: ps) -> last_report w !! ip = None ->
  exists ts, reports w ip (p :: ps) = p.2 :: ts /\ spaced (cooldown w) (Some p.2) ts.
Proof.
  intros Hf Hnone.
  enough (forall ps w, Forall (flooding_at (threshold w) ip) ps ->
    spaced (cooldown w) (last_report w !! ip) (reports w ip ps) /\
    match ps with
    | q :: _ => last_report w !! ip = None -> exists ts, reports w ip ps = q.2 :: ts
    | [] => True
    end) as H.
  { destruct (H (p :: ps) w Hf) as [Hs Hh]. destruct (Hh Hnone) as [ts E].
    exists ts. split; [done |]. rewrite E in Hs. apply Hs. }
  clear. intros ps. induction ps as [| [srcs now] ps IH]; intros w Hf; [done |].
  apply Forall_cons in Hf as [(Hnd & s & Hs & <- & Hthr) Hf]. cbn [reports fst snd] in *.
  destruct (Flooding w srcs now) as [due w'] eqn:HF.
  destruct (Flooding_effect w srcs now due w' Hnd HF) as (-> & Et & Ec & Hl).
  specialize (Hl s Hs). assert (is_over w s = true) as Ho by (apply negb_true_iff, Z.ltb_ge, Hthr).
  rewrite Ho in Hl. rewrite <- Et in Hf. destruct (IH w' Hf) as [Hsp _]. rewrite Ec in Hsp.
  assert (IP s ∈ map IP (List.filter (is_due w now) srcs) <-> is_due w now s = true) as Hmem by by apply filter_mem.
  destruct (is_due w now s) eqn:Hd.
  - rewrite bool_decide_eq_true_2 by by apply Hmem. rewrite Hl in Hsp. simpl. split; [| eauto].
    split; [| done]. unfold is_due in Hd. rewrite Ho in Hd.
    destruct (last_report w !! IP s); [| done]. simpl in Hd. bool_hyps. lia.
  - rewrite bool_decide_eq_false_2 by (rewrite Hmem; congruence). rewrite Hl in Hsp. simpl. split; [done |].
    intros Hn. unfold is_due in Hd. by rewrite Ho, Hn in Hd.
Qed.

Lemma flood_reports_spaced_witness :
  let src r := [MkSource $$"203.0.113.9" 4 r] in
  exists ts, reports (NewWatcher 100 60) $$"203.0.113.9" [(src 250, 0); (src 300, 30); (src 280, 60)] = 0 :: ts /\
    spaced 60 (Some 0) ts.
Proof.
  intros src. apply (flood_reports_spaced (NewWatcher 100 60) $$"203.0.113.9" (src 250, 0) [(src 300, 30); (src 280, 60)]).
  - repeat (apply Forall_cons; split; [split; [by apply (bool_decide_unpack _); vm_compute |
      eexists; split; [by apply list_elem_of_singleton | split; [done | simpl; lia]]] |]). constructor.
  - reflexivity.
Defined.

Lemma Flooding_spec_witness :
  let w := NewWatcher 100 60 in
  let srcs := [MkSource $$"203.0.113.9" 4 250; MkSource $$"198.51.100.1" 1 3] in
  let r := Flooding w srcs 7 in
  (forall s, s ∈ r.1 <-> s ∈ srcs /\ threshold w <= ConnRate s /\
     (last_report w !! IP s = None \/ exists t, last_report w !! IP s = Some t /\ cooldown w <= 7 - t)) /\
  forall s, s ∈ srcs -> last_report r.2 !! IP s =
    if is_over w s then (if is_due w 7 s then Some 7 else last_report w !! IP s) else None.
Proof.
  intros w srcs r. apply (Flooding_spec w srcs 7 r.1 r.2); [by apply (bool_decide_unpack _); vm_compute | by vm_compute].
Defined.

Example stick_table_line :
  ParseStickTable $$"# table: x
0x55a: key=1.2.3.4 use=0 exp=599000 conn_cur=5 conn_rate(10000)=250
" = [MkSource $$"1.2.3.4" 5 250].
Proof. by vm_compute. Qed.
