(* ===== verification/Geo.v ===== *)
(** * Geo: where an address comes from (internal/geo/geo.go)

    Addresses are classified by their bits; countries and autonomous systems are
    found by binary search in the loaded ranges.  Splitting a database file into
    CSV records is [encoding/csv]'s work: loading starts from the records.  The
    class [Span] is what the search needs of a range; both databases are
    instances, so the search is proved once. *)

From S2P Require Import Prelude GoStrings Net.

Record Location : Type := MkLocation { Scope : str; Country : str; ASN : Z; Org : str; LocSource : str }.
Definition scoped (s : str) : Location := MkLocation s [] 0 [] [].

Record countryRange : Type := CountryRange { c_start : Z; c_end : Z; c_country : str }.
Record asnRange : Type := AsnRange { a_start : Z; a_end : Z; a_asn : Z; a_org : str }.

(** ** Ranges *)

Class Span (A : Type) : Type := { sp_start : A -> Z; sp_end : A -> Z }.
#[export] Instance countryRange_span : Span countryRange := {| sp_start := c_start; sp_end := c_end |}.
#[export] Instance asnRange_span : Span asnRange := {| sp_start := a_start; sp_end := a_end |}.

(** [sort.Search(n, f)]: the loop between [i] and [j]. *)
Fixpoint search_loop (fuel : nat) (f : nat -> bool) (i j : nat) : option nat :=
  if (i <? j)%nat then
    match fuel with
    | O => None
    | S fuel' =>
        let h := ((i + j) / 2)%nat in
        if f h then search_loop fuel' f i h else search_loop fuel' f (S h) j
    end
  else Some i.
Definition Search (n : nat) (f : nat -> bool) : nat := default 0%nat (search_loop n f 0 n).

Definition span_at {A} `{Span A} (l : list A) (v : Z) (i : nat) : bool :=
  match l !! i with Some r => v <? sp_start r | None => true end.

(** The rightmost range that starts at or before [v], if it reaches [v]. *)
Definition span_find {A} `{Span A} (l : list A) (v : Z) : option A :=
  match Search (length l) (span_at l v) with
  | O => None
  | S i => match l !! i with
           | Some r => if v <=? sp_end r then Some r else None
           | None => None
           end
  end.

Record Resolver : Type := MkResolver { ranges : list countryRange; asnRanges : list asnRange }.
Definition NewResolver : Resolver := MkResolver [] [].

Definition country_of (r : Resolver) (a : addr) : option str :=
  match a with
  | A4 v =>
      match span_find (ranges r) v with
      | Some cr => if c_country cr =s [] then None else Some (c_country cr)
      | None => None
      end
  | A6 _ _ => None
  end.

Definition asnOf (r : Resolver) (a : addr) : option (Z * str) :=
  match a with
  | A4 v => (fun ar => (a_asn ar, a_org ar)) <$> span_find (asnRanges r) v
  | A6 _ _ => None
  end.

(** ** Locate *)

Definition parseAddr (s : str) : option addr :=
  let s := trim_space s in
  match ParseAddr s with
  | Some a => Some (Unmap a)
  | None => Unmap <$> ParseAddrPort s
  end.

Definition special (cidr scope : str) : (addr * Z) * str := (default (A4 0, 0) (ParsePrefix cidr), scope).
Definition specialRanges : list ((addr * Z) * str) :=
  [special $$"100.64.0.0/10" $$"cgnat"; special $$"192.0.2.0/24" $$"doc";
   special $$"198.51.100.0/24" $$"doc"; special $$"203.0.113.0/24" $$"doc";
   special $$"2001:db8::/32" $$"doc"; special $$"198.18.0.0/15" $$"reserved";
   special $$"192.0.0.0/24" $$"reserved"; special $$"192.88.99.0/24" $$"reserved";
   special $$"240.0.0.0/4" $$"reserved"; special $$"0.0.0.0/8" $$"reserved"].

Definition Locate (r : Resolver) (ip : str) : Location :=
  match parseAddr ip with
  | None => scoped $$"invalid"
  | Some a =>
      if IsUnspecified a then scoped $$"unspecified"
      else if IsLoopback a then scoped $$"loopback"
      else if IsMulticast a then scoped $$"multicast"
      else if IsLinkLocalUnicast a then scoped $$"linklocal"
      else if IsPrivate a then scoped $$"private"
      else match List.find (fun s => prefix_contains s.1.1 s.1.2 a) specialRanges with
           | Some s => scoped s.2
           | None =>
               let loc := scoped $$"global" in
               let loc := match country_of r a with
                          | Some c => MkLocation (Scope loc) c (ASN loc) (Org loc) $$"db"
                          | None => loc end in
               match asnOf r a with
               | Some (asn, org) => MkLocation (Scope loc) (Country loc) asn org $$"db"
               | None => loc
               end
           end
  end.

(** ** Loading *)

Definition country (s : str) : str :=
  let s := to_upper (trim_space s) in
  match s with
  | [a; b] => if is_upper a && is_upper b then s else []
  | _ => []
  end.

Definition parseBound (s : str) : option Z :=
  let s := trim_space s in
  match ParseAddr s with
  | Some (A4 v) => Some v
  | _ => parse_uint 10 32 s
  end.

Definition comment_row (rec : list str) : bool :=
  match rec with f :: _ => has_prefix (trim_space f) $$"#" | [] => false end.

Definition parseRecord (rec : list str) : option countryRange :=
  if comment_row rec then None
  else match rec with
  | [cidr; cc] =>
      match ParsePrefix (trim_space cidr) with
      | Some (A4 v, bits) =>
          match country cc with
          | [] => None
          | cc => let lo := mask4 v bits in
                  Some (CountryRange lo (Z.lor lo (Z.shiftr 4294967295 bits)) cc)
          end
      | _ => None
      end
  | lo :: hi :: cc :: _ =>
      match parseBound lo, parseBound hi, country cc with
      | Some lo, Some hi, (_ :: _) as cc => if hi <? lo then None else Some (CountryRange lo hi cc)
      | _, _, _ => None
      end
  | _ => None
  end.

Definition parseASNRecord (rec : list str) : option asnRange :=
  if comment_row rec then None
  else match rec with
  | lo :: hi :: asn :: orgs =>
      match parseBound lo, parseBound hi with
      | Some lo, Some hi =>
          if hi <? lo then None
          else match parse_uint 10 32 (trim_space asn) with
               | Some n => Some (AsnRange lo hi n (match orgs with [] => [] | _ => trim_space (join $$"," orgs) end))
               | None => None
               end
      | _, _ => None
      end
  | _ => None
  end.

Definition start_le {A} `{Span A} (x y : A) : Prop := sp_start x <= sp_start y.
#[export] Instance start_le_dec {A} `{Span A} (x y : A) : Decision (start_le x y).
Proof. unfold start_le. apply _. Defined.

(** [sort.Slice] by start; the order of equal starts is one of those it allows. *)
Definition LoadCSV (r : Resolver) (recs : list (list str)) : Resolver :=
  MkResolver (merge_sort start_le (omap parseRecord recs)) (asnRanges r).
Definition LoadASN (r : Resolver) (recs : list (list str)) : Resolver :=
  MkResolver (ranges r) (merge_sort start_le (omap parseASNRecord recs)).

(** * Theorems *)

(** ** Binary search *)

Lemma search_loop_spec f fuel i j :
  (j - i <= fuel)%nat -> (i <= j)%nat ->
  (forall a b, (a <= b)%nat -> f a = true -> f b = true) ->
  exists k, search_loop fuel f i j = Some k /\ (i <= k <= j)%nat /\
    (forall a, (i <= a < k)%nat -> f a = false) /\ (k < j -> f k = true)%nat.
Proof.
  intros Hf Hij Hmono. revert i j Hf Hij. induction fuel as [| fuel IH]; intros i j Hf Hij; cbn [search_loop]; cbn zeta.
  - destruct (Nat.ltb_spec i j); [lia |]. exists i. split_and!; [done | lia | lia | | lia]. lia.
  - destruct (Nat.ltb_spec i j) as [Hlt | Hge].
    + pose proof (Nat.div_mod (i + j) 2 ltac:(lia)). pose proof (Nat.mod_upper_bound (i + j) 2 ltac:(lia)).
      set (h := ((i + j) / 2)%nat) in *.
      destruct (f h) eqn:E.
      * destruct (IH i h) as (k & -> & Hk & Hb & Ha); [lia | lia |].
        exists k. split_and!; [done | lia | lia | done |]. intros Hkj.
        destruct (decide (k < h)%nat); [auto |]. replace k with h by lia. done.
      * destruct (IH (S h) j) as (k & -> & Hk & Hb & Ha); [lia | lia |].
        exists k. split_and!; [done | lia | lia | | done]. intros a Ha'.
        destruct (decide (S h <= a)%nat); [apply Hb; lia |].
        destruct (f a) eqn:Ea; [| done]. rewrite (Hmono a h) in E; [done | lia | done].
    + exists i. split_and!; [done | lia | lia | lia | lia].
Qed.

Section spans.
Context {A : Type} `{Span A}.

(** Sorted by start, with no two overlapping. *)
Definition disjoint_sorted (l : list A) : Prop :=
  StronglySorted (fun x y => sp_start x <= sp_start y /\ sp_end x < sp_start y) l.

Lemma sorted_at (l : list A) i j x y :
  disjoint_sorted l -> (i < j)%nat -> l !! i = Some x -> l !! j = Some y ->
  sp_start x <= sp_start y /\ sp_end x < sp_start y.
Proof.
  intros Hs. revert i j. induction Hs as [| z l Hs IH Hz]; intros [| i] [| j] Hij Hx Hy;
    simpl in *; try lia; try done.
  - injection Hx as ->. rewrite Forall_lookup in Hz. eauto.
  - apply (IH i j); [lia | done | done].
Qed.

(** Binary search finds the range of an address, and only that. *)
Lemma span_find_spec (l : list A) v r :
  disjoint_sorted l ->
  span_find l v = Some r <-> r ∈ l /\ sp_start r <= v <= sp_end r.
Proof.
  intros Hs.
  assert (Hmono : forall a b, (a <= b)%nat -> span_at l v a = true -> span_at l v b = true).
  { intros a b Hab. unfold span_at. destruct (l !! b) as [y |] eqn:Eb; [| done].
    destruct (l !! a) as [x |] eqn:Ea.
    - intros Hv%Z.ltb_lt. apply Z.ltb_lt. destruct (decide (a = b)) as [-> | Hne]; [congruence |].
      destruct (sorted_at l a b x y Hs) as [? _]; [lia | done | done | lia].
    - apply lookup_lt_Some in Eb. apply lookup_ge_None in Ea. lia. }
  unfold span_find, Search.
  destruct (search_loop_spec (span_at l v) (length l) 0 (length l)) as (k & -> & Hk & Hb & Ha);
    [lia | lia | done |]. cbn [default from_option id].
  destruct k as [| k]; cbn iota.
  - split; [done |]. intros [(i & Hi)%list_elem_of_lookup Hv]. exfalso.
    assert (0 < length l)%nat by (apply lookup_lt_Some in Hi; lia).
    specialize (Ha ltac:(lia)). specialize (Hmono 0%nat i ltac:(lia) Ha).
    unfold span_at in Hmono. rewrite Hi in Hmono. apply Z.ltb_lt in Hmono. lia.
  - destruct (l !! k) as [x |] eqn:Ex.
    2: { apply lookup_ge_None in Ex. lia. }
    assert (sp_start x <= v) as Hx.
    { specialize (Hb k ltac:(lia)). unfold span_at in Hb. rewrite Ex in Hb. by apply Z.ltb_ge. }
    destruct (v <=? sp_end x) eqn:Ev; bool_hyps.
    + split.
      * intros [= <-]. split; [by eapply list_elem_of_lookup_2 | lia].
      * intros [(i & Hi)%list_elem_of_lookup Hv].
        destruct (lt_eq_lt_dec i k) as [[Hik | ->] | Hik]; [| congruence |].
        -- destruct (sorted_at l i k r x Hs Hik Hi Ex). lia.
        -- destruct (sorted_at l k i x r Hs Hik Ex Hi). lia.
    + split; [done |]. intros [(i & Hi)%list_elem_of_lookup Hv].
      destruct (lt_eq_lt_dec i k) as [[Hik | ->] | Hik].
      * destruct (sorted_at l i k r x Hs Hik Hi Ex). lia.
      * simplify_eq. lia.
      * exfalso. assert (S k < length l)%nat by (apply lookup_lt_Some in Hi; lia).
        specialize (Ha ltac:(lia)). specialize (Hmono (S k) i ltac:(lia) Ha).
        unfold span_at in Hmono. rewrite Hi in Hmono. apply Z.ltb_lt in Hmono. lia.
Qed.
End spans.

(** C37: over ranges that are sorted and do not overlap, the binary searches agree
    with the definition of the databases: an address has a country (an AS) exactly
    when some range contains it, and then it is that range's. *)
Theorem geo_lookup_correct r v :
  disjoint_sorted (ranges r) -> disjoint_sorted (asnRanges r) ->
  (forall c, country_of r (A4 v) = Some c <->
     exists cr, cr ∈ ranges r /\ c_start cr <= v <= c_end cr /\ c_country cr = c /\ c <> []) /\
  (forall n o, asnOf r (A4 v) = Some (n, o) <->
     exists ar, ar ∈ asnRanges r /\ a_start ar <= v <= a_end ar /\ a_asn ar = n /\ a_org ar = o).
Proof.
  intros H1 H2. split.
  - intros c. unfold country_of.
    pose proof (fun cr => span_find_spec (ranges r) v cr H1) as Hspec.
    destruct (span_find (ranges r) v) as [cr |].
    + destruct (proj1 (Hspec cr) eq_refl) as [Hin Hv].
      assert (forall cr', cr' ∈ ranges r -> c_start cr' <= v <= c_end cr' -> cr' = cr) as Huniq.
      { intros cr' Hin' Hv'. pose proof (proj2 (Hspec cr') (conj Hin' Hv')). congruence. }
      destruct (c_country cr =s []) eqn:E; bool_hyps.
      * split; [done |]. intros (cr' & Hin' & Hv' & Hc & Hne). rewrite (Huniq cr' Hin' Hv') in Hc. congruence.
      * split; [intros [= <-]; by exists cr |].
        intros (cr' & Hin' & Hv' & <- & _). by rewrite (Huniq cr' Hin' Hv').
    + split; [done |]. intros (cr & Hin & Hv & _). by pose proof (proj2 (Hspec cr) (conj Hin Hv)).
  - intros n o. unfold asnOf.
    pose proof (fun ar => span_find_spec (asnRanges r) v ar H2) as Hspec. rewrite fmap_Some. split.
    + intros (ar & Har & [= -> ->]). apply Hspec in Har as [? ?]. by exists ar.
    + intros (ar & Hin & Hv & <- & <-). exists ar. split; [| done]. by apply Hspec.
Qed.

Definition demo_geo : Resolver :=
  LoadASN (LoadCSV NewResolver [[$$"8.8.0.0/16"; $$"us"]; [$$"# note"]; [$$"1.0.0.0"; $$"1.0.0.255"; $$"AU"]])
    [[$$"8.8.8.0"; $$"8.8.8.255"; $$"15169"; $$"Google"; $$" LLC"]].

Lemma geo_lookup_correct_witness :
  (forall c, country_of demo_geo (A4 134744072) = Some c <->
     exists cr, cr ∈ ranges demo_geo /\ c_start cr <= 134744072 <= c_end cr /\ c_country cr = c /\ c <> []) /\
  (forall n o, asnOf demo_geo (A4 134744072) = Some (n, o) <->
     exists ar, ar ∈ asnRanges demo_geo /\ a_start ar <= 134744072 <= a_end ar /\ a_asn ar = n /\ a_org ar = o).
Proof.
  apply (geo_lookup_correct demo_geo 134744072).
  - assert (ranges demo_geo = [CountryRange 16777216 16777471 $$"AU"; CountryRange 134742016 134807551 $$"US"])
      as -> by by vm_compute.
    repeat constructor; simpl; lia.
  - assert (asnRanges demo_geo = [AsnRange 134744064 134744319 15169 $$"Google, LLC"]) as -> by by vm_compute.
    repeat constructor.
Defined.

Example locate_public : Locate demo_geo $$"8.8.8.8:53" = MkLocation $$"global" $$"US" 15169 $$"Google, LLC" $$"db".
Proof. by vm_compute. Qed.

(** loading does not make the ranges disjoint: with a /8 and, inside it, a
    /16 of another country, an address of the /8 after the /16 has no country
    although the database covers it. *)
Theorem nested_ranges_lose_addresses :
  let r := LoadCSV NewResolver [[$$"8.0.0.0/8"; $$"US"]; [$$"8.8.0.0/16"; $$"DE"]] in
  Country (Locate r $$"8.7.0.1") = $$"US" /\ Country (Locate r $$"8.9.0.1") = [].
Proof. by vm_compute. Qed.

(** ** Scopes *)

Definition scopes : list str :=
  [$$"global"; $$"private"; $$"loopback"; $$"cgnat"; $$"linklocal"; $$"multicast"; $$"reserved"; $$"doc";
   $$"unspecified"; $$"invalid"].

(** every string is located, with one of the ten documented scopes, and only
    a global address ever carries a country, an AS or the "db" mark: a private,
    special-use or malformed source is never attributed to anyone. *)
Theorem Locate_scope r ip :
  Scope (Locate r ip) ∈ scopes /\
  (Scope (Locate r ip) <> $$"global" -> Locate r ip = scoped (Scope (Locate r ip))).
Proof.
  unfold Locate. destruct (parseAddr ip) as [a |]; [| split; [set_solver | done]].
  destruct (IsUnspecified a); [split; [set_solver | done] |].
  destruct (IsLoopback a); [split; [set_solver | done] |].
  destruct (IsMulticast a); [split; [set_solver | done] |].
  destruct (IsLinkLocalUnicast a); [split; [set_solver | done] |].
  destruct (IsPrivate a); [split; [set_solver | done] |].
  destruct (List.find _ specialRanges) as [[p sc] |] eqn:E.
  - apply find_some in E as [Hin _]. split; [| done]. simpl.
    assert (Forall (fun s => s.2 ∈ scopes) specialRanges) as Hall by by apply (bool_decide_unpack _); vm_compute.
    rewrite Forall_forall in Hall. by apply (Hall (p, sc)), list_elem_of_In.
  - destruct (country_of r a), (asnOf r a) as [[n o] |];
      (split; [apply (bool_decide_unpack _); by vm_compute | intros Hn; by destruct Hn]).
Qed.

Lemma Locate_scope_witness :
  Scope (Locate demo_geo $$"10.1.2.3") ∈ scopes /\ Locate demo_geo $$"10.1.2.3" = scoped $$"private".
Proof.
  destruct (Locate_scope demo_geo $$"10.1.2.3") as [Hs Hr]. split; [exact Hs |].
  rewrite Hr by (vm_compute; congruence). vm_compute. reflexivity.
Defined.

(** Bounds of a shifted value. *)
Lemma shiftr_bounds v k lo hi : 0 <= k -> lo <= v <= hi -> Z.shiftr lo k <= Z.shiftr v k <= Z.shiftr hi k.
Proof.
  intros Hk Hv. rewrite !Z.shiftr_div_pow2 by done.
  split; apply Z.div_le_mono; lia.
Qed.

(** Decide one test on a shifted address from the bounds of the address. *)
Ltac shift_test v Hv :=
  match goal with
  | |- context [v =? 0] => replace (v =? 0) with false by (symmetry; apply Z.eqb_neq; lia); cbn iota
  | |- context [Z.shiftr v ?k] =>
      let H := fresh in
      pose proof (shiftr_bounds v k _ _ ltac:(lia) Hv) as H;
      match type of H with
      | ?a <= _ <= ?b =>
          let a' := eval vm_compute in a in let b' := eval vm_compute in b in
          change (a' <= Z.shiftr v k <= b') in H
      end;
      match goal with
      | |- context [Z.shiftr v k =? ?c] =>
          let c' := eval vm_compute in c in
          first [ replace (Z.shiftr v k =? c) with false by (symmetry; apply Z.eqb_neq; change c with c'; lia)
                | replace (Z.shiftr v k =? c) with true by (symmetry; apply Z.eqb_eq; change c with c'; lia) ]
      | |- context [?c =? Z.shiftr v k] =>
          let c' := eval vm_compute in c in
          first [ replace (c =? Z.shiftr v k) with false by (symmetry; apply Z.eqb_neq; change c with c'; lia)
                | replace (c =? Z.shiftr v k) with true by (symmetry; apply Z.eqb_eq; change c with c'; lia) ]
      end; clear H; cbn [orb andb]; cbn iota
  end.

Definition special_list : list ((addr * Z) * str) :=
  [(A4 1681915904, 10, $$"cgnat"); (A4 3221225984, 24, $$"doc"); (A4 3325256704, 24, $$"doc");
   (A4 3405803776, 24, $$"doc"); (A6 42540766411282592856903984951653826560 [], 32, $$"doc");
   (A4 3323068416, 15, $$"reserved"); (A4 3221225472, 24, $$"reserved"); (A4 3227017984, 24, $$"reserved");
   (A4 4026531840, 4, $$"reserved"); (A4 0, 8, $$"reserved")].

Lemma trim_show4 v : trim_space (show4 v) = show4 v.
Proof.
  pose proof (v4_bytes_range v) as Hr. unfold show4.
  assert (forall b, 0 <= b < 256 -> match itoa b with c :: _ => plain c | [] => False end /\
    match rev (itoa b) with c :: _ => plain c | [] => False end) as Hb.
  { intros b Hb. assert (b ∈ seqZ 0 256) as Hin by (apply elem_of_seqZ; lia). clear -Hin.
    revert b Hin. apply Forall_forall. repeat constructor. }
  destruct (v4_bytes v) as [| a [| b [| c [| d [|]]]]] eqn:E; try done. clear E.
  rewrite !Forall_cons in Hr. destruct Hr as (Ha & _ & _ & Hd & _).
  apply trim_space_id; intros x t Ex.
  - destruct (Hb a Ha) as [H _]. cbn in Ex. destruct (itoa a); [done |]. by injection Ex as -> _.
  - destruct (Hb d Hd) as [_ H]. apply (f_equal (@rev ascii)) in Ex.
    cbn [map join] in Ex. rewrite !rev_app_distr in Ex. destruct (rev (itoa d)); [done |].
    rewrite <- !app_comm_cons in Ex. by injection Ex as -> _.
Qed.

(** the carrier-grade NAT, documentation, benchmarking and other special
    blocks, RFC 1918 space and loopback classify as such over their whole extent,
    whatever databases are loaded. *)
Theorem special_blocks_classified r v :
  (1681915904 <= v <= 1686110207 -> Locate r (show4 v) = scoped $$"cgnat") /\
  (3221225984 <= v <= 3221226239 -> Locate r (show4 v) = scoped $$"doc") /\
  (167772160 <= v <= 184549375 -> Locate r (show4 v) = scoped $$"private") /\
  (2130706432 <= v <= 2147483647 -> Locate r (show4 v) = scoped $$"loopback").
Proof.
  assert (forall v, 0 <= v < 2 ^ 32 -> parseAddr (show4 v) = Some (A4 v)) as Hp.
  { clear. intros v Hv. unfold parseAddr. cbn zeta. by rewrite trim_show4, parse_show4. }
  assert (specialRanges = special_list) as Hspec by by vm_compute.
  unfold Locate. rewrite Hspec.
  split_and!; intros Hv; rewrite Hp by lia; unfold IsUnspecified, IsLoopback, IsMulticast,
    IsLinkLocalUnicast, IsPrivate, Unmap, special_list; cbn [List.find prefix_contains fst snd];
    repeat (shift_test v Hv); reflexivity.
Qed.

Lemma special_blocks_classified_witness : Locate demo_geo (show4 167772161) = scoped $$"private".
Proof. apply (special_blocks_classified demo_geo 167772161). split; vm_compute; congruence. Defined.
