(* ===== verification/Util.v ===== *)
(** * Util: shared helpers (internal/util/util.go)

    Line trimming, URL and host extraction, hex dumps, base58 tokens, and the
    display sanitizer with Go's UTF-8 decoding.  Randomness is an input: the
    blocks [crypto/rand] returns, one list per call. *)

From S2P Require Import Prelude GoStrings Net.

(** ** Small helpers *)

Definition TrimCRLF (s : str) : str := trim_right s [zb 13; zb 10; zb 0].

Definition SliceContains (l : list str) (v : str) : bool := existsb (fun x => x =s v) l.

Definition is_url (p : str) : bool :=
  has_prefix p $$"http://" || has_prefix p $$"https://" || has_prefix p $$"ftp://".
Fixpoint ExtractURL (parts : list str) : str :=
  match parts with
  | [] => []
  | p :: ps => if is_url p then p else ExtractURL ps
  end.

Definition ExtractHost (raw : str) : str :=
  let s := match index_str raw $$"://" with Some i => drop (i + 3) raw | None => raw end in
  let s := match index_any s $$"/?#" with Some i => take i s | None => s end in
  match last_index_byte s "@"%char with Some i => drop (S i) s | None => s end.

(** [RandomDelay] in milliseconds; [r] is [mrand.IntN(maxMs - minMs)]. *)
Definition RandomDelay (minMs maxMs r : Z) : Z := if maxMs <=? minMs then minMs else minMs + r.

Definition hex_byte (c : ascii) : str := pad_zero 2 (hex (bz c)).
Definition HexDump (b : str) : str := join $$" " (map hex_byte (take 32 b)).

(** The host of an "ip:port" address. *)
Definition HostOnly (a : str) : str := match SplitHostPort a with Some (h, _) => h | None => a end.

(** ** Base58 tokens *)

Definition base58Alphabet : str := $$"123456789ABCDEFGHJKLMNPQRSTUVWXYZabcdefghijkmnopqrstuvwxyz".
Definition base58Unbiased : Z := 256 - 256 mod 58.
Definition base58_char (x : Z) : ascii := default (zb 0) (base58Alphabet !! Z.to_nat (x mod 58)).

(** One pass over a block: [need] characters are still wanted. *)
Fixpoint base58_block (need : nat) (block : list Z) : str :=
  match need, block with
  | O, _ | _, [] => []
  | S n, x :: block' =>
      if base58Unbiased <=? x then base58_block need block' else base58_char x :: base58_block n block'
  end.

(** [Base58GenStrict]; [draws] are the results of [crand.Read], [None] a failure.
    The second component is false when the draws run out before the token is
    complete. *)
Fixpoint Base58GenStrict (draws : list (option (list Z))) (length : nat) : option str * bool :=
  match length with
  | O => (Some [], true)
  | _ =>
      match draws with
      | [] => (None, false)
      | None :: _ => (None, true)
      | Some block :: draws' =>
          let got := base58_block length (take length block) in
          match Base58GenStrict draws' (length - List.length got) with
          | (Some rest, b) => (Some (got ++ rest), b)
          | r => r
          end
      end
  end.

(** ** UTF-8 *)

Definition RuneError : Z := 65533.
Definition cont (c : ascii) : bool := in_range c 128 191.

(** [utf8.DecodeRune]: the rune and its width; an invalid byte is [RuneError] of
    width 1. *)
Definition decode_rune (s : str) : Z * nat :=
  match s with
  | [] => (RuneError, 0%nat)
  | c :: s' =>
      let b := bz c in
      if b <? 128 then (b, 1%nat)
      else if in_range c 194 223 then
        match s' with
        | c1 :: _ => if cont c1 then ((b - 192) * 64 + (bz c1 - 128), 2%nat) else (RuneError, 1%nat)
        | _ => (RuneError, 1%nat)
        end
      else if in_range c 224 239 then
        match s' with
        | c1 :: c2 :: _ =>
            let lo := if b =? 224 then 160 else 128 in
            let hi := if b =? 237 then 159 else 191 in
            if in_range c1 lo hi && cont c2
            then ((b - 224) * 4096 + (bz c1 - 128) * 64 + (bz c2 - 128), 3%nat)
            else (RuneError, 1%nat)
        | _ => (RuneError, 1%nat)
        end
      else if in_range c 240 244 then
        match s' with
        | c1 :: c2 :: c3 :: _ =>
            let lo := if b =? 240 then 144 else 128 in
            let hi := if b =? 244 then 143 else 191 in
            if in_range c1 lo hi && cont c2 && cont c3
            then ((b - 240) * 262144 + (bz c1 - 128) * 4096 + (bz c2 - 128) * 64 + (bz c3 - 128), 4%nat)
            else (RuneError, 1%nat)
        | _ => (RuneError, 1%nat)
        end
      else (RuneError, 1%nat)
  end.

(** [strings.Builder.WriteRune]. *)
Definition encode_rune (r : Z) : str :=
  let r := if (r <? 0) || (1114111 <? r) || ((55296 <=? r) && (r <=? 57343)) then RuneError else r in
  if r <? 128 then bytes [r]
  else if r <? 2048 then bytes [192 + r / 64; 128 + r mod 64]
  else if r <? 65536 then bytes [224 + r / 4096; 128 + (r / 64) mod 64; 128 + r mod 64]
  else bytes [240 + r / 262144; 128 + (r / 4096) mod 64; 128 + (r / 64) mod 64; 128 + r mod 64].

(** The runes a [for range] over a string yields. *)
Fixpoint runes_from (skip : nat) (s : str) : list Z :=
  match s with
  | [] => []
  | _ :: s' =>
      match skip with
      | S k => runes_from k s'
      | O => let '(r, w) := decode_rune s in r :: runes_from (w - 1) s'
      end
  end.
Definition runes (s : str) : list Z := runes_from 0 s.

Definition isTerminalControl (r : Z) : bool := (r <? 32) || ((127 <=? r) && (r <=? 159)).

Definition display_rune (r : Z) : str :=
  if r =? 9 then $$" " else if isTerminalControl r then $$"." else encode_rune r.
Definition SanitizeDisplay (s : str) : str := flat_map display_rune (runes s).

(** * Theorems *)

(** ** Decoding what was encoded *)

Definition scalar (r : Z) : Prop := 0 <= r <= 1114111 /\ ~ 55296 <= r <= 57343.

Lemma in_range_spec c lo hi : in_range c lo hi = true <-> lo <= bz c <= hi.
Proof. unfold in_range. rewrite andb_true_iff, !Z.leb_le. done. Qed.

Lemma in_range_zb n lo hi : 0 <= n < 256 -> in_range (zb n) lo hi = (lo <=? n) && (n <=? hi).
Proof. intros Hn. unfold in_range. by rewrite bz_zb, Z.mod_small. Qed.

Lemma decode_scalar s : scalar (decode_rune s).1.
Proof.
  unfold scalar. destruct s as [| c s]; [cbn; unfold RuneError; lia |]. cbn [decode_rune]. cbn zeta.
  pose proof (bz_range c). destruct (bz c <? 128) eqn:E0; bool_hyps; [cbn; lia |].
  repeat (case_match; bool_hyps; try (cbn; unfold RuneError; lia));
    repeat match goal with H : in_range _ _ _ = true |- _ => apply in_range_spec in H
    | H : cont _ = true |- _ => unfold cont in H; apply in_range_spec in H end;
    cbn [fst];
    repeat match goal with H : context [if ?b then _ else _] |- _ => destruct b eqn:? end; bool_hyps; lia.
Qed.

Lemma encode_nonempty r : encode_rune r <> [].
Proof. unfold encode_rune. by repeat case_match. Qed.

Lemma decode_encode r t : scalar r -> decode_rune (encode_rune r ++ t) = (r, length (encode_rune r)).
Proof.
  intros [Hr Hs]. unfold encode_rune.
  replace ((r <? 0) || (1114111 <? r) || ((55296 <=? r) && (r <=? 57343))) with false.
  2: { symmetry. rewrite !orb_false_iff, andb_false_iff, !Z.ltb_ge, !Z.leb_gt. lia. }
  pose proof (Z.div_mod r 64 ltac:(lia)). pose proof (Z.mod_pos_bound r 64 ltac:(lia)).
  pose proof (Z.div_mod (r / 64) 64 ltac:(lia)). pose proof (Z.mod_pos_bound (r / 64) 64 ltac:(lia)).
  pose proof (Z.div_mod (r / 4096) 64 ltac:(lia)). pose proof (Z.mod_pos_bound (r / 4096) 64 ltac:(lia)).
  assert (r / 64 / 64 = r / 4096) by by rewrite Z.div_div.
  assert (r / 4096 / 64 = r / 262144) by by rewrite Z.div_div.
  set (q1 := r / 64) in *. set (q2 := r / 4096) in *. set (q3 := r / 262144) in *.
  set (m0 := r mod 64) in *. set (m1 := q1 mod 64) in *. set (m2 := q2 mod 64) in *.
  clearbody m0 m1 m2 q3 q2 q1.
  destruct (r <? 128) eqn:E1; [| destruct (r <? 2048) eqn:E2; [| destruct (r <? 65536) eqn:E3]]; bool_hyps;
    cbn [bytes map app decode_rune length]; cbn zeta; unfold cont;
    rewrite !bz_zb, ?Z.mod_small by lia; rewrite ?in_range_zb by lia.
  - replace (r <? 128) with true by (symmetry; apply Z.ltb_lt; lia). done.
  - replace (192 + q1 <? 128) with false by (symmetry; apply Z.ltb_ge; lia).
    replace ((194 <=? 192 + q1) && (192 + q1 <=? 223)) with true by (symmetry; rewrite andb_true_iff, !Z.leb_le; lia).
    replace ((128 <=? 128 + m0) && (128 + m0 <=? 191)) with true by (symmetry; rewrite andb_true_iff, !Z.leb_le; lia).
    f_equal. lia.
  - replace (224 + q2 <? 128) with false by (symmetry; apply Z.ltb_ge; lia).
    replace ((194 <=? 224 + q2) && (224 + q2 <=? 223)) with false by (symmetry; rewrite andb_false_iff, !Z.leb_gt; lia).
    replace ((224 <=? 224 + q2) && (224 + q2 <=? 239)) with true by (symmetry; rewrite andb_true_iff, !Z.leb_le; lia).
    replace ((128 <=? 128 + m0) && (128 + m0 <=? 191)) with true by (symmetry; rewrite andb_true_iff, !Z.leb_le; lia).
    match goal with |- context [if ?b then _ else _] => replace b with true end.
    { f_equal. lia. }
    symmetry. rewrite !andb_true_iff. split; [| done]. rewrite !Z.leb_le.
    destruct (Z.eqb_spec (224 + q2) 224), (Z.eqb_spec (224 + q2) 237); lia.
  - replace (240 + q3 <? 128) with false by (symmetry; apply Z.ltb_ge; lia).
    replace ((194 <=? 240 + q3) && (240 + q3 <=? 223)) with false by (symmetry; rewrite andb_false_iff, !Z.leb_gt; lia).
    replace ((224 <=? 240 + q3) && (240 + q3 <=? 239)) with false by (symmetry; rewrite andb_false_iff, !Z.leb_gt; lia).
    replace ((240 <=? 240 + q3) && (240 + q3 <=? 244)) with true by (symmetry; rewrite andb_true_iff, !Z.leb_le; lia).
    match goal with |- context [if ?b then _ else _] => replace b with true end.
    { f_equal. lia. }
    symmetry. rewrite !andb_true_iff, !Z.leb_le.
    destruct (Z.eqb_spec (240 + q3) 240), (Z.eqb_spec (240 + q3) 244); lia.
Qed.

Lemma runes_from_skip k s : runes_from k s = runes_from 0 (drop k s).
Proof.
  revert k. induction s as [| c s IH]; intros [| k]; try done. cbn [runes_from drop]. apply IH.
Qed.

Lemma runes_encode r t : scalar r -> runes (encode_rune r ++ t) = r :: runes t.
Proof.
  intros Hr. pose proof (decode_encode r t Hr) as Hd. pose proof (encode_nonempty r) as Hn.
  unfold runes. destruct (encode_rune r) as [| c e] eqn:E; [done |].
  rewrite <- app_comm_cons in *. cbn [runes_from]. rewrite Hd. cbn [length]. f_equal.
  rewrite runes_from_skip. replace (S (length e) - 1)%nat with (length e) by lia.
  by rewrite drop_app_length.
Qed.

Lemma runes_scalar s : Forall scalar (runes s).
Proof.
  unfold runes. generalize 0%nat as k. induction s as [| c s IH]; intros k; [constructor |].
  cbn [runes_from]. destruct k; [| apply IH].
  pose proof (decode_scalar (c :: s)). destruct (decode_rune (c :: s)) as [r w]. by constructor.
Qed.

Lemma runes_flat_map f rs :
  Forall scalar rs -> (forall r, scalar r -> exists r', scalar r' /\ f r = encode_rune r') ->
  exists rs', runes (flat_map f rs) = rs' /\ Forall2 (fun r r' => f r = encode_rune r' /\ scalar r') rs rs'.
Proof.
  intros Hrs Hf. induction Hrs as [| r rs Hr _ (rs' & E & IH)]; simpl; [by exists [] |].
  destruct (Hf r Hr) as (r' & Hr' & Er). exists (r' :: rs'). split; [| by constructor].
  by rewrite Er, runes_encode, E.
Qed.

Lemma encode_rune_inj r r' : scalar r -> scalar r' -> encode_rune r = encode_rune r' -> r = r'.
Proof.
  intros Hr Hr' E. pose proof (decode_encode r [] Hr) as H1. pose proof (decode_encode r' [] Hr') as H2.
  rewrite E in H1. congruence.
Qed.

(** whatever bytes an attacker sends, the text echoed to the operator's
    terminal contains no C0 control, DEL or C1 control, not even one spelled with
    several bytes; ordinary characters are kept and the text has one character per
    character of the input. *)
Theorem SanitizeDisplay_safe s :
  Forall (fun r => isTerminalControl r = false) (runes (SanitizeDisplay s)) /\
  Forall2 (fun r r' => isTerminalControl r = false -> r' = r) (runes s) (runes (SanitizeDisplay s)).
Proof.
  pose proof (runes_scalar s) as Hs. unfold SanitizeDisplay.
  assert (scalar 32 /\ scalar 46) as [H32 H46] by (unfold scalar; lia).
  destruct (runes_flat_map display_rune (runes s) Hs) as (rs' & -> & H2).
  { intros r Hr. unfold display_rune. destruct (r =? 9); [by exists 32 |].
    destruct (isTerminalControl r); [by exists 46 | by exists r]. }
  assert (forall r r', display_rune r = encode_rune r' -> scalar r -> scalar r' ->
    isTerminalControl r' = false /\ (isTerminalControl r = false -> r' = r)) as Hone.
  { intros r r' E Hr Hr'. unfold display_rune in E. destruct (r =? 9) eqn:E9.
    - bool_hyps. subst r. apply (encode_rune_inj 32) in E; [subst | done | done]. by split.
    - destruct (isTerminalControl r) eqn:Ec.
      + apply (encode_rune_inj 46) in E; [subst | done | done]. by split.
      + apply encode_rune_inj in E; [subst | done | done]. by split. }
  clear H32 H46. induction H2 as [| r r' rs rs' [E Hr'] _ IH]; [by split |].
  apply Forall_cons in Hs as [Hr Hs]. destruct (IH Hs) as [I1 I2].
  destruct (Hone r r' E Hr Hr') as [? ?]. split; by constructor.
Qed.

(** ** Tokens *)

Lemma base58_block_spec need block :
  let got := base58_block need block in
  (length got <= need)%nat /\ Forall (fun c => c ∈ base58Alphabet) got /\
  got = map base58_char (take need (List.filter (fun x => negb (base58Unbiased <=? x)) block)).
Proof.
  cbn zeta. revert need. induction block as [| x block IH]; intros [| need];
    try (split_and!; [simpl; lia | constructor | done]).
  cbn [base58_block List.filter]. destruct (base58Unbiased <=? x) eqn:E; cbn [negb].
  - apply IH.
  - destruct (IH need) as (H1 & H2 & H3). cbn [take map length]. rewrite <- H3. split_and!; [lia | | done].
    constructor; [| done]. unfold base58_char.
    assert (Z.to_nat (x mod 58) < 58)%nat as Hlt by (pose proof (Z.mod_pos_bound x 58); lia).
    destruct (base58Alphabet !! Z.to_nat (x mod 58)) as [c |] eqn:Ec.
    + by eapply list_elem_of_lookup_2.
    + apply lookup_ge_None in Ec. change (length base58Alphabet) with 58%nat in Ec. lia.
Qed.

Lemma Base58GenStrict_spec draws n s :
  (Base58GenStrict draws n).1 = Some s -> length s = n /\ Forall (fun c => c ∈ base58Alphabet) s.
Proof.
  revert n s. induction draws as [| [block |] draws IH]; intros [| n] s; cbn [Base58GenStrict fst];
    try done; try (intros [= <-]; by split).
  destruct (base58_block_spec (S n) (take (S n) block)) as (Hl & Hf & _).
  set (got := base58_block (S n) (take (S n) block)) in *. cbn zeta.
  specialize (IH (S n - length got)%nat).
  destruct (Base58GenStrict draws (S n - length got)) as [[rest |] b]; [| done].
  intros [= <-]. destruct (IH rest eq_refl) as [H1 H2].
  rewrite length_app. split; [lia |]. by apply Forall_app.
Qed.

(** Bytes a draw must contain to contribute. *)
Definition useful (block : list Z) : Prop := exists x rest, block = x :: rest /\ x < base58Unbiased.

(** a secret token has exactly the requested length and only base58 letters;
    if the system's random source fails while letters are missing, no token at all
    is returned; and [length] successful draws whose first byte is usable always
    complete it. *)
Theorem Base58GenStrict_correct draws n :
  (forall s, (Base58GenStrict draws n).1 = Some s ->
     length s = n /\ Forall (fun c => c ∈ base58Alphabet) s) /\
  ((0 < n)%nat -> Base58GenStrict (None :: draws) n = (None, true)) /\
  ((n <= length draws)%nat ->
   Forall (fun d => exists block, d = Some block /\ useful block) draws ->
   exists s, Base58GenStrict draws n = (Some s, true)).
Proof.
  split; [apply Base58GenStrict_spec |]. split; [by destruct n; [lia |] |].
  revert n. induction draws as [| d draws IH]; intros n Hn Hu.
  { simpl in Hn. assert (n = 0%nat) as -> by lia. by exists []. }
  apply Forall_cons in Hu as [(block & -> & x & rest & -> & Hx) Hu].
  destruct n as [| n]; [by exists [] |]. cbn [Base58GenStrict]. cbn zeta.
  set (got := base58_block (S n) (take (S n) (x :: rest))).
  assert (1 <= length got)%nat as Hgot.
  { unfold got. cbn [take base58_block]. replace (base58Unbiased <=? x) with false
      by (symmetry; by apply Z.leb_gt). simpl. lia. }
  destruct (IH (S n - length got)%nat) as [s ->]; [simpl in Hn; lia | done |]. eauto.
Qed.

Example sanitize_c1 : SanitizeDisplay ($$"a" ++ bytes [194; 155; 27; 9; 195; 169]) = $$"a.. " ++ bytes [195; 169].
Proof. by vm_compute. Qed.

Lemma SanitizeDisplay_safe_witness :
  Forall (fun r => isTerminalControl r = false) (runes (SanitizeDisplay ($$"a" ++ bytes [194; 155; 27]))).
Proof. apply (SanitizeDisplay_safe ($$"a" ++ bytes [194; 155; 27])). Defined.

Lemma Base58GenStrict_correct_witness :
  exists s, Base58GenStrict [Some [7; 250; 8]; Some [9]] 2 = (Some s, true).
Proof.
  apply (Base58GenStrict_correct [Some [7; 250; 8]; Some [9]] 2); [simpl; lia |].
  repeat constructor; (eexists; split; [reflexivity |]; eexists _, _; split; [reflexivity | by vm_compute]).
Defined.
