(* ===== verification/Event.v ===== *)
(** * Event: the event log (internal/event/event.go)

    [Entry] has every field of the schema.  [time.Format], [json.Marshal] and
    [Duration.String] are parameters; a write to the log file succeeds or fails
    as the environment decides. *)

From S2P Require Import Prelude GoStrings Net Util.

Record Entry : Type := MkEntry {
  e_Time : str; e_EpochMs : Z; e_Event : str; e_Session : str; e_Sensor : str; e_IP : str; e_SrcIP : str;
  e_DstIP : str; e_Port : Z; e_Protocol : str; e_Persona : str; e_Username : str; e_Password : str;
  e_Command : str; e_Request : str; e_Method : str; e_Path : str; e_Body : str; e_UserAgent : str;
  e_Headers : gmap str str; e_URL : str; e_Host : str; e_Filename : str; e_SHA256 : str;
  e_DurationMs : Z; e_CmdCount : Z; e_Data : str; e_Note : str; e_Message : str
}.

(** An event of the given name and source; every other field is empty. *)
Definition base_entry (ev ip src : str) (port : Z) (proto : str) : Entry :=
  MkEntry [] 0 ev [] [] ip src [] port proto [] [] [] [] [] [] [] [] [] ∅ [] [] [] [] 0 0 [] [] [].

Definition set_ids (e : Entry) (sid dst persona : str) : Entry :=
  MkEntry (e_Time e) (e_EpochMs e) (e_Event e) sid (e_Sensor e) (e_IP e) (e_SrcIP e) dst (e_Port e) (e_Protocol e)
    persona (e_Username e) (e_Password e) (e_Command e) (e_Request e) (e_Method e) (e_Path e) (e_Body e)
    (e_UserAgent e) (e_Headers e) (e_URL e) (e_Host e) (e_Filename e) (e_SHA256 e) (e_DurationMs e)
    (e_CmdCount e) (e_Data e) (e_Note e) (e_Message e).
Definition set_stamp (e : Entry) (t : str) (ms : Z) (sensor msg : str) : Entry :=
  MkEntry t ms (e_Event e) (e_Session e) sensor (e_IP e) (e_SrcIP e) (e_DstIP e) (e_Port e) (e_Protocol e)
    (e_Persona e) (e_Username e) (e_Password e) (e_Command e) (e_Request e) (e_Method e) (e_Path e) (e_Body e)
    (e_UserAgent e) (e_Headers e) (e_URL e) (e_Host e) (e_Filename e) (e_SHA256 e) (e_DurationMs e)
    (e_CmdCount e) (e_Data e) (e_Note e) msg.
Definition set_cred (e : Entry) (user pass : str) : Entry :=
  MkEntry (e_Time e) (e_EpochMs e) (e_Event e) (e_Session e) (e_Sensor e) (e_IP e) (e_SrcIP e) (e_DstIP e)
    (e_Port e) (e_Protocol e) (e_Persona e) user pass (e_Command e) (e_Request e) (e_Method e) (e_Path e)
    (e_Body e) (e_UserAgent e) (e_Headers e) (e_URL e) (e_Host e) (e_Filename e) (e_SHA256 e) (e_DurationMs e)
    (e_CmdCount e) (e_Data e) (e_Note e) (e_Message e).
Definition set_command (e : Entry) (cmd : str) : Entry :=
  MkEntry (e_Time e) (e_EpochMs e) (e_Event e) (e_Session e) (e_Sensor e) (e_IP e) (e_SrcIP e) (e_DstIP e)
    (e_Port e) (e_Protocol e) (e_Persona e) (e_Username e) (e_Password e) cmd (e_Request e) (e_Method e)
    (e_Path e) (e_Body e) (e_UserAgent e) (e_Headers e) (e_URL e) (e_Host e) (e_Filename e) (e_SHA256 e)
    (e_DurationMs e) (e_CmdCount e) (e_Data e) (e_Note e) (e_Message e).
Definition set_note (e : Entry) (note : str) : Entry :=
  MkEntry (e_Time e) (e_EpochMs e) (e_Event e) (e_Session e) (e_Sensor e) (e_IP e) (e_SrcIP e) (e_DstIP e)
    (e_Port e) (e_Protocol e) (e_Persona e) (e_Username e) (e_Password e) (e_Command e) (e_Request e)
    (e_Method e) (e_Path e) (e_Body e) (e_UserAgent e) (e_Headers e) (e_URL e) (e_Host e) (e_Filename e)
    (e_SHA256 e) (e_DurationMs e) (e_CmdCount e) (e_Data e) note (e_Message e).
Definition set_file (e : Entry) (url host fn sha data : str) : Entry :=
  MkEntry (e_Time e) (e_EpochMs e) (e_Event e) (e_Session e) (e_Sensor e) (e_IP e) (e_SrcIP e) (e_DstIP e)
    (e_Port e) (e_Protocol e) (e_Persona e) (e_Username e) (e_Password e) (e_Command e) (e_Request e)
    (e_Method e) (e_Path e) (e_Body e) (e_UserAgent e) (e_Headers e) url host fn sha (e_DurationMs e)
    (e_CmdCount e) data (e_Note e) (e_Message e).
Definition set_http (e : Entry) (mth req path body ua : str) (hdrs : gmap str str) : Entry :=
  MkEntry (e_Time e) (e_EpochMs e) (e_Event e) (e_Session e) (e_Sensor e) (e_IP e) (e_SrcIP e) (e_DstIP e)
    (e_Port e) (e_Protocol e) (e_Persona e) (e_Username e) (e_Password e) (e_Command e) req mth path body ua
    hdrs (e_URL e) (e_Host e) (e_Filename e) (e_SHA256 e) (e_DurationMs e) (e_CmdCount e) (e_Data e)
    (e_Note e) (e_Message e).
Definition set_end (e : Entry) (ms cmds : Z) : Entry :=
  MkEntry (e_Time e) (e_EpochMs e) (e_Event e) (e_Session e) (e_Sensor e) (e_IP e) (e_SrcIP e) (e_DstIP e)
    (e_Port e) (e_Protocol e) (e_Persona e) (e_Username e) (e_Password e) (e_Command e) (e_Request e)
    (e_Method e) (e_Path e) (e_Body e) (e_UserAgent e) (e_Headers e) (e_URL e) (e_Host e) (e_Filename e)
    (e_SHA256 e) ms cmds (e_Data e) (e_Note e) (e_Message e).

Definition PortScan (remote : str) (port : Z) (proto : str) : Entry :=
  base_entry $$"PORT_SCAN" remote (HostOnly remote) port proto.
Definition System (msg : str) : Entry := set_stamp (base_entry $$"SYSTEM" [] [] 0 []) [] 0 [] msg.
Definition FloodBlocked (srcIP : str) (connRate : Z) : Entry :=
  set_stamp (base_entry $$"FLOOD_BLOCKED" srcIP srcIP 0 []) [] 0 []
    ($$"edge rate-limited a flood (conn_rate " ++ itoa connRate ++ $$"/10s)").

Record Logger : Type := MkLogger {
  l_open : bool; l_sensor : str; l_dropped : Z; l_warned : bool;
  l_lines : list str;      (* what reached the file *)
  l_stderr : Z             (* write-failure notices *)
}.
Definition NewLogger (host : str) : Logger := MkLogger true host 0 false [] 0.
Definition Close (l : Logger) : Logger :=
  MkLogger false (l_sensor l) (l_dropped l) (l_warned l) (l_lines l) (l_stderr l).

Section log.
Context (rfc3339 : Z -> str) (marshal : Entry -> option str) (dur_string : Z -> str).

Definition summaryDetail (e : Entry) : str :=
  let ne s := negb (s =s []) in
  if ne (e_Command e) then e_Command e
  else if ne (e_Username e) && ne (e_Password e) then e_Username e ++ $$" / " ++ e_Password e
  else if ne (e_Username e) then $$"user=" ++ e_Username e
  else if ne (e_URL e) then e_URL e
  else if ne (e_Request e) then e_Request e
  else if ne (e_Path e) then e_Path e
  else if e_Event e =s $$"SESSION_END" then itoa (e_CmdCount e) ++ $$" cmds, " ++ dur_string (e_DurationMs e)
  else e_Data e.

Definition stamp (l : Logger) (now : Z) (e : Entry) : Entry :=
  let e := set_stamp e (rfc3339 now) now (if e_Sensor e =s [] then l_sensor l else e_Sensor e) (e_Message e) in
  if e_Message e =s [] then set_stamp e (e_Time e) (e_EpochMs e) (e_Sensor e) (summaryDetail e) else e.

(** [Log]; [now] is in milliseconds, [write_ok] the outcome of the write.  The
    second component is the summary echoed to the console, if any. *)
Definition Log (l : Logger) (now : Z) (write_ok : bool) (e : Entry) : Logger * option str :=
  let e := stamp l now e in
  match marshal e with
  | None => (l, None)
  | Some data =>
      let l' :=
        if negb (l_open l) then l
        else if write_ok then
          MkLogger true (l_sensor l) (l_dropped l) (l_warned l) (l_lines l ++ [data ++ [zb 10]]) (l_stderr l)
        else MkLogger true (l_sensor l) (l_dropped l + 1) true (l_lines l)
               (if l_warned l then l_stderr l else l_stderr l + 1) in
      (l', Some (SanitizeDisplay (e_Message e)))
  end.

Fixpoint log_all (l : Logger) (evs : list (Z * bool * Entry)) : Logger :=
  match evs with
  | [] => l
  | (now, ok, e) :: evs' => log_all (fst (Log l now ok e)) evs'
  end.

(** no event disappears silently: as long as the log is open, every event that
    can be serialized is either on file or counted as dropped, and the first loss,
    and only it, is reported on stderr. *)
Theorem log_accounts_for_every_event evs l :
  (forall e, marshal e <> None) -> l_open l = true -> l_warned l = negb (l_dropped l =? 0) ->
  l_stderr l = (if l_warned l then 1 else 0) -> 0 <= l_dropped l ->
  let l' := log_all l evs in
  zlen (l_lines l') + l_dropped l' = zlen (l_lines l) + l_dropped l + zlen evs /\
  l_stderr l' = (if l_dropped l' =? 0 then 0 else 1).
Proof.
  intros Hm. revert l. induction evs as [| [[now ok] e] evs IH]; intros l Ho Hw Hs Hd; cbn zeta.
  - cbn [log_all]. change (zlen []) with 0. split; [lia |]. rewrite Hs, Hw. by destruct (l_dropped l =? 0).
  - cbn [log_all]. unfold Log at 1 2 3 4. cbn zeta.
    destruct (marshal (stamp l now e)) as [data |] eqn:E; [| by apply Hm in E]. rewrite Ho. cbn [negb fst].
    destruct ok.
    + destruct (IH (MkLogger true (l_sensor l) (l_dropped l) (l_warned l)
        (l_lines l ++ [data ++ [zb 10]]) (l_stderr l))) as [H1 H2]; [done | done | done | done |].
      cbn zeta in H1, H2. split; [| done]. rewrite H1. cbn [l_lines l_dropped]. len.
    + destruct (IH (MkLogger true (l_sensor l) (l_dropped l + 1) true (l_lines l)
               (if l_warned l then l_stderr l else l_stderr l + 1))) as [H1 H2]; cbn [l_open l_warned l_dropped l_stderr].
      * done.
      * symmetry. apply negb_true_iff, Z.eqb_neq. lia.
      * by destruct (l_warned l); rewrite Hs.
      * lia.
      * cbn zeta in H1, H2. split; [| done]. rewrite H1. cbn [l_lines l_dropped]. len.
Qed.
End log.

Lemma log_accounts_for_every_event_witness :
  let evs := [(0, true, PortScan $$"1.2.3.4:5" 23 $$"telnet"); (1, false, FloodBlocked $$"1.2.3.4" 9)] in
  let l' := log_all (fun _ => []) (fun e => Some (e_Event e)) (fun _ => []) (NewLogger $$"h") evs in
  zlen (l_lines l') + l_dropped l' = 0 + 0 + 2 /\ l_stderr l' = (if l_dropped l' =? 0 then 0 else 1).
Proof.
  intros evs. apply (log_accounts_for_every_event (fun _ => []) (fun e => Some (e_Event e)) (fun _ => []) evs (NewLogger $$"h"));
    done.
Defined.
