(* ===== verification/Session.v ===== *)
(** * Session: one connection (internal/server/session.go)

    [sess] is the state every protocol works on: the bytes still to arrive before
    the client leaves or a read deadline passes ([inp]), what was written to the
    wire ([out]), the capture buffer, and the events logged.  Operations return
    the new state. *)

From S2P Require Import Prelude GoStrings Net Util Event.

Definition second : Z := 1000000000.
Definition defaultIdleTimeout : Z := 600 * second.
Definition maxSessionLifetime : Z := 3600 * second.
Definition maxLineBytes : Z := 64 * 1024.
Definition maxReadN : Z := Z.shiftl 1 20.

Record sess : Type := Sess {
  inp : str;
  out : str;
  capture : option str;
  events : list Entry;
  port : Z; proto : str;
  s_IP : str; SrcIP : str; DstIP : str; ID : str;
  persona_host : str;          (* Persona.Hostname, empty without a persona *)
  CmdCount : Z;
  Username : str;
  IdleTimeout : Z;
  Deadline : Z                 (* 0: no cap *)
}.

Definition set_inp (s : sess) (i : str) : sess :=
  Sess i (out s) (capture s) (events s) (port s) (proto s) (s_IP s) (SrcIP s) (DstIP s) (ID s) (persona_host s)
    (CmdCount s) (Username s) (IdleTimeout s) (Deadline s).
Definition set_out (s : sess) (o : str) : sess :=
  Sess (inp s) o (capture s) (events s) (port s) (proto s) (s_IP s) (SrcIP s) (DstIP s) (ID s) (persona_host s)
    (CmdCount s) (Username s) (IdleTimeout s) (Deadline s).
Definition set_capture (s : sess) (c : option str) : sess :=
  Sess (inp s) (out s) c (events s) (port s) (proto s) (s_IP s) (SrcIP s) (DstIP s) (ID s) (persona_host s)
    (CmdCount s) (Username s) (IdleTimeout s) (Deadline s).
Definition add_event (s : sess) (e : Entry) : sess :=
  Sess (inp s) (out s) (capture s) (events s ++ [e]) (port s) (proto s) (s_IP s) (SrcIP s) (DstIP s) (ID s)
    (persona_host s) (CmdCount s) (Username s) (IdleTimeout s) (Deadline s).
Definition set_username (s : sess) (u : str) : sess :=
  Sess (inp s) (out s) (capture s) (events s) (port s) (proto s) (s_IP s) (SrcIP s) (DstIP s) (ID s)
    (persona_host s) (CmdCount s) u (IdleTimeout s) (Deadline s).
Definition set_idle (s : sess) (d : Z) : sess :=
  Sess (inp s) (out s) (capture s) (events s) (port s) (proto s) (s_IP s) (SrcIP s) (DstIP s) (ID s)
    (persona_host s) (CmdCount s) (Username s) d (Deadline s).
Definition count_cmd (s : sess) : sess :=
  Sess (inp s) (out s) (capture s) (events s) (port s) (proto s) (s_IP s) (SrcIP s) (DstIP s) (ID s)
    (persona_host s) (CmdCount s + 1) (Username s) (IdleTimeout s) (Deadline s).
Definition set_persona (s : sess) (h : str) : sess :=
  Sess (inp s) (out s) (capture s) (events s) (port s) (proto s) (s_IP s) (SrcIP s) (DstIP s) (ID s) h
    (CmdCount s) (Username s) (IdleTimeout s) (Deadline s).

Definition readDeadline (s : sess) (now : Z) : Z :=
  let d := now + IdleTimeout s in
  if negb (Deadline s =? 0) && (Deadline s <? d) then Deadline s else d.

(** ** Output *)

Definition Write (x : str) (s : sess) : sess :=
  match capture s with
  | Some c => set_capture s (Some (c ++ x))
  | None => set_out s (out s ++ x)
  end.
Definition Writeln (x : str) (s : sess) : sess := Write (x ++ [zb 13; zb 10]) s.

(** [SlowWrite] converts the string to runes, so on the wire an invalid byte
    becomes U+FFFD; in capture mode the string is kept. *)
Definition SlowWrite (x : str) (s : sess) : sess :=
  match capture s with
  | Some _ => Write x s
  | None => set_out s (out s ++ flat_map encode_rune (runes x))
  end.

Definition CaptureOutput (fn : sess -> sess) (s : sess) : str * sess :=
  let prev := capture s in
  let s' := fn (set_capture s (Some [])) in
  (default [] (capture s'), set_capture s' prev).

Definition bar_char (filled i : Z) : ascii :=
  if i <? filled then "="%char else if i =? filled then ">"%char else " "%char.
Definition progressBar (pct : Z) : str :=
  let filled := Z.min (pct * 20 / 100) 20 in
  $$"[" ++ map (bar_char filled) (seqZ 0 20) ++ $$"]".

Definition SlowProgress (label : str) (s : sess) : sess :=
  match capture s with
  | Some _ => Write ([zb 13] ++ label ++ $$" " ++ progressBar 100 ++ $$" 100%" ++ [zb 10]) s
  | None =>
      let lines := flat_map (fun i => let pct := i * 100 / 50 in
        [zb 13] ++ label ++ $$" " ++ progressBar pct ++ $$" " ++ pad_left 3 (itoa pct) ++ $$"%") (seqZ 0 51) in
      Write [zb 10] (set_out s (out s ++ lines))
  end.

(** ** Input *)

(** The loop of [ReadLine]; [b] is the builder, [n] its length. *)
Fixpoint read_line (b : str) (n : Z) (i : str) : str * bool * str :=
  match i with
  | [] => (TrimCRLF b, false, [])
  | c :: i' =>
      if bool_decide (c = zb 10) then (TrimCRLF b, true, i')
      else if bool_decide (c = zb 13) then
        (TrimCRLF b, true,
         match i' with
         | d :: i'' => if bool_decide (d = zb 10) || bool_decide (d = zb 0) then i'' else i'
         | [] => []
         end)
      else if maxLineBytes <=? n + 1 then (TrimCRLF (b ++ [c]), true, i')
      else read_line (b ++ [c]) (n + 1) i'
  end.

Definition ReadLine (s : sess) : str * bool * sess :=
  match capture s with
  | Some _ => ([], false, s)
  | None => let '(l, ok, i) := read_line [] 0 (inp s) in (l, ok, set_inp s i)
  end.

Definition Prompt (label : str) (s : sess) : str * bool * sess := ReadLine (Write label s).

Definition ReadN (n : Z) (s : sess) : str * sess :=
  if n <=? 0 then ([], s)
  else
    let n := Z.min n maxReadN in
    (take (Z.to_nat n) (inp s), set_inp s (drop (Z.to_nat n) (inp s))).

(** ** Events *)

Definition ev (s : sess) (name : str) : Entry :=
  set_ids (base_entry name (s_IP s) (SrcIP s) (port s) (proto s)) (ID s) (DstIP s) (persona_host s).

Definition LogSessionStart (s : sess) : sess := add_event s (ev s $$"SESSION_START").
Definition LogSessionEnd (ms : Z) (s : sess) : sess :=
  add_event s (set_cred (set_end (ev s $$"SESSION_END") ms (CmdCount s)) (Username s) []).
Definition LogCredential (user pass : str) (s : sess) : sess :=
  add_event s (set_cred (ev s $$"CREDENTIAL") user pass).
Definition credential_note (accepted bruteForced : bool) : str :=
  if bruteForced then $$"accepted (brute-forced)" else if accepted then $$"accepted" else $$"rejected".
Definition LogCredentialResult (user pass : str) (accepted bruteForced : bool) (s : sess) : sess :=
  add_event s (set_note (set_cred (ev s $$"CREDENTIAL") user pass) (credential_note accepted bruteForced)).
Definition LogPublicKey (user keyType fingerprint : str) (s : sess) : sess :=
  add_event s (set_note (set_cred (ev s $$"CREDENTIAL") user (keyType ++ $$" " ++ fingerprint)) $$"publickey rejected").
Definition LogHoneytoken (token detail : str) (s : sess) : sess :=
  add_event s (set_note (set_command (ev s $$"HONEYTOKEN") detail) token).
Definition LogCommand (cmd : str) (s : sess) : sess := add_event s (set_command (ev s $$"COMMAND") cmd).
Definition LogCommandNote (cmd note : str) (s : sess) : sess :=
  add_event s (set_note (set_command (ev s $$"COMMAND") cmd) note).
Definition LogDropper (sha256 : str -> str) (filename command content : str) (s : sess) : sess :=
  add_event s (set_file (set_command (ev s $$"DROPPER") command) [] [] filename (sha256 content)
                 (take (Z.to_nat 8192) content)).
Definition LogDownload (cmd url host filename : str) (s : sess) : sess :=
  add_event s (set_file (set_command (ev s $$"DOWNLOAD_ATTEMPT") cmd) url host filename [] []).
Definition LogExec (detail sha : str) (s : sess) : sess :=
  add_event s (set_file (set_command (ev s $$"EXEC_ATTEMPT") detail) [] [] [] sha []).
Definition LogHTTPRequest (mth request path : str) (headers : gmap str str) (s : sess) : sess :=
  add_event s (set_http (ev s $$"HTTP_REQUEST") mth request path [] (default [] (headers !! $$"user-agent")) headers).
Definition LogHTTPPost (path body sha : str) (s : sess) : sess :=
  add_event s (set_file (set_http (ev s $$"HTTP_POST") [] [] path body [] ∅) [] [] [] sha []).
Definition LogRaw (name data : str) (s : sess) : sess :=
  add_event s (set_file (ev s name) [] [] [] [] data).

(** [handle]: the protocol's body, which may end in a panic ([Some msg]). *)
Definition handle (body : sess -> sess * option str) (duration : Z) (s : sess) : sess :=
  let '(s', panic) := body (LogSessionStart s) in
  LogSessionEnd duration (match panic with Some r => LogRaw $$"PANIC" r s' | None => s' end).

(** * Theorems *)

(** ** Attribution

    An event of a connection carries the connection's identity; [grows s s'] says that a
    computation only added such events and left the identity alone. *)

Definition attributed (s : sess) (e : Entry) : Prop :=
  e_Session e = ID s /\ e_IP e = s_IP s /\ e_SrcIP e = SrcIP s /\ e_DstIP e = DstIP s /\ e_Port e = port s /\ e_Protocol e = proto s.
Definition identity (s : sess) : str * str * str * str * Z * str := (ID s, s_IP s, SrcIP s, DstIP s, port s, proto s).
Lemma attributed_identity s s' e : identity s' = identity s -> attributed s' e -> attributed s e.
Proof. unfold identity, attributed. intros [= -> -> -> -> -> ->]. done. Qed.

Record grows (s s' : sess) : Prop := Grows {
  gr_identity : identity s' = identity s;
  gr_events : exists es, events s' = events s ++ es /\ Forall (attributed s) es
}.
#[export] Instance grows_preorder : PreOrder grows.
Proof.
  split.
  - intros s. split; [done |]. exists []. rewrite app_nil_r. split; [done | constructor].
  - intros a b c [I1 (e1 & E1 & F1)] [I2 (e2 & E2 & F2)]. split; [congruence |]. exists (e1 ++ e2).
    rewrite E2, E1, <- app_assoc. split; [done |]. apply Forall_app. split; [done |].
    eapply Forall_impl; [exact F2 |]. intros e. by apply attributed_identity.
Qed.
Lemma grows_event s e : attributed s e -> grows s (add_event s e).
Proof. intros H. split; [done |]. exists [e]. split; [done |]. by constructor. Qed.
(** A change of anything but the log and the identity. *)
Lemma grows_same s s' : identity s' = identity s -> events s' = events s -> grows s s'.
Proof. intros H1 H2. split; [done |]. exists []. rewrite app_nil_r. split; [done | constructor]. Qed.

Lemma read_line_spec b n i l ok rest :
  n = zlen b -> n < maxLineBytes -> zb 10 ∉ b -> zb 13 ∉ b ->
  read_line b n i = (l, ok, rest) ->
  (ok = true -> i <> []) /\ (i <> [] -> (length rest < length i)%nat) /\
  (exists used, i = used ++ rest) /\
  (exists raw, l = TrimCRLF raw /\ zlen raw <= maxLineBytes /\ zb 10 ∉ raw /\ zb 13 ∉ raw).
Proof.
  revert b n. induction i as [| c i IH]; intros b n Hn Hmax H10 H13; cbn [read_line].
  { intros [= <- <- <-]. split_and!; [done | done | by exists [] | exists b; split_and!; [done | lia | done | done]]. }
  case_bool_decide as Hc.
  { intros [= <- <- <-]. split_and!; [done | simpl; lia | by exists [c] | exists b; split_and!; [done | lia | done | done]]. }
  case_bool_decide as Hc2.
  { intros [= <- <- <-]. split_and!; [done | | | exists b; split_and!; [done | lia | done | done]].
    - destruct i as [| d i]; [simpl; lia |]. destruct (_ || _); simpl; lia.
    - destruct i as [| d i]; [by exists [c] |]. destruct (_ || _); [by exists [c; d] | by exists [c]]. }
  assert (zb 10 ∉ b ++ [c]) by (set_solver). assert (zb 13 ∉ b ++ [c]) by (set_solver).
  destruct (maxLineBytes <=? n + 1) eqn:E; bool_hyps.
  { intros [= <- <- <-]. split_and!; [done | simpl; lia | by exists [c] |].
    exists (b ++ [c]). split_and!; [done | | done | done]. len. }
  intros Hr. destruct (IH (b ++ [c]) (n + 1)) as (_ & I2 & (used & ->) & I4); try done; [len |].
  split_and!; [done | | by exists (c :: used) | done]. simpl.
  destruct (used ++ rest) as [| x y] eqn:Eu; [| specialize (I2 ltac:(done)); simpl in *; lia].
  apply app_eq_nil in Eu as [_ ->]. simpl. lia.
Qed.

Lemma drop_while_suffix f s : exists p, s = p ++ drop_while f s.
Proof.
  induction s as [| c s (p & IH)]; [by exists [] |]. simpl. destruct (f c); [| by exists []].
  exists (c :: p). simpl. by f_equal.
Qed.

Lemma trim_right_prefix s set : exists t, s = trim_right s set ++ t.
Proof.
  unfold trim_right, trim_right_fn. destruct (drop_while_suffix (in_set set) (rev s)) as [p E].
  exists (rev p). rewrite <- rev_app_distr, <- E. by rewrite rev_involutive.
Qed.

(** reading a line is safe against a hostile stream: the line has at most
    64 KiB and contains no CR or LF (so a captured line cannot forge another),
    only bytes of the stream are consumed, and a read that does not report the end
    of the stream consumes at least one byte, so a loop over lines ends. *)
Theorem ReadLine_bounded s l ok s' :
  ReadLine s = (l, ok, s') ->
  zlen l <= maxLineBytes /\ zb 10 ∉ l /\ zb 13 ∉ l /\
  (exists used, inp s = used ++ inp s') /\
  (ok = true -> (length (inp s') < length (inp s))%nat).
Proof.
  unfold ReadLine. destruct (capture s).
  { intros [= <- <- <-]. split_and!; [by vm_compute | set_solver | set_solver | by exists [] | done]. }
  destruct (read_line [] 0 (inp s)) as [[l0 ok0] rest] eqn:E. intros [= <- <- <-].
  apply read_line_spec in E as (H1 & H2 & H3 & raw & -> & Hraw & Hr10 & Hr13);
    [| done | done | set_solver | set_solver].
  destruct (trim_right_prefix raw [zb 13; zb 10; zb 0]) as [t Et].
  unfold TrimCRLF. split_and!.
  - rewrite Et in Hraw. rewrite zlen_app in Hraw. pose proof (zlen_nonneg t). lia.
  - intros Hin. apply Hr10. rewrite Et. set_solver.
  - intros Hin. apply Hr13. rewrite Et. set_solver.
  - exact H3.
  - intros ->. apply H2. by apply H1.
Qed.

Definition demo_client (input : str) : sess :=
  Sess input [] None [] 23 $$"telnet" $$"203.0.113.9:4711" $$"203.0.113.9" [] $$"00c0ffee" [] 0 [] (600 * 1000000000) 5.

Lemma ReadLine_bounded_witness :
  zlen $$"id" <= maxLineBytes /\ zb 10 ∉ $$"id" /\ zb 13 ∉ $$"id" /\
  (exists used, $$"id" ++ [zb 13; zb 0] ++ $$"ls" = used ++ $$"ls") /\
  (true = true -> (2 < 6)%nat).
Proof.
  apply (ReadLine_bounded (demo_client ($$"id" ++ [zb 13; zb 0] ++ $$"ls")) $$"id" true (demo_client $$"ls")).
  vm_compute. reflexivity.
Defined.

Lemma read_line_line b n l term rest :
  n + zlen l < maxLineBytes -> zb 10 ∉ l -> zb 13 ∉ l ->
  (term = [zb 10] \/ term = [zb 13; zb 10] \/ term = [zb 13; zb 0] \/
   (term = [zb 13] /\ match rest with c :: _ => c <> zb 10 /\ c <> zb 0 | [] => True end)) ->
  read_line b n (l ++ term ++ rest) = (TrimCRLF (b ++ l), true, rest).
Proof.
  revert b n. induction l as [| c l IH]; intros b n Hn H10 H13 Ht.
  - rewrite app_nil_r. destruct Ht as [-> | [-> | [-> | [-> Hr]]]]; [done | done | done |].
    cbn [app read_line]. change (bool_decide (zb 13 = zb 10)) with false.
    change (bool_decide (zb 13 = zb 13)) with true. cbn iota.
    destruct rest as [| d rest]; [done |]. destruct Hr as [Hd1 Hd2].
    by rewrite !bool_decide_eq_false_2 by done.
  - cbn [app read_line]. rewrite !bool_decide_eq_false_2 by set_solver.
    rewrite zlen_cons in Hn. pose proof (zlen_nonneg l).
    replace (maxLineBytes <=? n + 1) with false by (symmetry; apply Z.leb_gt; lia).
    rewrite IH by (lia || set_solver || done). by rewrite <- app_assoc.
Qed.

(** a line arrives byte for byte whichever terminator the client uses: LF,
    CR LF, CR NUL or a bare CR, and the next read starts right after it. *)
Theorem ReadLine_line s l term rest :
  capture s = None -> inp s = l ++ term ++ rest ->
  zlen l < maxLineBytes -> zb 10 ∉ l -> zb 13 ∉ l -> last l <> Some (zb 0) ->
  (term = [zb 10] \/ term = [zb 13; zb 10] \/ term = [zb 13; zb 0] \/
   (term = [zb 13] /\ match rest with c :: _ => c <> zb 10 /\ c <> zb 0 | [] => True end)) ->
  ReadLine s = (l, true, set_inp s rest).
Proof.
  intros Hc Hi Hn H10 H13 H0 Ht. unfold ReadLine. rewrite Hc, Hi, read_line_line by done.
  unfold TrimCRLF, trim_right. rewrite app_nil_l, trim_right_fn_id; [done |].
  intros x t E. unfold in_set. apply bool_decide_eq_false.
  assert (x ∈ l) by (rewrite E; set_solver). rewrite E, last_snoc in H0.
  rewrite !elem_of_cons. intros [-> | [-> | [-> | []%elem_of_nil]]]; done.
Qed.

Lemma ReadLine_line_witness :
  ReadLine (demo_client $$"id" ) = ($$"id", false, demo_client []) /\
  ReadLine (demo_client ($$"id" ++ [zb 13; zb 0] ++ $$"ls")) = ($$"id", true, demo_client $$"ls").
Proof.
  split; [vm_compute; reflexivity |].
  apply (ReadLine_line (demo_client ($$"id" ++ [zb 13; zb 0] ++ $$"ls")) $$"id" [zb 13; zb 0] $$"ls"); try done.
  - by apply (bool_decide_unpack (_ ∉ _)); vm_compute.
  - by apply (bool_decide_unpack (_ ∉ _)); vm_compute.
  - right. right. by left.
Defined.

(** a dribbling client cannot outlive the session cap: however often the
    deadline is refreshed, it is never later than the session's end. *)
Theorem readDeadline_capped s now :
  Deadline s <> 0 -> readDeadline s now <= Deadline s /\ readDeadline s now <= now + IdleTimeout s.
Proof.
  intros Hd. unfold readDeadline. cbn zeta.
  replace (Deadline s =? 0) with false by (symmetry; by apply Z.eqb_neq). cbn [negb andb].
  destruct (Deadline s <? now + IdleTimeout s) eqn:E; bool_hyps; lia.
Qed.

(** every session's events are bracketed: the log of a connection starts with
    SESSION_START and ends with SESSION_END, also when the protocol panics. *)
Theorem handle_brackets body duration s s' panic :
  body (LogSessionStart s) = (s', panic) ->
  (exists es, events s' = ev s $$"SESSION_START" :: es) ->
  exists es e, events (handle body duration s) = ev s $$"SESSION_START" :: es ++ [e] /\
    e_Event e = $$"SESSION_END" /\ e_DurationMs e = duration.
Proof.
  intros Hb [es Hes]. unfold handle. rewrite Hb. destruct panic as [r |]; cbn [LogSessionEnd LogRaw add_event events].
  - rewrite Hes. eexists (es ++ [_]), _. by rewrite <- !app_comm_cons.
  - rewrite Hes. eexists es, _. by rewrite <- !app_comm_cons.
Qed.
