(* ===== verification/Server.v ===== *)
(** * Server: admission of connections (internal/server/server.go)

    [handle_conn] is the decision path of one connection.  The counters shared by
    all connections are a state machine: [conn_step] runs the atomic sections of
    any number of handlers in any order. *)

From S2P Require Import Prelude GoStrings Net Util Event Session Proxy.

Definition maxConnsPerIP : Z := 128.
Definition maxConns : Z := 4096.
Definition ms : Z := 1000000.
Definition proxyHeaderTimeout : Z := 5 * second.
Definition shedLogInterval : Z := 10 * second.

(** ** Trusted proxies *)

Definition mask_prefix (p : addr * Z) : addr * Z :=
  match p with
  | (A4 v, b) => (A4 (mask4 v b), b)
  | (A6 v z, b) => (A6 (Z.shiftl (Z.shiftr v (128 - b)) (128 - b)) [], b)
  end.
Definition SetTrustedProxies (cidrs : list str) : list (addr * Z) :=
  omap (fun c => mask_prefix <$> ParsePrefix c) cidrs.

Definition peerTrusted (nets : list (addr * Z)) (remote : str) : bool :=
  match ParseAddrPort remote with
  | None => true
  | Some ip => IsLoopback ip || existsb (fun n => prefix_contains n.1 n.2 ip) nets
  end.

(** ** One connection *)

(** What becomes of a connection: where it is logged from, and the bytes left
    for the protocol. *)
Inductive verdict : Type :=
| Dropped                                    (* misframed PROXY header *)
| Shed (src : str)                           (* over the per-source cap *)
| Scan (e : Entry)                           (* bare connect *)
| Serve (remote src dst : str) (rest : str).

Record server_cfg : Type := ServerCfg {
  ProxyProtocol : bool; trustedProxyNets : list (addr * Z); srv_port : Z; proto_name : str; client_first : bool
}.

(** Endpoints recovered from the stream; [None] drops the connection. *)
Definition endpoints (cfg : server_cfg) (peer local : str) (i : str) : option (str * str * str) :=
  if ProxyProtocol cfg && peerTrusted (trustedProxyNets cfg) peer then
    match Parse i with
    | None | Some (Malformed _, _) => None
    | Some (Found a, rest) => Some (Src a, Dst a, rest)
    | Some (NoAddr, rest) => Some (peer, local, rest)
    end
  else Some (peer, local, i).

(** [handle] after the global slot is taken; [active] is the number of live
    connections of a source.  A client-first protocol that gets no byte within the
    grace period is a scan. *)
Definition handle_conn (cfg : server_cfg) (active : str -> Z) (peer local i : str) : verdict :=
  match endpoints cfg peer local i with
  | None => Dropped
  | Some (remote, dst, rest) =>
      let src := HostOnly remote in
      if maxConnsPerIP <=? active src then Shed src
      else if client_first cfg && (rest =s []) then Scan (PortScan remote (srv_port cfg) (proto_name cfg))
      else Serve remote src (HostOnly dst) rest
  end.

(** C25: an attacker cannot forge the logged source: unless the immediate peer is
    loopback or in a configured network, the address that is logged, capped and
    reported is the transport peer's, whatever bytes it sends, PROXY headers
    included, and the protocol sees those bytes unchanged. *)
Theorem untrusted_peer_cannot_spoof cfg active peer local i ip :
  ParseAddrPort peer = Some ip -> IsLoopback ip = false ->
  Forall (fun n => prefix_contains n.1 n.2 ip = false) (trustedProxyNets cfg) ->
  handle_conn cfg active peer local i =
    if maxConnsPerIP <=? active (HostOnly peer) then Shed (HostOnly peer)
    else if client_first cfg && (i =s []) then Scan (PortScan peer (srv_port cfg) (proto_name cfg))
    else Serve peer (HostOnly peer) (HostOnly local) i.
Proof.
  intros Hp Hl Hn. unfold handle_conn, endpoints.
  assert (peerTrusted (trustedProxyNets cfg) peer = false) as ->.
  { unfold peerTrusted. rewrite Hp, Hl. simpl. induction Hn as [| n l Hx _ IH]; [done |]. simpl. by rewrite Hx. }
  by rewrite andb_false_r.
Qed.

(** ** Accept backoff *)

(** The delay after one more failed [Accept]; 0 after a success. *)
Definition next_delay (delay : Z) : Z :=
  if delay =? 0 then 5 * ms else Z.min (delay * 2) second.
Fixpoint delay_after (failures : nat) : Z :=
  match failures with O => 0 | S n => next_delay (delay_after n) end.

(** the accept loop backs off from 5 ms, doubling, and never sleeps more than
    a second, so it neither spins on a persistent error nor stops serving. *)
Theorem backoff_bounded n :
  delay_after (S n) = Z.min (5 * ms * 2 ^ Z.of_nat n) second.
Proof.
  induction n as [| n IH]; [done |].
  change (delay_after (S (S n))) with (next_delay (delay_after (S n))). rewrite IH.
  unfold next_delay. rewrite Nat2Z.inj_succ, Z.pow_succ_r by lia.
  assert (0 < 2 ^ Z.of_nat n) by (apply Z.pow_pos_nonneg; lia).
  unfold ms, second in *.
  replace (Z.min (5 * 1000000 * 2 ^ Z.of_nat n) 1000000000 =? 0) with false by (symmetry; apply Z.eqb_neq; lia).
  lia.
Qed.

(** ** Shed notices *)

Record shed_state : Type := ShedState { shedN : Z; shedLast : Z }.
(** [noteShed]: the new state and the count to report, if a notice is due. *)
Definition noteShed (now : Z) (st : shed_state) : shed_state * option Z :=
  let n := shedN st + 1 in
  if now - shedLast st <? shedLogInterval then (ShedState n (shedLast st), None)
  else (ShedState 0 now, Some n).

Fixpoint note_all (st : shed_state) (times : list Z) : shed_state * list (Z * Z) :=
  match times with
  | [] => (st, [])
  | now :: times' =>
      let '(st', n) := noteShed now st in
      let '(st'', ns) := note_all st' times' in
      (st'', match n with Some n => (now, n) :: ns | None => ns end)
  end.

(** no shed connection goes unaccounted: the notices plus the pending count
    add up to the connections shed, and notices are at least ten seconds apart. *)
Theorem shed_accounting times st :
  let '(st', ns) := note_all st times in
  foldr (fun tn acc => tn.2 + acc) 0 ns + shedN st' = shedN st + zlen times /\
  (fix spaced (last : Z) (l : list (Z * Z)) : Prop :=
     match l with [] => True | (t, _) :: l' => shedLogInterval <= t - last /\ spaced t l' end) (shedLast st) ns.
Proof.
  revert st. induction times as [| now times IH]; intros st; cbn [note_all].
  { split; [change (zlen (@nil Z)) with 0; simpl; lia | done]. }
  unfold noteShed. cbn zeta. destruct (now - shedLast st <? shedLogInterval) eqn:E; bool_hyps.
  - specialize (IH (ShedState (shedN st + 1) (shedLast st))).
    destruct (note_all _ times) as [st' ns]. destruct IH as [IH1 IH2].
    rewrite zlen_cons. cbn [shedN shedLast] in *. split; [lia | done].
  - specialize (IH (ShedState 0 now)). destruct (note_all _ times) as [st' ns]. destruct IH as [IH1 IH2].
    rewrite zlen_cons. cbn [shedN shedLast foldr snd] in *. split; [lia | done].
Qed.

(** ** Counters under concurrency

    A handler holds a global slot from [tryAcquire] to its deferred [release], and
    inside that a slot of its source from [acquire] to [release].  Listeners have
    their own per-source table: a key is a listener and a source. *)

Inductive hstate : Type := HGlobal | HSource (k : Z * str).

Record counters : Type := Counters {
  tokens : Z;                        (* len(globalConns.ch) *)
  conns : gmap (Z * str) Z;          (* srv.conns of every listener *)
  handlers : gmap nat hstate         (* live handlers *)
}.

Definition tryAcquire (c : counters) : option counters :=
  if tokens c <? maxConns then Some (Counters (tokens c + 1) (conns c) (handlers c)) else None.
Definition release_global (c : counters) : counters := Counters (tokens c - 1) (conns c) (handlers c).
Definition active_of (c : counters) (k : Z * str) : Z := default 0 (conns c !! k).
Definition acquire (k : Z * str) (c : counters) : option counters :=
  if maxConnsPerIP <=? active_of c k then None
  else Some (Counters (tokens c) (<[k := active_of c k + 1]> (conns c)) (handlers c)).
Definition release (k : Z * str) (c : counters) : counters :=
  Counters (tokens c)
    (if active_of c k <=? 1 then delete k (conns c) else <[k := active_of c k - 1]> (conns c)) (handlers c).
Definition set_handler (i : nat) (h : option hstate) (c : counters) : counters :=
  Counters (tokens c) (conns c) (match h with Some h => <[i := h]> (handlers c) | None => delete i (handlers c) end).

(** The atomic sections of [handle]; a handler may end before it acquires its
    source (bad header) or when the source is over its cap. *)
Inductive conn_step : counters -> counters -> Prop :=
| step_accept i c c' :
    handlers c !! i = None -> tryAcquire c = Some c' -> conn_step c (set_handler i (Some HGlobal) c')
| step_shed_global c : tryAcquire c = None -> conn_step c c
| step_source i k c c' :
    handlers c !! i = Some HGlobal -> acquire k c = Some c' -> conn_step c (set_handler i (Some (HSource k)) c')
| step_source_done i k c :
    handlers c !! i = Some (HSource k) -> conn_step c (set_handler i (Some HGlobal) (release k c))
| step_end i c :
    handlers c !! i = Some HGlobal -> conn_step c (set_handler i None (release_global c)).

Definition holds (k : Z * str) (h : hstate) : Z :=
  match h with HSource k' => if bool_decide (k' = k) then 1 else 0 | HGlobal => 0 end.

Record counters_inv (c : counters) : Prop := {
  ci_tokens : tokens c = Z.of_nat (size (handlers c));
  ci_max : tokens c <= maxConns;
  ci_conns : forall k, active_of c k = map_sum (holds k) (handlers c);
  ci_pos : forall k n, conns c !! k = Some n -> 0 < n;
  ci_cap : forall k, active_of c k <= maxConnsPerIP
}.

Lemma holds_nonneg k h : 0 <= holds k h.
Proof. destruct h; simpl; [done | by case_bool_decide]. Qed.

Lemma conn_step_inv c c' : counters_inv c -> conn_step c c' -> counters_inv c'.
Proof.
  intros [Ht Hm Hc Hp Hcap] Hs. destruct Hs as [i c c' Hi Ha | c Ha | i k c c' Hi Ha | i k c Hi | i c Hi].
  - unfold tryAcquire in Ha. destruct (tokens c <? maxConns) eqn:E; [| done]. injection Ha as <-. bool_hyps.
    split; cbn [set_handler tokens conns handlers].
    + rewrite map_size_insert_None by done. lia.
    + lia.
    + intros k. change (active_of _ k) with (active_of c k). by rewrite map_sum_insert_None, Hc.
    + done.
    + done.
  - by split.
  - unfold acquire in Ha. destruct (maxConnsPerIP <=? active_of c k) eqn:E; [done |]. injection Ha as <-. bool_hyps.
    assert (forall k', active_of (set_handler i (Some (HSource k))
      (Counters (tokens c) (<[k := active_of c k + 1]> (conns c)) (handlers c))) k' =
      active_of c k' + if bool_decide (k = k') then 1 else 0) as Hact.
    { intros k'. unfold active_of at 1. cbn [set_handler conns]. case_bool_decide as Hk.
      - subst. by rewrite lookup_insert_eq.
      - rewrite lookup_insert_ne by done. fold (active_of c k'). lia. }
    split.
    + cbn. rewrite map_size_insert_Some by eauto. done.
    + done.
    + intros k'. rewrite Hact. cbn [set_handler handlers]. rewrite map_sum_insert, Hi, <- Hc. simpl. lia.
    + intros k' n. cbn [set_handler conns]. rewrite lookup_insert_Some.
      intros [[<- <-] | [_ ?]]; [| eauto].
      assert (0 <= active_of c k) by (rewrite Hc; apply map_sum_nonneg, holds_nonneg). lia.
    + intros k'. rewrite Hact. specialize (Hcap k'). case_bool_decide; [subst; lia | lia].
  - assert (1 <= active_of c k) as Hge.
    { rewrite Hc. rewrite <- (insert_delete_id (handlers c) i (HSource k) Hi).
      rewrite map_sum_insert_None by apply lookup_delete_eq. simpl.
      rewrite bool_decide_eq_true_2 by done.
      pose proof (map_sum_nonneg (holds k) (delete i (handlers c)) (holds_nonneg k)). lia. }
    assert (forall k', active_of (set_handler i (Some HGlobal) (release k c)) k' =
      active_of c k' - if bool_decide (k = k') then 1 else 0) as Hact.
    { intros k'. unfold active_of at 1, release. cbn [set_handler conns].
      destruct (active_of c k <=? 1) eqn:E; bool_hyps; case_bool_decide as Hk.
      - subst. rewrite lookup_delete_eq. simpl. lia.
      - rewrite lookup_delete_ne by done. fold (active_of c k'). lia.
      - subst. by rewrite lookup_insert_eq.
      - rewrite lookup_insert_ne by done. fold (active_of c k'). lia. }
    split.
    + cbn. rewrite map_size_insert_Some by eauto. done.
    + done.
    + intros k'. rewrite Hact. cbn [set_handler handlers release]. rewrite map_sum_insert, Hi, <- Hc.
      simpl. lia.
    + intros k' n. unfold release. cbn [set_handler conns].
      destruct (active_of c k <=? 1) eqn:E; bool_hyps.
      * intros [_ ?]%lookup_delete_Some. eauto.
      * rewrite lookup_insert_Some. intros [[<- <-] | [_ ?]]; [lia | eauto].
    + intros k'. rewrite Hact. specialize (Hcap k'). case_bool_decide; lia.
  - split; cbn [set_handler release_global tokens conns handlers].
    + rewrite map_size_delete_Some by eauto.
      assert (size (handlers c) <> 0%nat). { intros Hz%map_size_empty_inv. rewrite Hz in Hi. done. }
      lia.
    + lia.
    + intros k. change (active_of _ k) with (active_of c k). rewrite map_sum_delete, Hi, Hc. simpl. lia.
    + done.
    + done.
Qed.

Lemma conn_reachable_inv c : rtc conn_step (Counters 0 ∅ ∅) c -> counters_inv c.
Proof.
  intros H. remember (Counters 0 ∅ ∅) as c0 eqn:E. assert (counters_inv c0) as H0.
  { subst. split; cbn; try done. }
  clear E. induction H as [| a b c Hs _ IH]; [done |]. by eapply IH, conn_step_inv.
Qed.

(** under every interleaving of connections, at most 4096 are served at once,
    at most 128 per source and listener, the per-source counter is exactly the
    number of live connections of that source, and once all have ended every
    counter is back to zero and the table is empty: no slot leaks. *)
Theorem connection_caps c :
  rtc conn_step (Counters 0 ∅ ∅) c ->
  Z.of_nat (size (handlers c)) <= maxConns /\
  (forall k, active_of c k = map_sum (holds k) (handlers c) /\ active_of c k <= maxConnsPerIP) /\
  (handlers c = ∅ -> tokens c = 0 /\ conns c = ∅).
Proof.
  intros [Ht Hm Hc Hp Hcap]%conn_reachable_inv. split_and!; [lia | by split |].
  intros E. rewrite E in *. split; [done |]. apply map_eq. intros k. rewrite lookup_empty.
  destruct (conns c !! k) as [n |] eqn:Ek; [| done]. specialize (Hp k n Ek). specialize (Hc k).
  unfold active_of in Hc. rewrite Ek, map_sum_empty in Hc. simpl in Hc. lia.
Qed.

(** * Witnesses *)

Lemma untrusted_peer_cannot_spoof_witness :
  let cfg := ServerCfg true (SetTrustedProxies [$$"10.0.0.0/8"]) 23 $$"telnet" false in
  let i := v1_header $$"TCP4" $$"203.0.113.9" $$"10.0.0.1" $$"1" $$"2" in
  handle_conn cfg (fun _ => 3) $$"198.51.100.7:4000" $$"192.0.2.1:23" i =
    Serve $$"198.51.100.7:4000" $$"198.51.100.7" $$"192.0.2.1" i.
Proof.
  intros cfg i.
  apply (untrusted_peer_cannot_spoof cfg (fun _ => 3) $$"198.51.100.7:4000" $$"192.0.2.1:23" i (A4 3325256711)).
  - by vm_compute.
  - by vm_compute.
  - apply Forall_singleton. by vm_compute.
Defined.

Definition demo_counters : counters := Counters 1 {[(23, $$"1.2.3.4") := 1]} {[7%nat := HSource (23, $$"1.2.3.4")]}.

Lemma connection_caps_witness :
  Z.of_nat (size (handlers demo_counters)) <= maxConns /\
  (forall k, active_of demo_counters k = map_sum (holds k) (handlers demo_counters) /\
     active_of demo_counters k <= maxConnsPerIP) /\
  (handlers demo_counters = ∅ -> tokens demo_counters = 0 /\ conns demo_counters = ∅).
Proof.
  apply (connection_caps demo_counters).
  apply (rtc_l _ _ (Counters 1 ∅ {[7%nat := HGlobal]}) _).
  - by apply (step_accept 7%nat (Counters 0 ∅ ∅) (Counters 1 ∅ ∅)).
  - apply rtc_once.
    pose proof (step_source 7%nat (23, $$"1.2.3.4") (Counters 1 ∅ {[7%nat := HGlobal]})
      (Counters 1 {[(23, $$"1.2.3.4") := 1]} {[7%nat := HGlobal]})) as H.
    unfold set_handler in H. cbn [handlers tokens conns] in H. rewrite insert_singleton_eq in H.
    apply H; by vm_compute.
Defined.
