(* ===== verification/StableSort.v ===== *)
(** * StableSort: Go's [sort.SliceStable]

    [less] is the comparison the code passes.  The result of a stable sort is
    determined: the elements in an order that never contradicts [less], and those
    that [less] does not separate in the order they had.  Insertion from the right
    computes it. *)

From S2P Require Import Prelude.

Section sort.
Context {A : Type} (less : A -> A -> bool).

Fixpoint insert_stable (x : A) (l : list A) : list A :=
  match l with
  | [] => [x]
  | y :: l' => if less y x then y :: insert_stable x l' else x :: l
  end.
Definition stable_sort (l : list A) : list A := foldr insert_stable [] l.

Lemma insert_stable_perm x l : insert_stable x l ≡ₚ x :: l.
Proof using.
  induction l as [| y l IH]; simpl; [done |]. destruct (less y x); [| done]. rewrite IH. apply perm_swap.
Qed.
Lemma stable_sort_perm l : stable_sort l ≡ₚ l.
Proof using. induction l as [| x l IH]; simpl; [done |]. by rewrite insert_stable_perm, IH. Qed.

Lemma stable_sort_elem x l : x ∈ stable_sort l <-> x ∈ l.
Proof using. by rewrite stable_sort_perm. Qed.

(** [less] is a strict weak order. *)
Context (less_asym : forall x y, less x y = true -> less y x = false)
  (less_ntrans : forall x y z, less y x = false -> less z y = false -> less z x = false).

(** The order of the result. *)
Definition not_after (x y : A) : Prop := less y x = false.

Lemma insert_stable_sorted x l : StronglySorted not_after l -> StronglySorted not_after (insert_stable x l).
Proof using less_asym less_ntrans.
  induction l as [| y l IH]; intros Hs; simpl; [by repeat constructor |].
  apply StronglySorted_inv in Hs as [Hs Hy]. destruct (less y x) eqn:E.
  - constructor; [by apply IH |]. rewrite insert_stable_perm. constructor; [by apply less_asym | done].
  - constructor; [by constructor |]. constructor; [done |].
    eapply Forall_impl; [exact Hy |]. intros z Hz. by eapply less_ntrans.
Qed.
Lemma stable_sort_sorted l : StronglySorted not_after (stable_sort l).
Proof using less_asym less_ntrans. induction l; simpl; [constructor | by apply insert_stable_sorted]. Qed.

(** When [less] separates any two different elements of a list, its sorted
    arrangement does not depend on the order they came in. *)
Lemma stable_sort_unique l k :
  l ≡ₚ k -> (forall x y, x ∈ l -> y ∈ l -> less x y = false -> less y x = false -> x = y) ->
  stable_sort l = stable_sort k.
Proof using less_asym less_ntrans.
  intros Hp Hd.
  assert (forall a b : list A, StronglySorted not_after a -> StronglySorted not_after b -> a ≡ₚ b ->
    (forall x y, x ∈ a -> y ∈ a -> less x y = false -> less y x = false -> x = y) -> a = b) as Hu.
  { clear. induction a as [| x a IH]; intros b Ha Hb Hab Hd.
    { symmetry. by apply Permutation_nil_r. }
    destruct b as [| y b]; [by apply Permutation_nil_r in Hab |].
    apply StronglySorted_inv in Ha as [Ha Hxa]. apply StronglySorted_inv in Hb as [Hb Hyb].
    assert (x = y) as ->.
    { assert (x ∈ y :: b) as Hx by (rewrite <- Hab; by left).
      assert (y ∈ x :: a) as Hy by (rewrite Hab; by left).
      apply elem_of_cons in Hx as [-> | Hx]; [done |]. pose proof Hy as Hy0.
      apply elem_of_cons in Hy as [-> | Hy]; [done |].
      rewrite Forall_forall in Hxa, Hyb. apply Hd; [by left | done | by apply Hyb | by apply Hxa]. }
    f_equal. apply IH; [done | done | by eapply Permutation_cons_inv |].
    intros u v Hu Hv. apply Hd; by right. }
  apply Hu; [apply stable_sort_sorted | apply stable_sort_sorted | by rewrite !stable_sort_perm |].
  intros x y Hx Hy. apply Hd; by apply stable_sort_elem.
Qed.
End sort.

#[export] Instance stable_sort_proper {A} (less : A -> A -> bool) : Proper ((≡ₚ) ==> (≡ₚ)) (stable_sort less).
Proof. intros l k H. by rewrite !stable_sort_perm. Qed.
