(* ===== verification/Feed.v ===== *)
(** * Feed: reading the event log back (internal/portal/feed.go)

    The log file is its bytes.  [decode] is [json.Unmarshal] into an [Entry].  A
    query reads the whole file through a [bufio.Scanner] with a 4 MiB buffer; the
    live stream keeps its position, the bytes of an unfinished line and the offset
    it hands out as the event id. *)

From S2P Require Import Prelude GoStrings Util Event.

Definition nl : ascii := zb 10.
Definition defaultLimit : Z := 200.
Definition maxLimit : Z := 1000.
Definition maxScanBytes : Z := 4 * 1024 * 1024.

Definition srcOf (e : Entry) : str := if e_SrcIP e =s [] then HostOnly (e_IP e) else e_SrcIP e.

(** ** The scanner *)

Definition drop_cr (l : str) : str :=
  match last l with Some c => if bool_decide (c = zb 13) then removelast l else l | None => l end.

(** [sc.Scan] over the lines of the file: the tokens, and whether [sc.Err] is nil.
    A line and its newline must fit the buffer. *)
Fixpoint scan_lines (ls : list str) : list str * bool :=
  match ls with
  | [] | [[]] => ([], true)
  | l :: rest =>
      if maxScanBytes <=? zlen l then ([], false)
      else let '(toks, ok) := scan_lines rest in (drop_cr l :: toks, ok)
  end.

Section feed.
Context (decode : str -> option Entry).

Definition readEntries (keep : Entry -> bool) (file : str) : list Entry * bool :=
  let '(toks, ok) := scan_lines (split_byte nl file) in
  (List.filter keep (omap (fun l => if l =s [] then None else decode l) toks), ok).

(** ** Queries *)

Definition parseLimit (s : str) : Z :=
  if s =s [] then defaultLimit
  else match atoi s with
       | (n, true) => if n <=? 0 then defaultLimit else if maxLimit <? n then maxLimit else n
       | (_, false) => defaultLimit
       end.

Fixpoint reverse_into (l acc : list Entry) : list Entry := match l with [] => acc | e :: l' => reverse_into l' (e :: acc) end.
Definition reverse (l : list Entry) : list Entry := reverse_into l [].

(** [logQuery] with its parameters [limit], [ip] and [event]. *)
Definition log_keep (ipPrefix eventType : str) (e : Entry) : bool :=
  if negb (ipPrefix =s []) && negb (has_prefix (srcOf e) ipPrefix) then false
  else if negb (eventType =s []) && negb (e_Event e =s eventType) then false
  else true.
Definition logQuery (file limit ipPrefix eventType : str) : list Entry :=
  let '(entries, ok) := readEntries (log_keep ipPrefix eventType) file in
  if ok then
    let reversed := reverse entries in
    let limit := parseLimit limit in
    if limit <? zlen reversed then take (Z.to_nat limit) reversed else reversed
  else [].

Definition byIP_keep (ip : str) (e : Entry) : bool := (srcOf e =s ip) || (e_IP e =s ip) || (e_SrcIP e =s ip).
Definition byIP (ip file : str) : list Entry :=
  let '(entries, ok) := readEntries (byIP_keep ip) file in if ok then entries else [].
Definition bySession (id file : str) : list Entry :=
  let '(entries, ok) := readEntries (fun e => e_Session e =s id) file in if ok then entries else [].
End feed.

(** ** The live stream *)

Record stream : Type := Stream { st_pos : nat; st_partial : str; st_offset : Z; st_idle : Z }.

(** [events] up to its loop: the position a subscriber starts from. *)
Definition open_stream (file lastEventID : str) : stream :=
  let size := zlen file in
  let at_end := Stream (length file) [] size 0 in
  if lastEventID =s [] then at_end
  else match atoi lastEventID with
       | (n, true) => if (0 <=? n) && (n <=? size) then Stream (Z.to_nat n) [] n 0 else at_end
       | (_, false) => at_end
       end.

(** The inner loop of a tick over the bytes the reader still has: every newline
    completes a line. *)
Fixpoint read_available (data partial : str) (offset : Z) : list (Z * str) * str * Z :=
  match data with
  | [] => ([], partial, offset)
  | c :: data' =>
      let raw := partial ++ [c] in
      if bool_decide (c = nl) then
        let offset := offset + zlen raw in
        let line := trim_right raw [zb 13; nl] in
        let '(frames, partial, last) := read_available data' [] offset in
        (if line =s [] then frames else (offset, line) :: frames, partial, last)
      else read_available data' raw offset
  end.
Definition frame (f : Z * str) : str := $$"id: " ++ itoa f.1 ++ [nl] ++ $$"event: log" ++ [nl] ++ $$"data: " ++ f.2 ++ [nl; nl].
Definition idlePingEvery : Z := 20.

(** One tick: the frames, the bytes written and the new state. *)
Definition tick (file : str) (s : stream) : list (Z * str) * str * stream :=
  let '(frames, partial, offset) := read_available (drop (st_pos s) file) (st_partial s) (st_offset s) in
  let s' := Stream (length file) partial offset in
  match frames with
  | [] =>
      let idle := st_idle s + 1 in
      if idlePingEvery <=? idle then ([], $$": ping" ++ [nl; nl], s' 0) else ([], [], s' idle)
  | _ => (frames, flat_map frame frames, s' 0)
  end.

(** The frames of a subscription over the successive contents of the file. *)
Fixpoint subscribe (s : stream) (contents : list str) : list (Z * str) * stream :=
  match contents with
  | [] => ([], s)
  | file :: rest =>
      let '(frames, _, s) := tick file s in
      let '(more, s) := subscribe s rest in (frames ++ more, s)
  end.

(** * Specification: what a stream that starts at [k] of [file] has to deliver *)

Definition frames_from (k : nat) (file : str) : list (Z * str) :=
  (read_available (drop k file) [] (Z.of_nat k)).1.1.

(** * Theorems *)

Lemma read_available_app a b p o :
  read_available (a ++ b) p o =
  (let '(f1, p1, o1) := read_available a p o in
   let '(f2, p2, o2) := read_available b p1 o1 in (f1 ++ f2, p2, o2)).
Proof.
  revert p o. induction a as [| c a IH]; intros p o; cbn [app read_available].
  { by destruct (read_available b p o) as [[? ?] ?]. }
  case_bool_decide; [| apply IH]. rewrite IH.
  destruct (read_available a [] _) as [[f1 p1] o1]. destruct (read_available b p1 o1) as [[f2 p2] o2].
  by destruct (_ =s []).
Qed.

(** The state of a stream that has read [file] from [k] on. *)
Definition reads (k : nat) (file : str) (s : stream) (emitted : list (Z * str)) : Prop :=
  (k <= length file)%nat /\ st_pos s = length file /\
  read_available (drop k file) [] (Z.of_nat k) = (emitted, st_partial s, st_offset s).

Lemma tick_reads k file more s emitted :
  reads k file s emitted ->
  let '(frames, _, s') := tick (file ++ more) s in reads k (file ++ more) s' (emitted ++ frames).
Proof.
  intros (Hk & Hp & Hr). unfold tick. rewrite Hp, drop_app_length.
  destruct (read_available more (st_partial s) (st_offset s)) as [[f p] o] eqn:E.
  assert (read_available (drop k (file ++ more)) [] (Z.of_nat k) = (emitted ++ f, p, o)) as Hn.
  { rewrite drop_app_le by done. by rewrite read_available_app, Hr, E. }
  assert (k <= length (file ++ more))%nat by (rewrite length_app; lia).
  destruct f as [| x f]; [destruct (idlePingEvery <=? _) |]; split_and!; try done; cbn [st_partial st_offset]; exact Hn.
Qed.

Lemma subscribe_reads k news file s emitted :
  reads k file s emitted ->
  let contents := imap (fun i _ => file ++ concat (take (S i) news)) news in
  let '(frames, s') := subscribe s contents in reads k (file ++ concat news) s' (emitted ++ frames).
Proof.
  revert file s emitted. induction news as [| new news IH]; intros file s emitted Hr; cbn zeta.
  { cbn. by rewrite !app_nil_r. }
  cbn [imap subscribe]. change (concat (take 1 (new :: news))) with (new ++ concat (take 0 news)). rewrite take_0. cbn [concat]. rewrite app_nil_r.
  pose proof (tick_reads k file new s emitted Hr) as Ht.
  destruct (tick (file ++ new) s) as [[frames w] s1].
  specialize (IH (file ++ new) s1 (emitted ++ frames) Ht). cbn zeta in IH.
  replace (imap ((λ i _, file ++ concat (take (S i) (new :: news))) ∘ S) news)
    with (imap (fun i (_ : str) => (file ++ new) ++ concat (take (S i) news)) news).
  2:{ apply imap_ext. intros i x _. cbn. by rewrite <- app_assoc. }
  destruct (subscribe s1 _) as [more s2]. by rewrite <- !app_assoc in *.
Qed.

(** Every id handed out is a position right after a newline: reading on from it
    gives the rest of the frames. *)
Lemma read_available_ids data p o frames p' o' pre id line post :
  read_available data p o = (frames, p', o') -> frames = pre ++ (id, line) :: post ->
  exists n, (n <= length data)%nat /\ id = o + zlen p + Z.of_nat n /\ read_available (drop n data) [] id = (post, p', o').
Proof.
  revert p o frames pre. induction data as [| c data IH]; intros p o frames pre; cbn [read_available].
  { intros [= <- <- <-]. by destruct pre. }
  case_bool_decide as Hc.
  - assert (o + zlen (p ++ [c]) = o + zlen p + 1) as Ho by (rewrite zlen_app; change (zlen [c]) with 1; lia).
    destruct (read_available data [] _) as [[f1 p1] o2] eqn:E. intros [= <- <- <-] Hf.
    assert (forall pre', f1 = pre' ++ (id, line) :: post -> exists n, (n <= length (c :: data))%nat /\
      id = o + zlen p + Z.of_nat n /\ read_available (drop n (c :: data)) [] id = (post, p1, o2)) as Hrest.
    { intros pre' ->. destruct (IH [] _ _ pre' E eq_refl) as (n & Hn & -> & Hr).
      exists (S n). simpl. split_and!; [lia | | done]. rewrite Ho. change (zlen []) with 0. lia. }
    destruct (_ =s []); [by apply (Hrest pre) |].
    destruct pre as [| x pre]; simplify_eq/=; [| by apply (Hrest pre)].
    exists 1%nat. split_and!; [lia | rewrite Ho; lia | exact E].
  - intros E Hf. destruct (IH _ _ _ pre E Hf) as (n & Hn & -> & Hr). exists (S n). simpl.
    split_and!; [lia | | done]. rewrite zlen_app. change (zlen [c]) with 1. lia.
Qed.

(** C8: no event is lost or repeated by the live feed: whatever pieces the log grows in
    between two ticks, a subscriber receives exactly the complete lines written since
    its start; and when its connection breaks after any event, the browser's reconnect
    with that event's id resumes with the very next one, at whatever length the log
    has reached by then. *)
Theorem live_feed_exactly_once k file news :
  (k <= length file)%nat -> zlen (file ++ concat news) <= max_int64 ->
  let s0 := Stream (length file) (read_available (drop k file) [] (Z.of_nat k)).1.2
              (read_available (drop k file) [] (Z.of_nat k)).2 0 in
  let contents := imap (fun i _ => file ++ concat (take (S i) news)) news in
  let final := file ++ concat news in
  frames_from k file ++ (subscribe s0 contents).1 = frames_from k final /\
  forall pre id line post, frames_from k final = pre ++ (id, line) :: post ->
    forall later, exists fresh,
      open_stream (final ++ later) (itoa id) = Stream (Z.to_nat id) [] id 0 /\
      frames_from (Z.to_nat id) (final ++ later) = post ++ fresh /\
      frames_from k (final ++ later) = pre ++ (id, line) :: post ++ fresh.
Proof.
  intros Hk Hm s0 contents final. subst contents final. split.
  - assert (reads k file s0 (frames_from k file)) as H0.
    { subst s0. unfold reads, frames_from. cbn [st_pos st_partial st_offset].
      by destruct (read_available (drop k file) [] _) as [[f p] o]. }
    pose proof (subscribe_reads k news file s0 _ H0) as H. cbn zeta in H.
    destruct (subscribe s0 _) as [frames s1]. destruct H as (_ & _ & H).
    unfold frames_from at 2. by rewrite H.
  - intros pre id line post Hf later. unfold frames_from in Hf.
    set (final := file ++ concat news) in *.
    destruct (read_available (drop k final) [] (Z.of_nat k)) as [[f p] o] eqn:E. cbn [fst] in Hf.
    destruct (read_available_ids _ _ _ _ _ _ _ _ _ _ E Hf) as (n & Hn & Hid & Hr).
    change (zlen []) with 0 in Hid. rewrite length_drop in Hn.
    assert (k <= length final)%nat by (unfold final; rewrite length_app; lia).
    unfold zlen in Hm. destruct (read_available later p o) as [[fresh p2] o2] eqn:El.
    exists fresh. split_and!.
    + unfold open_stream. rewrite atoi_itoa by lia. rewrite zlen_app.
      pose proof (zlen_nonneg later). replace ((0 <=? id) && (id <=? zlen final + zlen later)) with true.
      * destruct (itoa id =s []) eqn:Ei; [| done]. apply seqb_eq in Ei. destruct (itoa_nonneg id) as (_ & _ & Hne); [lia | by rewrite Ei in Hne].
      * symmetry. apply andb_true_intro. unfold zlen in *. split; apply Z.leb_le; lia.
    + unfold frames_from. rewrite Z2Nat.id by lia. replace (Z.to_nat id) with (k + n)%nat by lia.
      rewrite drop_app_le by lia. rewrite <- drop_drop. rewrite read_available_app, Hr, El. done.
    + unfold frames_from. rewrite drop_app_le by lia. rewrite read_available_app, E, El, Hf. by rewrite <- app_assoc.
Qed.

Lemma live_feed_exactly_once_witness :
  let file := $$"{}" ++ [nl] ++ $$"{a" in
  let news := [$$"}" ++ [nl]; []; $$"{b}" ++ [nl] ++ $$"{c"] in
  (1 <= length file)%nat /\
  subscribe (Stream (length file) $$"{a" 3 0) (imap (fun i _ => file ++ concat (take (S i) news)) news) =
    ([(7, $$"{a}"); (11, $$"{b}")], Stream 13 $$"{c" 11 0) /\
  frames_from 3 (file ++ concat news) = [(7, $$"{a}"); (11, $$"{b}")] /\
  open_stream (file ++ concat news) $$"7" = Stream 7 [] 7 0 /\
  (frames_from 3 file ++ (subscribe (Stream (length file) $$"{a" 3 0)
     (imap (fun i _ => file ++ concat (take (S i) news)) news)).1 = frames_from 3 (file ++ concat news)).
Proof.
  intros file news. split_and!; [by apply Nat.leb_le | reflexivity | reflexivity | reflexivity |].
  apply (live_feed_exactly_once 3 file news); [by apply Nat.leb_le | done].
Defined.

(** ** Queries *)

Lemma scan_lines_ok ls : (scan_lines ls).2 = forallb (fun l : str => zlen l <? maxScanBytes) ls.
Proof.
  assert (forall l rest, forallb (fun l : str => zlen l <? maxScanBytes) (l :: rest) =
    (if maxScanBytes <=? zlen l then false else forallb (fun l : str => zlen l <? maxScanBytes) rest)) as Hc.
  { intros l rest. cbn [forallb]. rewrite Z.ltb_antisym. by destruct (maxScanBytes <=? zlen l). }
  induction ls as [| l rest IH]; [done |]. rewrite Hc.
  assert ((scan_lines (l :: rest)).2 = (if maxScanBytes <=? zlen l then false else (scan_lines rest).2)) as ->; [| by rewrite IH].
  assert (forall l rest, (let '(toks, ok) := scan_lines rest in (drop_cr l :: toks, ok)).2 = (scan_lines rest).2) as Hp.
  { intros l' rest'. by destruct (scan_lines rest'). }
  destruct l as [| c l]; [destruct rest as [| l2 rest]; [reflexivity | exact (Hp [] (l2 :: rest))] |].
  cbn [scan_lines]. destruct (maxScanBytes <=? _); [done | apply Hp].
Qed.

Section queries.
Context (decode : str -> option Entry).

Lemma readEntries_ok keep file :
  (readEntries decode keep file).2 = forallb (fun l : str => zlen l <? maxScanBytes) (split_byte nl file).
Proof using.
  unfold readEntries. rewrite <- scan_lines_ok. by destruct (scan_lines _).
Qed.

(** one line of four mebibytes anywhere in the log takes every query down: the log
    view, a source's history and a session's all come back empty, whatever else the log
    holds. *)
Theorem long_line_blinds_queries file line limit ip ev :
  line ∈ split_byte nl file -> maxScanBytes <= zlen line ->
  (forall keep, (readEntries decode keep file).2 = false) /\
  logQuery decode file limit ip ev = [] /\ byIP decode ip file = [] /\ bySession decode ip file = [].
Proof using.
  intros Hin Hl.
  assert (forall keep, (readEntries decode keep file).2 = false) as H.
  { intros keep. rewrite readEntries_ok. apply not_true_iff_false. rewrite forallb_forall.
    intros Hall. apply list_elem_of_In in Hin. specialize (Hall line Hin). bool_hyps. lia. }
  split; [done |]. unfold logQuery, byIP, bySession.
  split_and!; [specialize (H (log_keep ip ev)) | specialize (H (byIP_keep ip)) | specialize (H (fun e => e_Session e =s ip))];
    by destruct (readEntries decode _ file) as [l []].
Qed.

Lemma reverse_rev l : reverse l = rev l.
Proof using.
  unfold reverse. assert (forall a, reverse_into l a = rev l ++ a) as H; [| by rewrite H, app_nil_r].
  induction l as [| e l IH]; intros a; [done |]. cbn [reverse_into rev]. by rewrite IH, <- app_assoc.
Qed.

Lemma parseLimit_range s : 1 <= parseLimit s <= maxLimit.
Proof using.
  unfold parseLimit, defaultLimit, maxLimit. destruct (s =s []); [lia |]. destruct (atoi s) as [n []]; [| lia].
  destruct (n <=? 0) eqn:E1; [lia |]. destruct (1000 <? n) eqn:E2; bool_hyps; lia.
Qed.

(** the log view returns the newest matching entries, newest first: they are the tail of
    the matching entries of the file reversed, never more than a thousand, and fewer
    than asked for only when the log has no more. *)
Theorem logQuery_newest_first file limit ip ev :
  (forall l, l ∈ split_byte nl file -> zlen l < maxScanBytes) ->
  let matching := (readEntries decode (log_keep ip ev) file).1 in
  let got := logQuery decode file limit ip ev in
  (exists older, matching = older ++ rev got) /\
  zlen got = Z.min (parseLimit limit) (zlen matching) /\ zlen got <= maxLimit /\
  Forall (fun e => log_keep ip ev e = true) got.
Proof using.
  intros Hl. cbn zeta. unfold logQuery. pose proof (readEntries_ok (log_keep ip ev) file) as Hok.
  destruct (readEntries decode (log_keep ip ev) file) as [m ok] eqn:Er. cbn [snd fst] in *.
  rewrite (proj2 (forallb_forall _ _)) in Hok.
  2:{ intros x Hx. apply Z.ltb_lt, Hl. by apply list_elem_of_In. }
  subst ok. rewrite reverse_rev. pose proof (parseLimit_range limit) as Hp.
  assert (Forall (fun e => log_keep ip ev e = true) m) as Hf.
  { unfold readEntries in Er. destruct (scan_lines _). simplify_eq. apply Forall_forall. intros x Hx. by apply elem_of_filter_b in Hx as [_ Hx]. }
  assert (zlen (rev m) = zlen m) as Hrev by (unfold zlen; by rewrite length_rev).
  assert (Forall (fun e => log_keep ip ev e = true) (rev m)) as Hfr.
  { apply Forall_forall. intros x Hx. rewrite Forall_forall in Hf. apply Hf. apply list_elem_of_In, in_rev, list_elem_of_In, Hx. }
  rewrite Hrev. destruct (parseLimit limit <? zlen m) eqn:E; bool_hyps.
  - split_and!; [| rewrite zlen_take, Hrev; lia | rewrite zlen_take, Hrev; lia | by apply Forall_take].
    exists (rev (drop (Z.to_nat (parseLimit limit)) (rev m))).
    by rewrite <- rev_app_distr, take_drop, rev_involutive.
  - rewrite Hrev. split_and!; [| lia | lia | done]. exists []. by rewrite rev_involutive.
Qed.
End queries.

Lemma filler_line n : repeat "a"%char n ∈ split_byte nl (repeat "a"%char n) /\ zlen (repeat "a"%char n) = Z.of_nat n.
Proof.
  split; [| unfold zlen; by rewrite repeat_length].
  rewrite split_byte_no; [by left |]. intros H. apply list_elem_of_In, repeat_spec in H. discriminate H.
Qed.
Lemma long_line_blinds_queries_witness :
  exists line : str, line ∈ split_byte nl line /\ maxScanBytes <= zlen line /\ logQuery (fun _ => None) line [] [] [] = [].
Proof.
  exists (repeat "a"%char (Z.to_nat maxScanBytes)). destruct (filler_line (Z.to_nat maxScanBytes)) as [H1 H2].
  rewrite Z2Nat.id in H2 by (apply Z.leb_le; reflexivity).
  split; [exact H1 |]. split; [rewrite H2; apply Z.le_refl |].
  assert (maxScanBytes <= zlen (repeat "a"%char (Z.to_nat maxScanBytes))) as H3 by (rewrite H2; apply Z.le_refl).
  exact (proj1 (proj2 (long_line_blinds_queries (fun _ => None) _ _ [] [] [] H1 H3))).
Defined.

Lemma logQuery_newest_first_witness :
  let decode s := Some (base_entry s [] $$"1.2.3.4" 0 []) in
  let file := $$"a" ++ [nl] ++ $$"b" ++ [nl] ++ $$"c" ++ [nl] in
  map e_Event (logQuery decode file $$"2" [] []) = [$$"c"; $$"b"] /\
  zlen (logQuery decode file $$"2" [] []) = Z.min 2 3.
Proof.
  intros decode file. split; [reflexivity |].
  apply (logQuery_newest_first decode file $$"2" [] []).
  intros l Hl. apply list_elem_of_In in Hl. repeat destruct Hl as [<- | Hl]; try done.
Defined.
