(* ===== verification/Analyze.v ===== *)
(** * Analyze: the portal's read on one source (internal/portal/analyze.go)

    [observe] folds one log entry into the running signals, [verdict] turns them
    into a kind with its confidence and reasons, and [analyzeSource] segments a
    source's history into visits.  [parse_rfc3339] is [time.Parse] with the RFC 3339
    layout, in Unix milliseconds; it is only asked when an entry carries no stamp.
    [int64] subtractions wrap. *)

From S2P Require Import Prelude GoStrings Util Event.

Definition visitGapMs : Z := 30 * 60 * 1000.
Definition fastCommandMs : Z := 400.

Definition kindUnknown : str := $$"unknown".
Definition kindScanner : str := $$"scanner".
Definition kindBruteforce : str := $$"bot:bruteforce".
Definition kindLoader : str := $$"bot:loader".
Definition kindHuman : str := $$"human?".
Definition phaseRecon : str := $$"recon".
Definition phaseBrute : str := $$"bruteforce".
Definition phaseAccess : str := $$"access".
Definition phaseExploit : str := $$"exploit".

(** ** Evidence in one entry *)

Definition isSentinelCred (user pass : str) : bool := contains user $$"345gs5662d34" || contains pass $$"345gs5662d34".

Definition loaderMarkers : list str :=
  [$$"chpasswd"; $$"chattr -ia"; $$"authorized_keys"; $$"echo -ne"; $$"echo -e '\x"; $$"echo -e " ++ [zb 34] ++ $$"\x"].
Definition isLoaderCommand (cmd : str) : bool :=
  existsb (contains cmd) loaderMarkers ||
  (contains cmd $$"|sh" || contains cmd $$"| sh" || contains cmd $$"|bash" || contains cmd $$"| bash").

Definition commonApplets : list str :=
  [$$"cat"; $$"ls"; $$"echo"; $$"wget"; $$"tftp"; $$"cp"; $$"chmod"; $$"rm"; $$"ps"; $$"kill"; $$"hostname"; $$"sh";
   $$"dd"; $$"mount"; $$"umount"; $$"free"; $$"df"; $$"ifconfig"; $$"reboot"].
Definition alnum_byte (c : ascii) : bool := is_lower c || is_upper c || is_digit c.
Definition isBusyboxProbe (cmd : str) : bool :=
  match fields cmd with
  | [b; tok] =>
      (b =s $$"/bin/busybox") && negb (bool_decide (tok ∈ commonApplets) || (zlen tok <? 3)) && forallb alnum_byte tok
  | _ => false
  end.

Definition phaseOf (e : Entry) : str :=
  let among l := bool_decide (e_Event e ∈ l) in
  if among [$$"PORT_SCAN"; $$"HTTP_REQUEST"; $$"HTTP_POST"; $$"TLS_HELLO"] then phaseRecon
  else if among [$$"CREDENTIAL"] then phaseBrute
  else if among [$$"COMMAND"] then if isLoaderCommand (e_Command e) then phaseExploit else phaseAccess
  else if among [$$"EXEC_ATTEMPT"; $$"DOWNLOAD_ATTEMPT"; $$"DROPPER"; $$"HONEYTOKEN"] then phaseExploit
  else [].
Definition phaseRank (p : str) : Z :=
  if p =s phaseRecon then 1 else if p =s phaseBrute then 2 else if p =s phaseAccess then 3
  else if p =s phaseExploit then 4 else 0.
Definition orderedPhases (reached : gset str) : list str :=
  List.filter (fun p => bool_decide (p ∈ reached)) [phaseRecon; phaseBrute; phaseAccess; phaseExploit].

Definition clamp (v lo hi : Z) : Z := if v <? lo then lo else if hi <? v then hi else v.

(** ** Signals *)

Record sourceSignals : Type := Signals {
  commands : Z; credentials : Z; sessions : Z; uniqueCmds : Z;
  scanned : bool; hasExec : bool; hasDownload : bool; hasBait : bool;
  sentinelCred : bool; probeCmd : bool; loaderCmd : bool; fastBurst : bool;
  lastCmdMs : Z; minCmdGap : Z; maxCmdGap : Z; sawGap : bool;
  seen : gset str
}.
Definition no_signals : sourceSignals := Signals 0 0 0 0 false false false false false false false false 0 0 0 false ∅.

(** The cadence part of the COMMAND case, at the command's time stamp [ms]. *)
Definition gap_of (ms : Z) (s : sourceSignals) : option Z :=
  if negb (lastCmdMs s =? 0) && negb (ms =? 0) then
    let gap := wrap64 (ms - lastCmdMs s) in if 0 <=? gap then Some gap else None
  else None.
Definition observe_command (cmd : str) (ms : Z) (s : sourceSignals) : sourceSignals :=
  let new := bool_decide (cmd ∉ seen s) in
  let gap := gap_of ms s in
  let shorter g := negb (sawGap s) || (g <? minCmdGap s) in
  Signals (commands s + 1) (credentials s) (sessions s) (if new then uniqueCmds s + 1 else uniqueCmds s)
    (scanned s) (hasExec s) (hasDownload s) (hasBait s) (sentinelCred s)
    (probeCmd s || isBusyboxProbe cmd) (loaderCmd s || isLoaderCommand cmd)
    (match gap with Some g => fastBurst s || (g <? fastCommandMs) | None => fastBurst s end)
    (if ms =? 0 then lastCmdMs s else ms)
    (match gap with Some g => if shorter g then g else minCmdGap s | None => minCmdGap s end)
    (match gap with Some g => if maxCmdGap s <? g then g else maxCmdGap s | None => maxCmdGap s end)
    (match gap with Some _ => true | None => sawGap s end)
    ({[cmd]} ∪ seen s).

Definition set_flags (scan exec dl bait : bool) (s : sourceSignals) : sourceSignals :=
  Signals (commands s) (credentials s) (sessions s) (uniqueCmds s) (scanned s || scan) (hasExec s || exec)
    (hasDownload s || dl) (hasBait s || bait) (sentinelCred s) (probeCmd s) (loaderCmd s) (fastBurst s)
    (lastCmdMs s) (minCmdGap s) (maxCmdGap s) (sawGap s) (seen s).
Definition count_session (s : sourceSignals) : sourceSignals :=
  Signals (commands s) (credentials s) (sessions s + 1) (uniqueCmds s) (scanned s) (hasExec s)
    (hasDownload s) (hasBait s) (sentinelCred s) (probeCmd s) (loaderCmd s) (fastBurst s)
    (lastCmdMs s) (minCmdGap s) (maxCmdGap s) (sawGap s) (seen s).
Definition count_credential (sentinel : bool) (s : sourceSignals) : sourceSignals :=
  Signals (commands s) (credentials s + 1) (sessions s) (uniqueCmds s) (scanned s) (hasExec s)
    (hasDownload s) (hasBait s) (sentinelCred s || sentinel) (probeCmd s) (loaderCmd s) (fastBurst s)
    (lastCmdMs s) (minCmdGap s) (maxCmdGap s) (sawGap s) (seen s).

Section analyze.
Context (parse_rfc3339 : str -> option Z).

Definition entryMs (e : Entry) : Z := if e_EpochMs e =? 0 then default 0 (parse_rfc3339 (e_Time e)) else e_EpochMs e.

Definition observe (e : Entry) (s : sourceSignals) : sourceSignals :=
  let named nm := e_Event e =s nm in
  if named $$"PORT_SCAN" then set_flags true false false false s
  else if named $$"SESSION_START" then count_session s
  else if named $$"CREDENTIAL" then count_credential (isSentinelCred (e_Username e) (e_Password e)) s
  else if named $$"COMMAND" then observe_command (e_Command e) (entryMs e) s
  else if named $$"EXEC_ATTEMPT" then set_flags false true false false s
  else if named $$"DOWNLOAD_ATTEMPT" then set_flags false false true false s
  else if named $$"HONEYTOKEN" then set_flags false false false true s
  else s.

Definition humanPacing (s : sourceSignals) : bool := (1500 <? maxCmdGap s) && negb (fastBurst s) && (3 <=? commands s).

(** ** The verdict *)

(** The weight of the bot evidence, and what it consists of. *)
Definition bot_evidence (s : sourceSignals) : list (Z * str) :=
  List.concat
    [if loaderCmd s then [(3, $$"ran loader/persistence commands (chpasswd, key drop, or echoloader)")] else [];
     if sentinelCred s then [(3, $$"offered a honeypot-probe credential a real user never types")] else [];
     if probeCmd s then [(3, $$"ran a BusyBox presence probe to fingerprint the box")] else [];
     if fastBurst s then [(2, $$"fired commands faster than a human can type")] else [];
     if hasExec s then [(1, $$"attempted to execute a dropped payload")] else [];
     if hasDownload s then [(1, $$"attempted to pull a second-stage payload")] else []].
Definition bot_weight (s : sourceSignals) : Z := foldr (fun w acc => w.1 + acc) 0 (bot_evidence s).
Definition human_weight (s : sourceSignals) : Z := if humanPacing s then 1 else 0.

(** The switch that chooses the kind, with the reason it adds. *)
Definition choose_kind (s : sourceSignals) : str * list str :=
  let bot := bot_weight s in
  if loaderCmd s || (hasExec s && (3 <=? bot)) then (kindLoader, [])
  else if 3 <=? bot then (kindBruteforce, [])
  else if (commands s =? 0) && (4 <=? credentials s)
  then (kindBruteforce, [$$"sprayed credentials without ever running a command"])
  else if (commands s =? 0) && (credentials s =? 0) && negb (hasExec s) && negb (hasDownload s)
  then (kindScanner, [if scanned s then $$"connected and sent nothing (a bare port scan)"
                      else $$"probed without authenticating or running a command"])
  else if (0 <? human_weight s) && (bot =? 0)
  then (kindHuman, [$$"paced commands at human, varied intervals"])
  else (kindUnknown, []).

Definition confidence_of (kind : str) (s : sourceSignals) : Z :=
  let bot := bot_weight s in
  if kind =s kindLoader then clamp (70 + bot * 8) 0 99
  else if kind =s kindBruteforce then
    if 3 <=? bot then clamp (70 + bot * 6) 0 99 else clamp (wrap64 (45 + credentials s * 3)) 0 90
  else if kind =s kindScanner then 75
  else if kind =s kindHuman then clamp (35 + human_weight s * 15) 0 70
  else 0.

Definition verdict (s : sourceSignals) : str * Z * list str :=
  let '(kind, why) := choose_kind s in
  (kind, confidence_of kind s, map snd (bot_evidence s) ++ why).

(** ** Visits *)

Record Visit : Type := MkVisit { v_Start : str; v_End : str; v_Events : Z; v_Phase : str; v_Accepted : bool }.
Record Assessment : Type := MkAssessment {
  Kind : str; Confidence : Z; Reasons : list str; Phases : list str; Visits : list Visit;
  CadenceMs : Z; Returning : bool
}.

(** The loop variables of [analyzeSource]; [cur] is the last index of [visits]. *)
Record analysis : Type := Analysis { an_sig : sourceSignals; an_visits : list Visit; an_prev : Z; an_reached : gset str }.
Definition no_analysis : analysis := Analysis no_signals [] 0 ∅.

Definition new_visit (first : bool) (prev ms : Z) : bool :=
  first || (negb (prev =? 0) && negb (ms =? 0) && (visitGapMs <? wrap64 (ms - prev))).
Definition visit_step (e : Entry) (v : Visit) : Visit :=
  let ph := phaseOf e in
  MkVisit (v_Start v) (e_Time e) (v_Events v + 1)
    (if negb (ph =s []) && (phaseRank (v_Phase v) <? phaseRank ph) then ph else v_Phase v)
    (v_Accepted v || (e_Event e =s $$"COMMAND")).
Definition analyze_step (first : bool) (e : Entry) (a : analysis) : analysis :=
  let ms := entryMs e in
  let visits := if new_visit first (an_prev a) ms then an_visits a ++ [MkVisit (e_Time e) [] 0 [] false] else an_visits a in
  let ph := phaseOf e in
  Analysis (observe e (an_sig a)) (alter (visit_step e) (length visits - 1)%nat visits)
    (if ms =? 0 then an_prev a else ms)
    (if ph =s [] then an_reached a else {[ph]} ∪ an_reached a).
Fixpoint analyze_loop (first : bool) (entries : list Entry) (a : analysis) : analysis :=
  match entries with
  | [] => a
  | e :: rest => analyze_loop false rest (analyze_step first e a)
  end.

Definition is_returning (visits : Z) (s : sourceSignals) : bool :=
  (2 <=? visits) || (scanned s && ((0 <? commands s) || (0 <? sessions s))).
Definition analyzeSource (entries : list Entry) : Assessment :=
  let a := analyze_loop true entries no_analysis in
  let '(kind, conf, why) := verdict (an_sig a) in
  MkAssessment kind conf why (orderedPhases (an_reached a)) (an_visits a) (minCmdGap (an_sig a))
    (is_returning (zlen (an_visits a)) (an_sig a)).

(** * Specification

    What the loop is meant to compute: the history cut at every idle gap, and one
    summary per piece. *)

Definition stamp_after (prev : Z) (e : Entry) : Z := if entryMs e =? 0 then prev else entryMs e.
Fixpoint segments_from (prev : Z) (cur : list Entry) (l : list Entry) : list (list Entry) :=
  match l with
  | [] => [cur]
  | e :: l' =>
      if new_visit false prev (entryMs e) then cur :: segments_from (stamp_after prev e) [e] l'
      else segments_from (stamp_after prev e) (cur ++ [e]) l'
  end.
Definition segments (l : list Entry) : list (list Entry) :=
  match l with [] => [] | e :: l' => segments_from (stamp_after 0 e) [e] l' end.

(** The deepest phase of a visit; the first one reached wins a tie. *)
Definition deepest (seg : list Entry) : str :=
  foldl (fun p e => if phaseRank p <? phaseRank (phaseOf e) then phaseOf e else p) [] seg.
Definition summary (seg : list Entry) : Visit :=
  MkVisit (from_option e_Time [] (head seg)) (from_option e_Time [] (last seg)) (zlen seg) (deepest seg)
    (existsb (fun e => e_Event e =s $$"COMMAND") seg).

(** * Theorems *)

Lemma phaseRank_nil : phaseRank [] = 0. Proof using. done. Qed.
Lemma phaseRank_nonneg p : 0 <= phaseRank p.
Proof using. unfold phaseRank. repeat (case_match; [lia |]). lia. Qed.

Lemma summary_snoc seg e : seg <> [] -> visit_step e (summary seg) = summary (seg ++ [e]).
Proof using.
  intros Hs. unfold visit_step, summary. cbn [v_Start v_Events v_Phase v_Accepted]. f_equal.
  - by destruct seg.
  - by rewrite last_snoc.
  - by rewrite zlen_app.
  - unfold deepest at 3. rewrite foldl_snoc. fold (deepest seg).
    destruct (phaseOf e =s []) eqn:E; cbn [negb andb]; [| done]. apply seqb_eq in E. rewrite E, phaseRank_nil.
    pose proof (phaseRank_nonneg (deepest seg)). by replace (phaseRank (deepest seg) <? 0) with false by (symmetry; apply Z.ltb_ge; lia).
  - rewrite existsb_app. cbn [existsb]. by rewrite orb_false_r.
Qed.
Lemma summary_one e : visit_step e (MkVisit (e_Time e) [] 0 [] false) = summary [e].
Proof using.
  unfold visit_step, summary, deepest. cbn. f_equal; [| by rewrite orb_false_r].
  destruct (phaseOf e =s []) eqn:E; cbn [negb andb]; [| done]. apply seqb_eq in E. by rewrite E.
Qed.

Lemma alter_last (f : Visit -> Visit) l v : alter f (length (l ++ [v]) - 1)%nat (l ++ [v]) = l ++ [f v].
Proof using. rewrite length_app. simpl. replace (length l + 1 - 1)%nat with (length l + 0)%nat by lia. by rewrite alter_app_r. Qed.

Lemma analyze_loop_visits l first prefix cur a :
  cur <> [] -> an_visits a = prefix ++ [summary cur] ->
  first = false ->
  an_visits (analyze_loop first l a) = prefix ++ map summary (segments_from (an_prev a) cur l).
Proof using.
  intros Hc Ha ->. revert prefix cur a Hc Ha. induction l as [| e l IH]; intros prefix cur a Hc Ha; [exact Ha |].
  cbn [analyze_loop segments_from]. change (an_prev (analyze_step false e a)) with (stamp_after (an_prev a) e).
  destruct (new_visit false (an_prev a) (entryMs e)) eqn:En.
  - cbn [map]. change (prefix ++ summary cur :: ?x) with (prefix ++ [summary cur] ++ x). rewrite app_assoc, <- Ha.
    change (stamp_after (an_prev a) e) with (an_prev (analyze_step false e a)). apply IH; [done |].
    unfold analyze_step. cbn [an_visits]. rewrite En, alter_last. by rewrite summary_one.
  - change (stamp_after (an_prev a) e) with (an_prev (analyze_step false e a)). apply IH; [by destruct cur |].
    unfold analyze_step. cbn [an_visits]. rewrite En, Ha, alter_last. by rewrite summary_snoc.
Qed.

Lemma analyze_visits l : an_visits (analyze_loop true l no_analysis) = map summary (segments l).
Proof using.
  destruct l as [| e l]; [done |]. cbn [analyze_loop segments].
  change (stamp_after 0 e) with (an_prev (analyze_step true e no_analysis)).
  rewrite (analyze_loop_visits l false [] [e]); [done | done | | done].
  unfold analyze_step. cbn [an_visits no_analysis app new_visit orb length alter list_alter]. simpl.
  by rewrite summary_one.
Qed.

Lemma segments_from_concat prev cur l : concat (segments_from prev cur l) = cur ++ l.
Proof using.
  revert prev cur. induction l as [| e l IH]; intros prev cur; cbn [segments_from concat]; [done |].
  destruct (new_visit _ _ _); cbn [concat]; rewrite IH; [done |]. by rewrite <- app_assoc.
Qed.
Lemma segments_from_nonempty prev cur l : cur <> [] -> Forall (fun s => s <> []) (segments_from prev cur l).
Proof using.
  revert prev cur. induction l as [| e l IH]; intros prev cur Hc; cbn [segments_from]; [by constructor |].
  destruct (new_visit _ _ _); [constructor; [done |] |]; apply IH; [done | by destruct cur].
Qed.

Lemma analyze_reached l first a p :
  p ∈ an_reached (analyze_loop first l a) <-> p ∈ an_reached a \/ (p <> [] /\ exists e, e ∈ l /\ phaseOf e = p).
Proof using.
  revert first a. induction l as [| e l IH]; intros first a; cbn [analyze_loop].
  { split; [by left | intros [? | (_ & e & He & _)]; [done | by apply elem_of_nil in He]]. }
  rewrite IH. unfold analyze_step. cbn [an_reached].
  destruct (phaseOf e =s []) eqn:E; bool_hyps.
  - split; [intros [? | (? & e' & ? & ?)]; [by left | right; split; [done | exists e'; set_solver]] |].
    intros [? | (? & e' & [-> | ?]%elem_of_cons & ?)]; [by left | congruence | right; eauto].
  - rewrite elem_of_union, elem_of_singleton. split.
    + intros [[-> | ?] | (? & e' & ? & ?)]; [right | by left | right]; (split; [done |]); [exists e | exists e']; set_solver.
    + intros [? | (? & e' & [-> | ?]%elem_of_cons & <-)]; [left; by right | left; by left | right; eauto].
Qed.

(** a source's visits partition its history: cutting the history at every idle gap
    of more than thirty minutes gives non-empty pieces that concatenate to it, and
    the visits are their summaries (first and last time, number of events, deepest
    phase, whether a command ran); the phases listed are, in escalation order,
    exactly those of some event. *)
Theorem visits_partition_history l :
  Visits (analyzeSource l) = map summary (segments l) /\
  concat (segments l) = l /\ Forall (fun s => s <> []) (segments l) /\
  foldr (fun v acc => v_Events v + acc) 0 (Visits (analyzeSource l)) = zlen l /\
  (forall p, p ∈ Phases (analyzeSource l) <-> p <> [] /\ exists e, e ∈ l /\ phaseOf e = p).
Proof using.
  assert (concat (segments l) = l) as Hc by (destruct l; [done | apply segments_from_concat]).
  assert (Visits (analyzeSource l) = map summary (segments l)) as Hv.
  { unfold analyzeSource. destruct (verdict _) as [[k c] w]. apply analyze_visits. }
  split_and!; [done | done | by destruct l; [constructor | apply segments_from_nonempty] | |].
  - rewrite Hv. rewrite <- Hc at 2. clear. induction (segments l) as [| s ss IH]; [done |].
    cbn [map foldr concat]. rewrite IH, zlen_app. done.
  - intros p. unfold analyzeSource. destruct (verdict _) as [[k c] w]. cbn [Phases].
    unfold orderedPhases. rewrite elem_of_filter_b, bool_decide_eq_true, analyze_reached.
    cbn [an_reached no_analysis]. split; [intros [_ [? | ?]]; [set_solver | done] |].
    intros (Hp & e & He & Hph). split; [| right; eauto]. subst p. revert Hp. clear.
    unfold phaseOf. cbv zeta. repeat case_match; intros; first [done | set_solver].
Qed.

Lemma clamp_range v hi : 0 <= hi -> 0 <= clamp v 0 hi <= hi.
Proof using. intros Hhi. unfold clamp. destruct (v <? 0) eqn:?; [lia |]. destruct (hi <? v) eqn:?; bool_hyps; lia. Qed.

Lemma confidence_range kind s :
  0 <= confidence_of kind s <= 99 /\ confidence_of kindUnknown s = 0 /\ confidence_of kindHuman s <= 70.
Proof using.
  split; [| split; [done | apply clamp_range; lia]]. unfold confidence_of.
  repeat case_match; try lia; (pose proof (clamp_range (70 + bot_weight s * 8) 99);
    pose proof (clamp_range (70 + bot_weight s * 6) 99); pose proof (clamp_range (wrap64 (45 + credentials s * 3)) 90);
    pose proof (clamp_range (35 + human_weight s * 15) 70); lia).
Qed.

Lemma bot_weight_spec s :
  0 <= bot_weight s /\ (bot_weight s = 0 -> bot_evidence s = []) /\ (3 <= bot_weight s -> bot_evidence s <> []) /\
  (loaderCmd s = true -> bot_evidence s <> []).
Proof using.
  assert (Forall (fun w : Z * str => 1 <= w.1) (bot_evidence s)) as Hpos.
  { unfold bot_evidence. repeat (apply Forall_app_2; [case_match; repeat constructor; simpl; lia |]). constructor. }
  assert (0 <= bot_weight s /\ (bot_weight s = 0 -> bot_evidence s = [])) as [H1 H2].
  { unfold bot_weight. induction Hpos as [| w l Hw _ [IH1 IH2]]; simpl; [done | split; [lia | intros; lia]]. }
  split_and!; [done | done | |].
  - intros Hw E. unfold bot_weight in Hw. rewrite E in Hw. simpl in Hw. lia.
  - intros E. unfold bot_evidence. by rewrite E.
Qed.

(** C28: the verdict is conservative: a source is called human only when nothing points
    to a machine and it paced at least three commands, and then with at most 70%
    confidence; it is called a loader only on loader evidence; an unknown source has
    confidence 0, every other verdict gives a reason, and confidence is a percentage
    below 100. *)
Theorem verdict_conservative s :
  let '(kind, conf, why) := verdict s in
  kind ∈ [kindUnknown; kindScanner; kindBruteforce; kindLoader; kindHuman] /\
  0 <= conf <= 99 /\ (kind = kindUnknown -> conf = 0) /\ (kind <> kindUnknown -> why <> []) /\
  (kind = kindHuman -> bot_evidence s = [] /\ 3 <= commands s /\ fastBurst s = false /\ conf <= 70) /\
  (kind = kindLoader -> loaderCmd s = true \/ hasExec s = true /\ 3 <= bot_weight s) /\
  (kind = kindScanner -> commands s = 0 /\ credentials s = 0 /\ hasExec s = false /\ hasDownload s = false).
Proof using.
  destruct (bot_weight_spec s) as (H0 & He & Hne & Hl).
  assert (forall kind why, kind ∈ [kindUnknown; kindScanner; kindBruteforce; kindLoader; kindHuman] ->
    choose_kind s = (kind, why) ->
    (kind <> kindUnknown -> map snd (bot_evidence s) ++ why <> []) /\
    (kind = kindHuman -> bot_weight s = 0 /\ humanPacing s = true) /\
    (kind = kindLoader -> loaderCmd s = true \/ hasExec s = true /\ 3 <= bot_weight s) /\
    (kind = kindScanner -> commands s = 0 /\ credentials s = 0 /\ hasExec s = false /\ hasDownload s = false)) as Hk.
  { intros kind why _. unfold choose_kind. cbv zeta.
    assert (forall l : list (Z * str), l <> [] -> map snd l ++ [] <> []) as Hm by by intros [].
    destruct (loaderCmd s || _) eqn:E1.
    { intros [= <- <-]. split_and!; try done.
      - intros _. apply Hm. apply orb_prop in E1 as [E1 | E1]; [auto | bool_hyps; auto].
      - intros _. apply orb_prop in E1 as [E1 | E1]; [by left | right; by bool_hyps]. }
    destruct (3 <=? bot_weight s) eqn:E2; [intros [= <- <-]; bool_hyps; split_and!; try done; intros _; auto |].
    destruct ((commands s =? 0) && (4 <=? credentials s)) eqn:E3.
    { intros [= <- <-]. split_and!; try done. by destruct (bot_evidence s). }
    destruct (_ && negb (hasDownload s)) eqn:E4.
    { intros [= <- <-]. bool_hyps. split_and!; try done. by destruct (bot_evidence s). }
    destruct ((0 <? human_weight s) && _) eqn:E5; intros [= <- <-]; split_and!; try done.
    - by destruct (bot_evidence s).
    - intros _. bool_hyps. split; [done |]. unfold human_weight in *. by destruct (humanPacing s). }
  assert ((choose_kind s).1 ∈ [kindUnknown; kindScanner; kindBruteforce; kindLoader; kindHuman]) as Hin.
  { unfold choose_kind. cbv zeta. repeat case_match; cbn [fst]; by apply (bool_decide_unpack (_ ∈ _)); vm_compute. }
  unfold verdict. destruct (choose_kind s) as [kind why]. destruct (Hk kind why Hin eq_refl) as (K1 & K2 & K3 & K4).
  destruct (confidence_range kind s) as (C1 & C2 & C3). split_and!; try done; try lia.
  - by intros ->.
  - intros ->. destruct (K2 eq_refl) as [Hw Hp]. unfold humanPacing in Hp. bool_hyps. split_and!; auto.
Qed.
End analyze.

Lemma verdict_conservative_witness :
  let s := Signals 3 0 1 3 false false false false false false false false 9000 1200 2500 true ∅ in
  verdict s = (kindHuman, 50, [$$"paced commands at human, varied intervals"]) /\ 3 <= commands s /\ fastBurst s = false.
Proof.
  intros s. split; [reflexivity |].
  destruct (verdict_conservative s) as (_ & _ & _ & _ & H & _). destruct (H eq_refl) as (_ & H3 & Hf & _). by split.
Defined.
