(* ===== verification/Overview.v ===== *)
(** * Overview: the dashboard's aggregates (internal/portal/overview.go)

    One pass over the log.  The maps keyed by source that [overview] creates and
    updates together (the row, the sets of sessions, protocols and ports already
    counted, the signals, the last time stamp and the visit count) are one map to a
    record here.  Go's iteration order over a map is an argument of the two functions
    that range over one. *)

From S2P Require Import Prelude GoStrings Util Geo Event StableSort Feed Analyze.

Definition overviewSourceCap : Z := 300.
Definition agentCap : Z := 50.

Record overviewSource : Type := OvSource {
  os_IP : str; os_Country : str; os_ASN : Z; os_Org : str; os_Scope : str; os_Events : Z; os_Sessions : Z;
  os_FirstSeen : str; os_LastSeen : str; os_Protocols : list str; os_Ports : list Z; os_Scanned : bool;
  os_Kind : str; os_Confidence : Z; os_Visits : Z; os_Returning : bool
}.
Record portStat : Type := PortStat { ps_Port : Z; ps_Protocol : str; ps_Hits : Z; ps_Scans : Z }.
Record agentStat : Type := AgentStat { ag_Agent : str; ag_Count : Z; ag_Sources : Z }.
(** [countryStat] and [ispStat]; a country row carries no AS number. *)
Record groupStat : Type := GroupStat { gs_Key : str; gs_ASN : Z; gs_Sources : Z; gs_Events : Z }.

Record totals : Type := Totals {
  t_events : Z; t_sessions : Z; t_scans : Z; t_creds : Z; t_https : Z; t_downloads : Z; t_execs : Z; t_bait : Z
}.
Record today : Type := Today { d_sessions : Z; d_scans : Z; d_downloads : Z; d_bait : Z; d_src : gset str }.
Record source_state : Type := SourceState {
  ss_row : overviewSource; ss_sess : gset str; ss_proto : gset str; ss_ports : gset Z;
  ss_sig : sourceSignals; ss_last : Z; ss_count : Z
}.
Record aggregate : Type := Aggregate {
  a_totals : totals; a_today : today; a_bySrc : gmap str source_state; a_order : list str;
  a_ports : gmap Z portStat; a_agents : gmap str (agentStat * gset str)
}.
Definition no_totals : totals := Totals 0 0 0 0 0 0 0 0.
Definition no_aggregate : aggregate := Aggregate no_totals (Today 0 0 0 0 ∅) ∅ [] ∅ ∅.

(** ** One event *)

Definition bump (b : bool) (n : Z) : Z := if b then n + 1 else n.

(** The events the figures describe: not the portal's own, and with a source. *)
Definition counted (e : Entry) : bool :=
  negb ((e_Event e =s []) || (e_Event e =s $$"SYSTEM")) && negb (srcOf e =s []).

Definition count_total (e : Entry) (t : totals) : totals :=
  let named nm := e_Event e =s nm in
  Totals (t_events t + 1) (bump (named $$"SESSION_START") (t_sessions t)) (bump (named $$"PORT_SCAN") (t_scans t))
    (bump (named $$"CREDENTIAL") (t_creds t)) (bump (named $$"HTTP_REQUEST" || named $$"HTTP_POST") (t_https t))
    (bump (named $$"DOWNLOAD_ATTEMPT") (t_downloads t)) (bump (named $$"EXEC_ATTEMPT") (t_execs t))
    (bump (named $$"HONEYTOKEN") (t_bait t)).

Definition count_today (todayStr : str) (e : Entry) (src : str) (d : today) : today :=
  let named nm := e_Event e =s nm in
  if (10 <=? zlen (e_Time e)) && (take 10 (e_Time e) =s todayStr) then
    Today (bump (named $$"SESSION_START") (d_sessions d)) (bump (named $$"PORT_SCAN") (d_scans d))
      (bump (named $$"DOWNLOAD_ATTEMPT") (d_downloads d)) (bump (named $$"HONEYTOKEN") (d_bait d)) ({[src]} ∪ d_src d)
  else d.

(** A set used as a memory of what was counted. *)
Definition fresh {A} `{Countable A} (present : bool) (x : A) (s : gset A) : bool := present && bool_decide (x ∉ s).

Definition count_row (e : Entry) (sess proto : gset str) (ports : gset Z) (r : overviewSource) : overviewSource :=
  OvSource (os_IP r) (os_Country r) (os_ASN r) (os_Org r) (os_Scope r) (os_Events r + 1)
    (bump (fresh (negb (e_Session e =s [])) (e_Session e) sess) (os_Sessions r)) (os_FirstSeen r) (e_Time e)
    (if fresh (negb (e_Protocol e =s [])) (e_Protocol e) proto then os_Protocols r ++ [e_Protocol e] else os_Protocols r)
    (if fresh (0 <? e_Port e) (e_Port e) ports then os_Ports r ++ [e_Port e] else os_Ports r)
    (os_Scanned r || (e_Event e =s $$"PORT_SCAN")) (os_Kind r) (os_Confidence r) (os_Visits r) (os_Returning r).

Definition count_port (e : Entry) (m : gmap Z portStat) : gmap Z portStat :=
  if 0 <? e_Port e then
    let ps := default (PortStat (e_Port e) (e_Protocol e) 0 0) (m !! e_Port e) in
    <[e_Port e := PortStat (ps_Port ps) (if ps_Protocol ps =s [] then e_Protocol e else ps_Protocol ps)
                    (ps_Hits ps + 1) (bump (e_Event e =s $$"PORT_SCAN") (ps_Scans ps))]> m
  else m.

Definition count_agent (e : Entry) (src : str) (m : gmap str (agentStat * gset str)) : gmap str (agentStat * gset str) :=
  let agent := e_UserAgent e in
  if agent =s [] then m
  else
    let '(ua, srcs) := default (AgentStat agent 0 0, ∅) (m !! agent) in
    <[agent := (AgentStat (ag_Agent ua) (ag_Count ua + 1) (bump (fresh true src srcs) (ag_Sources ua)), {[src]} ∪ srcs)]> m.

Section overview.
Context (parse_rfc3339 : str -> option Z) (geo : Resolver) (todayStr : str).

Definition new_source (src : str) (e : Entry) : source_state :=
  let loc := Locate geo src in
  SourceState
    (OvSource src (Country loc) (ASN loc) (Org loc) (Scope loc) 0 0 (e_Time e) [] [] [] false [] 0 0 false)
    ∅ ∅ ∅ no_signals 0 1.

(** [first]: the source was not there before. *)
Definition count_source (first : bool) (e : Entry) (s : source_state) : source_state :=
  let ms := entryMs parse_rfc3339 e in
  SourceState (count_row e (ss_sess s) (ss_proto s) (ss_ports s) (ss_row s))
    (if e_Session e =s [] then ss_sess s else {[e_Session e]} ∪ ss_sess s)
    (if e_Protocol e =s [] then ss_proto s else {[e_Protocol e]} ∪ ss_proto s)
    (if 0 <? e_Port e then {[e_Port e]} ∪ ss_ports s else ss_ports s)
    (observe parse_rfc3339 e (ss_sig s))
    (if ms =? 0 then ss_last s else ms)
    (bump (negb first && negb (ms =? 0) && negb (ss_last s =? 0) && (visitGapMs <? wrap64 (ms - ss_last s))) (ss_count s)).

Definition count_bySrc (src : str) (e : Entry) (m : gmap str source_state) : gmap str source_state :=
  match m !! src with
  | Some s => <[src := count_source false e s]> m
  | None => <[src := count_source true e (new_source src e)]> m
  end.

Definition overview_step (a : aggregate) (e : Entry) : aggregate :=
  if counted e then
    let src := srcOf e in
    Aggregate (count_total e (a_totals a)) (count_today todayStr e src (a_today a)) (count_bySrc src e (a_bySrc a))
      (match a_bySrc a !! src with Some _ => a_order a | None => a_order a ++ [src] end)
      (count_port e (a_ports a)) (count_agent e src (a_agents a))
  else a.
Definition overview_fold (entries : list Entry) : aggregate := foldl overview_step no_aggregate entries.

(** The tag of a row, once every event is in. *)
Definition tag_row (s : source_state) : overviewSource :=
  let r := ss_row s in
  let '(kind, conf, _) := verdict (ss_sig s) in
  OvSource (os_IP r) (os_Country r) (os_ASN r) (os_Org r) (os_Scope r) (os_Events r) (os_Sessions r)
    (os_FirstSeen r) (os_LastSeen r) (os_Protocols r) (os_Ports r) (os_Scanned r) kind conf (ss_count s)
    ((2 <=? ss_count s) || (os_Scanned r && ((0 <? commands (ss_sig s)) || (0 <? sessions (ss_sig s))))).
Definition rows (a : aggregate) : list overviewSource :=
  omap (fun src => tag_row <$> a_bySrc a !! src) (a_order a).
End overview.

(** ** The sorted panels *)

Definition source_less (x y : overviewSource) : bool :=
  if negb (os_Events x =? os_Events y) then os_Events y <? os_Events x
  else negb (str_le (os_LastSeen x) (os_LastSeen y)).
Definition topSources (l : list overviewSource) : list overviewSource :=
  let out := stable_sort source_less l in
  if overviewSourceCap <? zlen out then take (Z.to_nat overviewSourceCap) out else out.

Definition port_less (x y : portStat) : bool :=
  if negb (ps_Hits x =? ps_Hits y) then ps_Hits y <? ps_Hits x else ps_Port x <? ps_Port y.
(** [it] is the map's values in the order the range yields them. *)
Definition sortedPorts (it : list portStat) : list portStat := stable_sort port_less it.

Definition agent_less (x y : agentStat) : bool :=
  if negb (ag_Count x =? ag_Count y) then ag_Count y <? ag_Count x else negb (str_le (ag_Agent y) (ag_Agent x)).
Definition topAgents (it : list agentStat) : list agentStat :=
  let out := stable_sort agent_less it in
  if agentCap <? zlen out then take (Z.to_nat agentCap) out else out.

Definition group_less (x y : groupStat) : bool :=
  if negb (gs_Sources x =? gs_Sources y) then gs_Sources y <? gs_Sources x else gs_Events y <? gs_Events x.

(** The loop both rollups share, for a row's [key] and AS number. *)
Definition group_step (key : overviewSource -> str) (asn : overviewSource -> Z)
    (st : gmap str groupStat * list str) (r : overviewSource) : gmap str groupStat * list str :=
  let '(agg, keys) := st in
  let k := key r in
  let g := default (GroupStat k (asn r) 0 0) (agg !! k) in
  (<[k := GroupStat (gs_Key g) (gs_ASN g) (gs_Sources g + 1) (gs_Events g + os_Events r)]> agg,
   match agg !! k with Some _ => keys | None => keys ++ [k] end).
Definition rollup (key : overviewSource -> str) (asn : overviewSource -> Z) (l : list overviewSource) : list groupStat :=
  let '(agg, keys) := foldl (group_step key asn) (∅, []) l in
  stable_sort group_less (omap (fun k => agg !! k) keys).

Definition or_unknown (key : str) : str := if key =s [] then $$"unknown" else key.
Definition country_key (r : overviewSource) : str :=
  or_unknown (if os_Country r =s [] then os_Scope r else os_Country r).
Definition countryRollup (l : list overviewSource) : list groupStat := rollup country_key (fun _ => 0) l.
Definition isp_key (r : overviewSource) : str :=
  let key := os_Org r in
  let key := if (key =s []) && negb (os_ASN r =? 0) then $$"AS" ++ itoa (os_ASN r) else key in
  or_unknown (if key =s [] then os_Scope r else key).
Definition ispRollup (l : list overviewSource) : list groupStat := rollup isp_key os_ASN l.

(** ** The response *)

Record response : Type := Response {
  o_totals : totals; o_sources : Z; o_agents : Z; o_today : option (today * Z);
  o_ports : list portStat; o_countries : list groupStat; o_isps : list groupStat;
  o_user_agents : list agentStat; o_rows : list overviewSource; o_geo : bool; o_asn : bool; o_version : option str
}.
Section respond.
Context (decode : str -> option Entry) (parse_rfc3339 : str -> option Z) (geo : Resolver) (version todayStr : str).

Definition geo_active : bool := 0 <? zlen (ranges geo).
Definition asn_active : bool := 0 <? zlen (asnRanges geo).
Definition emptyOverview : response := Response no_totals 0 0 None [] [] [] [] [] geo_active asn_active None.

(** [ports] and [agents] are the iteration orders of the two maps. *)
Definition respond (ports : gmap Z portStat -> list portStat) (agents : gmap str (agentStat * gset str) -> list agentStat)
    (entries : list Entry) : response :=
  let a := overview_fold parse_rfc3339 geo todayStr entries in
  Response (a_totals a) (zlen (a_order a)) (Z.of_nat (size (a_agents a)))
    (Some (a_today a, Z.of_nat (size (d_src (a_today a)))))
    (sortedPorts (ports (a_ports a))) (countryRollup (rows a)) (ispRollup (rows a))
    (topAgents (agents (a_agents a))) (topSources (rows a)) geo_active asn_active (Some version).
Definition overview ports agents (file : str) : response :=
  let '(entries, ok) := readEntries decode (fun _ => true) file in
  if ok then respond ports agents entries else emptyOverview.
End respond.
