(* ===== verification/Grouping.v ===== *)
(** * Grouping: the portal's per-source tables

    [payloads] and [honeytokens] keep a map from a source to its row and the order in
    which sources first appeared.  The loop is stated once for any row, with the laws
    both pages rely on. *)

From S2P Require Import Prelude GoStrings Event.

(** A counter per key ([m[k]++]). *)
Definition count_key (k : str) (m : gmap str Z) : gmap str Z := <[k := default 0 (m !! k) + 1]> m.

Lemma count_key_sum k m : map_sum id (count_key k m) = map_sum id m + 1.
Proof. unfold count_key. rewrite map_sum_insert. destruct (m !! k); simpl; unfold id; lia. Qed.

(** "If not seen, remember and append": [seen] and the list move together. *)
Definition remember (present : bool) (x : str) (st : gset str * list str) : gset str * list str :=
  let '(seen, l) := st in
  if present && bool_decide (x ∉ seen) then ({[x]} ∪ seen, l ++ [x]) else (seen, l).
Definition remembers (st : gset str * list str) : Prop := NoDup st.2 /\ forall x, x ∈ st.2 <-> x ∈ st.1.

Lemma remember_ok b x st : remembers st -> remembers (remember b x st).
Proof.
  destruct st as [seen l]. intros [Hn Hs]. cbn [fst snd] in *. unfold remember. destruct b; cbn [andb]; [| by split].
  case_bool_decide as Hx; [| by split]. split; cbn [fst snd].
  - apply NoDup_app. split_and!; [done | | apply NoDup_singleton]. intros y Hy ->%list_elem_of_singleton. by apply Hs in Hy.
  - intros y. rewrite elem_of_app, list_elem_of_singleton, elem_of_union, elem_of_singleton, Hs. tauto.
Qed.

Section group.
Context {S : Type} (key : Entry -> str) (new : str -> Entry -> S) (upd : Entry -> S -> S).
Local Notation table := (gmap str S * list str)%type.

Definition touch (st : table) (e : Entry) : table :=
  let '(m, order) := st in
  let src := key e in
  match m !! src with
  | Some s => (<[src := upd e s]> m, order)
  | None => (<[src := upd e (new src e)]> m, order ++ [src])
  end.
Definition group (l : list Entry) : table := foldl touch (∅, []) l.
Definition table_rows (st : table) : list S := omap (fun k => st.1 !! k) st.2.

Definition table_ok (P : str -> S -> Prop) (st : table) : Prop :=
  NoDup st.2 /\ (forall k, k ∈ st.2 <-> is_Some (st.1 !! k)) /\ (forall k s, st.1 !! k = Some s -> P k s).

Lemma touch_ok (P : str -> S -> Prop) st e :
  (forall k e, P k (new k e)) -> (forall e s, P (key e) s -> P (key e) (upd e s)) -> table_ok P st -> table_ok P (touch st e).
Proof using.
  intros Hnew Hupd. destruct st as [m order]. intros (Hn & Hk & HP). cbn [fst snd] in *. unfold touch.
  assert (forall v, (forall s, m !! key e = Some s -> v = upd e s) -> (m !! key e = None -> v = upd e (new (key e) e)) ->
    forall k s, <[key e := v]> m !! k = Some s -> P k s) as HP'.
  { intros v H1 H2 k s [[<- <-] | [_ H]]%lookup_insert_Some; [| by apply HP].
    destruct (m !! key e) as [s0 |] eqn:E; [rewrite (H1 s0) | rewrite H2]; try done; apply Hupd; auto. }
  assert (forall v k, is_Some (<[key e := v]> m !! k) <-> k = key e \/ is_Some (m !! k)) as Hs.
  { intros v k. rewrite lookup_insert_is_Some. destruct (decide (k = key e)); naive_solver. }
  destruct (m !! key e) as [s |] eqn:E; split_and!; cbn [fst snd].
  - done.
  - intros k. rewrite Hk, Hs. naive_solver.
  - apply HP'; [by intros s' [= ->] | done].
  - apply NoDup_app. split_and!; [done | | apply NoDup_singleton].
    intros x Hx ->%list_elem_of_singleton. apply Hk in Hx as [? ?]. congruence.
  - intros k. rewrite elem_of_app, list_elem_of_singleton, Hk, Hs. tauto.
  - apply HP'; done.
Qed.

Lemma group_ok (P : str -> S -> Prop) l :
  (forall k e, P k (new k e)) -> (forall e s, P (key e) s -> P (key e) (upd e s)) -> table_ok P (group l).
Proof using.
  intros Hnew Hupd. unfold group. induction l as [| e l IH] using rev_ind.
  { split_and!; [constructor | | done]. intros k. split; [by intros H%elem_of_nil | by intros [? ?]]. }
  rewrite foldl_snoc. by apply touch_ok.
Qed.

Lemma touch_sum (f : S -> Z) (w : Entry -> Z) st e :
  (forall k e, f (new k e) = 0) -> (forall e s, f (upd e s) = f s + w e) -> table_ok (fun _ _ => True) st ->
  zsum f (table_rows (touch st e)) = zsum f (table_rows st) + w e.
Proof using.
  intros Hnew Hupd. destruct st as [m order]. intros (Hn & Hk & _). cbn [fst snd] in *. unfold touch, table_rows.
  assert (forall v (ks : list str), key e ∉ ks -> omap (fun k => <[key e := v]> m !! k) ks = omap (fun k => m !! k) ks) as Hother.
  { intros v ks Hks. apply list_omap_ext. induction ks as [| k ks IH]; [constructor |].
    rewrite not_elem_of_cons in Hks. destruct Hks. constructor; [by rewrite lookup_insert_ne | by apply IH]. }
  destruct (m !! key e) as [s |] eqn:E; cbn [fst snd].
  - assert (key e ∈ order) as (k1 & k2 & ->)%list_elem_of_split by (apply Hk; eauto).
    apply NoDup_app in Hn as (_ & Hd & [Hn2 _]%NoDup_cons).
    rewrite !omap_app, !zsum_app. cbn [omap list_omap]. rewrite lookup_insert_eq, E, !zsum_cons.
    rewrite !Hother; [rewrite Hupd; unfold omap; lia | done | intros Hx; apply (Hd _ Hx); by left].
  - assert (key e ∉ order) as Hno by (intros Hx; apply Hk in Hx as [? ?]; congruence).
    rewrite omap_app, zsum_app, Hother by done. cbn [omap list_omap]. rewrite lookup_insert_eq, zsum_cons, Hupd, Hnew.
    change (zsum f []) with 0. lia.
Qed.

Lemma group_sum (f : S -> Z) (w : Entry -> Z) l :
  (forall k e, f (new k e) = 0) -> (forall e s, f (upd e s) = f s + w e) -> zsum f (table_rows (group l)) = zsum w l.
Proof using.
  intros Hnew Hupd. induction l as [| e l IH] using rev_ind; [done |]. unfold group. rewrite foldl_snoc. fold (group l).
  rewrite (touch_sum f w); [by rewrite IH, zsum_snoc | done | done |]. by apply group_ok.
Qed.

Lemma table_rows_elem P st s : table_ok P st -> s ∈ table_rows st <-> exists k, st.1 !! k = Some s.
Proof using.
  clear new upd key. intros (_ & Hk & _). unfold table_rows. rewrite list_elem_of_omap. split; [naive_solver |].
  intros [k E]. exists k. split; [| done]. apply Hk. eauto.
Qed.
Lemma table_rows_length P st : table_ok P st -> zlen (table_rows st) = zlen st.2.
Proof using.
  intros (_ & Hk & _). unfold table_rows, zlen. f_equal.
  assert (forall ks : list str, (forall k, k ∈ ks -> is_Some (st.1 !! k)) -> length (omap (fun k => st.1 !! k) ks) = length ks) as H;
    [| apply H; intros; by apply Hk].
  induction ks as [| k ks IH]; intros Hks; [done |]. cbn [omap list_omap]. destruct (Hks k) as [s E]; [by left |]. rewrite E.
  simpl. rewrite IH; [done |]. intros. apply Hks. by right.
Qed.
End group.
