(* ===== verification/Portal.v ===== *)
(** * Portal: the pages beside the overview (internal/portal)

    Honeytokens (honeytokens.go), payloads (payloads.go), session replays (replay.go),
    the operator consoles (console.go) and the helpers of portal.go.  [url_parse] is
    [net/url]'s parser; what the code takes from a URL is a record. *)

From S2P Require Import Prelude GoStrings Net Util Geo Event StableSort Feed Grouping.

(** ** Honeytokens *)

Record honeytokenSource : Type := HtSource {
  ht_IP : str; ht_Country : str; ht_Scope : str; ht_Count : Z; ht_FirstSeen : str; ht_LastSeen : str;
  ht_sess : gset str * list str;       (* sessionSeen and Sessions *)
  ht_tok : gset str * list str         (* tokenSeen and Tokens *)
}.
Record honeytokenPage : Type := HtPage {
  hp_sources : list honeytokenSource; hp_total : Z; hp_unique : Z; hp_byToken : gmap str Z; hp_geo : bool
}.

(** Busier first, ties by most recent activity. *)
Definition row_less {A} (count : A -> Z) (seen : A -> str) (x y : A) : bool :=
  if negb (count x =? count y) then count y <? count x else negb (str_le (seen x) (seen y)).

Section pages.
Context (decode : str -> option Entry) (geo : Resolver).

Definition new_ht (src : str) (e : Entry) : honeytokenSource :=
  let loc := Locate geo src in HtSource src (Country loc) (Scope loc) 0 (e_Time e) [] (∅, []) (∅, []).
Definition count_ht (e : Entry) (r : honeytokenSource) : honeytokenSource :=
  HtSource (ht_IP r) (ht_Country r) (ht_Scope r) (ht_Count r + 1) (ht_FirstSeen r) (e_Time e)
    (remember (negb (e_Session e =s [])) (e_Session e) (ht_sess r)) (remember (negb (e_Note e =s [])) (e_Note e) (ht_tok r)).
Definition token_of (e : Entry) : str := if e_Note e =s [] then $$"unknown" else e_Note e.
Definition tally (key : Entry -> str) (l : list Entry) : gmap str Z := foldl (fun m e => count_key (key e) m) ∅ l.

Definition is_honeytoken (e : Entry) : bool := e_Event e =s $$"HONEYTOKEN".
Definition honeytokens (file : str) : honeytokenPage :=
  let '(entries, ok) := readEntries decode is_honeytoken file in
  if ok then
    let st := group srcOf new_ht count_ht entries in
    HtPage (stable_sort (row_less ht_Count ht_LastSeen) (table_rows st)) (zlen entries) (zlen st.2)
      (tally token_of entries) (0 <? zlen (ranges geo))
  else HtPage [] 0 0 ∅ false.

(** ** Payloads *)

Record droppedRef : Type := DroppedRef { dr_Filename : str; dr_SHA256 : str }.
Record payloadSource : Type := PlSource {
  pl_IP : str; pl_Country : str; pl_ASN : Z; pl_Org : str; pl_Scope : str; pl_Count : Z;
  pl_FirstSeen : str; pl_LastSeen : str; pl_sess : gset str * list str; pl_urls : gset str * list str;
  pl_dropSeen : gset str; pl_Droppers : list droppedRef
}.
Record payloadPage : Type := PlPage {
  pp_sources : list payloadSource; pp_total : Z; pp_unique : Z; pp_byURL : gmap str Z; pp_bySha : gmap str Z;
  pp_droppers : Z; pp_geo : bool
}.

Definition payloadURL (e : Entry) : str :=
  if negb (e_URL e =s []) then e_URL e else if negb (e_Command e =s []) then e_Command e else $$"unknown".
Definition dropper_key (e : Entry) : str := if e_SHA256 e =s [] then e_Filename e else e_SHA256 e.
Definition is_dropper (e : Entry) : bool := e_Event e =s $$"DROPPER".
Definition is_payload (e : Entry) : bool := (e_Event e =s $$"DOWNLOAD_ATTEMPT") || is_dropper e.

Definition new_pl (src : str) (e : Entry) : payloadSource :=
  let loc := Locate geo src in
  PlSource src (Country loc) (ASN loc) (Org loc) (Scope loc) 0 (e_Time e) [] (∅, []) (∅, []) ∅ [].
Definition count_pl (e : Entry) (r : payloadSource) : payloadSource :=
  let sess := remember (negb (e_Session e =s [])) (e_Session e) (pl_sess r) in
  let row := PlSource (pl_IP r) (pl_Country r) (pl_ASN r) (pl_Org r) (pl_Scope r) (pl_Count r + 1)
               (pl_FirstSeen r) (e_Time e) sess in
  if is_dropper e then
    let key := dropper_key e in
    if bool_decide (key ∉ pl_dropSeen r)
    then row (pl_urls r) ({[key]} ∪ pl_dropSeen r) (pl_Droppers r ++ [DroppedRef (e_Filename e) (e_SHA256 e)])
    else row (pl_urls r) (pl_dropSeen r) (pl_Droppers r)
  else row (remember true (payloadURL e) (pl_urls r)) (pl_dropSeen r) (pl_Droppers r).

Definition payloads (file : str) : payloadPage :=
  let '(entries, ok) := readEntries decode is_payload file in
  if ok then
    let st := group srcOf new_pl count_pl entries in
    let drops := List.filter is_dropper entries in
    PlPage (stable_sort (row_less pl_Count pl_LastSeen) (table_rows st)) (zlen entries) (zlen st.2)
      (tally payloadURL (List.filter (fun e => negb (is_dropper e)) entries)) (tally dropper_key drops) (zlen drops)
      (0 <? zlen (ranges geo))
  else PlPage [] 0 0 ∅ ∅ 0 false.
End pages.

(** ** Replays *)

Definition rune_in (r lo hi : Z) : bool := (lo <=? r) && (r <=? hi).
Definition safe_rune (r : Z) : bool := rune_in r 97 122 || rune_in r 65 90 || rune_in r 48 57.
Definition safeID (id : str) : bool :=
  if (id =s []) || (64 <? zlen id) then false else forallb safe_rune (runes id).

(** The ids with a recording, of the names [os.ReadDir] returns ([None]: an error). *)
Definition cut_cast (name : str) : option str :=
  if has_suffix name $$".cast" then Some (trim_suffix name $$".cast") else None.
Definition str_less (a b : str) : bool := negb (str_le b a).
Definition recordings (dir : str) (names : option (list str)) : list str :=
  let ids := match (if dir =s [] then None else names) with
             | Some names => omap (fun n => match cut_cast n with Some id => if safeID id then Some id else None | None => None end) names
             | None => [] end in
  stable_sort str_less ids.

(** The file [cast] reads, [None] for a 404. *)
Definition cast_path (dir id : str) : option str :=
  if (dir =s []) || negb (safeID id) then None else Some (path_join dir (id ++ $$".cast")).
Definition cast (read : str -> option str) (dir id : str) : option str :=
  match cast_path dir id with Some p => read p | None => None end.

(** ** Consoles *)

Record URL : Type := MkURL { u_Scheme : str; u_Host : str; u_Path : str }.
Record AdminConsole : Type := MkConsole { ac_Name : str; ac_Label : str; ac_Target : str; ac_StripPrefix : bool }.
Record consoleEntry : Type := ConsoleEntry { ce_name : str; ce_label : str; ce_target : URL; ce_strip : bool }.
Definition consoleMount : str := $$"/dashboard/console/".

(** [URL.Hostname]. *)
Definition validOptionalPort (port : str) : bool :=
  match port with
  | [] => true
  | c :: digits => bool_decide (c = ":"%char) && forallb is_digit digits
  end.
Definition Hostname (hostPort : str) : str :=
  let host := match last_index_byte hostPort ":"%char with
              | Some colon => if validOptionalPort (drop colon hostPort) then take colon hostPort else hostPort
              | None => hostPort end in
  if has_prefix host $$"[" && has_suffix host $$"]" then take (length host - 2) (drop 1 host) else host.

Definition isLocalTarget (host : str) : bool :=
  if host =s $$"localhost" then true
  else match ParseAddr host with
       | Some a => IsLoopback a || IsPrivate a
       | None => false
       end.

Definition singleJoiningSlash (a b : str) : str :=
  let aslash := has_suffix a $$"/" in
  let bslash := has_prefix b $$"/" in
  if aslash && bslash then a ++ drop 1 b
  else if negb aslash && negb bslash then if b =s [] then a else a ++ $$"/" ++ b
  else a ++ b.

(** What [buildConsoles] reports about an entry. *)
Inductive notice : Type := InvalidName (name : str) | InvalidTarget (name target : str) | Refused (name host : str) | Proxied (name : str).

Section consoles.
Context (url_parse : str -> option URL).

Definition console_step (st : gmap str consoleEntry * list notice) (ac : AdminConsole) : gmap str consoleEntry * list notice :=
  let '(out, notes) := st in
  let name := trim_space (ac_Name ac) in
  if (name =s []) || contains_any name $$"/ " then (out, notes ++ [InvalidName (ac_Name ac)])
  else match url_parse (trim_space (ac_Target ac)) with
       | Some target =>
           if (u_Scheme target =s []) || (u_Host target =s []) then (out, notes ++ [InvalidTarget name (ac_Target ac)])
           else if negb (isLocalTarget (Hostname (u_Host target))) then (out, notes ++ [Refused name (u_Host target)])
           else
             let label := if ac_Label ac =s [] then name else ac_Label ac in
             (<[name := ConsoleEntry name label target (ac_StripPrefix ac)]> out, notes ++ [Proxied name])
       | None => (out, notes ++ [InvalidTarget name (ac_Target ac)])
       end.
Definition buildConsoles (acs : list AdminConsole) : gmap str consoleEntry * list notice :=
  foldl console_step (∅, []) acs.
End consoles.

(** The proxied request: the fields the Director sets. *)
Record outreq : Type := Outreq { or_Scheme : str; or_URLHost : str; or_Path : str; or_Host : str; or_Header : gmap str (list str) }.
Definition director (c : consoleEntry) (path : str) (header : gmap str (list str)) : outreq :=
  let target := ce_target c in
  let path := if ce_strip c then trim_prefix path (consoleMount ++ ce_name c) else path in
  Outreq (u_Scheme target) (u_Host target) (singleJoiningSlash (u_Path target) path) (u_Host target)
    (delete $$"Authorization" (delete $$"Cookie" header)).

Inductive console_reply : Type := NoSuchConsole | Redirect (location : str) | Forward (c : consoleEntry) (r : outreq).
Definition console (consoles : gmap str consoleEntry) (path : str) (header : gmap str (list str)) : console_reply :=
  let rest := trim_prefix path consoleMount in
  let name := match index_byte rest slash with Some i => take i rest | None => rest end in
  match consoles !! name with
  | None => NoSuchConsole
  | Some c =>
      if path =s consoleMount ++ name then Redirect (consoleMount ++ name ++ $$"/")
      else Forward c (director c path header)
  end.

(** [it]: the map's values in the order of the range. *)
Definition consoleList (it : list consoleEntry) : list (str * str) :=
  stable_sort (fun x y => str_less x.1 y.1) (map (fun c => (ce_name c, ce_label c)) it).

(** ** portal.go *)

(** [itoa]: the digits written from the end of a 20-byte buffer. *)
Fixpoint itoa_loop (fuel : nat) (n : Z) (buf : str) : str :=
  match fuel with
  | O => buf
  | S fuel => if 0 <? n then itoa_loop fuel (Z.quot n 10) (zb (48 + Z.rem n 10) :: buf) else buf
  end.
Definition portal_itoa (n : Z) : str :=
  if n =? 0 then $$"0"
  else
    let neg := n <? 0 in
    let buf := itoa_loop 20 (if neg then wrap64 (- n) else n) [] in
    if neg then "-"%char :: buf else buf.
Definition addr_of (bind : str) (port : Z) : str := JoinHostPort bind (portal_itoa port).

(** The gate of the event streams. *)
Definition maxConcurrentSSE : Z := 64.
Inductive sse_event : Type := SseOpen | SseClose.
(** The streams open and whether this client was served. *)
Definition sse_gate (live : Z) (ev : sse_event) : Z * bool :=
  match ev with
  | SseOpen => if live <? maxConcurrentSSE then (live + 1, true) else (live, false)
  | SseClose => (live - 1, true)
  end.
