(* ===== verification/PortalFacts.v ===== *)
(** * PortalFacts: what the portal's pages promise

    The evidence pages add up; a replay request reads one file of the recording
    directory; a console request reaches a console the operator listed and no other
    host; [itoa] prints the decimal text. *)

From S2P Require Import Prelude GoStrings Paths Net Util Geo Event StableSort Feed Grouping Portal.

(** ** Evidence pages *)

Lemma tally_sum key l : map_sum id (tally key l) = zlen l.
Proof.
  unfold tally. induction l as [| e l IH] using rev_ind; [done |]. rewrite foldl_snoc, count_key_sum, IH, zlen_app. done.
Qed.

Lemma row_less_asym {A} (n : A -> Z) (t : A -> str) x y : row_less n t x y = true -> row_less n t y x = false.
Proof.
  unfold row_less. intros H.
  destruct (negb (n x =? n y)) eqn:E1; destruct (negb (n y =? n x)) eqn:E2; bool_hyps; try lia; try (apply Z.ltb_ge; lia).
  apply negb_false_iff. destruct (str_le_total (t x) (t y)); congruence.
Qed.
Lemma row_less_ntrans {A} (n : A -> Z) (t : A -> str) x y z :
  row_less n t y x = false -> row_less n t z y = false -> row_less n t z x = false.
Proof.
  unfold row_less. intros H1 H2.
  destruct (negb (n y =? n x)) eqn:E1; destruct (negb (n z =? n y)) eqn:E2;
    destruct (negb (n z =? n x)) eqn:E3; bool_hyps; try lia; try (apply Z.ltb_ge; lia).
  apply negb_false_iff. by apply (str_le_trans _ (t y)).
Qed.
Lemma rows_sorted {A} (n : A -> Z) (t : A -> str) l :
  StronglySorted (not_after (row_less n t)) (stable_sort (row_less n t) l).
Proof. apply stable_sort_sorted; [apply row_less_asym | apply row_less_ntrans]. Qed.

Definition ht_ok (src : str) (r : honeytokenSource) : Prop := ht_IP r = src /\ remembers (ht_sess r) /\ remembers (ht_tok r).
Definition pl_ok (src : str) (r : payloadSource) : Prop := pl_IP r = src /\ remembers (pl_sess r) /\ remembers (pl_urls r).
Lemma remembers_empty : remembers (∅, []). Proof. split; [constructor | set_solver]. Qed.

Section evidence.
Context (decode : str -> option Entry) (geo : Resolver).

Lemma ht_table_ok l : table_ok ht_ok (group srcOf (new_ht geo) count_ht l).
Proof using.
  apply group_ok; [intros; split_and!; [done | apply remembers_empty | apply remembers_empty] |].
  intros e s (H1 & H2 & H3). split_and!; [done | by apply remember_ok | by apply remember_ok].
Qed.
Lemma pl_table_ok l : table_ok pl_ok (group srcOf (new_pl geo) count_pl l).
Proof using.
  apply group_ok; [intros; split_and!; [done | apply remembers_empty | apply remembers_empty] |].
  intros e s (H1 & H2 & H3). unfold count_pl.
  destruct (is_dropper e); [case_bool_decide |]; (split_and!; [done | by apply remember_ok | first [done | by apply remember_ok]]).
Qed.

(** the evidence pages account for every bait tripped and every payload delivered: the
    total is the number of such entries in the log, the rows of the sources distribute
    it, the tallies (by token; by URL and by dropper) distribute it too, there is one row
    per source, no session, token or URL is listed twice in a row, and the rows are in
    descending order of activity. *)
Theorem evidence_pages_account file :
  (forall l, l ∈ split_byte nl file -> zlen l < maxScanBytes) ->
  let h := honeytokens decode geo file in
  let p := payloads decode geo file in
  hp_total h = zlen (readEntries decode is_honeytoken file).1 /\ zsum ht_Count (hp_sources h) = hp_total h /\
  map_sum id (hp_byToken h) = hp_total h /\ zlen (hp_sources h) = hp_unique h /\
  pp_total p = zlen (readEntries decode is_payload file).1 /\ zsum pl_Count (pp_sources p) = pp_total p /\
  map_sum id (pp_byURL p) + map_sum id (pp_bySha p) = pp_total p /\ map_sum id (pp_bySha p) = pp_droppers p /\
  zlen (pp_sources p) = pp_unique p /\
  Forall (fun r => NoDup (ht_sess r).2 /\ NoDup (ht_tok r).2) (hp_sources h) /\
  Forall (fun r => NoDup (pl_sess r).2 /\ NoDup (pl_urls r).2) (pp_sources p) /\
  StronglySorted (fun x y => ht_Count y <= ht_Count x) (hp_sources h) /\
  StronglySorted (fun x y => pl_Count y <= pl_Count x) (pp_sources p).
Proof using.
  intros Hl. cbn zeta. unfold honeytokens, payloads.
  pose proof (readEntries_ok decode is_honeytoken file) as H1. pose proof (readEntries_ok decode is_payload file) as H2.
  rewrite (proj2 (forallb_forall _ _)) in H1, H2 by (intros x Hx; apply Z.ltb_lt, Hl; by apply list_elem_of_In).
  destruct (readEntries decode is_honeytoken file) as [hs ok1]. destruct (readEntries decode is_payload file) as [ps ok2].
  cbn [fst snd] in *. subst ok1 ok2. cbn [hp_total hp_sources hp_byToken hp_unique pp_total pp_sources pp_byURL pp_bySha pp_droppers pp_unique].
  rewrite !tally_sum. pose proof (ht_table_ok hs) as Th. pose proof (pl_table_ok ps) as Tp.
  assert (forall (A : Type) (n : A -> Z) (t : A -> str) l, StronglySorted (fun x y => n y <= n x) (stable_sort (row_less n t) l)) as Hs.
  { intros A n t l. induction (rows_sorted n t l) as [| x k _ IH Hx]; constructor; [done |].
    eapply Forall_impl; [exact Hx |]. intros y. unfold not_after, row_less.
    destruct (negb (n y =? n x)) eqn:E; intros; bool_hyps; lia. }
  split_and!; try done; try apply Hs.
  - rewrite stable_sort_perm, (group_sum srcOf (new_ht geo) count_ht ht_Count (fun _ => 1)); [apply zsum_one | done | done].
  - unfold zlen at 1. rewrite stable_sort_perm. exact (table_rows_length _ _ Th).
  - rewrite stable_sort_perm, (group_sum srcOf (new_pl geo) count_pl pl_Count (fun _ => 1)); [apply zsum_one | done |].
    intros e s. unfold count_pl. destruct (is_dropper e); [by case_bool_decide | done].
  - clear. induction ps as [| e l IH]; [done |]. cbn [List.filter]. destruct (is_dropper e); cbn [negb]; rewrite !zlen_cons; lia.
  - unfold zlen at 1. rewrite stable_sort_perm. exact (table_rows_length _ _ Tp).
  - apply Forall_forall. intros r Hr. apply stable_sort_elem, (table_rows_elem _ _ _ Th) in Hr as [k E].
    destruct Th as (_ & _ & Th). destruct (Th k r E) as (_ & [? _] & [? _]). done.
  - apply Forall_forall. intros r Hr. apply stable_sort_elem, (table_rows_elem _ _ _ Tp) in Hr as [k E].
    destruct Tp as (_ & _ & Tp). destruct (Tp k r E) as (_ & [? _] & [? _]). done.
Qed.
End evidence.

Lemma evidence_pages_account_witness :
  let ev s := set_note (base_entry $$"HONEYTOKEN" s s 22 $$"ssh") $$"vault" in
  let decode s := if s =s $$"d" then Some (set_file (base_entry $$"DROPPER" $$"9.9.9.9" $$"9.9.9.9" 23 []) [] [] $$"/tmp/x" $$"ab" [])
                  else Some (ev s) in
  let file := $$"1.1.1.1" ++ [nl] ++ $$"2.2.2.2" ++ [nl] ++ $$"d" ++ [nl] ++ $$"1.1.1.1" ++ [nl] in
  map ht_IP (hp_sources (honeytokens decode NewResolver file)) = [$$"1.1.1.1"; $$"2.2.2.2"] /\
  zsum ht_Count (hp_sources (honeytokens decode NewResolver file)) = 3 /\
  zsum ht_Count (hp_sources (honeytokens decode NewResolver file)) = hp_total (honeytokens decode NewResolver file) /\
  pp_droppers (payloads decode NewResolver file) = 1.
Proof.
  intros ev decode file. split; [reflexivity |]. split; [reflexivity |]. split; [| reflexivity].
  apply (evidence_pages_account decode NewResolver file).
  intros l Hl. apply list_elem_of_In in Hl. repeat destruct Hl as [<- | Hl]; try done.
Defined.

(** ** Replays *)

Definition id_byte (c : ascii) : Prop := is_lower c = true \/ is_upper c = true \/ is_digit c = true.

Lemma decode_small c s r w : decode_rune (c :: s) = (r, w) -> r < 128 -> bz c = r /\ w = 1%nat.
Proof.
  cbn [decode_rune]. destruct (bz c <? 128) eqn:E; [by intros [= <- <-] |].
  assert (forall x lo hi, in_range x lo hi = true -> lo <= bz x <= hi) as Hin by (intros; by apply in_range_spec).
  assert (forall n, (RuneError, n) = (r, w) -> r < 128 -> bz c = r /\ w = 1%nat) as He by (intros n [= <- <-]; unfold RuneError; lia).
  destruct (in_range c 194 223) eqn:E2; [apply Hin in E2 |].
  { destruct s as [| c1 s]; [apply He |]. destruct (cont c1) eqn:F1; [apply Hin in F1 | apply He]. intros [= <- <-]. lia. }
  destruct (in_range c 224 239) eqn:E3; [apply Hin in E3 |].
  { destruct s as [| c1 [| c2 s]]; [apply He | apply He |]. destruct (in_range c1 _ _ && cont c2) eqn:F; [| apply He].
    apply andb_prop in F as [F1%Hin F2%Hin]. intros [= <- <-]. destruct (bz c =? 224) eqn:G; bool_hyps; lia. }
  destruct (in_range c 240 244) eqn:E4; [apply Hin in E4 | apply He].
  destruct s as [| c1 [| c2 [| c3 s]]]; [apply He | apply He | apply He |].
  destruct (in_range c1 _ _ && cont c2 && cont c3) eqn:F; [| apply He].
  apply andb_prop in F as [[F1%Hin F2%Hin]%andb_prop F3%Hin]. intros [= <- <-]. destruct (bz c =? 240) eqn:G; bool_hyps; lia.
Qed.

Lemma safe_runes s : forallb safe_rune (runes s) = true -> Forall id_byte s.
Proof.
  unfold runes. induction s as [| c s IH]; [constructor |]. cbn [runes_from]. destruct (decode_rune (c :: s)) as [r w] eqn:E.
  cbn [forallb]. intros [Hr Hs]%andb_prop.
  assert (97 <= r <= 122 \/ 65 <= r <= 90 \/ 48 <= r <= 57) as Hrange.
  { unfold safe_rune, rune_in in Hr. apply orb_prop in Hr as [Hr | Hr]; [apply orb_prop in Hr as [Hr | Hr] |]; bool_hyps; lia. }
  destruct (decode_small c s r w E) as [Hc ->]; [lia |]. constructor; [| by apply IH].
  unfold id_byte, is_lower, is_upper, is_digit. rewrite !in_range_spec. lia.
Qed.

Lemma safeID_comp id : safeID id = true -> Forall id_byte id /\ good_comp (id ++ $$".cast").
Proof.
  unfold safeID. destruct (id =s []) eqn:E0; [done |]. destruct (64 <? zlen id); [done |]. cbn [orb]. intros H.
  apply safe_runes in H. split; [done |]. apply seqb_neq in E0. destruct id as [| c id]; [done |].
  pose proof H as Hc. apply Forall_cons in Hc as [Hc _].
  assert (~ id_byte "."%char /\ ~ id_byte slash) as [Hdot Hsl] by (unfold id_byte; split; intuition discriminate).
  unfold good_comp. split_and!; [done | | |].
  - intros E. injection E as -> E. by destruct id.
  - intros E. injection E as -> E. by apply Hdot.
  - intros Hin. apply elem_of_app in Hin as [Hin | Hin]; [| exact (bool_decide_unpack (slash ∉ $$".cast") I Hin)].
    rewrite Forall_forall in H. by apply Hsl, H.
Qed.

Lemma path_join_rooted dir c :
  has_prefix dir [slash] = true -> good_comp c -> path_join dir c = abs_path (comps_of dir ++ [c]).
Proof.
  intros Hd Hc. destruct Hc as (Hne & H1 & H2 & H3). unfold path_join.
  assert (dir <> []) as Hdn by by intros ->. cbn [List.filter].
  rewrite (proj2 (seqb_neq dir [])), (proj2 (seqb_neq c [])) by done. cbn [negb join].
  assert (has_prefix (dir ++ [slash] ++ c) [slash] = true) as Hp.
  { apply has_prefix_spec in Hd as [t ->]. apply has_prefix_spec. exists (t ++ [slash] ++ c). done. }
  rewrite path_clean_rooted by done. f_equal. unfold comps_of. simpl app. rewrite split_byte_sep, (split_byte_no slash c) by done.
  by apply clean_comps_app.
Qed.

(** a replay request reads one file of the recording directory and nothing else: an id
    that is not a short word of letters and digits is refused, and the path of any other
    is the directory followed by that word and the .cast suffix, whatever bytes the
    request holds. *)
Theorem replay_stays_in_directory dir id p :
  has_prefix dir [slash] = true -> cast_path dir id = Some p ->
  path_dir p = path_clean dir /\ path_base p = id ++ $$".cast" /\ p = abs_path (comps_of dir ++ [id ++ $$".cast"]) /\
  Forall id_byte id /\ 0 < zlen id <= 64.
Proof.
  intros Hd. unfold cast_path. destruct (dir =s []); [done |]. destruct (safeID id) eqn:E; [| done]. cbn [negb orb].
  intros [= <-]. destruct (safeID_comp id E) as [Hb Hc]. rewrite path_join_rooted by done.
  pose proof (comps_of_good dir) as Hg. split_and!; [| by apply path_base_snoc | done | done | |].
  - rewrite path_dir_snoc by done. by rewrite path_clean_rooted.
  - unfold safeID in E. destruct id; [done | unfold zlen; simpl; lia].
  - unfold safeID in E. destruct (id =s []); [done |]. destruct (64 <? zlen id) eqn:E2; bool_hyps; [done | lia].
Qed.

Lemma replay_stays_in_directory_witness :
  has_prefix $$"/srv/casts" [slash] = true /\ cast_path $$"/srv/casts" $$"7Hq2" = Some $$"/srv/casts/7Hq2.cast" /\
  cast_path $$"/srv/casts" $$"../etc/passwd" = None /\ path_dir $$"/srv/casts/7Hq2.cast" = path_clean $$"/srv/casts".
Proof.
  split; [reflexivity |]. split; [reflexivity |]. split; [reflexivity |].
  apply (replay_stays_in_directory $$"/srv/casts" $$"7Hq2" $$"/srv/casts/7Hq2.cast"); reflexivity.
Defined.

(** ** Consoles *)

Definition local_host (h : str) : Prop :=
  h = $$"localhost" \/ exists a, ParseAddr h = Some a /\ (IsLoopback a = true \/ IsPrivate a = true).
Lemma isLocalTarget_spec h : isLocalTarget h = true <-> local_host h.
Proof.
  unfold isLocalTarget, local_host. destruct (h =s $$"localhost") eqn:E; bool_hyps; [by split; [left |] |].
  destruct (ParseAddr h) as [a |]; [rewrite orb_true_iff |]; naive_solver.
Qed.

Section console.
Context (url_parse : str -> option URL).

(** An entry comes from a line of the configuration and its host is local. *)
Definition listed (acs : list AdminConsole) (name : str) (c : consoleEntry) : Prop :=
  ce_name c = name /\ name <> [] /\ contains_any name $$"/ " = false /\ local_host (Hostname (u_Host (ce_target c))) /\
  exists ac, ac ∈ acs /\ trim_space (ac_Name ac) = name /\ url_parse (trim_space (ac_Target ac)) = Some (ce_target c) /\
             ce_strip c = ac_StripPrefix ac.

Lemma buildConsoles_listed acs name c : (buildConsoles url_parse acs).1 !! name = Some c -> listed acs name c.
Proof using.
  unfold buildConsoles. revert name c. induction acs as [| ac acs IH] using rev_ind; intros name c; [done |].
  rewrite foldl_snoc. destruct (foldl (console_step url_parse) (∅, []) acs) as [out notes].
  assert (out !! name = Some c -> listed (acs ++ [ac]) name c) as Hold.
  { intros H. destruct (IH name c H) as (H1 & H2 & H3 & H4 & ac' & Hin & H5). split_and!; try done. exists ac'.
    split; [apply elem_of_app; by left | done]. }
  unfold console_step. cbv zeta.
  destruct ((trim_space (ac_Name ac) =s []) || _) eqn:E1; [exact Hold |].
  destruct (url_parse (trim_space (ac_Target ac))) as [target |] eqn:E2; [| exact Hold].
  destruct ((u_Scheme target =s []) || _); [exact Hold |].
  destruct (isLocalTarget (Hostname (u_Host target))) eqn:E3; cbn [negb]; [| exact Hold]. cbn [fst].
  intros [[<- <-] | [_ H]]%lookup_insert_Some; [| by apply Hold]. bool_hyps.
  split_and!; cbn [ce_name ce_target]; try done; [by apply isLocalTarget_spec |].
  exists ac. split_and!; try done. apply elem_of_app. right. by left.
Qed.

(** Whatever a console request is forwarded to is listed. *)
Lemma console_forwards acs path header c r :
  console (buildConsoles url_parse acs).1 path header = Forward c r ->
  listed acs (ce_name c) c /\ r = director c path header.
Proof using.
  unfold console. cbv zeta.
  set (name := match index_byte (trim_prefix path consoleMount) slash with Some i => _ | None => _ end).
  destruct ((buildConsoles url_parse acs).1 !! name) as [c' |] eqn:E; [| done]. destruct (_ =s _); [done |]. intros [= <- <-].
  pose proof (buildConsoles_listed _ _ _ E) as Hl. pose proof Hl as (-> & _). done.
Qed.

(** the console proxy is no route to the network: whatever path and headers a request
    carries, it is forwarded only to a console the operator listed, under its own first
    path segment, with the scheme and host of that listing (a loopback or private address
    of the machine), and without the portal's cookies and credentials. *)
Theorem console_stays_local acs rest header c r :
  let path := consoleMount ++ rest in
  console (buildConsoles url_parse acs).1 path header = Forward c r ->
  (exists ac, ac ∈ acs /\ trim_space (ac_Name ac) = ce_name c /\ url_parse (trim_space (ac_Target ac)) = Some (ce_target c)) /\
  (exists t, rest = ce_name c ++ slash :: t) /\
  or_Scheme r = u_Scheme (ce_target c) /\ or_URLHost r = u_Host (ce_target c) /\ or_Host r = or_URLHost r /\
  local_host (Hostname (or_URLHost r)) /\
  (forall k, or_Header r !! k =
     if bool_decide (k ∈ [$$"Cookie"; $$"Authorization"]) then None else header !! k).
Proof using.
  cbn zeta. unfold console. rewrite trim_prefix_app.
  set (name := match index_byte rest slash with Some i => take i rest | None => rest end).
  destruct ((buildConsoles url_parse acs).1 !! name) as [c' |] eqn:E; [| done].
  destruct (_ =s consoleMount ++ name) eqn:Ep; [done |]. intros [= <- <-].
  destruct (buildConsoles_listed _ _ _ E) as (Hn & _ & _ & Hl & ac & Hin & H1 & H2 & _).
  split_and!; try done; [exists ac; split_and!; [done | by rewrite Hn | done] | |].
  - rewrite Hn. unfold name. destruct (index_byte rest slash) as [i |] eqn:Ei.
    + apply index_byte_Some in Ei as (x & t & Hr & _ & <-). exists t. by rewrite Hr, take_app_length.
    + exfalso. apply seqb_neq in Ep. apply Ep. unfold name. done.
  - intros k. cbn [or_Header director]. case_bool_decide as Hk.
    + apply elem_of_cons in Hk as [-> | [-> | Hk%elem_of_nil]%elem_of_cons]; [| | done].
      * rewrite lookup_delete_ne by done. by rewrite lookup_delete_eq.
      * by rewrite lookup_delete_eq.
    + rewrite !lookup_delete_ne; [done | |]; intros <-; apply Hk; set_solver.
Qed.
End console.

Lemma console_stays_local_witness :
  let parse s := if s =s $$"http://127.0.0.1:8404" then Some (MkURL $$"http" $$"127.0.0.1:8404" [])
                 else if s =s $$"http://evil.example" then Some (MkURL $$"http" $$"evil.example" []) else None in
  let acs := [MkConsole $$" haproxy " [] $$"http://127.0.0.1:8404" false; MkConsole $$"evil" [] $$"http://evil.example" true] in
  let r := Outreq $$"http" $$"127.0.0.1:8404" $$"/dashboard/console/haproxy/stats" $$"127.0.0.1:8404" ∅ in
  let c := ConsoleEntry $$"haproxy" $$"haproxy" (MkURL $$"http" $$"127.0.0.1:8404" []) false in
  console (buildConsoles parse acs).1 $$"/dashboard/console/haproxy/stats" {[$$"Cookie" := [$$"s"]]} = Forward c r /\
  console (buildConsoles parse acs).1 $$"/dashboard/console/evil/" ∅ = NoSuchConsole /\
  local_host (Hostname (or_URLHost r)).
Proof.
  intros parse acs r c. split; [vm_compute; reflexivity |]. split; [vm_compute; reflexivity |].
  apply (console_stays_local parse acs $$"haproxy/stats" {[$$"Cookie" := [$$"s"]]} c r). vm_compute. reflexivity.
Defined.

(** Exactly one slash where the two paths meet. *)
Lemma singleJoiningSlash_spec a b :
  has_suffix a $$"/" = false -> singleJoiningSlash a b = a ++ (if b =s [] then [] else slash :: drop (if has_prefix b $$"/" then 1 else 0) b).
Proof.
  intros Ha. unfold singleJoiningSlash. rewrite Ha. cbn [andb negb]. destruct (has_prefix b $$"/") eqn:E; cbn [negb].
  - apply has_prefix_spec in E as [t ->]. done.
  - destruct (b =s []); [by rewrite app_nil_r | done].
Qed.

(** ** itoa *)

Lemma itoa_loop_digits n :
  forall f1 f2 acc, 0 < n -> n < 10 ^ Z.of_nat f1 -> n < 10 ^ Z.of_nat f2 -> itoa_loop f1 n acc = digits 10 f2 n acc.
Proof.
  assert (forall f, 0 < f -> forall m, 0 < m -> m < 10 ^ f -> m / 10 < 10 ^ (f - 1)) as Hdiv.
  { intros f Hf m Hm H. apply Z.div_lt_upper_bound; [lia |]. rewrite <- Z.pow_succ_r by lia. by replace (Z.succ (f - 1)) with f by lia. }
  intros f1. revert n. induction f1 as [| f1 IH]; intros n f2 acc Hn H1 H2; [change (10 ^ Z.of_nat 0) with 1 in H1; lia |].
  destruct f2 as [| f2]; [change (10 ^ Z.of_nat 0) with 1 in H2; lia |]. rewrite digits_step by lia. cbn [itoa_loop].
  replace (0 <? n) with true by (symmetry; apply Z.ltb_lt; lia). rewrite Z.quot_div_nonneg, Z.rem_mod_nonneg by lia.
  pose proof (Hdiv (Z.of_nat (S f1)) ltac:(lia) n Hn H1) as D1. pose proof (Hdiv (Z.of_nat (S f2)) ltac:(lia) n Hn H2) as D2.
  replace (Z.of_nat (S f1) - 1) with (Z.of_nat f1) in D1 by lia. replace (Z.of_nat (S f2) - 1) with (Z.of_nat f2) in D2 by lia.
  pose proof (Z.div_pos n 10 ltac:(lia) eq_refl). destruct (n / 10 =? 0) eqn:E; bool_hyps.
  - rewrite E. by destruct f1.
  - apply IH; [lia | done | done].
Qed.

(** portal.go's own [itoa] prints what [strconv.Itoa] does, for every [int] but the
    smallest: its twenty-byte buffer is large enough. *)
Theorem portal_itoa_is_Itoa n : min_int64 < n <= max_int64 -> portal_itoa n = itoa n.
Proof.
  unfold min_int64, max_int64. intros Hn. unfold portal_itoa, itoa. destruct (n =? 0) eqn:E0; bool_hyps; [by subst |].
  assert (forall m, 0 < m -> m <= 2 ^ 63 - 1 -> itoa_loop 20 m [] = digits 10 (digit_fuel m) m []) as H.
  { intros m Hm Hle. apply itoa_loop_digits; [done | | apply digit_fuel_enough; lia].
    eapply Z.le_lt_trans; [exact Hle | by apply Z.ltb_lt]. }
  destruct (n <? 0) eqn:E; bool_hyps; [f_equal; rewrite wrap64_small by (unfold min_int64, max_int64; lia) |]; apply H; lia.
Qed.
Lemma portal_itoa_is_Itoa_witness : portal_itoa 9223372036854775807 = itoa 9223372036854775807 /\ portal_itoa 8888 = $$"8888".
Proof. split; [by apply portal_itoa_is_Itoa | reflexivity]. Defined.
