(* ===== verification/Record.v ===== *)
(** * Record: session casts (internal/record/record.go)

    The cast file is its bytes.  [json_string] quotes a string, [off] is the formatted
    offset of a write and [took] how much of its line the file accepted. *)

From S2P Require Import Prelude GoStrings.

Definition maxCastBytes : Z := Z.shiftl 16 20.

Record Recorder : Type := MkRecorder { rc_open : bool; rc_file : str; rc_written : Z; rc_capped : bool }.

Section record.
Context (json_string : str -> str).

(** [New] once the file is open; [header_ok]: the header was written. *)
Definition New (header : str) (header_ok : bool) : option Recorder :=
  if header_ok then Some (MkRecorder true (header ++ [zb 10]) 0 false) else None.

Definition cast_line (off b : str) : str := $$"[" ++ off ++ $$", " ++ [zb 34] ++ $$"o" ++ [zb 34] ++ $$", " ++ json_string b ++ $$"]" ++ [zb 10].
Definition cast_marker (off : str) : str :=
  $$"[" ++ off ++ $$", " ++ [zb 34] ++ $$"o" ++ [zb 34] ++ $$", " ++ [zb 34] ++ $$"\r\n[recording truncated]\r\n" ++ [zb 34] ++ $$"]" ++ [zb 10].

(** [Write] on a possibly nil recorder. *)
Definition Write (b off : str) (took : nat) (rec : option Recorder) : option Recorder :=
  match rec with
  | None => None
  | Some r =>
      if zlen b =? 0 then rec
      else if negb (rc_open r) || rc_capped r then rec
      else
        let line := cast_line off b in
        if maxCastBytes <? rc_written r + zlen line
        then Some (MkRecorder true (rc_file r ++ take took (cast_marker off)) (rc_written r) true)
        else Some (MkRecorder true (rc_file r ++ take took line) (rc_written r + zlen (take took line)) false)
  end.
Definition Close (rec : option Recorder) : option Recorder :=
  match rec with Some r => Some (MkRecorder false (rc_file r) (rc_written r) (rc_capped r)) | None => None end.

Definition write_all (ws : list (str * str * nat)) (rec : option Recorder) : option Recorder :=
  foldl (fun rec '(b, off, took) => Write b off took rec) rec ws.

(** The lines a complete recording of the writes has. *)
Definition cast_lines (ws : list (str * str * nat)) : str :=
  flat_map (fun '(b, off, _) => if zlen b =? 0 then [] else cast_line off b) ws.

(** What holds of a recorder opened with [header] after the writes [ws]. *)
Record wrote (header : str) (ws : list (str * str * nat)) (r : Recorder) : Prop := Wrote {
  wr_open : rc_open r = true;
  wr_size : rc_written r <= maxCastBytes;
  wr_file : exists body tail, rc_file r = header ++ [zb 10] ++ body ++ tail /\ zlen body = rc_written r /\
    (if rc_capped r then exists off n, tail = take n (cast_marker off) else tail = []);
  wr_full : Forall (fun w => zlen (cast_line w.1.2 w.1.1) + zlen (cast_marker w.1.2) <= Z.of_nat w.2) ws ->
    if rc_capped r then
      exists pre b off took post, ws = pre ++ (b, off, took) :: post /\
        rc_file r = header ++ [zb 10] ++ cast_lines pre ++ cast_marker off /\
        maxCastBytes < zlen (cast_lines pre) + zlen (cast_line off b)
    else rc_file r = header ++ [zb 10] ++ cast_lines ws /\ rc_written r = zlen (cast_lines ws)
}.

Lemma cast_lines_snoc ws b off took :
  cast_lines (ws ++ [(b, off, took)]) = cast_lines ws ++ (if zlen b =? 0 then [] else cast_line off b).
Proof using. unfold cast_lines. rewrite flat_map_app. cbn [flat_map]. by rewrite app_nil_r. Qed.

Lemma take_all {A} n (l : list A) m : zlen l + m <= Z.of_nat n -> 0 <= m -> take n l = l.
Proof using. intros H Hm. apply take_ge. unfold zlen in H. lia. Qed.

Lemma Write_wrote header ws b off took r :
  wrote header ws r -> exists r', Write b off took (Some r) = Some r' /\ wrote header (ws ++ [(b, off, took)]) r'.
Proof using.
  intros [Ho Hs (body & tail & Hf & Hb & Ht) Hfull]. unfold Write. rewrite Ho. cbn [negb orb].
  destruct (zlen b =? 0) eqn:Eb.
  { exists r. split; [done |]. split; try done; [by exists body, tail |]. intros Hall. apply Forall_app in Hall as [Hall _].
    specialize (Hfull Hall). destruct (rc_capped r).
    - destruct Hfull as (pre & b' & off' & took' & post & -> & H). exists pre, b', off', took', (post ++ [(b, off, took)]).
      by rewrite <- app_assoc.
    - by rewrite cast_lines_snoc, Eb, app_nil_r. }
  destruct (rc_capped r) eqn:Ec.
  { exists r. split; [done |]. split; try done; [exists body, tail; by rewrite Ec |]. rewrite Ec. intros Hall. apply Forall_app in Hall as [Hall _].
    destruct (Hfull Hall) as (pre & b' & off' & took' & post & -> & H). exists pre, b', off', took', (post ++ [(b, off, took)]).
    by rewrite <- app_assoc. }
  subst tail. rewrite app_nil_r in Hf. destruct (maxCastBytes <? rc_written r + zlen (cast_line off b)) eqn:E; [apply Z.ltb_lt in E | apply Z.ltb_ge in E].
  - eexists. split; [reflexivity |]. split; cbn [rc_open rc_written rc_capped rc_file]; try done.
    + exists body, (take took (cast_marker off)). rewrite Hf, <- !app_assoc. split_and!; eauto.
    + intros Hall. apply Forall_app in Hall as [Hall [Hl _]%Forall_cons]. cbn [fst snd] in Hl.
      destruct (Hfull Hall) as [Hfile Hw]. exists ws, b, off, took, []. split; [done |].
      rewrite Hfile, (take_all took (cast_marker off) (zlen (cast_line off b))), <- !app_assoc by (try apply zlen_nonneg; lia).
      split; [done | lia].
  - eexists. split; [reflexivity |]. split; cbn [rc_open rc_written rc_capped rc_file]; try done.
    + rewrite zlen_take. lia.
    + exists (body ++ take took (cast_line off b)), []. rewrite Hf, app_nil_r, <- !app_assoc, zlen_app. split_and!; [done | lia | done].
    + intros Hall. apply Forall_app in Hall as [Hall [Hl _]%Forall_cons]. cbn [fst snd] in Hl.
      destruct (Hfull Hall) as [Hfile Hw].
      rewrite (take_all took (cast_line off b) (zlen (cast_marker off))) by (try apply zlen_nonneg; lia).
      rewrite cast_lines_snoc, Eb, Hfile, zlen_app, <- !app_assoc. split; [done | lia].
Qed.

(** a cast is bounded and says when it is incomplete: whatever a session writes, the
    file is the header, at most sixteen mebibytes of events and at most one marker; and
    when the disk takes every write, a file without the marker has every event, and one
    with it has the events up to the first that did not fit. *)
Theorem cast_bounded header ws :
  exists r, write_all ws (New header true) = Some r /\
  (exists body tail, rc_file r = header ++ [zb 10] ++ body ++ tail /\ zlen body <= maxCastBytes /\
     (if rc_capped r then exists off n, tail = take n (cast_marker off) else tail = [])) /\
  (Forall (fun w => zlen (cast_line w.1.2 w.1.1) + zlen (cast_marker w.1.2) <= Z.of_nat w.2) ws ->
   if rc_capped r then
     exists pre b off took post, ws = pre ++ (b, off, took) :: post /\
       rc_file r = header ++ [zb 10] ++ cast_lines pre ++ cast_marker off /\
       maxCastBytes < zlen (cast_lines pre) + zlen (cast_line off b)
   else rc_file r = header ++ [zb 10] ++ cast_lines ws).
Proof using.
  assert (exists r, write_all ws (New header true) = Some r /\ wrote header ws r) as (r & Hr & [_ Hs (body & tail & Hf & Hb & Ht) Hfull]).
  { induction ws as [| [[b off] took] ws (r & Hr & Hw)] using rev_ind.
    - eexists. split; [reflexivity |]. split; cbn; try done. exists [], []. rewrite app_nil_r. done.
    - unfold write_all. rewrite foldl_snoc. fold (write_all ws (New header true)). rewrite Hr. by apply Write_wrote. }
  exists r. split_and!; [done | exists body, tail; split_and!; [done | lia | done] |].
  intros Hall. specialize (Hfull Hall). destruct (rc_capped r); [done | apply Hfull].
Qed.
End record.

Lemma cast_bounded_witness :
  let ws := [($$"hi", $$"0.1", 500%nat); ([], $$"0.2", 500%nat); ($$"bye", $$"0.3", 500%nat)] in
  let q s := [zb 34] ++ s ++ [zb 34] in
  exists r, write_all q ws (New $$"{}" true) = Some r /\ rc_capped r = false /\
    rc_file r = $$"{}" ++ [zb 10] ++ cast_lines q ws.
Proof.
  intros ws q. destruct (cast_bounded q $$"{}" ws) as (r & Hr & _ & H). exists r. split; [exact Hr |].
  assert (rc_capped r = false) as Hc.
  { assert (write_all q ws (New $$"{}" true) = Some (MkRecorder true ($$"{}" ++ [zb 10] ++ cast_lines q ws) (zlen (cast_lines q ws)) false)) as E
      by (vm_compute; reflexivity). rewrite Hr in E. by injection E as ->. }
  split; [exact Hc |]. rewrite Hc in H. apply H. unfold ws. repeat (apply Forall_cons; split; [vm_compute; discriminate |]). apply Forall_nil_2.
Defined.
