(* ===== verification/Base64.v ===== *)
(** * Base64: the encoding of package [encoding/base64] *)

From S2P Require Import Prelude GoStrings.

Definition b64_alphabet : str := $$"ABCDEFGHIJKLMNOPQRSTUVWXYZabcdefghijklmnopqrstuvwxyz0123456789+/".
Definition b64_char (v : Z) : ascii := default "="%char (b64_alphabet !! Z.to_nat v).

(** [EncodeToString]; [pad] distinguishes [StdEncoding] from [RawStdEncoding]. *)
Fixpoint b64_encode (pad : bool) (s : str) : str :=
  match s with
  | a :: b :: c :: rest =>
      let v := bz a * 65536 + bz b * 256 + bz c in
      b64_char (v / 262144) :: b64_char (v / 4096 mod 64) :: b64_char (v / 64 mod 64) :: b64_char (v mod 64)
        :: b64_encode pad rest
  | [a; b] =>
      let v := bz a * 65536 + bz b * 256 in
      [b64_char (v / 262144); b64_char (v / 4096 mod 64); b64_char (v / 64 mod 64)] ++ (if pad then $$"=" else [])
  | [a] =>
      let v := bz a * 65536 in
      [b64_char (v / 262144); b64_char (v / 4096 mod 64)] ++ (if pad then $$"==" else [])
  | [] => []
  end.

Definition b64_val (c : ascii) : option Z :=
  if in_range c 65 90 then Some (bz c - 65)
  else if in_range c 97 122 then Some (bz c - 71)
  else if in_range c 48 57 then Some (bz c + 4)
  else if bool_decide (c = "+"%char) then Some 62
  else if bool_decide (c = "/"%char) then Some 63
  else None.

(** Decoding of a string without line breaks: whole quanta, then a quantum that
    may be padded ([pad]) or short.  [None] is a [CorruptInputError]. *)
Fixpoint b64_decode_quanta (pad : bool) (s : str) : option str :=
  match s with
  | [] => Some []
  | a :: b :: c :: d :: rest =>
      match b64_val a, b64_val b, b64_val c, b64_val d with
      | Some x, Some y, Some z, Some w =>
          let v := x * 262144 + y * 4096 + z * 64 + w in
          (fun r => zb (v / 65536) :: zb (v / 256) :: zb v :: r) <$> b64_decode_quanta pad rest
      | Some x, Some y, Some z, None =>
          if pad && bool_decide (d = "="%char) && (rest =s [])
          then let v := x * 262144 + y * 4096 + z * 64 in Some [zb (v / 65536); zb (v / 256)] else None
      | Some x, Some y, None, None =>
          if pad && bool_decide (c = "="%char) && bool_decide (d = "="%char) && (rest =s [])
          then let v := x * 262144 + y * 4096 in Some [zb (v / 65536)] else None
      | _, _, _, _ => None
      end
  | [a; b; c] =>
      match b64_val a, b64_val b, b64_val c with
      | Some x, Some y, Some z =>
          if pad then None
          else let v := x * 262144 + y * 4096 + z * 64 in Some [zb (v / 65536); zb (v / 256)]
      | _, _, _ => None
      end
  | [a; b] =>
      match b64_val a, b64_val b with
      | Some x, Some y => if pad then None else let v := x * 262144 + y * 4096 in Some [zb (v / 65536)]
      | _, _ => None
      end
  | [_] => None
  end.
Definition b64_decode (pad : bool) (s : str) : option str :=
  b64_decode_quanta pad (List.filter (fun c => negb (bool_decide (c = zb 10) || bool_decide (c = zb 13))) s).

(** ** Round trip *)

Lemma b64_char_val v :
  0 <= v < 64 -> b64_val (b64_char v) = Some v /\ b64_char v <> zb 10 /\ b64_char v <> zb 13.
Proof.
  intros Hv. assert (v ∈ seqZ 0 64) as Hin by (apply elem_of_seqZ; lia). clear Hv. revert v Hin.
  apply Forall_forall. by apply (bool_decide_unpack _); vm_compute.
Qed.

Lemma three_induction (P : str -> Prop) :
  P [] -> (forall a, P [a]) -> (forall a b, P [a; b]) -> (forall a b c s, P s -> P (a :: b :: c :: s)) ->
  forall s, P s.
Proof.
  intros H0 H1 H2 H3. fix IH 1. intros [| a [| b [| c s]]]; [done | apply H1 | apply H2 |].
  apply H3, IH.
Qed.

(** Digits of a 24-bit group. *)
Lemma sextets v :
  0 <= v < 16777216 ->
  0 <= v / 262144 < 64 /\ 0 <= v / 4096 mod 64 < 64 /\ 0 <= v / 64 mod 64 < 64 /\ 0 <= v mod 64 < 64 /\
  v / 262144 * 262144 + v / 4096 mod 64 * 4096 + v / 64 mod 64 * 64 + v mod 64 = v.
Proof.
  intros Hv. pose proof (Z.div_mod v 64 ltac:(lia)). pose proof (Z.div_mod (v / 64) 64 ltac:(lia)).
  pose proof (Z.div_mod (v / 4096) 64 ltac:(lia)). pose proof (Z.mod_pos_bound v 64 ltac:(lia)).
  pose proof (Z.mod_pos_bound (v / 64) 64 ltac:(lia)). pose proof (Z.mod_pos_bound (v / 4096) 64 ltac:(lia)).
  assert (v / 64 / 64 = v / 4096) as E1 by by rewrite Z.div_div.
  assert (v / 4096 / 64 = v / 262144) as E2 by by rewrite Z.div_div.
  rewrite E1, E2 in *. split; [split; [apply Z.div_pos; lia | apply Z.div_lt_upper_bound; lia] |]. lia.
Qed.

Lemma zb_val x : 0 <= x < 256 -> bz (zb x) = x.
Proof. intros. rewrite bz_zb. by apply Z.mod_small. Qed.

Lemma zb_div a k n : 0 < k -> 0 <= n < k -> zb ((bz a * k + n) / k) = a.
Proof. intros Hk Hn. rewrite Z.div_add_l, Z.div_small, Z.add_0_r by lia. apply zb_bz. Qed.

Lemma zb_mod256 x y : x mod 256 = y mod 256 -> zb x = zb y.
Proof. intros E. unfold zb. by rewrite E. Qed.

Lemma bytes_of_group a b c :
  let v := bz a * 65536 + bz b * 256 + bz c in
  zb (v / 65536) = a /\ zb (v / 256) = b /\ zb v = c.
Proof.
  cbn zeta. pose proof (bz_range a). pose proof (bz_range b). pose proof (bz_range c). split_and!.
  - replace (bz a * 65536 + bz b * 256 + bz c) with (bz a * 65536 + (bz b * 256 + bz c)) by lia.
    apply zb_div; lia.
  - replace (bz a * 65536 + bz b * 256 + bz c) with ((bz a * 256 + bz b) * 256 + bz c) by lia.
    rewrite Z.div_add_l, (Z.div_small (bz c)), Z.add_0_r by lia.
    rewrite <- (zb_bz b) at 2. apply zb_mod256. by rewrite Z.add_comm, Z.mod_add.
  - rewrite <- (zb_bz c) at 2. apply zb_mod256.
    replace (bz a * 65536 + bz b * 256 + bz c) with (bz c + (bz a * 256 + bz b) * 256) by lia.
    by rewrite Z.mod_add.
Qed.

Lemma b64_quanta_roundtrip pad s : b64_decode_quanta pad (b64_encode pad s) = Some s.
Proof.
  revert s. apply three_induction.
  - done.
  - intros a. pose proof (bz_range a). cbn [b64_encode]. cbn zeta.
    destruct (sextets (bz a * 65536)) as (K1 & K2 & K3 & K4 & K5); [lia |].
    destruct (b64_char_val _ K1) as [V1 _], (b64_char_val _ K2) as [V2 _].
    destruct (bytes_of_group a (zb 0) (zb 0)) as (B1 & _ & _). rewrite !zb_val in B1 by lia.
    assert (bz a * 65536 / 64 mod 64 = 0) as E3.
    { replace (bz a * 65536) with (bz a * 16 * 64 * 64) by lia. rewrite Z.div_mul by lia. by apply Z.mod_mul. }
    rewrite E3 in *.
    replace (bz a * 65536 mod 64) with 0 in * by (replace (bz a * 65536) with (bz a * 1024 * 64) by lia; symmetry; by apply Z.mod_mul).
    destruct pad; cbn [app b64_decode_quanta].
    + cbn. rewrite V1, V2. cbn. f_equal. f_equal. etrans; [| exact B1]. f_equal. f_equal. lia.
    + rewrite V1, V2. f_equal. f_equal. etrans; [| exact B1]. f_equal. f_equal. lia.
  - intros a b. pose proof (bz_range a). pose proof (bz_range b). cbn [b64_encode]. cbn zeta.
    destruct (sextets (bz a * 65536 + bz b * 256)) as (K1 & K2 & K3 & K4 & K5); [lia |].
    destruct (b64_char_val _ K1) as [V1 _], (b64_char_val _ K2) as [V2 _], (b64_char_val _ K3) as [V3 _].
    destruct (bytes_of_group a b (zb 0)) as (B1 & B2 & _). rewrite !zb_val in B1, B2 by lia.
    replace ((bz a * 65536 + bz b * 256) mod 64) with 0 in *
      by (replace (bz a * 65536 + bz b * 256) with ((bz a * 1024 + bz b * 4) * 64) by lia; symmetry; by apply Z.mod_mul).
    destruct pad; cbn [app b64_decode_quanta].
    + cbn. rewrite V1, V2, V3. cbn. f_equal. f_equal; [etrans; [| exact B1] | f_equal; etrans; [| exact B2]]; f_equal; f_equal; lia.
    + rewrite V1, V2, V3. f_equal. f_equal; [etrans; [| exact B1] | f_equal; etrans; [| exact B2]]; f_equal; f_equal; lia.
  - intros a b c s IH. pose proof (bz_range a). pose proof (bz_range b). pose proof (bz_range c).
    cbn [b64_encode]. cbn zeta.
    destruct (sextets (bz a * 65536 + bz b * 256 + bz c)) as (K1 & K2 & K3 & K4 & K5); [lia |].
    destruct (b64_char_val _ K1) as [V1 _], (b64_char_val _ K2) as [V2 _], (b64_char_val _ K3) as [V3 _],
      (b64_char_val _ K4) as [V4 _].
    cbn [b64_decode_quanta]. rewrite V1, V2, V3, V4, IH, K5.
    destruct (bytes_of_group a b c) as (-> & -> & ->). done.
Qed.

Lemma b64_encode_no_breaks pad s :
  List.filter (fun c => negb (bool_decide (c = zb 10) || bool_decide (c = zb 13))) (b64_encode pad s) = b64_encode pad s.
Proof.
  assert (forall v, 0 <= v < 64 -> negb (bool_decide (b64_char v = zb 10) || bool_decide (b64_char v = zb 13)) = true) as Hc.
  { intros v Hv. destruct (b64_char_val v Hv) as (_ & ? & ?). by rewrite !bool_decide_eq_false_2. }
  revert s. apply three_induction.
  - done.
  - intros a. pose proof (bz_range a). destruct (sextets (bz a * 65536)) as (K1 & K2 & _); [lia |].
    cbn [b64_encode app List.filter]. cbn zeta. rewrite !Hc by done. by destruct pad.
  - intros a b. pose proof (bz_range a). pose proof (bz_range b).
    destruct (sextets (bz a * 65536 + bz b * 256)) as (K1 & K2 & K3 & _); [lia |].
    cbn [b64_encode app List.filter]. cbn zeta. rewrite !Hc by done. by destruct pad.
  - intros a b c s IH. pose proof (bz_range a). pose proof (bz_range b). pose proof (bz_range c).
    destruct (sextets (bz a * 65536 + bz b * 256 + bz c)) as (K1 & K2 & K3 & K4 & _); [lia |].
    cbn [b64_encode List.filter]. cbn zeta. rewrite !Hc by done. by rewrite IH.
Qed.

Lemma b64_roundtrip pad s : b64_decode pad (b64_encode pad s) = Some s.
Proof. unfold b64_decode. rewrite b64_encode_no_breaks. apply b64_quanta_roundtrip. Qed.
