(* ===== verification/PersonaFacts.v ===== *)
(** * PersonaFacts: every generated identity is usable

    Statements about [GenerateProfile] hold for every list of random draws. *)

From S2P Require Import Prelude GoStrings Net Util Base64 Geo Persona.

(** Every result of a random computation satisfies [P]. *)
Definition always {A} (m : rnd A) (P : A -> Prop) : Prop := forall ds, P (m ds).1.

Lemma always_ret {A} (a : A) (P : A -> Prop) : P a -> always (mret a) P.
Proof. by intros H ds. Qed.

Lemma always_bind {A B} (m : rnd A) (k : A -> rnd B) (P : B -> Prop) (Q : A -> Prop) :
  always m Q -> (forall a, Q a -> always (k a) P) -> always (a ← m; k a) P.
Proof.
  intros Hm Hk ds. unfold mbind, rnd_bind. specialize (Hm ds).
  destruct (m ds) as [a ds']. by apply Hk.
Qed.

Lemma always_any {A} (m : rnd A) : always m (fun _ => True).
Proof. by intros ds. Qed.

Lemma always_weaken {A} (m : rnd A) (P Q : A -> Prop) : always m P -> (forall a, P a -> Q a) -> always m Q.
Proof. intros H HPQ ds. apply HPQ, H. Qed.

Lemma always_IntN n : 0 < n -> always (IntN n) (fun v => 0 <= v < n).
Proof. intros Hn [| d ds]; simpl; [lia |]. by apply Z.mod_pos_bound. Qed.

Lemma always_plus lo n : 0 < n -> always (plus lo n) (fun v => lo <= v < lo + n).
Proof.
  intros Hn. unfold plus. eapply always_bind; [by apply always_IntN |].
  intros a Ha. apply always_ret. simpl in *. lia.
Qed.

Lemma always_pick pool : pool <> [] -> always (pick pool) (fun x => x ∈ pool).
Proof.
  intros Hp. unfold pick. eapply always_bind; [apply always_IntN; destruct pool; [done | rewrite zlen_cons; pose proof (zlen_nonneg pool); lia] |].
  intros i Hi. apply always_ret. destruct (pool !! Z.to_nat i) as [x |] eqn:E; simpl.
  - by eapply list_elem_of_lookup_2.
  - apply lookup_ge_None in E. simpl in Hi. unfold zlen in Hi. lia.
Qed.

Lemma always_pickInt pool : pool <> [] -> always (pickInt pool) (fun x => x ∈ pool).
Proof.
  intros Hp. unfold pickInt. eapply always_bind; [apply always_IntN; destruct pool; [done | rewrite zlen_cons; pose proof (zlen_nonneg pool); lia] |].
  intros i Hi. apply always_ret. destruct (pool !! Z.to_nat i) as [x |] eqn:E; simpl.
  - by eapply list_elem_of_lookup_2.
  - apply lookup_ge_None in E. simpl in Hi. unfold zlen in Hi. lia.
Qed.

(** Run through the draws whose values do not matter. *)
Ltac any_draw := eapply always_bind; [apply always_any |]; intros ? _.

(** ** Services *)

Definition known_protocols : list str := [$$"ftp"; $$"ssh"; $$"telnet"; $$"http"; $$"https"].
Definition services_ok (l : list ServiceSpec) : Prop :=
  l <> [] /\ NoDup (map Port l) /\
  Forall (fun s => Protocol s ∈ known_protocols /\ 1 <= Port s <= 65535) l.

#[export] Instance services_ok_dec l : Decision (services_ok l).
Proof. unfold services_ok. apply _. Defined.

Lemma maybe_cases pct (s : rnd ServiceSpec) (P : list ServiceSpec -> Prop) Q :
  always s Q -> P [] -> (forall x, Q x -> P [x]) -> always (maybe pct s) P.
Proof.
  intros Hs H0 H1. unfold maybe. any_draw. destruct a.
  - eapply always_bind; [exact Hs |]. intros x Hx. by apply always_ret, H1.
  - by apply always_ret.
Qed.

Lemma profiles_ok p : p ∈ profiles -> always (build p) services_ok /\ roles p <> [].
Proof.
  unfold profiles. rewrite !elem_of_cons.
  assert (forall (x : ServiceSpec), always (mret (M := rnd) x) (fun y => y = x)) as Hret by (intros; by apply always_ret).
  intros [-> | [-> | [-> | [-> | [-> | []%elem_of_nil]]]]]; (split; [cbn [build] | done]).
  - eapply always_bind; [by apply always_pick |]. intros st _.
    eapply (always_bind _ _ _ (fun m => m = [] \/ m = [Service $$"http" 8080 $$"tomcat"])).
    { eapply maybe_cases; [apply Hret | by left | intros x ->; by right]. }
    intros m Hm. apply always_ret.
    destruct Hm as [-> | ->]; (split_and!; [done | by apply (bool_decide_unpack _); vm_compute |
      repeat (constructor; [split; [by apply (bool_decide_unpack _); vm_compute | simpl; lia] |]); constructor]).
  - eapply (always_bind _ _ _ (fun m => m = [] \/ m = [ssh22])).
    { eapply maybe_cases; [apply Hret | by left | intros x ->; by right]. }
    intros m Hm. eapply (always_bind _ _ _ (fun m => m = [] \/ m = [Service $$"telnet" 23 $$"cisco"])).
    { eapply maybe_cases; [apply Hret | by left | intros x ->; by right]. }
    intros m2 Hm2. apply always_ret.
    destruct Hm as [-> | ->], Hm2 as [-> | ->]; by apply (bool_decide_unpack _); vm_compute.
  - eapply (always_bind _ _ _ (fun m => m = [] \/ exists st, m = [Service $$"http" 80 st])).
    { eapply (maybe_cases _ _ _ (fun x => exists st, x = Service $$"http" 80 st)); [| by left | intros x [st ->]; right; eauto].
      eapply always_bind; [by apply always_pick |]. intros st _. apply always_ret. eauto. }
    intros m Hm. apply always_ret.
    destruct Hm as [-> | [st ->]]; (split_and!; [done | by apply (bool_decide_unpack _); vm_compute |
      repeat (constructor; [split; [by apply (bool_decide_unpack _); vm_compute | simpl; lia] |]); constructor]).
  - eapply (always_bind _ _ _ (fun m => m = [] \/ m = [Service $$"ftp" 21 []])).
    { eapply maybe_cases; [apply Hret | by left | intros x ->; by right]. }
    intros m Hm. eapply (always_bind _ _ _ (fun m => m = [] \/ m = [Service $$"telnet" 2323 $$"ubuntu"])).
    { eapply maybe_cases; [apply Hret | by left | intros x ->; by right]. }
    intros m2 Hm2. apply always_ret.
    destruct Hm as [-> | ->], Hm2 as [-> | ->]; by apply (bool_decide_unpack _); vm_compute.
  - eapply (always_bind _ _ _ (fun m => m = [] \/ m = [Service $$"http" 80 $$"nginx-static"])).
    { eapply maybe_cases; [apply Hret | by left | intros x ->; by right]. }
    intros m Hm. apply always_ret.
    destruct Hm as [-> | ->]; by apply (bool_decide_unpack _); vm_compute.
Qed.

Lemma pickProfile_in : always pickProfile (fun p => p ∈ profiles).
Proof.
  unfold pickProfile. eapply always_bind; [by apply always_IntN |]. intros i Hi. apply always_ret.
  destruct (profiles !! Z.to_nat i) as [x |] eqn:E; simpl; [by eapply list_elem_of_lookup_2 |].
  apply lookup_ge_None in E. simpl in Hi. unfold zlen in Hi. lia.
Qed.

Lemma profileByName_in name p : profileByName name = Some p -> p ∈ profiles.
Proof. intros [H _]%find_some. by apply list_elem_of_In. Qed.

Lemma chooseServices_ok name : always (chooseServices name) (fun ps => services_ok ps.2 /\ roles ps.1 <> []).
Proof.
  assert (Hbuild : forall p, p ∈ profiles -> always (s ← build p; mret (p, s)) (fun ps => services_ok ps.2 /\ roles ps.1 <> [])).
  { intros p Hp. destruct (profiles_ok p Hp) as [Hb Hr]. eapply always_bind; [exact Hb |].
    intros s Hs. by apply always_ret. }
  unfold chooseServices. destruct (name =s $$"full"); [| destruct (_ || _)].
  - eapply always_bind; [apply pickProfile_in |]. intros p Hp. apply always_ret. cbn [fst snd roles].
    split; [by apply (bool_decide_unpack _); vm_compute | by apply profiles_ok].
  - eapply always_bind; [apply pickProfile_in |]. apply Hbuild.
  - eapply (always_bind _ _ _ (fun p => p ∈ profiles)); [| apply Hbuild].
    destruct (profileByName name) as [p |] eqn:E; [| apply pickProfile_in].
    by apply always_ret, (profileByName_in name).
Qed.

(** ** Addresses *)

Lemma parse_octets a b c d :
  0 <= a < 256 -> 0 <= b < 256 -> 0 <= c < 256 -> 0 <= d < 256 ->
  join [dot] (map itoa [a; b; c; d]) = show4 (((a * 256 + b) * 256 + c) * 256 + d).
Proof.
  intros Ha Hb Hc Hd. unfold show4, v4_bytes. change 255 with (Z.ones 8).
  rewrite !Z.land_ones, !Z.shiftr_div_pow2 by lia.
  change (2 ^ 8) with 256. change (2 ^ 24) with (256 * 256 * 256). change (2 ^ 16) with (256 * 256).
  rewrite <- !Z.div_div by lia.
  rewrite !(Z.div_add_l _ 256 d), (Z.div_small d) by lia. rewrite !Z.add_0_r.
  rewrite !(Z.div_add_l _ 256 c), (Z.div_small c) by lia. rewrite !Z.add_0_r.
  rewrite !(Z.div_add_l _ 256 b), (Z.div_small b) by lia. rewrite !Z.add_0_r.
  rewrite !(Z.add_comm (_ * 256)), !Z.mod_add, !Z.mod_small by lia. done.
Qed.

(** A base of one of the three private ranges. *)
Definition private_base (b : Z * Z * Z) : Prop :=
  let '(a, b, c) := b in
  0 <= c < 256 /\ ((a = 10 /\ 0 <= b < 256) \/ (a = 172 /\ 16 <= b < 32) \/ (a = 192 /\ b = 168)).

Lemma makeBase_private : always makeBase private_base.
Proof.
  unfold makeBase. eapply always_bind; [by apply always_pickInt |]. intros o Ho.
  assert (0 <= o < 256) as Ho'.
  { rewrite !elem_of_cons in Ho. destruct_or!; subst; try lia. by apply elem_of_nil in Ho. }
  eapply always_bind; [apply always_any |]. intros k _.
  assert (forall a b, (a = 10 /\ 0 <= b < 256 \/ a = 172 /\ 16 <= b < 32 \/ a = 192 /\ b = 168) ->
    always (c ← IntN 254; mret (a, b, c)) private_base) as Hc.
  { intros a b Hab. eapply always_bind; [by apply always_IntN |]. intros c Hc. apply always_ret.
    unfold private_base. simpl in Hc. split; [lia | done]. }
  assert (always (b ← plus 16 16; c ← IntN 254; mret (172, b, c)) private_base) as H172.
  { eapply always_bind; [by apply always_plus |]. intros b Hb. apply Hc. simpl in Hb. lia. }
  destruct k as [| [p | p |] | p]; try (apply Hc; lia). exact H172.
Qed.

Lemma private_shift a b c d :
  private_base (a, b, c) -> 0 <= d < 256 ->
  let v := ((a * 256 + b) * 256 + c) * 256 + d in
  0 <= v < 2 ^ 32 /\ IsUnspecified (A4 v) = false /\ IsLoopback (A4 v) = false /\ IsMulticast (A4 v) = false /\
  IsLinkLocalUnicast (A4 v) = false /\ IsPrivate (A4 v) = true.
Proof.
  intros [Hc Hab] Hd v.
  assert (Z.shiftr v 24 = a /\ Z.shiftr v 16 = a * 256 + b) as [E24 E16].
  { unfold v. rewrite !Z.shiftr_div_pow2 by lia.
    change (2 ^ 24) with (256 * 256 * 256). change (2 ^ 16) with (256 * 256). rewrite <- !Z.div_div by lia.
    rewrite !(Z.div_add_l _ 256 d), (Z.div_small d), !Z.add_0_r by lia.
    rewrite !(Z.div_add_l _ 256 c), (Z.div_small c), !Z.add_0_r by lia.
    rewrite (Z.div_add_l _ 256 b), (Z.div_small b), Z.add_0_r by lia. done. }
  assert (Z.shiftr v 28 = a / 16 /\ Z.shiftr v 20 = (a * 256 + b) / 16) as [E28 E20].
  { split; [change 28 with (24 + 4) | change 20 with (16 + 4)]; rewrite <- Z.shiftr_shiftr, ?E24, ?E16 by lia;
      by rewrite Z.shiftr_div_pow2. }
  unfold IsUnspecified, IsLoopback, IsMulticast, IsLinkLocalUnicast, IsPrivate, Unmap.
  rewrite E24, E16, E28, E20.
  destruct Hab as [[-> Hb] | [[-> Hb] | [-> ->]]]; split_and!; try (unfold v; lia);
    try (apply Z.eqb_neq; unfold v; lia); try reflexivity.
  - replace ((172 * 256 + b) / 16) with 2753; [by rewrite orb_true_r |].
    symmetry. replace (172 * 256 + b) with (2753 * 16 + (b - 16)) by lia.
    rewrite Z.div_add_l, Z.div_small by lia. done.
Qed.

Lemma ip_in_private r base d :
  private_base base -> 0 <= d < 256 -> Locate r (ip_in base d) = scoped $$"private".
Proof.
  destruct base as [[a b] c]. intros Hb Hd. pose proof Hb as [Hc Hab].
  assert (0 <= a < 256 /\ 0 <= b < 256) as [Ha Hb'] by lia.
  unfold ip_in. change [itoa a; itoa b; itoa c; itoa d] with (map itoa [a; b; c; d]).
  change ($$".") with [dot]. rewrite parse_octets by lia.
  destruct (private_shift a b c d Hb Hd) as (Hv & H1 & H2 & H3 & H4 & H5).
  unfold Locate, parseAddr. cbn zeta. rewrite trim_show4, parse_show4 by done.
  cbn [Unmap]. by rewrite H1, H2, H3, H4, H5.
Qed.

(** ** Every generated persona *)

Definition persona_ok (p : Persona) : Prop :=
  services_ok (Services p) /\
  forall r, Locate r (HostIP p) = scoped $$"private" /\ Locate r (GatewayIP p) = scoped $$"private" /\
    Locate r (DBIP p) = scoped $$"private" /\ Locate r (BackupIP p) = scoped $$"private".

Lemma GenerateProfile_ok now name : always (GenerateProfile now name) persona_ok.
Proof.
  unfold GenerateProfile. eapply always_bind; [apply chooseServices_ok |].
  intros [prof services] [Hs _]. cbn [snd] in Hs. any_draw. any_draw.
  cbn [osImage]. eapply always_bind; [apply makeBase_private |]. intros base Hb.
  do 10 any_draw. eapply always_bind; [by apply (always_plus 4 60) |]. intros ho Hho. cbn in Hho.
  do 5 any_draw. eapply always_bind; [by apply (always_plus 20 30) |]. intros dbo Hdbo. cbn in Hdbo.
  do 2 any_draw. eapply always_bind; [by apply (always_plus 60 40) |]. intros bko Hbko. cbn in Hbko.
  do 19 any_draw. apply always_ret. split; [exact Hs |]. intros r. cbn [HostIP GatewayIP DBIP BackupIP].
  split_and!; apply ip_in_private; (exact Hb || lia).
Qed.

(** C36: whatever the random generator returns and whatever profile is asked for,
    a fresh identity is usable: it exposes at least one service, all of known
    protocols on distinct valid ports, and its own, gateway, database and backup
    addresses are well-formed private addresses. *)
Theorem every_persona_usable now name ds : persona_ok (GenerateProfile now name ds).1.
Proof. apply GenerateProfile_ok. Qed.

(** the host's own address (.4 to .63) and the backup host's (.60 to .99) are
    drawn from overlapping ranges: some draws give both machines the same address. *)
Theorem host_and_backup_may_collide :
  let p := (GenerateProfile 0 $$"infra" (repeat 0 19 ++ [56])).1 in
  HostIP p = BackupIP p /\ HostIP p = $$"10.0.0.60".
Proof. by vm_compute. Qed.
