(* ===== verification/Auth.v ===== *)
(** * Auth: who gets in (internal/persona/persona.go and bruteforce.go)

    [subtle.ConstantTimeCompare] decides equality of byte strings.  An attempt
    carries its time and the outcome of the probability draw. *)

From S2P Require Import Prelude GoStrings Persona.

Definition Accept (p : Persona) (user pass : str) : bool :=
  if user =s $$"root" then pass =s RootPassword p
  else if user =s pUsername p then pass =s UserPassword p
  else false.

Definition knownUser (p : Persona) (name : str) : bool := (name =s $$"root") || (name =s pUsername p).

Definition applianceRootDefaults : list str :=
  [$$"root"; $$"admin"; $$"password"; $$"pass"; $$"default"; $$"1234"; $$"12345"; $$"123456"; $$"1111"; $$"0000";
   $$"888888"; $$"666666"; $$"54321"; $$"vizxv"; $$"xc3511"; $$"xmhdipc"; $$"juantech"; $$"system"; $$"realtek";
   $$"klv123"; $$"service"; $$"supervisor"; $$"guest"; $$"7ujMko0vizxv"; $$"7ujMko0admin"; $$"ikwb"; $$"dreambox";
   $$"meinsm"; $$"hi3518"; $$"anko"; $$"zlxx."].
Definition isApplianceDefaultCred (user pass : str) : bool :=
  (user =s $$"root") && bool_decide (pass ∈ applianceRootDefaults).

(** ** The brute-force policy *)

Record BruteForceConfig : Type := BruteForceCfg { Enabled : bool; AfterTries : Z; After : Z }.
Record srcAuth : Type := SrcAuth { tries : Z; first : option Z; accepted : gmap str unit }.
Record bruteForce : Type := BruteForce { bf_cfg : BruteForceConfig; bf_src : gmap str srcAuth }.

Definition maxBruteSources : Z := 50000.
Definition credKey (user pass : str) : str := user ++ [zb 0] ++ pass.

Definition new_src : srcAuth := SrcAuth 0 None ∅.

(** [consider]; [lucky] is [mrand.Float64() < Probability]. *)
Definition consider (now : Z) (lucky : bool) (srcIP user pass : str) (b : bruteForce) : bool * bruteForce :=
  match (match bf_src b !! srcIP with
         | Some st => Some st
         | None => if maxBruteSources <=? Z.of_nat (size (bf_src b)) then None else Some new_src
         end) with
  | None => (false, b)
  | Some st =>
      let put st' := BruteForce (bf_cfg b) (<[srcIP := st']> (bf_src b)) in
      let key := credKey user pass in
      if bool_decide (is_Some (accepted st !! key)) then (true, put st)
      else
        let tries := tries st + 1 in
        let f := default now (first st) in
        if (AfterTries (bf_cfg b) <=? tries) && (After (bf_cfg b) <=? now - f) && lucky
        then (true, put (SrcAuth tries (Some f) (<[key := tt]> (accepted st))))
        else (false, put (SrcAuth tries (Some f) (accepted st)))
  end.

Definition SetBruteForce (cfg : BruteForceConfig) : option bruteForce :=
  if Enabled cfg then Some (BruteForce cfg ∅) else None.

(** [AcceptFrom]: accepted, brute-forced, and the policy's new state. *)
Definition AcceptFrom (p : Persona) (bf : option bruteForce) (now : Z) (lucky : bool) (srcIP user pass : str)
    : bool * bool * option bruteForce :=
  if Accept p user pass then (true, false, bf)
  else match bf with
       | None => (false, false, bf)
       | Some b =>
           if isAppliance p && isApplianceDefaultCred user pass then (true, false, bf)
           else if negb (knownUser p user) then (false, false, bf)
           else let '(ok, b') := consider now lucky srcIP user pass b in (ok, ok, Some b')
       end.

(** * Theorems *)

Lemma consider_cfg now lucky ip u p b : bf_cfg (consider now lucky ip u p b).2 = bf_cfg b.
Proof. unfold consider. destruct (match bf_src b !! ip with Some st => Some st | None => _ end); [| done]. cbn zeta. by repeat case_match. Qed.

(** What [consider] leaves in the table: the entry of [srcIP] only. *)
Lemma consider_src now lucky ip u p b :
  (consider now lucky ip u p b).2 = b \/
  exists st', (consider now lucky ip u p b).2 = BruteForce (bf_cfg b) (<[ip := st']> (bf_src b)) /\
    (is_Some (bf_src b !! ip) \/ Z.of_nat (size (bf_src b)) < maxBruteSources).
Proof.
  unfold consider. destruct (bf_src b !! ip) as [st |] eqn:E.
  - right. cbn zeta. repeat case_match; eexists; (split; [done | left; eauto]).
  - destruct (maxBruteSources <=? _) eqn:Em; [by left |]. bool_hyps.
    right. cbn zeta. repeat case_match; eexists; (split; [done | by right]).
Qed.

Lemma consider_size now lucky ip u p b :
  Z.of_nat (size (bf_src b)) <= maxBruteSources ->
  Z.of_nat (size (bf_src (consider now lucky ip u p b).2)) <= maxBruteSources.
Proof.
  intros Hb. destruct (consider_src now lucky ip u p b) as [-> | (st' & -> & Hor)]; [done |]. cbn [bf_src].
  destruct (bf_src b !! ip) as [st |] eqn:E.
  - by rewrite map_size_insert_Some by eauto.
  - rewrite map_size_insert_None by done. destruct Hor as [[? [=]] | ?]. lia.
Qed.

Definition table_ok (bf : option bruteForce) : Prop :=
  match bf with Some b => Z.of_nat (size (bf_src b)) <= maxBruteSources | None => True end.
Lemma AcceptFrom_size p bf now lucky ip u pw ok br bf' :
  AcceptFrom p bf now lucky ip u pw = (ok, br, bf') -> table_ok bf -> table_ok bf'.
Proof.
  unfold AcceptFrom. intros E Hbf. destruct (Accept _ _ _); [by injection E as <- <- <- |].
  destruct bf as [b0 |]; [| by injection E as <- <- <-].
  destruct (_ && _); [by injection E as <- <- <- |].
  destruct (negb _); [by injection E as <- <- <- |].
  pose proof (consider_size now lucky ip u pw b0 Hbf) as Hs.
  destruct (consider _ _ _ _ _ b0) as [ok' b']. by injection E as <- <- <-.
Qed.

(** Attempts of many sources, in order: source, user, password, time, luck. *)
Record attempt : Type := Attempt { at_ip : str; at_user : str; at_pass : str; at_now : Z; at_lucky : bool }.

Fixpoint attempts (p : Persona) (bf : option bruteForce) (l : list attempt) : list (bool * bool) * option bruteForce :=
  match l with
  | [] => ([], bf)
  | a :: l' =>
      let '(ok, bruted, bf') := AcceptFrom p bf (at_now a) (at_lucky a) (at_ip a) (at_user a) (at_pass a) in
      let '(rs, bf'') := attempts p bf' l' in ((ok, bruted) :: rs, bf'')
  end.

(** a distributed credential sweep cannot exhaust memory: whatever the order
    of attempts, the table never holds more than 50000 sources. *)
Theorem brute_table_bounded p cfg l b :
  (attempts p (SetBruteForce cfg) l).2 = Some b -> Z.of_nat (size (bf_src b)) <= maxBruteSources.
Proof.
  assert (forall bf, table_ok bf -> table_ok (attempts p bf l).2) as H.
  { induction l as [| a l IH]; intros bf Hbf; cbn [attempts]; [done |].
    destruct (AcceptFrom p bf (at_now a) (at_lucky a) (at_ip a) (at_user a) (at_pass a)) as [[ok br] bf'] eqn:E.
    apply AcceptFrom_size in E; [| done]. specialize (IH bf' E). by destruct (attempts p bf' l). }
  intros E. specialize (H (SetBruteForce cfg)). rewrite E in H. apply H.
  unfold SetBruteForce. by destruct (Enabled cfg).
Qed.

(** a brute-forced login is earned: it only happens for an account of this
    host, after at least [AfterTries] counted attempts from that source and
    [After] since its first one, and with a winning draw, or because the very
    same pair was let in for that source before. *)
Theorem brute_force_is_earned p b now lucky ip user pass bf' :
  AcceptFrom p (Some b) now lucky ip user pass = (true, true, bf') ->
  knownUser p user = true /\
  exists st, (bf_src b !! ip = Some st \/ st = new_src) /\
    (is_Some (accepted st !! credKey user pass) \/
     (AfterTries (bf_cfg b) <= tries st + 1 /\ After (bf_cfg b) <= now - default now (first st) /\ lucky = true)).
Proof.
  unfold AcceptFrom. destruct (Accept p user pass); [done |].
  destruct (_ && _); [done |]. destruct (knownUser p user) eqn:Ek; cbn [negb]; [| done].
  unfold consider. intros H. split; [done |].
  destruct (bf_src b !! ip) as [st |] eqn:E.
  - exists st. split; [by left |]. cbn zeta in H. case_bool_decide; [by left | right].
    destruct (_ && _ && _) eqn:Et; [| done]. apply andb_prop in Et as [[? ?]%andb_prop ?]. bool_hyps.
    split_and!; done.
  - destruct (maxBruteSources <=? _); [done |]. exists new_src. split; [by right |].
    cbn zeta in H. case_bool_decide; [by left | right].
    destruct (_ && _ && _) eqn:Et; [| done]. apply andb_prop in Et as [[? ?]%andb_prop ?]. bool_hyps.
    split_and!; done.
Qed.

Definition cracked (bf : option bruteForce) (ip user pass : str) : Prop :=
  exists b st, bf = Some b /\ bf_src b !! ip = Some st /\ is_Some (accepted st !! credKey user pass).

Lemma cracked_stable p bf now lucky ip' u pw ip user pass :
  cracked bf ip user pass -> cracked (AcceptFrom p bf now lucky ip' u pw).2 ip user pass.
Proof.
  intros (b & st & -> & Hst & Hacc). unfold AcceptFrom.
  assert (cracked (Some b) ip user pass) as Hself by (by exists b, st).
  destruct (Accept p u pw); [done |]. destruct (_ && _); [done |].
  destruct (negb (knownUser p u)); [done |].
  unfold consider. destruct (decide (ip' = ip)) as [-> | Hne].
  - rewrite Hst. cbn zeta. case_bool_decide; [| destruct (_ && _ && _)]; cbn [snd];
      (eexists _, _; split; [done |]; cbn [bf_src]; rewrite lookup_insert_eq; split; [done |]; cbn [accepted]).
    + done.
    + destruct (decide (credKey u pw = credKey user pass)) as [-> | Hk].
      * by rewrite lookup_insert_eq.
      * by rewrite lookup_insert_ne.
    + done.
  - destruct (match bf_src b !! ip' with Some st => Some st | None => _ end) as [st' |]; [| done].
    cbn zeta. case_bool_decide; [| destruct (_ && _ && _)]; cbn [snd];
      (eexists _, _; split; [done |]; cbn [bf_src]; rewrite lookup_insert_ne by done; done).
Qed.

(** the deception stays coherent: once a pair has been let in for a source, the
    same pair from that source is accepted for ever, whatever anybody else tries
    in between. *)
Theorem cracked_pair_keeps_working p b now lucky ip user pass bf' l now' lucky' :
  AcceptFrom p (Some b) now lucky ip user pass = (true, true, bf') ->
  (AcceptFrom p (attempts p bf' l).2 now' lucky' ip user pass).1.1 = true.
Proof.
  intros H.
  assert (Hk : knownUser p user = true /\ isAppliance p && isApplianceDefaultCred user pass = false /\
    Accept p user pass = false /\ cracked bf' ip user pass).
  { unfold AcceptFrom in H. destruct (Accept p user pass); [done |].
    destruct (_ && _); [done |]. destruct (knownUser p user); cbn [negb] in H; [| done].
    split_and!; try done. unfold consider in H.
    destruct (match bf_src b !! ip with Some st => Some st | None => _ end) as [st |]; [| done]. cbn zeta in H.
    case_bool_decide; [| destruct (_ && _ && _); [| done]]; injection H as <-;
      (eexists _, _; split; [done |]; cbn [bf_src]; rewrite lookup_insert_eq; split; [done |]; cbn [accepted]).
    - done.
    - by rewrite lookup_insert_eq. }
  destruct Hk as (Hk & Ha & Hacc & Hc). clear H.
  assert (cracked (attempts p bf' l).2 ip user pass) as Hc'.
  { revert bf' Hc. induction l as [| a l IH]; intros bf' Hc; cbn [attempts]; [done |].
    pose proof (cracked_stable p bf' (at_now a) (at_lucky a) (at_ip a) (at_user a) (at_pass a) _ _ _ Hc) as Hs.
    destruct (AcceptFrom p bf' _ _ _ _ _) as [[ok br] bf'']. specialize (IH bf'' Hs).
    by destruct (attempts p bf'' l). }
  destruct Hc' as (b' & st & -> & Hst & Hin). unfold AcceptFrom. rewrite Hacc, Ha, Hk. cbn [negb].
  unfold consider. rewrite Hst. cbn zeta. by rewrite bool_decide_eq_true_2.
Qed.

(** with the policy off, only the two per-instance credentials open the box,
    from any source and after any number of attempts. *)
Theorem no_policy_means_real_credentials p cfg l :
  Enabled cfg = false ->
  (attempts p (SetBruteForce cfg) l).1 = map (fun a => (Accept p (at_user a) (at_pass a), false)) l.
Proof.
  intros He. unfold SetBruteForce. rewrite He. induction l as [| a l IH]; [done |]. cbn [attempts map].
  unfold AcceptFrom at 1. destruct (Accept p (at_user a) (at_pass a));
    destruct (attempts p None l) as [rs bf]; cbn [fst] in *; by rewrite IH.
Qed.

(** ** Witnesses *)

Definition demo_owner : Persona := fst (GenerateProfile 1700000000 $$"full" (repeat 3 2000)).
Definition eager : BruteForceConfig := BruteForceCfg true 2 10.
Definition demo_guess (now : Z) : attempt := Attempt $$"203.0.113.9" $$"root" $$"hunter2" now true.
Definition demo_table : bruteForce := default (BruteForce eager ∅) (attempts demo_owner (SetBruteForce eager) [demo_guess 5]).2.

Lemma brute_table_bounded_witness : Z.of_nat (size (bf_src demo_table)) <= maxBruteSources.
Proof. apply (brute_table_bounded demo_owner eager [demo_guess 5] demo_table). vm_compute. reflexivity. Defined.

Lemma brute_force_is_earned_witness :
  knownUser demo_owner $$"root" = true /\
  exists st, (bf_src demo_table !! $$"203.0.113.9" = Some st \/ st = new_src) /\
    (is_Some (accepted st !! credKey $$"root" $$"hunter2") \/
     (AfterTries (bf_cfg demo_table) <= tries st + 1 /\ After (bf_cfg demo_table) <= 15 - default 15 (first st) /\ true = true)).
Proof.
  apply (brute_force_is_earned demo_owner demo_table 15 true $$"203.0.113.9" $$"root" $$"hunter2"
    (AcceptFrom demo_owner (Some demo_table) 15 true $$"203.0.113.9" $$"root" $$"hunter2").2).
  vm_compute. reflexivity.
Defined.

Lemma cracked_pair_keeps_working_witness :
  (AcceptFrom demo_owner (attempts demo_owner
     (AcceptFrom demo_owner (Some demo_table) 15 true $$"203.0.113.9" $$"root" $$"hunter2").2
     [Attempt $$"198.51.100.1" $$"root" $$"toor" 16 false]).2 17 false $$"203.0.113.9" $$"root" $$"hunter2").1.1 = true.
Proof.
  apply (cracked_pair_keeps_working demo_owner demo_table 15 true). vm_compute. reflexivity.
Defined.

Lemma no_policy_means_real_credentials_witness :
  (attempts demo_owner (SetBruteForce (BruteForceCfg false 1 0)) [demo_guess 5]).1 = [(false, false)].
Proof.
  rewrite (no_policy_means_real_credentials demo_owner (BruteForceCfg false 1 0) [demo_guess 5] eq_refl).
  vm_compute. reflexivity.
Defined.
