(* ===== verification/AuthFacts.v ===== *)
(** * AuthFacts: the brute-force policy over the history of a host

    [Auth.consider] decides one attempt from a table; here the attempts of many sources,
    in the order the table's lock admits them, are the history the decision is about. *)

From stdpp Require Import gmap.
From S2P Require Import Prelude GoStrings Persona Auth.

Definition from (ip : str) (a : attempt) : bool := at_ip a =s ip.
Definition tries_of (ip : str) (l : list attempt) : Z := zlen (List.filter (from ip) l).
Definition at_key (a : attempt) : str := credKey (at_user a) (at_pass a).

(** An attempt of the history that the policy may let in: the source had tried often
    enough and for long enough by then, and the draw was won. *)
Record earned_by (cfg : BruteForceConfig) (ip key : str) (l : list attempt) (h : list attempt) (b : attempt) (post : list attempt) : Prop := EarnedBy {
  eb_split : l = h ++ b :: post;
  eb_from : at_ip b = ip;
  eb_key : at_key b = key;
  eb_tries : AfterTries cfg <= tries_of ip (h ++ [b]);
  eb_time : exists f, f ∈ h ++ [b] /\ at_ip f = ip /\ After cfg <= at_now b - at_now f;
  eb_lucky : at_lucky b = true
}.
Definition earned (cfg : BruteForceConfig) (ip key : str) (l : list attempt) : Prop := exists h b post, earned_by cfg ip key l h b post.

Lemma earned_more cfg ip key l m : earned cfg ip key l -> earned cfg ip key (l ++ m).
Proof using. intros (h & b & post & [-> H1 H2 H3 H4 H5]). exists h, b, (post ++ m). split; try done. by rewrite <- app_assoc. Qed.

Lemma tries_of_snoc ip l a : tries_of ip (l ++ [a]) = tries_of ip l + (if from ip a then 1 else 0).
Proof using. unfold tries_of. rewrite List.filter_app, zlen_app. cbn. by destruct (from ip a). Qed.

Lemma tries_of_nonneg ip l : 0 <= tries_of ip l.
Proof using. apply zlen_nonneg. Qed.

(** What an entry of the table remembers of the history. *)
Record remembers (cfg : BruteForceConfig) (l : list attempt) (ip : str) (st : srcAuth) : Prop := Remembers {
  rm_tries : tries st <= tries_of ip l;
  rm_first : match first st with Some t => exists f, f ∈ l /\ at_ip f = ip /\ at_now f = t | None => True end;
  rm_accepted : forall key, is_Some (accepted st !! key) -> earned cfg ip key l
}.
Definition table_of (cfg : BruteForceConfig) (l : list attempt) (b : bruteForce) : Prop :=
  bf_cfg b = cfg /\ forall ip st, bf_src b !! ip = Some st -> remembers cfg l ip st.

Lemma remembers_more cfg l m ip st : remembers cfg l ip st -> remembers cfg (l ++ m) ip st.
Proof using.
  intros [H1 H2 H3]. split.
  - unfold tries_of in *. rewrite List.filter_app, zlen_app. pose proof (zlen_nonneg (List.filter (from ip) m)). lia.
  - destruct (first st); [| done]. destruct H2 as (f & Hf & H2). exists f. rewrite elem_of_app. auto.
  - intros key Hk. by apply earned_more, H3.
Qed.

Lemma remembers_new cfg l ip : remembers cfg l ip new_src.
Proof using. split; cbn; [apply tries_of_nonneg | done |]. intros key [x Hx]. by rewrite lookup_empty in Hx. Qed.

(** One decision: the table goes on remembering, and letting in is earned. *)
Lemma consider_remembers cfg l b a :
  table_of cfg l b ->
  let '(ok, b') := consider (at_now a) (at_lucky a) (at_ip a) (at_user a) (at_pass a) b in
  table_of cfg (l ++ [a]) b' /\ (ok = true -> earned cfg (at_ip a) (at_key a) (l ++ [a])).
Proof using.
  intros [Hcfg Htab]. unfold consider.
  assert (forall ip st, bf_src b !! ip = Some st -> remembers cfg (l ++ [a]) ip st) as Hmore by (intros; by apply remembers_more, Htab).
  destruct (match bf_src b !! at_ip a with Some st => Some st | None => _ end) as [st |] eqn:E.
  2: { split; [by split | done]. }
  assert (remembers cfg l (at_ip a) st) as Hst.
  { destruct (bf_src b !! at_ip a) as [st' |] eqn:E'; [injection E as <-; by apply Htab |].
    destruct (maxBruteSources <=? _); [done |]. injection E as <-. apply remembers_new. }
  assert (forall st', remembers cfg (l ++ [a]) (at_ip a) st' -> table_of cfg (l ++ [a]) (BruteForce (bf_cfg b) (<[at_ip a := st']> (bf_src b)))) as Hput.
  { intros st' H. split; [done |]. intros ip st2. cbn [bf_src]. destruct (decide (ip = at_ip a)) as [-> | Hne].
    - rewrite lookup_insert_eq. by intros [= <-].
    - rewrite lookup_insert_ne by done. apply Hmore. }
  cbv zeta. fold (at_key a). destruct Hst as [H1 H2 H3].
  assert (tries_of (at_ip a) (l ++ [a]) = tries_of (at_ip a) l + 1) as Ht
    by (rewrite tries_of_snoc; unfold from; by rewrite seqb_refl).
  assert (exists f, f ∈ l ++ [a] /\ at_ip f = at_ip a /\ at_now f = default (at_now a) (first st)) as Hfirst.
  { destruct (first st) as [t |]; [destruct H2 as (f & Hf & H2); exists f | exists a]; rewrite elem_of_app, list_elem_of_singleton; auto. }
  case_bool_decide as Hk; [split; [apply Hput, remembers_more; by split | intros _; by apply earned_more, H3] |].
  destruct (_ && _ && _) eqn:Et.
  - apply andb_prop in Et as [[Ea%Z.leb_le Eb%Z.leb_le]%andb_prop El].
    assert (earned cfg (at_ip a) (at_key a) (l ++ [a])) as He.
    { exists l, a, []. subst cfg. split; try done; [lia |]. destruct Hfirst as (f & Hf & Hip & Hn). exists f. rewrite Hn. auto. }
    split; [| done]. apply Hput. split; cbn [tries first accepted]; [lia | exact Hfirst |].
    intros key. destruct (decide (key = at_key a)) as [-> | Hne]; [done |]. rewrite lookup_insert_ne by done. intros Hk'. by apply earned_more, H3.
  - split; [| done]. apply Hput. split; cbn [tries first accepted]; [lia | exact Hfirst |]. intros key Hk'. by apply earned_more, H3.
Qed.

Definition remembered (cfg : BruteForceConfig) (l : list attempt) (bf : option bruteForce) : Prop :=
  match bf with Some b => table_of cfg l b | None => True end.

Lemma AcceptFrom_remembers p cfg l bf a :
  remembered cfg l bf ->
  let '(ok, bruted, bf') := AcceptFrom p bf (at_now a) (at_lucky a) (at_ip a) (at_user a) (at_pass a) in
  remembered cfg (l ++ [a]) bf' /\
  (bruted = true -> ok = true /\ knownUser p (at_user a) = true /\ Accept p (at_user a) (at_pass a) = false /\
                    earned cfg (at_ip a) (at_key a) (l ++ [a])).
Proof using.
  intros H. assert (remembered cfg (l ++ [a]) bf) as Hmore.
  { destruct bf as [b |]; [| done]. destruct H as [Hc H]. split; [done |]. intros ip st Hst. by apply remembers_more, H. }
  unfold AcceptFrom. destruct (Accept p (at_user a) (at_pass a)) eqn:Ea; [done |]. destruct bf as [b |]; [| done].
  destruct (_ && _); [done |]. destruct (knownUser p (at_user a)); cbn [negb]; [| done].
  pose proof (consider_remembers cfg l b a H) as Hc. destruct (consider _ _ _ _ _ b) as [ok b']. destruct Hc as [H1 H2].
  split; [done |]. intros ->. split_and!; auto.
Qed.

(** C35: a break-in is earned over the history: whatever the sources and the order of their
    attempts, a source that is let in without a real credential names an account of the
    host, and has itself, now or before, tried that very credential with a winning draw
    after enough attempts of its own and long enough after one of them. *)
Theorem break_in_is_earned p cfg l i a :
  l !! i = Some a -> (attempts p (SetBruteForce cfg) l).1 !! i = Some (true, true) ->
  knownUser p (at_user a) = true /\ Accept p (at_user a) (at_pass a) = false /\ earned cfg (at_ip a) (at_key a) (take (S i) l).
Proof using.
  intros Hl Hi.
  assert (forall l pre bf i, remembered cfg pre bf -> l !! i = Some a -> (attempts p bf l).1 !! i = Some (true, true) ->
    knownUser p (at_user a) = true /\ Accept p (at_user a) (at_pass a) = false /\ earned cfg (at_ip a) (at_key a) (pre ++ take (S i) l)) as H.
  { clear. induction l as [| x l IH]; intros pre bf i Hr Hl Hi; [done |]. cbn [attempts] in Hi.
    pose proof (AcceptFrom_remembers p cfg pre bf x Hr) as Hx.
    destruct (AcceptFrom p bf (at_now x) (at_lucky x) (at_ip x) (at_user x) (at_pass x)) as [[ok br] bf'].
    destruct Hx as [Hr' Hbr]. destruct (attempts p bf' l) as [rs bf''] eqn:E. cbn [fst] in Hi. destruct i as [| i].
    - injection Hl as ->. injection Hi as -> ->. destruct (Hbr eq_refl) as (_ & Hk & Ha & He). cbn [take]. auto.
    - specialize (IH (pre ++ [x]) bf' i Hr' Hl). rewrite E in IH. specialize (IH Hi). rewrite <- app_assoc in IH. exact IH. }
  apply (H l [] (SetBruteForce cfg) i); [| done | done]. unfold SetBruteForce. destruct (Enabled cfg); [| done].
  split; [done |]. intros ip st Hst. cbn in Hst. by rewrite lookup_empty in Hst.
Qed.

Definition demo_history : list attempt :=
  [demo_guess 5; Attempt $$"198.51.100.1" $$"root" $$"toor" 6 true; demo_guess 15].
Lemma break_in_is_earned_witness :
  (attempts demo_owner (SetBruteForce eager) demo_history).1 = [(false, false); (false, false); (true, true)] /\
  earned eager $$"203.0.113.9" (credKey $$"root" $$"hunter2") demo_history.
Proof.
  split; [vm_compute; reflexivity |].
  apply (break_in_is_earned demo_owner eager demo_history 2 (demo_guess 15)); vm_compute; reflexivity.
Defined.
