(* ===== verification/ShellState.v ===== *)
(** * ShellState: the state of a shell and its effects (internal/shell/shell.go)

    The struct [Shell] is split in two: [ident] holds the fields [newShell] sets
    once, [shell] the fields that change, together with the connection, the
    process-wide overlay counter and the number of readings taken from the
    environment.  A method is a computation [M A]: it ends with a value or with a
    Go panic, and in a new state.

    The environment [World] answers the calls whose result the program does not
    determine: each reading of the clock, of the random source or of the
    iteration order of a map is a fresh one.  [pause] only sleeps and is
    omitted. *)

From S2P Require Import Prelude GoStrings VfsNode VfsSession Util Event Session Persona.

Record World : Type := MkWorld {
  w_clock : nat -> Z;                         (* time.Now(), nanoseconds *)
  w_rand : nat -> Z;                          (* math/rand/v2 *)
  w_order : nat -> gmap str str -> list (str * str);   (* range over a map *)
  w_format : str -> Z -> str;                 (* Time.Format *)
  w_sha256 : str -> str;                      (* hex of sha256.Sum256 *)
  w_reveal : list (str * bool * str);         (* embedded reveal/: name, IsDir, content *)
  w_loot : str -> option str                  (* lootArt.ReadFile *)
}.

(** What the language promises of a [range] over a map: every entry once. *)
Definition fair (w : World) : Prop := forall k m, w_order w k m ≡ₚ map_to_list m.

Record ident : Type := Ident {
  i_p : Persona;
  i_user : str;
  i_style : str;
  i_pivot : option (str -> option (node * Persona));
  i_login : Z
}.

Record shell : Type := MkShell {
  sh_s : sess;
  sh_fs : session;
  sh_g : Z;                    (* vfs.globalOverlayBytes *)
  sh_env : gmap str str;
  sh_last : Z;
  sh_quit : bool;
  sh_depth : Z;                (* execDepth *)
  sh_cron : str;
  sh_capture : option str;
  sh_budget : Z;               (* expandBudget *)
  sh_subs : Z;                 (* subCount *)
  sh_tick : nat                (* readings taken from the environment *)
}.

Definition set_s (x : sess) (st : shell) : shell :=
  MkShell x (sh_fs st) (sh_g st) (sh_env st) (sh_last st) (sh_quit st) (sh_depth st) (sh_cron st)
    (sh_capture st) (sh_budget st) (sh_subs st) (sh_tick st).
Definition set_fs (x : session) (st : shell) : shell :=
  MkShell (sh_s st) x (sh_g st) (sh_env st) (sh_last st) (sh_quit st) (sh_depth st) (sh_cron st) (sh_capture
    st) (sh_budget st) (sh_subs st) (sh_tick st).
Definition set_g (x : Z) (st : shell) : shell :=
  MkShell (sh_s st) (sh_fs st) x (sh_env st) (sh_last st) (sh_quit st) (sh_depth st) (sh_cron st)
    (sh_capture st) (sh_budget st) (sh_subs st) (sh_tick st).
Definition set_env (x : gmap str str) (st : shell) : shell :=
  MkShell (sh_s st) (sh_fs st) (sh_g st) x (sh_last st) (sh_quit st) (sh_depth st) (sh_cron st) (sh_capture
    st) (sh_budget st) (sh_subs st) (sh_tick st).
Definition set_last (x : Z) (st : shell) : shell :=
  MkShell (sh_s st) (sh_fs st) (sh_g st) (sh_env st) x (sh_quit st) (sh_depth st) (sh_cron st) (sh_capture
    st) (sh_budget st) (sh_subs st) (sh_tick st).
Definition set_quit (x : bool) (st : shell) : shell :=
  MkShell (sh_s st) (sh_fs st) (sh_g st) (sh_env st) (sh_last st) x (sh_depth st) (sh_cron st) (sh_capture
    st) (sh_budget st) (sh_subs st) (sh_tick st).
Definition set_depth (x : Z) (st : shell) : shell :=
  MkShell (sh_s st) (sh_fs st) (sh_g st) (sh_env st) (sh_last st) (sh_quit st) x (sh_cron st) (sh_capture
    st) (sh_budget st) (sh_subs st) (sh_tick st).
Definition set_cron (x : str) (st : shell) : shell :=
  MkShell (sh_s st) (sh_fs st) (sh_g st) (sh_env st) (sh_last st) (sh_quit st) (sh_depth st) x (sh_capture
    st) (sh_budget st) (sh_subs st) (sh_tick st).
Definition set_capture (x : option str) (st : shell) : shell :=
  MkShell (sh_s st) (sh_fs st) (sh_g st) (sh_env st) (sh_last st) (sh_quit st) (sh_depth st) (sh_cron st) x
    (sh_budget st) (sh_subs st) (sh_tick st).
Definition set_budget (x : Z) (st : shell) : shell :=
  MkShell (sh_s st) (sh_fs st) (sh_g st) (sh_env st) (sh_last st) (sh_quit st) (sh_depth st) (sh_cron st)
    (sh_capture st) x (sh_subs st) (sh_tick st).
Definition set_subs (x : Z) (st : shell) : shell :=
  MkShell (sh_s st) (sh_fs st) (sh_g st) (sh_env st) (sh_last st) (sh_quit st) (sh_depth st) (sh_cron st)
    (sh_capture st) (sh_budget st) x (sh_tick st).
Definition set_tick (x : nat) (st : shell) : shell :=
  MkShell (sh_s st) (sh_fs st) (sh_g st) (sh_env st) (sh_last st) (sh_quit st) (sh_depth st) (sh_cron st)
    (sh_capture st) (sh_budget st) (sh_subs st) x.

(** Bytes one command line may accumulate through expansion. *)
Definition maxExpandBytes : Z := Z.shiftl 8 20.

(** ** Computations *)

Definition M (A : Type) : Type := shell -> option A * shell.
#[export] Instance M_ret : MRet M := fun A a st => (Some a, st).
#[export] Instance M_bind : MBind M := fun A B f m st =>
  match m st with
  | (Some a, st') => f a st'
  | (None, st') => (None, st')
  end.

Definition panic {A} : M A := fun st => (None, st).
Definition gets {A} (f : shell -> A) : M A := fun st => (Some (f st), st).
Definition modify (f : shell -> shell) : M unit := fun st => (Some tt, f st).
(** A call that changes the connection. *)
Definition conn {A} (f : sess -> A * sess) : M A :=
  fun st => let '(a, s') := f (sh_s st) in (Some a, set_s s' st).
Definition on_s (f : sess -> sess) : M unit := conn (fun s => (tt, f s)).
(** A call that changes the overlay. *)
Definition on_fs {A} (f : Z -> session -> Z * session * A) : M A :=
  fun st => let '(g', fs', a) := f (sh_g st) (sh_fs st) in (Some a, set_g g' (set_fs fs' st)).
(** A fresh reading of the environment. *)
Definition reading {A} (f : nat -> A) : M A :=
  fun st => (Some (f (sh_tick st)), set_tick (S (sh_tick st)) st).

(** [for _, x := range l]. *)
Fixpoint each {A} (l : list A) (f : A -> M unit) : M unit :=
  match l with
  | [] => mret tt
  | x :: l' => f x ;; each l' f
  end.
Fixpoint mmap {A B} (f : A -> M B) (l : list A) : M (list B) :=
  match l with
  | [] => mret []
  | x :: l' => y ← f x; ys ← mmap f l'; mret (y :: ys)
  end.

(** ** The calls the commands make *)

Definition wr (x : str) : M unit := on_s (Write x).
Definition writeln (x : str) : M unit := on_s (Writeln x).
Definition prompt (label : str) : M (str * bool) :=
  conn (fun s => let '(l, ok, s') := Prompt label s in ((l, ok), s')).
Definition read_a_line : M (str * bool) :=
  conn (fun s => let '(l, ok, s') := ReadLine s in ((l, ok), s')).

Definition fs_resolve (p : str) : M str := gets (fun st => Resolve (sh_fs st) p).
Definition fs_stat (p : str) : M (res node) := gets (fun st => Stat (sh_fs st) p).
Definition fs_read (p : str) : M (res str) := gets (fun st => ReadFile (sh_fs st) p).
Definition fs_readdir (p : str) : M (res (list node)) := gets (fun st => ReadDir (sh_fs st) p).
Definition fs_exists (p : str) : M bool := gets (fun st => Exists (sh_fs st) p).
Definition fs_chdir (p : str) : M (option err) :=
  on_fs (fun g s => let '(s', e) := Chdir s p in (g, s', e)).
Definition fs_remove (p : str) : M (option err) := on_fs (fun g s => Remove g s p).

Definition getenv (name : str) : M str := gets (fun st => default [] (sh_env st !! name)).
Definition setenv (name v : str) : M unit := modify (fun st => set_env (<[name := v]> (sh_env st)) st).

Section world.
Context (W : World).

Definition now : M Z := reading (w_clock W).
(** [time.Since]. *)
Definition since (t : Z) : M Z := n ← now; mret (n - t).
Definition randN (n : Z) : M Z := reading (fun k => w_rand W k mod n).
(** [for k, v := range m]. *)
Definition ordered (m : gmap str str) : M (list (str * str)) := reading (fun k => w_order W k m).
Definition fs_write (p body : str) : M (option err) :=
  t ← now; on_fs (fun g s => WriteFile t g s p body).
Definition fs_mkdir (p : str) : M (option err) := t ← now; on_fs (fun g s => Mkdir t g s p).

(** [randomReveal]. *)
Definition randomReveal : M str :=
  let names := List.filter (fun e => negb e.1.2 && has_suffix e.1.1 $$".txt") (w_reveal W) in
  match names with
  | [] => mret []
  | _ => k ← randN (zlen names); mret (default [] (snd <$> names !! Z.to_nat k))
  end.
End world.

(** ** The laws of the monad *)

Lemma bind_ret {A B} (a : A) (f : A -> M B) st : (x ← mret a; f x) st = f a st.
Proof. done. Qed.

Lemma bind_gets {A B} (g : shell -> A) (f : A -> M B) st : (x ← gets g; f x) st = f (g st) st.
Proof. done. Qed.

Lemma bind_modify {B} (g : shell -> shell) (f : unit -> M B) st : (x ← modify g; f x) st = f tt (g st).
Proof. done. Qed.

Lemma bind_run {A B} (m : M A) (f : A -> M B) st a st' :
  m st = (Some a, st') -> (x ← m; f x) st = f a st'.
Proof. intros E. unfold mbind, M_bind. by rewrite E. Qed.

Lemma bind_assoc {A B C} (m : M A) (f : A -> M B) (k : B -> M C) st :
  (y ← (x ← m; f x); k y) st = (x ← m; y ← f x; k y) st.
Proof. unfold mbind, M_bind. by destruct (m st) as [[a |] st']. Qed.

Lemma each_app {A} (l k : list A) f st : each (l ++ k) f st = (each l f ;; each k f) st.
Proof.
  revert st. induction l as [| x l IH]; intros st; [done |]. cbn [app each].
  rewrite bind_assoc. change ((f x ;; each (l ++ k) f) st = (f x ;; (each l f ;; each k f)) st).
  cbv [mbind M_bind] in IH |- *. destruct (f x st) as [[[] |] st']; [apply IH | done].
Qed.
