(* ===== verification/ShellArith.v ===== *)
(** * ShellArith: [$((...))] (internal/shell/shell.go, evalArith)

    The struct [arith] is the text still to be read ([pos] only advances);
    [getenv] resolves names.  [int] is 64 bits wide and wraps.  Every level of
    the grammar is one mutually recursive function; the fuel bounds the calls,
    and [evalArith_total] shows that four per byte are enough. *)

From S2P Require Import Prelude GoStrings.

Definition isAlnum (c : ascii) : bool :=
  in_range c 48 57 || in_range c 65 90 || in_range c 97 122.
Definition name_char (c : ascii) : bool := bool_decide (c = "_"%char) || isAlnum c.

(** Longest prefix of bytes satisfying [f], and the rest. *)
Fixpoint span (f : ascii -> bool) (s : str) : str * str :=
  match s with
  | [] => ([], [])
  | c :: s' => if f c then let '(a, r) := span f s' in (c :: a, r) else ([], s)
  end.

Definition ws (s : str) : str := drop_while (fun c => bool_decide (c = " "%char)) s.

Section arith.
Context (getenv : str -> str).

(** The operand of [parsePrimary] once no parenthesis opens: digits, or a name. *)
Definition operand (s : str) : Z * str :=
  match span is_digit s with
  | ([], _) =>
      match span name_char s with
      | ([], r) => (0, r)
      | (nm, r) => (match atoi (getenv nm) with (v, true) => v | _ => 0 end, r)
      end
  | (ds, r) => (fst (atoi ds), r)
  end.

Definition add_op (c : ascii) (v r : Z) : Z := wrap64 (if bool_decide (c = "+"%char) then v + r else v - r).
Definition mul_op (c : ascii) (v r : Z) : Z :=
  if bool_decide (c = "*"%char) then wrap64 (v * r)
  else if r =? 0 then 0
  else if bool_decide (c = "/"%char) then wrap64 (Z.quot v r)
  else Z.rem v r.
Definition is_add (c : ascii) : bool := bool_decide (c = "+"%char) || bool_decide (c = "-"%char).
Definition is_mul (c : ascii) : bool :=
  bool_decide (c = "*"%char) || bool_decide (c = "/"%char) || bool_decide (c = "%"%char).

Fixpoint parseAdd (fuel : nat) (s : str) : option (Z * str) :=
  match fuel with
  | O => None
  | S f => match parseMul f s with Some (v, r) => loopAdd f v r | None => None end
  end
with loopAdd (fuel : nat) (v : Z) (s : str) : option (Z * str) :=
  match fuel with
  | O => None
  | S f =>
      match ws s with
      | c :: s' =>
          if is_add c then
            match parseMul f s' with Some (r, s'') => loopAdd f (add_op c v r) s'' | None => None end
          else Some (v, c :: s')
      | [] => Some (v, [])
      end
  end
with parseMul (fuel : nat) (s : str) : option (Z * str) :=
  match fuel with
  | O => None
  | S f => match parseUnary f s with Some (v, r) => loopMul f v r | None => None end
  end
with loopMul (fuel : nat) (v : Z) (s : str) : option (Z * str) :=
  match fuel with
  | O => None
  | S f =>
      match ws s with
      | c :: s' =>
          if is_mul c then
            match parseUnary f s' with Some (r, s'') => loopMul f (mul_op c v r) s'' | None => None end
          else Some (v, c :: s')
      | [] => Some (v, [])
      end
  end
with parseUnary (fuel : nat) (s : str) : option (Z * str) :=
  match fuel with
  | O => None
  | S f =>
      match ws s with
      | c :: s' =>
          if bool_decide (c = "-"%char) then
            match parseUnary f s' with Some (v, r) => Some (wrap64 (- v), r) | None => None end
          else if bool_decide (c = "+"%char) then parseUnary f s'
          else parsePrimary f (c :: s')
      | [] => parsePrimary f []
      end
  end
with parsePrimary (fuel : nat) (s : str) : option (Z * str) :=
  match fuel with
  | O => None
  | S f =>
      match ws s with
      | c :: s' =>
          if bool_decide (c = "("%char) then
            match parseAdd f s' with
            | Some (v, r) =>
                Some (v, match ws r with
                         | d :: r' => if bool_decide (d = ")"%char) then r' else d :: r'
                         | [] => []
                         end)
            | None => None
            end
          else Some (operand (if bool_decide (c = "$"%char) then s' else c :: s'))
      | [] => Some (operand [])
      end
  end.

Definition arith_fuel (s : str) : nat := (4 * length s + 4)%nat.
Definition evalArith (s : str) : Z := match parseAdd (arith_fuel s) s with Some (v, _) => v | None => 0 end.

(** ** Termination *)

Lemma span_sum f s : (length (span f s).1 + length (span f s).2 = length s)%nat.
Proof.
  induction s as [| c s IH]; [done |]. cbn [span]. destruct (f c); [| done].
  destruct (span f s); simpl in *. lia.
Qed.

Lemma ws_length s : (length (ws s) <= length s)%nat.
Proof. induction s as [| c s IH]; [done |]. unfold ws in *. cbn [drop_while]. case_bool_decide; simpl in *; lia. Qed.

Lemma operand_length s : (length (operand s).2 <= length s)%nat.
Proof.
  unfold operand. pose proof (span_sum is_digit s). pose proof (span_sum name_char s).
  destruct (span is_digit s) as [[| ] ?]; simpl in *; [| lia].
  destruct (span name_char s) as [[| ] ?]; simpl in *; lia.
Qed.

Lemma arith_total f :
  (forall s, (4 * length s + 4 <= f)%nat -> exists v r, parseAdd f s = Some (v, r) /\ (length r <= length s)%nat) /\
  (forall v s, (4 * length s + 1 <= f)%nat -> exists v' r, loopAdd f v s = Some (v', r) /\ (length r <= length s)%nat) /\
  (forall s, (4 * length s + 3 <= f)%nat -> exists v r, parseMul f s = Some (v, r) /\ (length r <= length s)%nat) /\
  (forall v s, (4 * length s + 1 <= f)%nat -> exists v' r, loopMul f v s = Some (v', r) /\ (length r <= length s)%nat) /\
  (forall s, (4 * length s + 2 <= f)%nat -> exists v r, parseUnary f s = Some (v, r) /\ (length r <= length s)%nat) /\
  (forall s, (4 * length s + 1 <= f)%nat -> exists v r, parsePrimary f s = Some (v, r) /\ (length r <= length s)%nat).
Proof.
  induction f as [| f (IA & ILA & IM & ILM & IU & IP)].
  { split_and!; intros; lia. }
  split_and!; cbn [parseAdd loopAdd parseMul loopMul parseUnary parsePrimary].
  - intros s Hs. destruct (IM s) as (v & r & -> & Hr); [lia |].
    destruct (ILA v r) as (v' & r' & -> & Hr'); [lia |]. do 2 eexists. split; [done | lia].
  - intros v s Hs. pose proof (ws_length s). destruct (ws s) as [| c s']; simpl in *; [eauto with lia |].
    destruct (is_add c); [| do 2 eexists; split; [done | simpl; lia]].
    destruct (IM s') as (x & r & -> & Hr); [lia |].
    destruct (ILA (add_op c v x) r) as (v' & r' & -> & Hr'); [lia |]. do 2 eexists. split; [done | lia].
  - intros s Hs. destruct (IU s) as (v & r & -> & Hr); [lia |].
    destruct (ILM v r) as (v' & r' & -> & Hr'); [lia |]. do 2 eexists. split; [done | lia].
  - intros v s Hs. pose proof (ws_length s). destruct (ws s) as [| c s']; simpl in *; [eauto with lia |].
    destruct (is_mul c); [| do 2 eexists; split; [done | simpl; lia]].
    destruct (IU s') as (x & r & -> & Hr); [lia |].
    destruct (ILM (mul_op c v x) r) as (v' & r' & -> & Hr'); [lia |]. do 2 eexists. split; [done | lia].
  - intros s Hs. pose proof (ws_length s). destruct (ws s) as [| c s']; simpl in *.
    { destruct (IP []) as (v & r & -> & Hr); [simpl; lia |]. do 2 eexists. split; [done | simpl in *; lia]. }
    case_bool_decide.
    { destruct (IU s') as (v & r & -> & Hr); [lia |]. do 2 eexists. split; [done | lia]. }
    case_bool_decide.
    { destruct (IU s') as (v & r & -> & Hr); [lia |]. do 2 eexists. split; [done | lia]. }
    destruct (IP (c :: s')) as (v & r & -> & Hr); [simpl; lia |]. do 2 eexists. split; [done | simpl in *; lia].
  - intros s Hs. pose proof (ws_length s). destruct (ws s) as [| c s']; simpl in *; [do 2 eexists; split; [done | simpl; lia] |].
    case_bool_decide.
    { destruct (IA s') as (v & r & -> & Hr); [lia |]. do 2 eexists. split; [done |].
      pose proof (ws_length r). destruct (ws r) as [| d r']; simpl in *; [lia | case_bool_decide; simpl in *; lia]. }
    pose proof (operand_length (if bool_decide (c = "$"%char) then s' else c :: s')).
    destruct (operand _) as [v r]. do 2 eexists. split; [done |]. simpl in *. case_bool_decide; simpl in *; lia.
Qed.

(** [evalArith] returns on every text: the fuel is never exhausted. *)
Lemma evalArith_total s : exists r, parseAdd (arith_fuel s) s = Some (evalArith s, r).
Proof.
  destruct (proj1 (arith_total (arith_fuel s)) s) as (v & r & E & _); [unfold arith_fuel; lia |].
  unfold evalArith. rewrite E. eauto.
Qed.

(** The result is a 64-bit integer. *)
Definition int64 (v : Z) : Prop := min_int64 <= v <= max_int64.
Lemma int64_wrap z : int64 (wrap64 z).
Proof. apply wrap64_range. Qed.
Lemma int64_add_op c v r : int64 (add_op c v r).
Proof. apply wrap64_range. Qed.
Lemma int64_atoi s : int64 (fst (atoi s)).
Proof.
  unfold atoi, int64, min_int64, max_int64.
  repeat (case_match; simplify_eq/=; try lia); bool_hyps; unfold min_int64, max_int64 in *; lia.
Qed.
Lemma int64_operand s : int64 (operand s).1.
Proof.
  unfold operand. destruct (span is_digit s) as [[| c ds] r].
  - destruct (span name_char s) as [[| c nm] r']; [done |]. pose proof (int64_atoi (getenv (c :: nm))).
    destruct (atoi _) as [v []]; [done |]. done.
  - apply int64_atoi.
Qed.
Lemma int64_mul_op c v r : int64 v -> int64 r -> int64 (mul_op c v r).
Proof.
  intros Hv Hr. unfold mul_op. destruct (bool_decide _); [apply int64_wrap |].
  destruct (r =? 0) eqn:E; [done |]. bool_hyps. destruct (bool_decide _); [apply int64_wrap |].
  unfold int64, min_int64, max_int64 in *. pose proof (Z.rem_bound_abs v r E). lia.
Qed.
Definition in64 (o : option (Z * str)) : Prop := forall v r, o = Some (v, r) -> int64 v.
Lemma arith_range f :
  (forall s, in64 (parseAdd f s)) /\ (forall v s, int64 v -> in64 (loopAdd f v s)) /\
  (forall s, in64 (parseMul f s)) /\ (forall v s, int64 v -> in64 (loopMul f v s)) /\
  (forall s, in64 (parseUnary f s)) /\ (forall s, in64 (parsePrimary f s)).
Proof.
  unfold in64. induction f as [| f (IA & ILA & IM & ILM & IU & IP)]; [split_and!; done |].
  split_and!; cbn [parseAdd loopAdd parseMul loopMul parseUnary parsePrimary]; intros;
    repeat match goal with
    | H : context [match ?x with _ => _ end] |- _ =>
        match type of x with
        | option _ => destruct x as [[? ?] |] eqn:?; [| done]
        | _ => destruct x eqn:?
        end
    end; simplify_eq; eauto using int64_wrap, int64_add_op, int64_mul_op.
  all: match goal with H : operand ?s = (?v, _) |- _ => by pose proof (int64_operand s) as Ho; rewrite H in Ho end.
Qed.
Lemma evalArith_range s : int64 (evalArith s).
Proof.
  destruct (evalArith_total s) as [r Hr]. by apply (proj1 (arith_range (arith_fuel s)) s _ r).
Qed.

(** More fuel gives the same result. *)
Lemma arith_mono f :
  (forall g s r, parseAdd f s = Some r -> (f <= g)%nat -> parseAdd g s = Some r) /\
  (forall g v s r, loopAdd f v s = Some r -> (f <= g)%nat -> loopAdd g v s = Some r) /\
  (forall g s r, parseMul f s = Some r -> (f <= g)%nat -> parseMul g s = Some r) /\
  (forall g v s r, loopMul f v s = Some r -> (f <= g)%nat -> loopMul g v s = Some r) /\
  (forall g s r, parseUnary f s = Some r -> (f <= g)%nat -> parseUnary g s = Some r) /\
  (forall g s r, parsePrimary f s = Some r -> (f <= g)%nat -> parsePrimary g s = Some r).
Proof.
  induction f as [| f (IA & ILA & IM & ILM & IU & IP)]; [split_and!; done |].
  split_and!; intros [| g]; intros; try lia; cbn [parseAdd loopAdd parseMul loopMul parseUnary parsePrimary] in *;
    repeat match goal with
    | H : context [match ?x with _ => _ end] |- _ =>
        match x with
        | parseAdd f _ => destruct (x) as [[? ?] |] eqn:?; [| done]
        | parseMul f _ => destruct (x) as [[? ?] |] eqn:?; [| done]
        | parseUnary f _ => destruct (x) as [[? ?] |] eqn:?; [| done]
        | ws _ => destruct x eqn:?
        | is_add _ => destruct x eqn:?
        | is_mul _ => destruct x eqn:?
        | bool_decide _ => destruct x eqn:?
        end
    | H : parseAdd f _ = Some _ |- _ => apply (IA g) in H; [rewrite H | lia]
    | H : parseMul f _ = Some _ |- _ => apply (IM g) in H; [rewrite H | lia]
    | H : parseUnary f _ = Some _ |- _ => apply (IU g) in H; [rewrite H | lia]
    end; try done; eauto with lia; by repeat (case_match; simplify_eq/=).
Qed.
End arith.

(** ** What an expression means, and how it is written *)

Inductive expr : Type :=
| ENum (n : Z) | EVar (nm : str) | ENeg (e : expr) | EBin (op : ascii) (a b : expr).

Section roundtrip.
Context (getenv : str -> str).

(** Bash's 64-bit arithmetic, an unset or non-numeric name counting as 0. *)
Fixpoint denote (e : expr) : Z :=
  match e with
  | ENum n => n
  | EVar nm => match atoi (getenv nm) with (v, true) => v | _ => 0 end
  | ENeg e => wrap64 (- denote e)
  | EBin op a b => if is_add op then add_op op (denote a) (denote b) else mul_op op (denote a) (denote b)
  end.

(** The text of [e] where an operand of precedence [lvl] is expected, with [sp]
    around the operators and parentheses only where precedence asks for them. *)
Definition paren (b : bool) (s : str) : str := if b then "("%char :: s ++ $$")" else s.
Fixpoint pr (sp : str) (lvl : nat) (e : expr) : str :=
  match e with
  | ENum n => itoa n
  | EVar nm => nm
  | ENeg e => "-"%char :: pr sp 2 e
  | EBin op a b =>
      let p := if is_add op then 0%nat else 1%nat in
      paren (p <? lvl)%nat (pr sp p a ++ sp ++ op :: sp ++ pr sp (S p) b)
  end.

Fixpoint expr_ok (e : expr) : Prop :=
  match e with
  | ENum n => 0 <= n <= max_int64
  | EVar nm => exists c r, nm = c :: r /\ is_digit c = false /\ Forall (fun c => name_char c = true) nm
  | ENeg e => expr_ok e
  | EBin op a b => is_add op || is_mul op = true /\ expr_ok a /\ expr_ok b
  end.

(** A text [s] at the three levels of the grammar, whatever follows it. *)
Definition ends_operand (r : str) : Prop := match r with c :: _ => name_char c = false | [] => True end.
Definition no_mul (r : str) : Prop := match ws r with c :: _ => is_mul c = false | [] => True end.
Definition U (s : str) (v : Z) : Prop :=
  forall r, ends_operand r -> exists f, parseUnary getenv f (s ++ r) = Some (v, r).
Definition Mu (s : str) (v : Z) : Prop :=
  forall r f x, ends_operand r -> loopMul getenv f v r = Some x -> exists g, parseMul getenv g (s ++ r) = Some x.
Definition A (s : str) (v : Z) : Prop :=
  forall r f x, ends_operand r -> no_mul r -> loopAdd getenv f v r = Some x ->
    exists g, parseAdd getenv g (s ++ r) = Some x.

Lemma ws_idem s : ws (ws s) = ws s.
Proof. induction s as [| c s IH]; [done |]. unfold ws in *. cbn [drop_while]. case_bool_decide as H; [done |].
  cbn [drop_while]. by rewrite bool_decide_eq_false_2. Qed.

Lemma U_Mu s v : U s v -> Mu s v.
Proof.
  intros HU r f x He Hl. destruct (HU r He) as [g Hg]. exists (S (max f g)). cbn [parseMul].
  rewrite (proj1 (proj2 (proj2 (proj2 (proj2 (arith_mono getenv g))))) (max f g) _ _ Hg) by lia.
  by apply (proj1 (proj2 (proj2 (proj2 (arith_mono getenv f)))) (max f g) _ _ _ Hl); lia.
Qed.

Lemma loopMul_stop v r : no_mul r -> loopMul getenv 1 v r = Some (v, ws r).
Proof. intros Hn. unfold no_mul in Hn. cbn [loopMul]. destruct (ws r) as [| c s]; [done |]. by rewrite Hn. Qed.

Lemma loopAdd_ws f v r : loopAdd getenv f v (ws r) = loopAdd getenv f v r.
Proof. destruct f; [done |]. cbn [loopAdd]. by rewrite ws_idem. Qed.

Lemma Mu_A s v : Mu s v -> A s v.
Proof.
  intros HM r f x He Hn Hl. destruct (HM r 1%nat _ He (loopMul_stop v r Hn)) as [g Hg].
  exists (S (max f g)). cbn [parseAdd].
  rewrite (proj1 (proj2 (proj2 (arith_mono getenv g))) (max f g) _ _ Hg) by lia.
  rewrite loopAdd_ws. by apply (proj1 (proj2 (arith_mono getenv f)) (max f g) _ _ _ Hl); lia.
Qed.

Lemma A_paren s v : A s v -> U ("("%char :: s ++ $$")") v.
Proof.
  intros HA r He. rewrite <- app_comm_cons, <- app_assoc.
  destruct (HA ($$")" ++ r) 1%nat (v, $$")" ++ r)) as [g Hg]; [done | done | done |].
  exists (S (S g)). cbn [parseUnary parsePrimary]. unfold ws. cbn [drop_while].
  change (bool_decide ("("%char = " "%char)) with false. cbn iota.
  change (bool_decide ("("%char = "-"%char)) with false. change (bool_decide ("("%char = "+"%char)) with false.
  cbn [drop_while]. change (bool_decide ("("%char = " "%char)) with false. cbn iota.
  change (bool_decide ("("%char = "("%char)) with true. cbn iota. by rewrite Hg.
Qed.

Lemma U_neg s v : U s v -> U ("-"%char :: s) (wrap64 (- v)).
Proof. intros HU r He. destruct (HU r He) as [g Hg]. exists (S g). cbn [app parseUnary]. simpl. by rewrite Hg. Qed.

Lemma span_all f s r :
  Forall (fun c => f c = true) s -> match r with c :: _ => f c = false | [] => True end -> span f (s ++ r) = (s, r).
Proof.
  intros Hs Hr. induction Hs as [| c s Hc _ IH]; cbn [app span].
  - destruct r as [| c r]; [done |]. cbn [span]. by rewrite Hr.
  - by rewrite Hc, IH.
Qed.

Lemma digit_name c : is_digit c = true -> name_char c = true.
Proof. unfold name_char, isAlnum, is_digit. intros ->. by rewrite orb_true_r. Qed.

Lemma U_operand s v :
  match s with c :: _ => name_char c = true | [] => False end ->
  (forall r, ends_operand r -> operand getenv (s ++ r) = (v, r)) -> U s v.
Proof.
  intros Hs Ho r He. specialize (Ho r He). destruct s as [| c s]; [done |].
  assert (forall x, name_char x = false -> bool_decide (c = x) = false) as Hc.
  { intros x Hx. apply bool_decide_eq_false. intros ->. congruence. }
  exists 2%nat. cbn [parseUnary parsePrimary app]. unfold ws. cbn [drop_while].
  rewrite (Hc " "%char) by done. rewrite (Hc "-"%char), (Hc "+"%char) by done. cbn [drop_while].
  rewrite (Hc " "%char), (Hc "("%char), (Hc "$"%char) by done. by f_equal.
Qed.

Lemma U_num n : 0 <= n <= max_int64 -> U (itoa n) n.
Proof.
  intros Hn. destruct (itoa_nonneg n) as (_ & Hd & Hne); [lia |]. apply U_operand.
  - destruct (itoa n) as [| c s]; [done |]. apply Forall_cons in Hd as [Hc _]. by apply digit_name.
  - intros r He. unfold operand. rewrite span_all; [| done |].
    + destruct (itoa n) eqn:E; [done |]. rewrite <- E. by rewrite atoi_itoa.
    + destruct r as [| c r]; [done |]. destruct (is_digit c) eqn:Ec; [| done].
      apply digit_name in Ec. simpl in He. congruence.
Qed.

Lemma U_var nm : expr_ok (EVar nm) -> U nm (denote (EVar nm)).
Proof.
  intros (c & s & -> & Hd & Hall). apply U_operand.
  - by apply Forall_cons in Hall as [? _].
  - intros r He. unfold operand. cbn [app span]. rewrite Hd.
    change (if name_char c then let '(a, r0) := span name_char (s ++ r) in (c :: a, r0) else ([], c :: s ++ r))
      with (span name_char ((c :: s) ++ r)).
    rewrite span_all by done. done.
Qed.

Lemma ws_spaces l s : Forall (fun c => c = " "%char) l -> ws (l ++ s) = ws s.
Proof. intros Hl. induction Hl as [| c l -> _ IH]; [done |]. unfold ws in *. exact IH. Qed.

Context (sp : str) (Hsp : Forall (fun c => c = " "%char) sp).

Lemma ws_sp s : ws (sp ++ s) = ws s.
Proof using Hsp. by apply ws_spaces. Qed.

Lemma sp_ends c s : name_char c = false -> ends_operand (sp ++ c :: s).
Proof using Hsp. intros Hc. destruct Hsp as [| x l -> _]; [done |]. done. Qed.

Lemma parseUnary_sp f s : parseUnary getenv f (sp ++ s) = parseUnary getenv f s.
Proof using Hsp. destruct f; [done |]. cbn [parseUnary]. by rewrite ws_sp. Qed.
Lemma parseMul_sp f s : parseMul getenv f (sp ++ s) = parseMul getenv f s.
Proof using Hsp. destruct f; [done |]. cbn [parseMul]. by rewrite parseUnary_sp. Qed.

Lemma is_op_char op : is_add op || is_mul op = true -> name_char op = false /\ bool_decide (op = " "%char) = false.
Proof.
  unfold is_add, is_mul. rewrite !orb_true_iff, !bool_decide_eq_true.
  intros [[-> | ->] | [[-> | ->] | ->]]; done.
Qed.

Lemma ws_op op s : is_add op || is_mul op = true -> ws (sp ++ op :: s) = op :: s.
Proof using Hsp. intros [_ Hc]%is_op_char. rewrite ws_sp. unfold ws. cbn [drop_while]. by rewrite Hc. Qed.

Lemma A_bin op s1 v1 s2 v2 :
  is_add op = true -> A s1 v1 -> Mu s2 v2 -> A (s1 ++ sp ++ op :: sp ++ s2) (add_op op v1 v2).
Proof using Hsp.
  intros Hop HA HM r f x He Hn Hl. rewrite <- !app_assoc, <- app_comm_cons, <- app_assoc.
  assert (is_add op || is_mul op = true) as Hop' by by rewrite Hop.
  destruct (HM r 1%nat _ He (loopMul_stop v2 r Hn)) as [g Hg].
  apply (HA _ (S (max f g)) x).
  - apply sp_ends, is_op_char, Hop'.
  - unfold no_mul. rewrite ws_op by done. unfold is_add in Hop. apply orb_true_iff in Hop.
    rewrite !bool_decide_eq_true in Hop. by destruct Hop as [-> | ->].
  - cbn [loopAdd]. rewrite ws_op, Hop, parseMul_sp by done.
    rewrite (proj1 (proj2 (proj2 (arith_mono getenv g))) (max f g) _ _ Hg) by lia.
    rewrite loopAdd_ws. by apply (proj1 (proj2 (arith_mono getenv f)) (max f g) _ _ _ Hl); lia.
Qed.

Lemma Mu_bin op s1 v1 s2 v2 :
  is_mul op = true -> Mu s1 v1 -> U s2 v2 -> Mu (s1 ++ sp ++ op :: sp ++ s2) (mul_op op v1 v2).
Proof using Hsp.
  intros Hop HM HU r f x He Hl. rewrite <- !app_assoc, <- app_comm_cons, <- app_assoc.
  assert (is_add op || is_mul op = true) as Hop' by (rewrite Hop; apply orb_true_r).
  destruct (HU r He) as [g Hg]. apply (HM _ (S (max f g)) x); [by apply sp_ends, is_op_char |].
  cbn [loopMul]. rewrite ws_op, Hop, parseUnary_sp by done.
  rewrite (proj1 (proj2 (proj2 (proj2 (proj2 (arith_mono getenv g))))) (max f g) _ _ Hg) by lia.
  by apply (proj1 (proj2 (proj2 (proj2 (arith_mono getenv f)))) (max f g) _ _ _ Hl); lia.
Qed.

Lemma pr_levels e : expr_ok e -> A (pr sp 0 e) (denote e) /\ Mu (pr sp 1 e) (denote e) /\ U (pr sp 2 e) (denote e).
Proof using Hsp.
  assert (forall s v, U s v -> A s v /\ Mu s v /\ U s v) as HU.
  { intros s v H. split_and!; [by apply Mu_A, U_Mu | by apply U_Mu | done]. }
  induction e as [n | nm | e IH | op a IHa b IHb]; intros Hok; cbn [pr denote].
  - by apply HU, U_num.
  - apply HU. exact (U_var nm Hok).
  - by apply HU, U_neg, IH.
  - destruct Hok as (Hop & Ha & Hb). destruct (IHa Ha) as (Aa & Ma & _), (IHb Hb) as (_ & Mb & Ub).
    destruct (is_add op) eqn:E.
    + pose proof (A_bin op _ _ _ _ E Aa Mb) as HA. apply A_paren in HA as HP. cbn [paren Nat.ltb Nat.leb].
      split_and!; [done | by apply U_Mu | done].
    + cbn [orb] in Hop. pose proof (Mu_bin op _ _ _ _ Hop Ma Ub) as HM. pose proof (Mu_A _ _ HM) as HA.
      cbn [paren Nat.ltb Nat.leb]. split_and!; [done | done | by apply A_paren].
Qed.

(** C19: [$((...))] computes what the expression means: for every expression over
    64-bit literals, variables, unary minus and [+ - * / %], written with
    parentheses only where precedence and left associativity need them and any
    spacing, the evaluator returns its wrapped 64-bit value. *)
Theorem evalArith_correct e : expr_ok e -> evalArith getenv (pr sp 0 e) = denote e.
Proof using Hsp.
  intros Hok. destruct (pr_levels e Hok) as (HA & _ & _).
  destruct (HA [] 1%nat (denote e, [])) as [g Hg]; [done | done | done |]. rewrite app_nil_r in Hg.
  destruct (evalArith_total getenv (pr sp 0 e)) as [r Hr].
  apply (proj1 (arith_mono getenv g) (max g (arith_fuel (pr sp 0 e)))) in Hg; [| lia].
  apply (proj1 (arith_mono getenv _) (max g (arith_fuel (pr sp 0 e)))) in Hr; [| lia]. congruence.
Qed.
End roundtrip.

Lemma evalArith_correct_witness :
  let env nm := if nm =s $$"n" then $$"7" else [] in
  evalArith env $$"(n - 10) * -3 % 4 - 2 - 1" = -2.
Proof.
  intros env. set (e := EBin "-"%char (EBin "-"%char (EBin "%"%char (EBin "*"%char (EBin "-"%char (EVar $$"n") (ENum 10)) (ENeg (ENum 3))) (ENum 4)) (ENum 2)) (ENum 1)).
  apply (evalArith_correct env $$" ") with (e := e).
  - by repeat constructor.
  - repeat split; try done. exists "n"%char, []. split_and!; [done | done |]. by repeat constructor.
Defined.
