(* ===== verification/ShellText.v ===== *)
(** * ShellText: the output generators (internal/shell/dynamic.go)

    The process table, the memory and disk figures and the network listings, all
    computed from the persona and the clock.  [up] is a [time.Duration] in
    nanoseconds; [Hours] and [Minutes] truncated to [int] are integer divisions,
    and a fraction printed with [%.nf] is the exact quotient rounded half to
    even.  Layouts are handed to [Time.Format], which the environment answers. *)

From S2P Require Import Prelude GoStrings Net Util Parse Session Persona ShellState.

(** [%.df] of the quotient [num / den], [den] positive. *)
Definition round_even (num den : Z) : Z :=
  let q := num / den in
  let r := 2 * (num mod den) in
  if (den <? r) || ((r =? den) && (q mod 2 =? 1)) then q + 1 else q.
Definition fixed (d : nat) (num den : Z) : str :=
  let k := 10 ^ Z.of_nat d in
  let n := round_even (Z.abs num * k) den in
  (if num <? 0 then $$"-" else []) ++ itoa (n / k) ++
  (match d with O => [] | _ => $$"." ++ pad_zero (Z.of_nat d) (itoa (n mod k)) end).

(** ** Time *)

Definition hours (up : Z) : Z := Z.quot up (3600 * second).
Definition minutes (up : Z) : Z := Z.quot up (60 * second).
Definition seconds (up : Z) : Z := Z.quot up second.
Definition boot_ns (p : Persona) : Z := BootEpoch p * second.

Definition bcast (ip : str) : str :=
  match last_index_byte ip "."%char with Some i => take i ip ++ $$".255" | None => ip end.

(** ** The process table *)

Record procRow : Type := Row {
  r_user : str; r_pid : Z; r_cpu : str; r_mem : str; r_vsz : Z; r_rss : Z; r_tty : str; r_stat : str;
  r_atBoot : bool; r_cpuTime : str; r_command : str
}.

Definition shellPID : Z := 2841.

Definition kthreads : list str :=
  [$$"[kthreadd]"; $$"[rcu_gp]"; $$"[rcu_par_gp]"; $$"[kworker/0:0H-events_highpri]"; $$"[mm_percpu_wq]";
   $$"[ksoftirqd/0]"; $$"[rcu_sched]"; $$"[migration/0]"; $$"[cpuhp/0]"; $$"[cpuhp/1]"; $$"[migration/1]";
   $$"[ksoftirqd/1]"; $$"[kworker/1:0H-events_highpri]"; $$"[kdevtmpfs]"; $$"[netns]"; $$"[kauditd]";
   $$"[khungtaskd]"; $$"[oom_reaper]"; $$"[writeback]"; $$"[kcompactd0]"; $$"[ksmd]"; $$"[khugepaged]";
   $$"[kintegrityd]"; $$"[kblockd]"; $$"[ata_sff]"; $$"[md]"; $$"[edac-poller]"; $$"[devfreq_wq]"; $$"[watchdogd]";
   $$"[kswapd0]"; $$"[kthrotld]"; $$"[ipv6_addrconf]"; $$"[kstrp]"; $$"[jbd2/xvda1-8]"; $$"[ext4-rsv-conver]";
   $$"[kworker/0:2-events]"; $$"[kworker/1:2-events]"; $$"[kworker/u4:1-flush-202:0]"].

Definition kthread_row (i : nat) (name : str) : procRow :=
  Row $$"root" (2 + 2 * Z.of_nat i) $$"0.0" $$"0.0" 0 0 $$"?"
    (if has_prefix name $$"[ksoftirqd" || has_prefix name $$"[migration" || has_prefix name $$"[rcu_sched"
     then $$"S" else $$"I<") true $$"0:00" name.

Definition procTable : list procRow :=
  [Row $$"root" 1 $$"0.0" $$"0.4" 168140 11200 $$"?" $$"Ss" true $$"0:24" $$"/sbin/init"] ++
  imap kthread_row kthreads ++
  [Row $$"root" 412 $$"0.0" $$"0.2" 93776 6020 $$"?" $$"Ss" true $$"0:01" $$"/lib/systemd/systemd-journald";
   Row $$"root" 440 $$"0.0" $$"0.2" 25004 6600 $$"?" $$"Ss" true $$"0:00" $$"/lib/systemd/systemd-udevd";
   Row $$"systemd+" 520 $$"0.0" $$"0.2" 90120 5900 $$"?" $$"Ssl" true $$"0:02" $$"/lib/systemd/systemd-networkd";
   Row $$"systemd+" 522 $$"0.0" $$"0.3" 25376 12100 $$"?" $$"Ss" true $$"0:03" $$"/lib/systemd/systemd-resolved";
   Row $$"root" 540 $$"0.0" $$"0.1" 8892 3200 $$"?" $$"Ss" true $$"0:00" $$"/usr/sbin/cron -f";
   Row $$"message+" 544 $$"0.0" $$"0.1" 9160 4800 $$"?" $$"Ss" true $$"0:01" $$"/usr/bin/dbus-daemon --system --address=systemd: --nofork --nopidfile";
   Row $$"root" 560 $$"0.0" $$"0.2" 16948 7400 $$"?" $$"Ss" true $$"0:00" $$"/lib/systemd/systemd-logind";
   Row $$"syslog" 566 $$"0.0" $$"0.1" 222440 5000 $$"?" $$"Ssl" true $$"0:00" $$"/usr/sbin/rsyslogd -n -iNONE";
   Row $$"root" 498 $$"0.0" $$"0.1" 15852 4800 $$"?" $$"Ss" true $$"0:00" $$"/usr/sbin/sshd -D";
   Row $$"mysql" 611 $$"0.3" $$"9.1" 1820400 184220 $$"?" $$"Ssl" true $$"8:42" $$"/usr/sbin/mysqld";
   Row $$"root" 719 $$"0.0" $$"0.5" 208880 11400 $$"?" $$"Ss" true $$"0:00" $$"nginx: master process";
   Row $$"www-data" 720 $$"0.0" $$"1.2" 209360 25240 $$"?" $$"S" true $$"0:11" $$"nginx: worker process";
   Row $$"www-data" 721 $$"0.0" $$"1.2" 209360 24980 $$"?" $$"S" true $$"0:09" $$"nginx: worker process";
   Row $$"www-data" 880 $$"0.0" $$"2.1" 294500 43120 $$"?" $$"S" true $$"0:33" $$"php-fpm: pool www";
   Row $$"root" 1408 $$"0.0" $$"0.1" 5828 1900 $$"tty1" $$"Ss+" true $$"0:00" $$"/sbin/agetty -o -p -- \u --noclear tty1 linux";
   Row $$"root" shellPID $$"0.0" $$"0.2" 21380 5360 $$"pts/0" $$"Ss" false $$"0:00" $$"-bash";
   Row $$"root" 2900 $$"0.0" $$"0.1" 19208 3600 $$"pts/0" $$"R+" false $$"0:00" $$"ps aux"].

Section text.
Context (W : World).

Definition uptimeOf (p : Persona) : M Z := since W (boot_ns p).

Definition psStartField (p : Persona) (atBoot : bool) (login : Z) : M str :=
  if atBoot then
    up ← uptimeOf p;
    mret (if up <? 24 * 3600 * second then w_format W $$"15:04" (boot_ns p) else w_format W $$"Jan02" (boot_ns p))
  else mret (w_format W $$"15:04" login).

Definition ps_row (p : Persona) (login : Z) (r : procRow) : M str :=
  start ← psStartField p (r_atBoot r) login;
  mret (
    pad_right 8 (r_user r) ++ $$" " ++ pad_left 5 (itoa (r_pid r)) ++ $$" " ++ pad_left 4 (r_cpu r) ++ $$" " ++
    pad_left 4 (r_mem r) ++ $$" " ++ pad_left 6 (itoa (r_vsz r)) ++ $$" " ++ pad_left 5 (itoa (r_rss r)) ++
    $$" " ++ pad_right 8 (r_tty r) ++ $$" " ++ pad_right 4 (r_stat r) ++ $$" " ++ pad_right 5 start ++ $$" " ++
    r_cpuTime r ++ $$" " ++ r_command r ++ $$"
").

Definition psStr (p : Persona) (full : bool) (login : Z) : M str :=
  if negb full then mret (
    $$"    PID TTY          TIME CMD
   2841 pts/0    00:00:00 bash
   2899 pts/0    00:00:00 ps
")
  else
    rows ← mmap (ps_row p login) procTable;
    mret (
    $$"USER         PID %CPU %MEM    VSZ   RSS TTY      STAT START   TIME COMMAND
" ++ concat rows).

Definition cmdPs (I : ident) (args : list str) : M str :=
  let full := existsb (fun a => contains a $$"a" && contains a $$"u" || contains a $$"e" || contains a $$"f")
                (drop 1 args) in
  psStr (i_p I) full (i_login I).

(** ** Memory *)

Definition swapTotalKiB : Z := 2097148.
Definition swapUsedKiB : Z := 86040.
Definition swapFreeKiB : Z := swapTotalKiB - swapUsedKiB.

(** [memNumbers] at an uptime: total, used, free, buff/cache, available. *)
Definition mem_at (up : Z) : Z * Z * Z * Z * Z :=
  let total := 4030836 in
  let used := 1740000 + Z.rem (minutes up) 90000 in
  let free := 240000 in
  (total, used, free, total - used - free, total - used + 600000).
Definition memNumbers (p : Persona) : M (Z * Z * Z * Z * Z) := up ← uptimeOf p; mret (mem_at up).

Definition free_text (m : Z * Z * Z * Z * Z) : str :=
  let '(total, used, free, buff, avail) := m in
  $$"               total        used        free      shared  buff/cache   available
Mem:        " ++ pad_left 8 (itoa total) ++ $$"    " ++ pad_left 8 (itoa used) ++ $$"    " ++
  pad_left 8 (itoa free) ++ $$"      199116    " ++ pad_left 8 (itoa buff) ++ $$"    " ++
  pad_left 8 (itoa avail) ++ $$"
Swap:     " ++ pad_left 10 (itoa swapTotalKiB) ++ $$"  " ++ pad_left 10 (itoa swapUsedKiB) ++ $$"  " ++
  pad_left 10 (itoa swapFreeKiB) ++ $$"
".
Definition freeStr (p : Persona) : M str := m ← memNumbers p; mret (free_text m).

(** ** Disks *)

Record diskSize : Type := Disk { human : str; blocks : Z }.
Definition sdCards : list diskSize := [Disk $$"14.8G" 15193088; Disk $$"29.7G" 30041088; Disk $$"59.6G" 61071360].
Definition cloudVols : list diskSize :=
  [Disk $$"20G" 20509264; Disk $$"40G" 41019200; Disk $$"60G" 62543872; Disk $$"80G" 83361792;
   Disk $$"100G" 104210432].
Definition dataVols : list diskSize := [Disk $$"49G" 51475068; Disk $$"98G" 104805376; Disk $$"196G" 209715200].

(** The FNV-1a loop of [diskHash], [fakeInode] and [fnv32], in [uint32]. *)
Definition fnv32 (s : str) : Z :=
  fold_left (fun h c => wrapu32 (Z.lxor h (bz c) * 16777619)) s 2166136261.
Definition diskHash (p : Persona) : Z := fnv32 (MachineID p).

(** [usage]: used, available, percent. *)
Definition usage (blocks h : Z) : Z * Z * Z :=
  let pct := 14 + h mod 60 in
  let used := blocks * pct / 100 in
  (used, blocks - used, pct).
Definition pick3 (l : list diskSize) (h : Z) : diskSize :=
  default (Disk [] 0) (l !! Z.to_nat (h mod zlen l)).

Definition dfStr (p : Persona) : str :=
  let h := diskHash p in
  if Embedded p then
    let root := pick3 sdCards h in
    let '(ru, ra, rp) := usage (blocks root) (Z.shiftr h 3) in
    $$"Filesystem     1K-blocks     Used Available Use% Mounted on
tmpfs             403084     1280    401804   1% /run
" ++ pad_right 14 $$"/dev/mmcblk0p1" ++ $$" " ++ pad_left 9 (itoa (blocks root)) ++ $$" " ++
    pad_left 8 (itoa ru) ++ $$" " ++ pad_left 9 (itoa ra) ++ $$" " ++ pad_left 3 (itoa rp) ++ $$"% /
tmpfs            2015416        0   2015416   0% /dev/shm
tmpfs               5120        0      5120   0% /run/lock
tmpfs             403080        4    403076   1% /run/user/0
"
  else
    let root := pick3 cloudVols h in
    let data := pick3 dataVols (Z.shiftr h 5) in
    let '(ru, ra, rp) := usage (blocks root) (Z.shiftr h 3) in
    let '(du, da, dp) := usage (blocks data) (Z.shiftr h 11) in
    $$"Filesystem     1K-blocks     Used Available Use% Mounted on
tmpfs             403084     1280    401804   1% /run
" ++ pad_right 14 $$"/dev/xvda1" ++ $$" " ++ pad_left 9 (itoa (blocks root)) ++ $$" " ++ pad_left 8 (itoa ru) ++
    $$" " ++ pad_left 9 (itoa ra) ++ $$" " ++ pad_left 3 (itoa rp) ++ $$"% /
tmpfs            2015416        0   2015416   0% /dev/shm
tmpfs               5120        0      5120   0% /run/lock
" ++ pad_right 14 $$"/dev/xvdb1" ++ $$" " ++ pad_left 9 (itoa (blocks data)) ++ $$" " ++ pad_left 8 (itoa du) ++
    $$" " ++ pad_left 9 (itoa da) ++ $$" " ++ pad_left 3 (itoa dp) ++ $$"% /var/lib/mysql
tmpfs             403080        4    403076   1% /run/user/0
".

Definition lsblkStr (p : Persona) : str :=
  let h := diskHash p in
  if Embedded p then
    let root := pick3 sdCards h in
    $$"NAME        MAJ:MIN RM   SIZE RO TYPE MOUNTPOINTS
mmcblk0     179:0    0 " ++ pad_left 5 (human root) ++ $$"  0 disk
└─mmcblk0p1 179:1    0 " ++ pad_left 5 (human root) ++ $$"  0 part /
"
  else
    let root := pick3 cloudVols h in
    let data := pick3 dataVols (Z.shiftr h 5) in
    $$"NAME    MAJ:MIN RM  SIZE RO TYPE MOUNTPOINTS
xvda    202:0    0 " ++ pad_left 5 (human root) ++ $$"  0 disk
└─xvda1 202:1    0 " ++ pad_left 5 (human root) ++ $$"  0 part /
xvdb    202:16   0 " ++ pad_left 5 (human data) ++ $$"  0 disk
└─xvdb1 202:17   0 " ++ pad_left 5 (human data) ++ $$"  0 part /var/lib/mysql
".

(** ** Uptime, sessions *)

Definition uptime_line (up t : Z) : str :=
  let days := Z.quot (hours up) 24 in
  $$" " ++ (w_format W $$"15:04:05" t) ++ $$" up " ++ itoa days ++ $$" days, " ++
  pad_left 2 (itoa (Z.rem (hours up) 24)) ++ $$":" ++ pad_zero 2 (itoa (Z.rem (minutes up) 60)) ++
  $$",  1 user,  load average: 0." ++ pad_zero 2 (itoa (8 + Z.rem days 30)) ++ $$", 0." ++
  pad_zero 2 (itoa (12 + Z.rem days 20)) ++ $$", 0." ++ pad_zero 2 (itoa (5 + Z.rem days 15)) ++ $$"
".
Definition uptimeStr (p : Persona) : M str := up ← uptimeOf p; t ← now W; mret (uptime_line up t).

Definition idle_text (d : Z) : str :=
  let s := seconds d in
  if s <? 60 then pad_left 2 (itoa s) ++ $$".00s"
  else
    let m := Z.quot s 60 in
    if m <? 60 then pad_left 5 (itoa m) ++ $$"m"
    else pad_left 2 (itoa (Z.quot m 60)) ++ $$":" ++ pad_zero 2 (itoa (Z.rem m 60)).
Definition idleField (login : Z) : M str := d ← since W login; mret (idle_text d).

Definition wStr (p : Persona) (user srcIP : str) (login : Z) : M str :=
  idle ← idleField login;
  up ← uptimeStr p;
  mret (trim_suffix up [nl] ++
    $$"
USER     TTY      FROM             LOGIN@   IDLE   JCPU   PCPU WHAT
" ++
    pad_right 8 user ++ $$" pts/0    " ++ pad_right 15 srcIP ++ $$" " ++ (w_format W $$"15:04" login) ++
    $$"    " ++ idle ++ $$"  0.04s  0.00s -bash
").

Definition hour : Z := 3600 * second.
Definition minute : Z := 60 * second.
Definition lastStr (p : Persona) (user srcIP : str) (login : Z) : M str :=
  t ← now W;
  let day x := w_format W $$"Mon Jan _2 15:04" x in
  let hm x := w_format W $$"15:04" x in
  mret (
    pad_right 8 user ++ $$" pts/0        " ++ pad_right 15 srcIP ++ $$" " ++ day login ++ $$"   still logged in
" ++ pad_right 8 user ++ $$" pts/0        " ++ pad_right 15 (GatewayIP p) ++ $$" " ++ day (t - 26 * hour) ++
    $$" - " ++ hm (t - 26 * hour + 42 * minute) ++ $$"  (00:42)
" ++ pad_right 8 user ++ $$" pts/0        " ++ pad_right 15 (GatewayIP p) ++ $$" " ++ day (t - 50 * hour) ++
    $$" - " ++ hm (t - 50 * hour + 78 * minute) ++ $$"  (01:18)
deploy   pts/1        " ++ pad_right 15 (BackupIP p) ++ $$" " ++ day (t - 74 * hour) ++ $$" - " ++
    hm (t - 74 * hour + 9 * minute) ++ $$"  (00:09)

wtmp begins " ++ w_format W $$"Mon Jan _2 15:04:05 2006" (boot_ns p - 72 * hour) ++ $$"
").

(** ** Network *)

Definition mib (n : Z) : str := fixed 1 n 1048576.
Definition ifconfig_text (p : Persona) (up : Z) : str :=
  let rxp := 184000 + up * 7 in
  let txp := 142000 + up * 5 in
  let rxb := rxp * 812 in
  let txb := txp * 690 in
  let lo := up * 3 * 98 in
  let byte_of n := Z.land n 255 in
  $$"eth0: flags=4163<UP,BROADCAST,RUNNING,MULTICAST>  mtu 1500
        inet " ++ HostIP p ++ $$"  netmask 255.255.255.0  broadcast " ++ bcast (HostIP p) ++ $$"
        inet6 fe80::" ++ pad_zero 2 (hex (byte_of up)) ++ $$":" ++ pad_zero 2 (hex (byte_of (Z.shiftr up 8))) ++
  $$"ff:fe" ++ pad_zero 2 (hex (byte_of up)) ++ $$":" ++ pad_zero 2 (hex (byte_of (Z.shiftr up 4))) ++
  $$"  prefixlen 64  scopeid 0x20<link>
        ether " ++ MAC p ++ $$"  txqueuelen 1000  (Ethernet)
        RX packets " ++ itoa rxp ++ $$"  bytes " ++ itoa rxb ++ $$" (" ++ mib rxb ++ $$" MiB)
        RX errors 0  dropped 0  overruns 0  frame 0
        TX packets " ++ itoa txp ++ $$"  bytes " ++ itoa txb ++ $$" (" ++ mib txb ++ $$" MiB)
        TX errors 0  dropped 0 overruns 0  carrier 0  collisions 0

lo: flags=73<UP,LOOPBACK,RUNNING>  mtu 65536
        inet 127.0.0.1  netmask 255.0.0.0
        inet6 ::1  prefixlen 128  scopeid 0x10<host>
        loop  txqueuelen 1000  (Local Loopback)
        RX packets " ++ itoa (up * 3) ++ $$"  bytes " ++ itoa lo ++ $$" (" ++ mib lo ++ $$" MiB)
        TX packets " ++ itoa (up * 3) ++ $$"  bytes " ++ itoa lo ++ $$" (" ++ mib lo ++ $$" MiB)
".
Definition ifconfigStr (p : Persona) : M str := up ← uptimeOf p; mret (ifconfig_text p (seconds up)).

Definition ipAddrStr (p : Persona) : str :=
  $$"1: lo: <LOOPBACK,UP,LOWER_UP> mtu 65536 qdisc noqueue state UNKNOWN group default qlen 1000
    link/loopback 00:00:00:00:00:00 brd 00:00:00:00:00:00
    inet 127.0.0.1/8 scope host lo
       valid_lft forever preferred_lft forever
2: eth0: <BROADCAST,MULTICAST,UP,LOWER_UP> mtu 1500 qdisc fq_codel state UP group default qlen 1000
    link/ether " ++ MAC p ++ $$" brd ff:ff:ff:ff:ff:ff
    inet " ++ HostIP p ++ $$"/24 brd " ++ bcast (HostIP p) ++ $$" scope global eth0
       valid_lft forever preferred_lft forever
".
(** The slice panics when the address has no dot. *)
Definition ipRouteStr (p : Persona) : M str :=
  match last_index_byte (HostIP p) "."%char with
  | None => panic
  | Some i =>
      let net := take i (HostIP p) ++ $$".0" in
      mret (
        $$"default via " ++ GatewayIP p ++ $$" dev eth0 proto static
" ++ net ++ $$"/24 dev eth0 proto kernel scope link src " ++ HostIP p ++ $$"
")
  end.
Definition ipLinkStr (p : Persona) : str :=
  $$"1: lo: <LOOPBACK,UP,LOWER_UP> mtu 65536 qdisc noqueue state UNKNOWN mode DEFAULT group default qlen 1000
    link/loopback 00:00:00:00:00:00 brd 00:00:00:00:00:00
2: eth0: <BROADCAST,MULTICAST,UP,LOWER_UP> mtu 1500 qdisc fq_codel state UP mode DEFAULT group default qlen 1000
    link/ether " ++ MAC p ++ $$" brd ff:ff:ff:ff:ff:ff
".

Definition served (s : ServiceSpec) : bool :=
  bool_decide (Protocol s ∈ [$$"ssh"; $$"telnet"; $$"http"; $$"https"; $$"ftp"]).
(** The [seen] map of [listenPorts]: the first occurrence of each port is kept. *)
Fixpoint first_seen (seen : list Z) (l : list ServiceSpec) : list Z :=
  match l with
  | [] => []
  | s :: l' =>
      if served s && negb (bool_decide (Port s ∈ seen)) then Port s :: first_seen (Port s :: seen) l'
      else first_seen seen l'
  end.
Definition listenPorts (p : Persona) : list Z := merge_sort Z.le (first_seen [] (Services p)).
Definition mgmtPort (p : Persona) : Z :=
  match List.find (fun s => Protocol s =s $$"ssh") (Services p) with
  | Some s => Port s
  | None => match listenPorts p with x :: _ => x | [] => 22 end
  end.


Definition listen_line (local : str) : str :=
  $$"tcp        0      0 " ++ pad_right 23 local ++ $$" " ++ pad_right 23 $$"0.0.0.0:*" ++ $$" LISTEN
".
Definition netstatStr (p : Persona) : str :=
  let host port := HostIP p ++ $$":" ++ itoa port in
  $$"Active Internet connections (servers and established)
Proto Recv-Q Send-Q Local Address           Foreign Address         State
" ++
  flat_map (fun port => listen_line ($$"0.0.0.0:" ++ itoa port)) (listenPorts p) ++
  listen_line $$"127.0.0.1:3306" ++
  $$"tcp        0      0 " ++ pad_right 23 (host (mgmtPort p)) ++ $$" " ++
  pad_right 23 (GatewayIP p ++ $$":51224") ++ $$" ESTABLISHED
" ++
  $$"tcp        0    140 " ++ pad_right 23 (host (mgmtPort p)) ++ $$" " ++
  pad_right 23 (BackupIP p ++ $$":43122") ++ $$" ESTABLISHED
".

Definition ssStr (p : Persona) : str :=
  $$"State    Recv-Q   Send-Q     Local Address:Port       Peer Address:Port
" ++
  flat_map (fun port =>
    $$"LISTEN   0        128        " ++ pad_right 24 ($$"0.0.0.0:" ++ itoa port) ++ $$" 0.0.0.0:*
") (listenPorts p) ++
  $$"LISTEN   0        70         " ++ pad_right 24 $$"127.0.0.1:3306" ++ $$" 0.0.0.0:*
".

(** ** Fixed listings *)

Definition lscpuStr (p : Persona) : str :=
  if Embedded p then
    $$"Architecture:            aarch64
  CPU op-mode(s):        32-bit, 64-bit
  Byte Order:            Little Endian
CPU(s):                  2
  On-line CPU(s) list:   0,1
Vendor ID:               ARM
  Model name:            Cortex-A72
    Model:               3
    Thread(s) per core:  1
    Core(s) per socket:  2
    Socket(s):           1
    Stepping:            r0p3
    BogoMIPS:            108.00
    Flags:               fp asimd evtstrm aes pmull sha1 sha2 crc32 cpuid
Caches (sum of all):
  L1d:                   128 KiB (2 instances)
  L1i:                   96 KiB (2 instances)
  L2:                    2 MiB (2 instances)
"
  else
    $$"Architecture:            x86_64
  CPU op-mode(s):        32-bit, 64-bit
  Byte Order:            Little Endian
CPU(s):                  2
  On-line CPU(s) list:   0,1
Vendor ID:               GenuineIntel
  Model name:            Intel(R) Xeon(R) CPU E5-2680 v4 @ 2.40GHz
    CPU family:          6
    Model:               79
    Thread(s) per core:  1
    Core(s) per socket:  2
    Socket(s):           1
    Stepping:            1
    BogoMIPS:            4799.99
Virtualization features:
  Hypervisor vendor:     Xen
  Virtualization type:   full
Caches (sum of all):
  L1d:                   64 KiB (2 instances)
  L1i:                   64 KiB (2 instances)
  L2:                    512 KiB (2 instances)
  L3:                    35 MiB (1 instance)
".
Definition mountStr (p : Persona) : str :=
  if Embedded p then
    $$"sysfs on /sys type sysfs (rw,nosuid,nodev,noexec,relatime)
proc on /proc type proc (rw,nosuid,nodev,noexec,relatime)
udev on /dev type devtmpfs (rw,nosuid,relatime,size=1981624k,nr_inodes=495406,mode=755)
/dev/mmcblk0p1 on / type ext4 (rw,relatime)
tmpfs on /run type tmpfs (rw,nosuid,nodev,noexec,relatime,size=403084k,mode=755)
tmpfs on /dev/shm type tmpfs (rw,nosuid,nodev)
tmpfs on /run/lock type tmpfs (rw,nosuid,nodev,noexec,relatime,size=5120k)
"
  else
    $$"sysfs on /sys type sysfs (rw,nosuid,nodev,noexec,relatime)
proc on /proc type proc (rw,nosuid,nodev,noexec,relatime)
udev on /dev type devtmpfs (rw,nosuid,relatime,size=1981624k,nr_inodes=495406,mode=755)
/dev/xvda1 on / type ext4 (rw,relatime)
/dev/xvdb1 on /var/lib/mysql type ext4 (rw,relatime)
tmpfs on /run type tmpfs (rw,nosuid,nodev,noexec,relatime,size=403084k,mode=755)
tmpfs on /dev/shm type tmpfs (rw,nosuid,nodev)
tmpfs on /run/lock type tmpfs (rw,nosuid,nodev,noexec,relatime,size=5120k)
".

Definition dmesgStr (p : Persona) : str :=
  if Embedded p then
    $$"[    0.000000] Linux version " ++ KernelRel p ++ $$"
[    0.000000] Machine model: Generic DT based system
[    0.000000] efi: UEFI not found.
[    0.000000] CPU: ARMv8 Processor [410fd083] revision 3
[    0.000000] psci: probing for conduit method from DT.
[    0.123456] EXT4-fs (mmcblk0p1): mounted filesystem with ordered data mode
[    1.234567] systemd[1]: Detected architecture arm64.
[    2.345678] mmc0: new ultra high speed SDR104 SDHC card at address aaaa
[    5.678901] IPv6: ADDRCONF(NETDEV_CHANGE): eth0: link becomes ready
"
  else
    $$"[    0.000000] Linux version " ++ KernelRel p ++ $$"
[    0.000000] Command line: BOOT_IMAGE=/boot/vmlinuz-" ++ KernelRel p ++ $$" root=UUID=" ++ RootUUID p ++
    $$" ro console=tty1
[    0.004000] KERNEL supported cpus: Intel GenuineIntel
[    0.008000] x86/fpu: Supporting XSAVE feature 0x001: 'x87 floating point registers'
[    1.234567] EXT4-fs (xvda1): mounted filesystem with ordered data mode
[    2.345678] systemd[1]: Detected virtualization xen.
[    3.456789] systemd[1]: Detected architecture x86-64.
[    4.567890] eth0: renamed from tmp0
[    5.678901] IPv6: ADDRCONF(NETDEV_CHANGE): eth0: link becomes ready
".
End text.
