(* ===== verification/ShellCmds.v ===== *)
(** * ShellCmds: the commands that produce a string (internal/shell/commands.go)

    A command that only looks at the overlay is a function of the session [fs];
    one that reads the clock, logs or writes is a computation. *)

From S2P Require Import Prelude GoStrings Net Paths VfsNode VfsSession Util Event Parse Session Persona ShellState ShellText.

(** ** Listings *)

(** [fs.FileMode.String]. *)
Definition mode_letters : str := $$"dalTLDpSugct?".
Definition mode_string (m : Z) : str :=
  let hi := concat (imap (fun i c => if Z.testbit m (31 - Z.of_nat i) then [c] else []) mode_letters) in
  (match hi with [] => $$"-" | _ => hi end) ++
  imap (fun i c => if Z.testbit m (8 - Z.of_nat i) then c else "-"%char) $$"rwxrwxrwx".

(** [parentPath]. *)
Definition parentPath (abs : str) : str :=
  let abs := trim_right abs [slash] in
  match last_index_byte abs slash with Some (S i) => take (S i) abs | _ => [slash] end.

Section text.
Context (W : World).

Definition ls_fields (n : node) (mode nm : str) : str :=
  mode ++ $$" " ++ pad_left 2 (itoa (LinkCount n)) ++ $$" " ++ pad_right 8 (uname n) ++ $$" " ++
  pad_right 8 (gname n) ++ $$" " ++ pad_left 8 (itoa (Size n)) ++ $$" " ++
  w_format W $$"Jan _2 15:04" (mtime n) ++ $$" " ++ nm ++ [nl].
Definition lsLongLine (n : node) : str :=
  let m := mode_string (mode n) in
  ls_fields n (if IsLink n then "l"%char :: drop 1 m else m)
    (if IsLink n && negb (link n =s []) then name n ++ $$" -> " ++ link n else name n).
Definition lsLongNamed (n : node) (nm : str) : str := ls_fields n (mode_string (mode n)) nm.

Definition is_flag (a : str) : bool := has_prefix a $$"-".
Definition bare (l : list str) : list str := List.filter (fun a => negb (is_flag a)) l.

Definition ls_dir (fs : session) (long all : bool) (abs : str) (n : node) : str :=
  let entries := match ReadDir fs abs with Ok l => l | Err _ => [] end in
  let visible := List.filter (fun e => all || negb (has_prefix (name e) $$".")) entries in
  if long then
    let count := zlen visible + (if all then 2 else 0) in
    $$"total " ++ itoa (count * 4) ++ [nl] ++
    (if all then
       lsLongNamed n $$"." ++
       lsLongNamed (match Stat fs (parentPath abs) with Ok pn => pn | Err _ => n end) $$".."
     else []) ++
    flat_map lsLongLine visible
  else
    match (if all then [$$"."; $$".."] else []) ++ map name visible with
    | [] => []
    | names => join $$"  " names ++ [nl]
    end.

Definition ls_path (fs : session) (long all many : bool) (idx : nat) (pth : str) : str :=
  let abs := Resolve fs pth in
  match Stat fs abs with
  | Err _ => $$"ls: cannot access '" ++ pth ++ $$"': No such file or directory" ++ [nl]
  | Ok n =>
      (if many then (if (0 <? idx)%nat then [nl] else []) ++ pth ++ $$":" ++ [nl] else []) ++
      (if negb (IsDir n) then (if long then lsLongLine n else name n ++ [nl])
       else ls_dir fs long all abs n)
  end.

Definition cmdLs (fs : session) (args : list str) : str :=
  let is_opt a := is_flag a && (1 <? zlen a) in
  let opts := List.filter is_opt (drop 1 args) in
  let paths := match List.filter (fun a => negb (is_opt a)) (drop 1 args) with [] => [$$"."] | l => l end in
  concat (imap (ls_path fs (existsb (fun a => contains a $$"l") opts) (existsb (fun a => contains a $$"a") opts)
                  (1 <? zlen paths)) paths).

(** ** Reading files *)

Definition maxCmdOutput : Z := Z.shiftl 4 20.

(** [/proc/uptime] and [/proc/meminfo] from the uptime. *)
Definition proc_uptime (up : Z) : str :=
  fixed 2 up second ++ $$" " ++ fixed 2 (up * 2 * 985) (1000 * second) ++ [nl].
Definition proc_meminfo (m : Z * Z * Z * Z * Z) : str :=
  let '(total, _, free, buff, avail) := m in
  let buffers := 121680 in
  let cached := buff - buffers in
  $$"MemTotal:       " ++ pad_left 8 (itoa total) ++ $$" kB
MemFree:        " ++ pad_left 8 (itoa free) ++ $$" kB
MemAvailable:   " ++ pad_left 8 (itoa avail) ++ $$" kB
Buffers:        " ++ pad_left 8 (itoa buffers) ++ $$" kB
Cached:         " ++ pad_left 8 (itoa cached) ++ $$" kB
SwapCached:            0 kB
SwapTotal:      " ++ pad_left 8 (itoa swapTotalKiB) ++ $$" kB
SwapFree:       " ++ pad_left 8 (itoa swapFreeKiB) ++ $$" kB
".
Definition procDynamic (p : Persona) (abs : str) : M (option str) :=
  if abs =s $$"/proc/uptime" then up ← uptimeOf W p; mret (Some (proc_uptime up))
  else if abs =s $$"/proc/meminfo" then m ← memNumbers W p; mret (Some (proc_meminfo m))
  else mret None.

Definition readFile (p : Persona) (abs : str) : M (res str) :=
  dyn ← procDynamic p abs;
  match dyn with Some d => mret (Ok d) | None => fs_read abs end.

(** ** Bait images (internal/shell/interactive.go) *)

Definition hasImageExt (p : str) : bool :=
  let low := to_lower p in
  existsb (has_suffix low) [$$".png"; $$".jpg"; $$".jpeg"; $$".gif"; $$".bmp"].
Definition isLootImage (p : Persona) (abs : str) : bool :=
  negb (LootPath p =s []) && has_prefix abs (LootPath p ++ [slash]) && hasImageExt abs.
Definition reveal_text (art : str) : str := trim_right art [nl] ++ [nl].
Definition revealForLoot (kind abs cmd : str) : M str :=
  on_s (LogHoneytoken (kind ++ $$":" ++ path_base abs) cmd) ;;
  art ← randomReveal W;
  mret (reveal_text art).

(** The file loop of [cmdCat]; [b] is the builder. *)
Fixpoint cat_files (p : Persona) (b : str) (code : Z) (files : list str) : M (str * Z) :=
  match files with
  | [] => mret (b, code)
  | f :: rest =>
      if maxCmdOutput <=? zlen b then mret (b, code)
      else
        abs ← fs_resolve f;
        r ← fs_stat abs;
        let room := Z.to_nat (maxCmdOutput - zlen b) in
        match r with
        | Err ErrNotDir => cat_files p (b ++ $$"cat: " ++ f ++ $$": Not a directory" ++ [nl]) 1 rest
        | Err _ => cat_files p (b ++ $$"cat: " ++ f ++ $$": No such file or directory" ++ [nl]) 1 rest
        | Ok n =>
            if IsDir n then cat_files p (b ++ $$"cat: " ++ f ++ $$": Is a directory" ++ [nl]) 1 rest
            else if isLootImage p abs then
              art ← revealForLoot $$"loot-view" abs ($$"cat " ++ f);
              cat_files p (b ++ art) code rest
            else
              dyn ← procDynamic p abs;
              cat_files p (b ++ take room (match dyn with Some d => d | None => Content n end)) code rest
        end
  end.
Definition cmdCat (p : Persona) (args : list str) : M (str * Z) :=
  match bare (drop 1 args) with [] => mret ([], 0) | files => cat_files p [] 0 files end.

Definition cmdCd (args : list str) : M (str * Z) :=
  home ← getenv $$"HOME";
  let target := match args with _ :: a :: _ => a | _ => home end in
  abs ← fs_resolve target;
  e ← fs_chdir abs;
  match e with
  | Some ErrNotDir => mret ($$"-bash: cd: " ++ target ++ $$": Not a directory" ++ [nl], 1)
  | Some _ => mret ($$"-bash: cd: " ++ target ++ $$": No such file or directory" ++ [nl], 1)
  | None =>
      old ← getenv $$"PWD";
      setenv $$"OLDPWD" old ;;
      wd ← gets (fun st => cwd (sh_fs st));
      setenv $$"PWD" wd ;;
      mret ([], 0)
  end.

(** ** echo *)

Definition isHexDigit (c : ascii) : bool := in_range c 48 57 || in_range c 97 102 || in_range c 65 70.
Definition hexDigitVal (c : ascii) : Z :=
  if in_range c 48 57 then bz c - 48 else if in_range c 97 102 then bz c - 97 + 10 else bz c - 65 + 10.
Definition isOctDigit (c : ascii) : bool := in_range c 48 55.
(** At most [n] leading digits in base [b]: their value, how many, the rest. *)
Fixpoint digit_run (ok : ascii -> bool) (val : ascii -> Z) (b : Z) (n : nat) (acc : Z) (s : str) : Z * nat :=
  match n, s with
  | S n', c :: s' =>
      if ok c then let '(v, k) := digit_run ok val b n' (acc * b + val c) s' in (v, S k) else (acc, O)
  | _, _ => (acc, O)
  end.
(** The one-letter escapes. *)
Definition simple_escape (c : ascii) : str :=
  match List.find (fun e => bool_decide (e.1 = c))
          [("n"%char, 10); ("t"%char, 9); ("r"%char, 13); ("a"%char, 7); ("b"%char, 8); ("f"%char, 12);
           ("v"%char, 11); ("e"%char, 27); ("\"%char, 92)] with
  | Some (_, v) => [zb v]
  | None => ["\"%char; c]
  end.
(** [decodeEchoEscapes]: [skip] bytes of an escape are already consumed. *)
Fixpoint decode_from (skip : nat) (s : str) : str :=
  match s with
  | [] => []
  | c :: s1 =>
      match skip with
      | S k => decode_from k s1
      | O =>
          match s1 with
          | [] => [c]
          | e :: s2 =>
              if negb (bool_decide (c = "\"%char)) then c :: decode_from 0 s1
              else if bool_decide (e = "x"%char) then
                let '(h, n) := digit_run isHexDigit hexDigitVal 16 2 0 s2 in
                (match n with O => $$"\x" | _ => [zb h] end) ++ decode_from (S n) s1
              else if bool_decide (e = "0"%char) then
                let '(o, n) := digit_run isOctDigit (fun c => bz c - 48) 8 3 0 s2 in
                zb o :: decode_from (S n) s1
              else simple_escape e ++ decode_from 1 s1
          end
      end
  end.
Definition decodeEchoEscapes (s : str) : str := decode_from 0 s.

(** The option loop of [cmdEcho]: newline wanted, escapes wanted, the rest. *)
Fixpoint echo_opts (nl escape : bool) (rest : list str) : bool * bool * list str :=
  match rest with
  | a :: rest' =>
      if bool_decide (a ∈ [$$"-n"; $$"-e"; $$"-ne"; $$"-en"; $$"-E"]) then
        echo_opts (nl && negb (contains a $$"n"))
          ((escape || contains a $$"e") && negb (a =s $$"-E")) rest'
      else (nl, escape, rest)
  | [] => (nl, escape, [])
  end.
Definition cmdEcho (args : list str) : str :=
  let '(newline, escape, rest) := echo_opts true false (drop 1 args) in
  let out := join $$" " rest in
  let out := if escape then decodeEchoEscapes out else out in
  if newline then out ++ [nl] else out.

Definition cmdUname (p : Persona) (args : list str) : str :=
  match args with
  | [_] => $$"Linux" ++ [nl]
  | _ =>
      let letters := flat_map (fun a => if is_flag a then drop 1 a else []) (drop 1 args) in
      let has c := bool_decide (c ∈ letters) in
      if has "a"%char then Uname p ++ [nl]
      else
        match (if has "s"%char then [$$"Linux"] else []) ++ (if has "n"%char then [Hostname p] else []) ++
              (if has "r"%char then [KernelRel p] else []) ++ (if has "v"%char then [KernelVer p] else []) ++
              (if has "m"%char then [Arch p] else []) ++
              (if has "p"%char || has "i"%char then [Arch p] else []) with
        | [] => $$"Linux" ++ [nl]
        | parts => join $$" " parts ++ [nl]
        end
  end.

(** ** head, tail, wc, grep *)

Definition allDigits (s : str) : bool := negb (s =s []) && forallb is_digit s.

(** The option loop of [cmdHeadTail]: line count, byte count if [-c], file. *)
Fixpoint head_opts (n : Z) (bc : option Z) (file : str) (args : list str) : Z * option Z * str :=
  match args with
  | [] => (n, bc, file)
  | a :: rest =>
      if has_prefix a $$"-c" then
        match rest with
        | v :: rest' => if a =s $$"-c" then head_opts n (Some (fst (atoi v))) file rest'
                        else head_opts n (Some (fst (atoi (drop 2 a)))) file rest
        | [] => head_opts n (Some (fst (atoi (drop 2 a)))) file rest
        end
      else if has_prefix a $$"-n" then
        match rest with
        | v :: rest' => if a =s $$"-n" then head_opts (fst (atoi v)) bc file rest'
                        else head_opts (fst (atoi (drop 2 a))) bc file rest
        | [] => head_opts (fst (atoi (drop 2 a))) bc file rest
        end
      else if (1 <? zlen a) && is_flag a && allDigits (drop 1 a) then head_opts (fst (atoi (drop 1 a))) bc file rest
      else if is_flag a then head_opts n bc file rest
      else head_opts n bc a rest
  end.

(** The count of lines or bytes shown: a sign is dropped, the result clamped;
    the smallest [int] stays negative and the slice panics. *)
Definition clamp_count (n len : Z) : option Z :=
  let n := if n <? 0 then wrap64 (- n) else n in
  let n := if len <? n then len else n in
  if n <? 0 then None else Some n.

Definition first_last {A} (tail : bool) (n : Z) (l : list A) : list A :=
  if tail then drop (Z.to_nat (zlen l - n)) l else take (Z.to_nat n) l.

Definition cmdHeadTail (p : Persona) (args : list str) (stdin : str) (tail : bool) : M (str * Z) :=
  let '(n, bc, file) := head_opts 10 None [] (drop 1 args) in
  r ← (match file with
       | [] => mret (Ok stdin)
       | _ => abs ← fs_resolve file; readFile p abs
       end);
  match r with
  | Err _ =>
      mret ((if tail then $$"tail" else $$"head") ++ $$": cannot open '" ++ file ++
            $$"' for reading: No such file or directory" ++ [nl], 1)
  | Ok data =>
      match bc with
      | Some bc =>
          match clamp_count bc (zlen data) with
          | Some k => mret (first_last tail k data, 0)
          | None => panic
          end
      | None =>
          let lines := split_byte nl (trim_right data [nl]) in
          match clamp_count n (zlen lines) with
          | Some k => mret (join [nl] (first_last tail k lines) ++ [nl], 0)
          | None => panic
          end
      end
  end.

Definition cmdWc (p : Persona) (args : list str) (stdin : str) : M (str * Z) :=
  let mode := default [] (last (List.filter is_flag (drop 1 args))) in
  let file := default [] (last (bare (drop 1 args))) in
  r ← (match file with
       | [] => mret (Ok stdin)
       | _ => abs ← fs_resolve file; readFile p abs
       end);
  match r with
  | Err _ => mret ($$"wc: " ++ file ++ $$": No such file or directory" ++ [nl], 1)
  | Ok data =>
      let lines := count_byte data nl in
      let words := zlen (fields data) in
      let bytesN := zlen data in
      let one n := itoa n ++ $$" " ++ file ++ [nl] in
      mret ((if contains mode $$"l" then one lines
             else if contains mode $$"w" then one words
             else if contains mode $$"c" then one bytesN
             else pad_left 7 (itoa lines) ++ $$" " ++ pad_left 7 (itoa words) ++ $$" " ++
                  pad_left 7 (itoa bytesN) ++ $$" " ++ file ++ [nl]), 0)
  end.

(** The loop of [cmdGrep]: pattern, file and inversion. *)
Fixpoint grep_opts (pat file : str) (invert : bool) (args : list str) : str * str * bool :=
  match args with
  | [] => (pat, file, invert)
  | a :: rest =>
      if is_flag a then grep_opts pat file (invert || contains a $$"v") rest
      else if pat =s [] then grep_opts a file invert rest
      else grep_opts pat a invert rest
  end.
Definition grep_lines (pat : str) (invert : bool) (data : str) : list str :=
  List.filter (fun l => negb (Bool.eqb (contains l pat) invert) && negb (l =s [])) (split_byte nl data).
Definition cmdGrep (p : Persona) (args : list str) (stdin : str) : M (str * Z) :=
  let '(pat, file, invert) := grep_opts [] [] false (drop 1 args) in
  r ← (match file with
       | [] => mret (Ok stdin)
       | _ => abs ← fs_resolve file; readFile p abs
       end);
  match r with
  | Err _ => mret ($$"grep: " ++ file ++ $$": No such file or directory" ++ [nl], 2)
  | Ok data =>
      match grep_lines pat invert data with
      | [] => mret ([], 1)
      | out => mret (join [nl] out ++ [nl], 0)
      end
  end.

(** ** which, env, stat, file *)

Definition which_dirs : list str := [$$"/usr/bin"; $$"/bin"; $$"/usr/sbin"; $$"/sbin"; $$"/usr/local/bin"].
Definition which_one (fs : session) (a : str) : option str :=
  List.find (Exists fs) (map (fun d => d ++ [slash] ++ a) which_dirs).
Definition cmdWhich (fs : session) (args : list str) : str * Z :=
  let found := map (which_one fs) (bare (drop 1 args)) in
  let code := if existsb (fun o => match o with None => true | _ => false end) found then 1 else 0 in
  match omap id found with
  | [] => ([], code)
  | out => (join [nl] out ++ [nl], code)
  end.

Definition env_keys : list str :=
  [$$"PATH"; $$"HOME"; $$"USER"; $$"LOGNAME"; $$"SHELL"; $$"TERM"; $$"HOSTNAME"; $$"PWD"; $$"SHLVL"; $$"LANG"].
Definition cmdEnv (env : gmap str str) : str :=
  flat_map (fun k => match env !! k with Some v => k ++ $$"=" ++ v ++ [nl] | None => [] end) env_keys.

Definition fakeInode (path : str) : Z := fnv32 path mod 8000000 + 100000.
Definition octal (n : Z) : str := digits 8 (digit_fuel n) n [].
Definition stat_text (abs a : str) (n : node) : str :=
  let typ := if IsDir n then $$"directory" else if IsLink n then $$"symbolic link" else $$"regular file" in
  $$"  File: " ++ a ++ [nl] ++
  $$"  Size: " ++ pad_right 10 (itoa (Size n)) ++ $$" Blocks: " ++
  pad_right 8 (itoa (Z.quot (Size n + 511) 512)) ++ $$" IO Block: 4096   " ++ typ ++ [nl] ++
  $$"Device: 801h/2049d" ++ [tab] ++ $$"Inode: " ++ pad_right 11 (itoa (fakeInode abs)) ++ $$" Links: " ++
  itoa (LinkCount n) ++ [nl] ++
  $$"Access: (" ++ pad_zero 4 (octal (Z.land (mode n) 511)) ++ $$"/" ++ mode_string (mode n) ++ $$")  Uid: (" ++
  pad_left 5 (itoa (uid n)) ++ $$"/" ++ pad_left 8 (uname n) ++ $$")   Gid: (" ++ pad_left 5 (itoa (gid n)) ++
  $$"/" ++ pad_left 8 (gname n) ++ $$")" ++ [nl] ++
  $$"Modify: " ++ w_format W $$"2006-01-02 15:04:05.000000000 -0700" (mtime n).
Definition cmdStat (fs : session) (args : list str) : str * Z :=
  let one a := match Stat fs (Resolve fs a) with
               | Ok n => (stat_text (Resolve fs a) a n, 0)
               | Err _ => ($$"stat: cannot statx '" ++ a ++ $$"': No such file or directory", 1)
               end in
  let rows := map one (bare (drop 1 args)) in
  (join [nl] (map fst rows) ++ [nl], if existsb (fun r => r.2 =? 1) rows then 1 else 0).

Definition isPrintable (b : str) : bool :=
  forallb (fun c => bool_decide (c ∈ [nl; tab; cr]) || in_range c 32 126) b.
Definition describeFile (n : node) (nm : str) : str :=
  if IsDir n then $$"directory"
  else if IsLink n then $$"symbolic link to " ++ link n
  else
    let low := to_lower nm in
    let ends l := existsb (has_suffix low) l in
    if ends [$$".jpg"; $$".jpeg"] then $$"JPEG image data, JFIF standard 1.01, resolution (DPI), density 72x72, segment length 16, baseline, precision 8, 1920x1080, components 3"
    else if ends [$$".png"] then $$"PNG image data, 1920 x 1080, 8-bit/color RGBA, non-interlaced"
    else if ends [$$".gif"] then $$"GIF image data, version 89a, 800 x 600"
    else if ends [$$".gz"; $$".tgz"] then $$"gzip compressed data, original size modulo 2^32"
    else if ends [$$".zip"] then $$"Zip archive data, at least v2.0 to extract"
    else if ends [$$".tar"] then $$"POSIX tar archive"
    else if ends [$$".sh"] then $$"POSIX shell script, ASCII text executable"
    else if ends [$$".pdf"] then $$"PDF document, version 1.5"
    else if has_prefix (Content n) (zb 127 :: $$"ELF") then
      $$"ELF 64-bit LSB pie executable, x86-64, version 1 (SYSV), dynamically linked"
    else if isPrintable (Content n) then $$"ASCII text"
    else $$"data".
Definition cmdFile (fs : session) (args : list str) : str :=
  let one a := match Stat fs (Resolve fs a) with
               | Ok n => a ++ $$": " ++ describeFile n a
               | Err _ => a ++ $$": cannot open `" ++ a ++ $$"' (No such file or directory)"
               end in
  join [nl] (map one (bare (drop 1 args))) ++ [nl].

(** ** Commands that change the overlay *)

Definition cmdMutate (args : list str) : M (str * Z) :=
  let verb := default [] (head args) in
  let targets := bare (drop 1 args) in
  (if verb =s $$"touch" then
     each targets (fun t =>
       abs ← fs_resolve t;
       there ← fs_exists abs;
       if there : bool then mret tt else (fs_write W abs [] ;; mret tt))
   else if verb =s $$"mkdir" then
     each targets (fun t => abs ← fs_resolve t; fs_mkdir W abs ;; mret tt)
   else if (verb =s $$"rm") || (verb =s $$"rmdir") then
     each targets (fun t => abs ← fs_resolve t; fs_remove abs ;; mret tt)
   else if (verb =s $$"cp") || (verb =s $$"mv") then
     match targets with
     | a :: _ :: _ =>
         src ← fs_resolve a;
         dst ← fs_resolve (default [] (last targets));
         r ← fs_read src;
         match r with
         | Ok data =>
             fs_write W dst data ;;
             (if verb =s $$"mv" then (fs_remove src ;; mret tt) else mret tt)
         | Err _ => mret tt
         end
     | _ => mret tt
     end
   else mret tt) ;;
  mret ([], 0).

(** ** history, services, packages *)

Definition history_lines (p : Persona) : list str :=
  [$$"ls -la /var/www/html"; $$"cat /var/www/html/wp-config.php";
   $$"mysql -u " ++ WPDBUser p ++ $$" -p -h " ++ DBIP p ++ $$" " ++ WPDBName p; $$"systemctl status nginx"; $$"df -h";
   $$"cd /home/" ++ pUsername p ++ $$"/scripts"; $$"./backup.sh"; $$"ssh " ++ pUsername p ++ $$"@" ++ BackupIP p;
   $$"free -m"; $$"history"].
Definition cmdHistory (p : Persona) (args : list str) : M (str * Z) :=
  match args with
  | _ :: a :: _ =>
      if a =s $$"-c" then on_s (LogCommandNote $$"history -c" $$"anti-forensics") ;; mret ([], 0)
      else mret (concat (imap (fun i l => pad_left 5 (itoa (Z.of_nat i + 1)) ++ $$"  " ++ l ++ [nl]) (history_lines p)), 0)
  | _ => mret (concat (imap (fun i l => pad_left 5 (itoa (Z.of_nat i + 1)) ++ $$"  " ++ l ++ [nl]) (history_lines p)), 0)
  end.

(** [mainPID]. *)
Definition service_key (nm : str) : str :=
  if bool_decide (nm ∈ [$$"mysql"; $$"mysqld"; $$"mariadb"]) then $$"mysqld"
  else if bool_decide (nm ∈ [$$"ssh"; $$"sshd"]) then $$"sshd"
  else if bool_decide (nm ∈ [$$"php-fpm"; $$"php"; $$"php8.1-fpm"]) then $$"php-fpm"
  else nm.
Definition mainPID (nm : str) : Z :=
  match List.find (fun r => negb (contains (r_command r) $$"worker") && contains (r_command r) (service_key nm))
          procTable with
  | Some r => r_pid r
  | None => 600 + zlen nm
  end.

Definition fmtDur (d : Z) : str :=
  let days := Z.quot (hours d) 24 in
  let h := Z.rem (hours d) 24 in
  if 0 <? days then itoa days ++ $$"d " ++ itoa h ++ $$"h"
  else itoa h ++ $$"h " ++ itoa (Z.rem (minutes d) 60) ++ $$"min".
Definition status_text (nm : str) (up : Z) : str :=
  $$"● " ++ nm ++ $$".service - " ++ nm ++ $$"
     Loaded: loaded (/lib/systemd/system/" ++ nm ++ $$".service; enabled; vendor preset: enabled)
     Active: active (running) since boot; " ++ fmtDur up ++ $$" ago
   Main PID: " ++ itoa (mainPID nm) ++ $$" (" ++ nm ++ $$")
      Tasks: 3 (limit: 2294)
     Memory: 12.4M
".
Definition systemctlStatus (p : Persona) (nm : str) : M str :=
  up ← since W (boot_ns p); mret (status_text nm up).

Definition service_verbs : list str :=
  [$$"status"; $$"start"; $$"stop"; $$"restart"; $$"enable"; $$"disable"].
Definition cmdService (p : Persona) (args : list str) : M str :=
  let is_verb a := bool_decide (a ∈ service_verbs) in
  let action := default [] (last (List.filter is_verb (drop 1 args))) in
  let nm := default [] (List.find (fun a => negb (is_verb a) && negb (is_flag a) && negb (a =s [])) (drop 1 args)) in
  if (action =s $$"status") || (action =s []) then systemctlStatus p nm else mret [].

Definition dpkg_text : str :=
  $$"Desired=Unknown/Install/Remove/Purge/Hold
| Status=Not/Inst/Conf-files/Unpacked/halF-conf/Half-inst/trig-aWait/Trig-pend
|/ Err?=(none)/Reinst-required (Status,Err: uppercase=bad)
||/ Name           Version          Architecture Description
+++-==============-================-============-=================================
ii  bash           5.1-6ubuntu1     amd64        GNU Bourne Again SHell
ii  coreutils      8.32-4.1ubuntu1  amd64        GNU core utilities
ii  curl           7.81.0-1ubuntu1  amd64        command line tool for transferring data
ii  nginx          1.18.0-6ubuntu14 amd64        small, powerful, scalable web server
ii  openssh-server 1:8.9p1-3ubuntu0 amd64        secure shell (SSH) server
".
Definition cmdDpkg (p : Persona) (args : list str) : str :=
  if existsb (fun a => (a =s $$"-l") || (a =s $$"--list")) (drop 1 args)
  then (if Embedded p then replace_all dpkg_text $$"amd64" $$"arm64" else dpkg_text)
  else [].

Definition cmdIP (p : Persona) (args : list str) : M str :=
  match args with
  | _ :: a :: _ =>
      if bool_decide (a ∈ [$$"a"; $$"addr"; $$"address"]) then mret (ipAddrStr p)
      else if bool_decide (a ∈ [$$"r"; $$"route"]) then ipRouteStr p
      else if bool_decide (a ∈ [$$"link"; $$"l"]) then mret (ipLinkStr p)
      else mret (ipAddrStr p)
  | _ => mret (ipAddrStr p)
  end.
End text.
