(* ===== verification/ShellFigures.v ===== *)
(** * ShellFigures: the listings agree with each other

    [netstat] and [ss] against the persona's services, the memory and disk figures
    against their totals, and the process table against [$$] and [systemctl]. *)

From S2P Require Import Prelude GoStrings Net Util Parse Session Persona PersonaFacts ShellState ShellText ShellCmds.

(** ** Listening ports *)

Lemma first_seen_spec seen l x :
  x ∈ first_seen seen l <-> x ∉ seen /\ exists s, s ∈ l /\ served s = true /\ Port s = x.
Proof.
  revert seen. induction l as [| s l IH]; intros seen; cbn [first_seen].
  { split; [by intros ?%elem_of_nil | by intros (_ & s & ?%elem_of_nil & _)]. }
  destruct (served s) eqn:Es; cbn [andb].
  - case_bool_decide as Hin; cbn [negb]; [| rewrite elem_of_cons]; rewrite IH.
    + split; [intros (? & s' & ? & ?); split; [done |]; exists s'; set_solver |].
      intros (Hx & s' & [-> | ?]%elem_of_cons & ? & ?); [congruence | eauto].
    + split.
      * intros [-> | (Hx & s' & ? & ?)]; [split; [done | exists s; set_solver] |].
        split; [set_solver | exists s'; set_solver].
      * intros (Hx & s' & [-> | ?]%elem_of_cons & ? & <-); [by left |].
        destruct (decide (Port s' = Port s)) as [-> | Hne]; [by left |]. right. set_solver.
  - rewrite IH. split; [intros (? & s' & ? & ?); split; [done |]; exists s'; set_solver |].
    intros (Hx & s' & [-> | ?]%elem_of_cons & ? & ?); [congruence | eauto].
Qed.

Lemma first_seen_nodup seen l : NoDup (first_seen seen l).
Proof.
  revert seen. induction l as [| s l IH]; intros seen; cbn [first_seen]; [constructor |].
  destruct (_ && _); [| done]. constructor; [| done]. rewrite first_seen_spec. set_solver.
Qed.

(** [netstat] and [ss] list exactly the ports of the TCP services the persona
    exposes, each once and in ascending order, and the established connections
    they show sit on one of those ports whenever there is any. *)
Theorem listening_ports_are_the_services p :
  (forall x, x ∈ listenPorts p <-> exists s, s ∈ Services p /\ served s = true /\ Port s = x) /\
  NoDup (listenPorts p) /\ Sorted Z.le (listenPorts p) /\
  (listenPorts p <> [] -> mgmtPort p ∈ listenPorts p).
Proof.
  assert (forall x, x ∈ listenPorts p <-> exists s, s ∈ Services p /\ served s = true /\ Port s = x) as Hin.
  { intros x. unfold listenPorts. rewrite merge_sort_Permutation, first_seen_spec. set_solver. }
  split_and!; [done | | |].
  - unfold listenPorts. rewrite merge_sort_Permutation. apply first_seen_nodup.
  - apply Sorted_merge_sort. intros ??. lia.
  - intros Hne. unfold mgmtPort. destruct (List.find _ _) as [s |] eqn:E.
    + apply find_some in E as [Hs Hp]. apply Hin. exists s. split; [by apply list_elem_of_In |].
      split; [| done]. unfold served. apply bool_decide_eq_true. apply seqb_eq in Hp. rewrite Hp. set_solver.
    + destruct (listenPorts p); [done | set_solver].
Qed.

(** ** Memory and disks *)

(** the memory figures of [free] and [/proc/meminfo] add up at every uptime: used,
    free and cache make the total, nothing is negative and no more is available
    than exists; and the used and available blocks of [df] make the size of the
    disk, in the percentage it prints. *)
Theorem figures_add_up up size h :
  0 <= up -> 0 <= size ->
  let '(total, used, free, buff, avail) := mem_at up in
  let '(du, da, pct) := usage size h in
  used + free + buff = total /\ 0 < used /\ 0 < free /\ 0 < buff /\ free + buff <= avail <= total /\
  du + da = size /\ 0 <= du <= size /\ 14 <= pct < 74 /\
  100 * du <= pct * size < 100 * du + 100.
Proof.
  intros Hup Hs. unfold mem_at, usage. cbv zeta.
  assert (0 <= minutes up) as Hm by (unfold minutes; apply Z.quot_pos; unfold second; lia).
  pose proof (Z.rem_bound_pos (minutes up) 90000 Hm ltac:(lia)).
  pose proof (Z.mod_pos_bound h 60 ltac:(lia)). set (pct := 14 + h mod 60) in *.
  assert (0 <= size * pct) by nia.
  pose proof (Z.div_mod (size * pct) 100 ltac:(lia)). pose proof (Z.mod_pos_bound (size * pct) 100 ltac:(lia)).
  assert (0 <= size * pct / 100) by (apply Z.div_pos; lia).
  split_and!; try lia; nia.
Qed.
Lemma figures_add_up_witness : 1740060 + 240000 + (4030836 - 1740060 - 240000) = 4030836 /\ 20509264 * 14 / 100 <= 20509264.
Proof.
  pose proof (figures_add_up (3600 * second) 20509264 0 ltac:(by vm_compute) ltac:(lia)) as H.
  destruct H as (H1 & _ & _ & _ & _ & _ & H2 & _). split; [exact H1 | apply H2].
Defined.

(** ** Processes *)

Lemma in_table (f : procRow -> bool) : existsb f procTable = true -> exists r, r ∈ procTable /\ f r = true.
Proof. intros (r & Hr & Hf)%existsb_exists. exists r. by rewrite list_elem_of_In. Qed.

Definition pids : list Z := map r_pid procTable.
(** The names [systemctl status] is asked about that [ps] has a process for. *)
Definition ps_services : list (str * str) :=
  [($$"ssh", $$"/usr/sbin/sshd -D"); ($$"sshd", $$"/usr/sbin/sshd -D");
   ($$"mysql", $$"/usr/sbin/mysqld"); ($$"mariadb", $$"/usr/sbin/mysqld");
   ($$"nginx", $$"nginx: master process"); ($$"php-fpm", $$"php-fpm: pool www"); ($$"php8.1-fpm", $$"php-fpm: pool www");
   ($$"cron", $$"/usr/sbin/cron -f"); ($$"systemd-resolved", $$"/lib/systemd/systemd-resolved");
   ($$"systemd-logind", $$"/lib/systemd/systemd-logind")].

(** the process table is coherent: every process has its own PID, the PID [$$]
    expands to is the login shell's, and the main PID [systemctl status] prints
    for a service is the one [ps] shows for its main process, not a worker's. *)
Theorem process_table_coherent :
  NoDup pids /\
  (exists r, r ∈ procTable /\ r_pid r = shellPID /\ r_command r = $$"-bash" /\ r_tty r = $$"pts/0") /\
  Forall (fun '(nm, cmd) => exists r, r ∈ procTable /\ r_command r = cmd /\ r_pid r = mainPID nm) ps_services.
Proof.
  split_and!.
  - by apply (bool_decide_unpack (NoDup pids)); vm_compute.
  - destruct (in_table (fun r => (r_pid r =? shellPID) && (r_command r =s $$"-bash") && (r_tty r =s $$"pts/0")))
      as (r & Hr & Hb); [by vm_compute |]. bool_hyps. by exists r.
  - apply Forall_forall. intros [nm cmd] Hin.
    assert (forallb (fun '(nm, cmd) => existsb (fun r => (r_command r =s cmd) && (r_pid r =? mainPID nm)) procTable)
      ps_services = true) as H by (vm_compute; reflexivity).
    rewrite forallb_forall in H. apply list_elem_of_In, H in Hin.
    apply in_table in Hin as (r & Hr & Hb). bool_hyps. by exists r.
Qed.
