(* ===== verification/ShellInter.v ===== *)
(** * ShellInter: the commands that own the terminal (internal/shell/interactive.go)

    [runLine] and [nested] tie the knot with Shell: the former runs a command
    line one level deeper, the latter the shell of the host an [ssh] pivots to.
    The editor reads lines until the client stops or leaves: each line consumes
    input, so the bytes left bound the loop ([editor_loop]); [walkFind] counts
    every directory it enters and gives up after 5000. *)

From S2P Require Import Prelude GoStrings Net Paths VfsNode VfsSession Util Event Parse Session Base64 Persona ShellState ShellText ShellCmds.

(** ** Pure helpers *)

Definition lootImageName (abs : str) : str :=
  let nm := to_lower (path_base abs) in
  if existsb (contains nm) [$$"wallet"; $$"seed"; $$"key"; $$"crypto"; $$"coin"; $$"btc"] then $$"jt4"
  else
    let h := fold_left (fun h c => wrapu32 (h * 131 + bz c)) nm 0 in
    default [] ([$$"jt3"; $$"jt5"; $$"jt6"] !! Z.to_nat (h mod 3)).

Definition interactive_names : list str :=
  [$$"top"; $$"htop"; $$"find"; $$"wget"; $$"curl"; $$"vi"; $$"vim"; $$"vim.basic"; $$"nano";
   $$"crontab"; $$"passwd"; $$"su"; $$"tftp"; $$"ftpget"; $$"ftpput";
   $$"ssh"; $$"scp"; $$"sftp"; $$"gcc"; $$"cc"; $$"g++"; $$"make";
   $$"apt"; $$"apt-get"; $$"aptitude"; $$"python"; $$"python2"; $$"python3"; $$"perl";
   $$"ruby"; $$"sh"; $$"bash"; $$"openssl"; $$"nc"; $$"ncat"; $$"telnet"; $$"mysql";
   $$"tcpdump"; $$"strace"; $$"ltrace"; $$"tar"; $$"rsync"; $$"pip"; $$"pip3";
   $$"jp2a"; $$"catimg"; $$"chafa"; $$"img2txt"; $$"asciiview"; $$"aview"; $$"cacaview";
   $$"vault"; $$"passwords"; $$"pass"; $$"wallet"; $$"balance"; $$"balances";
   $$"secrets"; $$"keepass"; $$"lpass"; $$"gopass"; $$"bw"].
Definition isInteractive (nm : str) : bool := bool_decide (nm ∈ interactive_names).

Definition wgetURL (args : list str) : str :=
  match ExtractURL args with
  | [] => default [] (List.find (fun a => negb (is_flag a)) (drop 1 args))
  | u => u
  end.

Definition fakeResolveIP (host : str) : str :=
  let h := fnv32 host in
  let firsts := [45; 104; 138; 159; 172; 185; 193; 194] in
  join $$"." [itoa (default 0 (firsts !! Z.to_nat (h mod 8))); itoa (Z.shiftr h 8 mod 256);
              itoa (Z.shiftr h 16 mod 256); itoa (Z.shiftr h 24 mod 254 + 1)].
Definition fakeDownloadSize (url : str) : Z := 24000 + fnv32 url mod 940000.
Definition downloadDur (size : Z) : Z :=
  let d := Z.quot size 400000 * second in
  let d := if d <? 300 * 1000000 then 300 * 1000000 else d in
  if 5 * second <? d then 5 * second else d.
(** The rate [size / d] in bytes per second is the quotient [size * second / d]. *)
Definition downloadRate (size d : Z) : str :=
  if 2 ^ 20 * d <=? size * second then fixed 2 (size * second) (d * 2 ^ 20) ++ $$" MB/s"
  else fixed 0 (size * second) (d * 1024) ++ $$" KB/s".
Definition humanBytes (n : Z) : str :=
  if 2 ^ 20 <=? n then fixed 1 n (2 ^ 20) ++ $$"M"
  else if 2 ^ 10 <=? n then itoa (Z.quot n 1024) ++ $$"K"
  else itoa n.

(** [interpVersion]. *)
Definition interpVersion (args : list str) : option str :=
  let cmd := default [] (head args) in
  if negb (existsb (fun a => bool_decide (a ∈ [$$"--version"; $$"-V"; $$"-v"])) (drop 1 args)) then None
  else if has_prefix cmd $$"python" then Some $$"Python 3.10.12"
  else if cmd =s $$"perl" then
    Some ([nl] ++ $$"This is perl 5, version 34, subversion 0 (v5.34.0) built for x86_64-linux-gnu-thread-multi" ++
          [nl; nl] ++ $$"Copyright 1987-2022, Larry Wall" ++ [nl])
  else if cmd =s $$"ruby" then Some $$"ruby 3.0.2p107 (2021-07-07 revision 0db68f0233) [x86_64-linux-gnu]"
  else if (cmd =s $$"node") || (cmd =s $$"nodejs") then Some $$"v12.22.9"
  else if cmd =s $$"php" then Some $$"PHP 8.1.2 (cli) (built: Feb 25 2022 16:14:04) (NTS)"
  else None.

Definition looksLikeCommand (s : str) : bool :=
  existsb (has_prefix (trim_space s))
    [$$"wget"; $$"curl"; $$"sh "; $$"bash"; $$"/bin/"; $$"chmod"; $$"nc "; $$"python"; $$"rm "].

Definition elfStub : str := bytes [127; 69; 76; 70; 2; 1; 1] ++ repeat (zb 0) 121.
Definition droppedPayload (nm : str) : str :=
  let low := to_lower nm in
  if existsb (has_suffix low) [$$".sh"; $$".py"; $$".pl"; $$".rb"]
  then $$"#!/bin/sh" ++ [nl] ++ $$"# fetched" ++ [nl] else elfStub.

Definition binDirPrefixes : list str :=
  [$$"/usr/bin/"; $$"/bin/"; $$"/sbin/"; $$"/usr/sbin/"; $$"/usr/local/bin/"; $$"/usr/local/sbin/"].
Definition inSystemBin (abs : str) : bool := existsb (has_prefix abs) binDirPrefixes.

Definition hasFlag (args : list str) (flag : str) : bool := existsb (fun a => a =s flag) (drop 1 args).
Definition remoteUser (remote dflt : str) : str :=
  match index_byte remote "@"%char with Some at_ => take at_ remote | None => dflt end.
(** The host of [user@host:path]. *)
Definition remote_host (remote : str) : str :=
  default [] (head (split_byte ":"%char
    (match index_byte remote "@"%char with Some at_ => drop (S at_) remote | None => remote end))).
Definition scp_remote (args : list str) : str :=
  default [] (last (List.filter (fun a => contains a $$":") (bare (drop 1 args)))).
Definition scp_local (args : list str) : str :=
  default [] (last (List.filter (fun a => negb (contains a $$":")) (bare (drop 1 args)))).
(** First word that is not a flag, and the ones after it. *)
Fixpoint sub_pkgs (l : list str) : str * list str :=
  match l with
  | [] => ([], [])
  | a :: l' => if a =s [] then sub_pkgs l' else (a, l')
  end.
Definition escape_nl (s : str) : str := replace_byte nl $$"\n" s.
Definition spaced (l : list str) : str := join $$" " l.

Section inter.
Context (W : World) (I : ident) (runLine : str -> M unit) (nested : node -> Persona -> M unit).
Notation p := (i_p I).

(** ** Downloads *)

(** The [-O] loop of [iWget]. *)
Fixpoint wget_file (file : str) (args : list str) : str :=
  match args with
  | [] => file
  | a :: rest =>
      if has_prefix a $$"-O" && (2 <? zlen a) then wget_file (drop 2 a) rest
      else match rest with
           | v :: _ => if a =s $$"-O" then wget_file v rest else wget_file file rest
           | [] => file
           end
  end.

Definition iWget (args : list str) : M Z :=
  let url := wgetURL args in
  if url =s [] then writeln $$"wget: missing URL" ;; mret 1
  else
    let host := ExtractHost url in
    let base := path_base url in
    let base := if bool_decide (base ∈ [[]; $$"/"; $$"."]) then $$"index.html" else base in
    let file := wget_file base (drop 1 args) in
    let ip := fakeResolveIP host in
    let size := fakeDownloadSize url in
    let dur := downloadDur size in
    on_s (LogDownload (spaced args) url host file) ;;
    t ← now W;
    writeln ($$"--" ++ w_format W $$"2006-01-02 15:04:05" t ++ $$"--  " ++ url) ;;
    writeln ($$"Resolving " ++ host ++ $$" (" ++ host ++ $$")... " ++ ip) ;;
    writeln ($$"Connecting to " ++ host ++ $$" (" ++ host ++ $$")|" ++ ip ++ $$"|:80... connected.") ;;
    writeln $$"HTTP request sent, awaiting response... 200 OK" ;;
    writeln ($$"Length: " ++ itoa size ++ $$" (" ++ humanBytes size ++ $$") [application/octet-stream]") ;;
    if file =s $$"-" then mret 0
    else
      writeln ($$"Saving to: '" ++ file ++ $$"'") ;;
      writeln [] ;;
      on_s (SlowProgress (file ++ $$"  " ++ humanBytes size)) ;;
      writeln [] ;;
      t ← now W;
      writeln (w_format W $$"2006-01-02 15:04:05" t ++ $$" (" ++ downloadRate size dur ++ $$") - '" ++ file ++
               $$"' saved [" ++ itoa size ++ $$"/" ++ itoa size ++ $$"]") ;;
      abs ← fs_resolve file;
      fs_write W abs (droppedPayload file) ;;
      mret 0.

(** The output loop of [iCurl]: the file name when the transfer is saved. *)
Fixpoint curl_file (url : str) (file : option str) (args : list str) : option str :=
  match args with
  | [] => file
  | a :: rest =>
      if a =s $$"-O" then curl_file url (Some (path_base url)) rest
      else if has_prefix a $$"-o" && (2 <? zlen a) then curl_file url (Some (drop 2 a)) rest
      else match rest with
           | v :: _ => if a =s $$"-o" then curl_file url (Some v) rest else curl_file url file rest
           | [] => file
           end
  end.

Definition iCurl (args : list str) : M Z :=
  let url := wgetURL args in
  let host := ExtractHost url in
  (if url =s [] then mret tt else on_s (LogDownload (spaced args) url host (path_base url))) ;;
  match curl_file url None (drop 1 args) with
  | Some nm =>
      let nm := if bool_decide (nm ∈ [[]; $$"."; $$"/"]) then $$"index.html" else nm in
      let size := fakeDownloadSize url in
      let k := itoa (Z.quot size 1024) in
      on_s (SlowProgress $$"  % Total    % Received % Xferd  Average Speed") ;;
      writeln ($$"100 " ++ itoa size ++ $$"  100 " ++ itoa size ++ $$"    0     0  " ++ k ++
               $$"k      0 --:--:-- --:--:-- --:--:-- " ++ k ++ $$"k") ;;
      abs ← fs_resolve nm;
      fs_write W abs (droppedPayload nm) ;;
      mret 0
  | None => writeln $$"curl: (56) Recv failure: Connection reset by peer" ;; mret 56
  end.

(** [iTftp], [iFtp]. *)
Definition iTftp (args : list str) : M Z :=
  on_s (LogDownload (spaced args) [] (default [] (last (bare (drop 1 args)))) []) ;; mret 0.
Definition iFtp (args : list str) : M Z :=
  let host := match args with _ :: a :: _ => if is_flag a then [] else a | _ => [] end in
  on_s (LogDownload (spaced args) [] host []) ;; mret 0.

(** ** Other hosts *)

Definition iSSH (args : list str) : M Z :=
  let target := default [] (List.find (fun a => negb (is_flag a)) (drop 1 args)) in
  let '(user, host) := match index_byte target "@"%char with
                       | Some at_ => (take at_ target, drop (S at_) target)
                       | None => ($$"root", target)
                       end in
  if host =s [] then writeln $$"usage: ssh [user@]hostname" ;; mret 255
  else
    writeln ($$"The authenticity of host '" ++ host ++ $$" (" ++ host ++ $$")' can't be established.") ;;
    writeln ($$"ED25519 key fingerprint is " ++ SSHKeyFP p ++ $$".") ;;
    writeln $$"This key is not known by any other names." ;;
    '(ans, ok) ← prompt $$"Are you sure you want to continue connecting (yes/no/[fingerprint])? ";
    if negb ok then mret 255
    else if negb (trim_space ans =s $$"yes") then writeln $$"Host key verification failed." ;; mret 255
    else
      writeln ($$"Warning: Permanently added '" ++ host ++ $$"' (ED25519) to the list of known hosts.") ;;
      '(pass, _) ← prompt (user ++ $$"@" ++ host ++ $$"'s password: ");
      writeln [] ;;
      on_s (LogCredential user pass) ;;
      match i_pivot I ≫= (fun f => f host) with
      | Some (pfs, pp) => nested pfs pp ;; mret 0
      | None =>
          writeln ($$"ssh: connect to host " ++ host ++ $$" port 22: Connection timed out") ;; mret 255
      end.

Definition iScp (args : list str) : M Z :=
  let remote := scp_remote args in
  let local := scp_local args in
  if remote =s [] then writeln $$"usage: scp [options] source target" ;; mret 1
  else
    let host := remote_host remote in
    '(pass, _) ← prompt (remoteUser remote (i_user I) ++ $$"@" ++ host ++ $$"'s password: ");
    on_s (LogCredential ($$"scp:" ++ host) pass) ;;
    on_s (LogCommandNote ($$"scp " ++ local ++ $$" -> " ++ remote) $$"exfil") ;;
    let nm := path_base local in
    let nm := if bool_decide (nm ∈ [[]; $$"."]) then $$"archive.tar" else nm in
    writeln (nm ++ $$"                                100%   85KB   4.2MB/s   00:00") ;;
    mret 0.

Definition iRsync (args : list str) : M Z :=
  let remote := scp_remote args in
  let local := scp_local args in
  (if contains remote $$":" then
     let host := remote_host remote in
     '(pass, _) ← prompt (remoteUser remote (i_user I) ++ $$"@" ++ host ++ $$"'s password: ");
     on_s (LogCredential ($$"rsync:" ++ host) pass) ;;
     on_s (LogCommandNote ($$"rsync " ++ local ++ $$" -> " ++ remote) $$"exfil")
   else mret tt) ;;
  writeln $$"sending incremental file list" ;;
  let src := trim_prefix (path_clean local) $$"/" in
  let src := if bool_decide (src ∈ [[]; $$"."]) then $$"data" else src in
  writeln (src ++ $$"/") ;;
  writeln [] ;;
  writeln $$"sent 4,231,109 bytes  received 4,096 bytes  2,823,470.00 bytes/sec" ;;
  writeln $$"total size is 4,225,560  speedup is 1.00" ;;
  mret 0.

(** ** Execution attempts *)

Definition captureDropper (path command : str) : M unit :=
  abs ← fs_resolve path;
  if inSystemBin abs then mret tt
  else
    r ← fs_read abs;
    match r with
    | Ok ((_ :: _) as content) => on_s (LogDropper (w_sha256 W) abs command content)
    | _ => mret tt
    end.

(** The argument of the first [-c] that has one. *)
Fixpoint dash_c (args : list str) : option str :=
  match args with
  | a :: ((v :: _) as rest) => if a =s $$"-c" then Some v else dash_c rest
  | _ => None
  end.

Definition iShExec (args : list str) : M Z :=
  let cmd := default [] (head args) in
  match dash_c (drop 1 args) with
  | Some inner =>
      on_s (LogExec (cmd ++ $$" -c: " ++ inner) []) ;;
      runLine inner ;;
      gets sh_last
  | None =>
      match args with
      | _ :: a :: _ =>
          if is_flag a then mret 0
          else
            captureDropper a (cmd ++ $$" " ++ a) ;;
            on_s (LogExec (cmd ++ $$" " ++ a) []) ;;
            writeln $$"Killed" ;;
            mret 137
      | _ => mret 0
      end
  end.

Fixpoint interp_code (code : str) (args : list str) : str :=
  match args with
  | a :: ((v :: _) as rest) => interp_code (if (a =s $$"-c") || (a =s $$"-e") then v else code) rest
  | _ => code
  end.
Definition iInterp (args : list str) : M Z :=
  match interpVersion args with
  | Some v => writeln v ;; mret 0
  | None =>
      let full := spaced args in
      let code := interp_code [] (drop 1 args) in
      (if existsb (contains code) [$$"urllib"; $$"requests"; $$"socket"] ||
          existsb (contains full) [$$"http://"; $$"https://"] || existsb (contains code) [$$"exec"; $$"system"]
       then on_s (LogExec full [])
       else on_s (LogDownload full (ExtractURL args) [] [])) ;;
      writeln (default [] (head args) ++ $$": Segmentation fault (core dumped)") ;;
      mret 139
  end.

(** The option loop of [cmdBase64]: decode, file. *)
Definition base64_decode_flag (args : list str) : bool :=
  existsb (fun a => bool_decide (a ∈ [$$"-d"; $$"--decode"; $$"-D"])) (drop 1 args).
Definition base64_input (file stdin : str) : M (option str) :=
  match file with
  | [] => mret (Some stdin)
  | _ =>
      abs ← fs_resolve file;
      r ← fs_read abs;
      match r with
      | Err _ => mret None
      | Ok b =>
          if isLootImage p abs then
            on_s (LogHoneytoken ($$"loot-grab:" ++ path_base abs) ($$"base64 " ++ file)) ;;
            match w_loot W ($$"loot/" ++ lootImageName abs ++ $$".jpg") with
            | Some img => mret (Some img)
            | None => art ← randomReveal W; mret (Some (reveal_text art))
            end
          else mret (Some b)
      end
  end.
Definition cmdBase64 (args : list str) (stdin : str) : M (str * Z) :=
  let file := default [] (last (bare (drop 1 args))) in
  input ← base64_input file stdin;
  match input with
  | None => mret ($$"base64: " ++ file ++ $$": No such file or directory" ++ [nl], 1)
  | Some data =>
      if negb (base64_decode_flag args) then mret (b64_encode true data ++ [nl], 0)
      else
        match b64_decode_quanta true (concat (fields data)) with
        | None => mret ($$"base64: invalid input" ++ [nl], 1)
        | Some raw =>
            on_s (LogExec ($$"base64 -d: " ++ take 1024 raw) (w_sha256 W raw)) ;;
            if looksLikeCommand raw then runLine (trim_space raw) ;; mret ([], 0)
            else mret (raw, 0)
        end
  end.

(** ** Toolchain and packages *)

Definition gcc_version (cmd : str) : str :=
  if cmd =s $$"make" then
    $$"GNU Make 4.3" ++ [nl] ++ $$"Built for x86_64-pc-linux-gnu" ++ [nl] ++
    $$"Copyright (C) 1988-2020 Free Software Foundation, Inc."
  else if (cmd =s $$"cc") || (cmd =s $$"gcc") then
    $$"gcc (Ubuntu 11.4.0-1ubuntu1~22.04) 11.4.0" ++ [nl] ++ $$"Copyright (C) 2021 Free Software Foundation, Inc."
  else if cmd =s $$"g++" then
    $$"g++ (Ubuntu 11.4.0-1ubuntu1~22.04) 11.4.0" ++ [nl] ++ $$"Copyright (C) 2021 Free Software Foundation, Inc."
  else cmd ++ $$" (Ubuntu 11.4.0-1ubuntu1~22.04) 11.4.0".
Definition iCompile (args : list str) : M Z :=
  let cmd := default [] (head args) in
  match List.find (fun a => bool_decide (a ∈ [$$"--version"; $$"-dumpversion"; $$"-v"])) (drop 1 args) with
  | Some a =>
      writeln (if (a =s $$"-v") && (cmd =s $$"make")
               then $$"GNU Make 4.3" ++ [nl] ++ $$"Built for x86_64-pc-linux-gnu" else gcc_version cmd) ;;
      mret 0
  | None =>
      on_s (LogCommandNote (spaced args) $$"compile-attempt") ;;
      each [$$"In file included from main.c:3:"; $$"main.c: In function 'main':";
            $$"main.c:23:5: warning: implicit declaration of function 'strlcpy' [-Wimplicit-function-declaration]";
            $$"net.c:44:12: warning: unused variable 'sock' [-Wunused-variable]";
            $$"/usr/bin/ld: cannot find -lpthread: No such file or directory";
            $$"collect2: error: ld returned 1 exit status"] writeln ;;
      mret 1
  end.

Definition iApt (args : list str) : M Z :=
  let '(sub, pkgs) := sub_pkgs (bare (drop 1 args)) in
  let reading := $$"Reading package lists... Done" in
  let building := $$"Building dependency tree... Done" in
  if bool_decide (sub ∈ [$$"install"; $$"reinstall"]) then
    on_s (LogCommandNote (spaced args) $$"apt-install") ;;
    each [reading; building; $$"Reading state information... Done"] writeln ;;
    match pkgs with
    | [] => writeln $$"0 upgraded, 0 newly installed, 0 to remove and 0 not upgraded." ;; mret 0
    | _ =>
        writeln $$"The following NEW packages will be installed:" ;;
        writeln ($$"  " ++ spaced pkgs) ;;
        writeln ($$"0 upgraded, " ++ itoa (zlen pkgs) ++ $$" newly installed, 0 to remove and 0 not upgraded.") ;;
        each pkgs (fun pkg => writeln ($$"Get:1 http://archive.ubuntu.com/ubuntu jammy/universe amd64 " ++ pkg ++
                                       $$" amd64 1.0-1 [1,024 kB]")) ;;
        writeln $$"Fetched 1,024 kB in 1s (980 kB/s)" ;;
        each pkgs (fun pkg =>
          writeln ($$"Selecting previously unselected package " ++ pkg ++ $$".") ;;
          writeln ($$"Unpacking " ++ pkg ++ $$" (1.0-1) ...") ;;
          writeln ($$"Setting up " ++ pkg ++ $$" (1.0-1) ...") ;;
          abs ← fs_resolve ($$"/usr/bin/" ++ pkg);
          fs_write W abs elfStub ;; mret tt) ;;
        writeln $$"Processing triggers for man-db (2.10.2-1) ..." ;;
        mret 0
    end
  else if sub =s $$"update" then
    each [$$"Hit:1 http://archive.ubuntu.com/ubuntu jammy InRelease";
          $$"Get:2 http://archive.ubuntu.com/ubuntu jammy-updates InRelease [119 kB]";
          $$"Fetched 119 kB in 1s (140 kB/s)"; reading; building; $$"All packages are up to date."] writeln ;;
    mret 0
  else if bool_decide (sub ∈ [$$"upgrade"; $$"full-upgrade"; $$"dist-upgrade"]) then
    each [reading; building; $$"Calculating upgrade... Done";
          $$"0 upgraded, 0 newly installed, 0 to remove and 0 not upgraded."] writeln ;;
    mret 0
  else if bool_decide (sub ∈ [$$"remove"; $$"purge"; $$"autoremove"]) then
    on_s (LogCommandNote (spaced args) $$"apt-remove") ;;
    each [reading; building] writeln ;;
    each pkgs (fun pkg =>
      writeln ($$"Removing " ++ pkg ++ $$" (1.0-1) ...") ;;
      abs ← fs_resolve ($$"/usr/bin/" ++ pkg);
      fs_remove abs ;; mret tt) ;;
    mret 0
  else writeln ($$"E: Invalid operation " ++ sub) ;; mret 100.

Definition iPip (args : list str) : M Z :=
  let '(sub, pkgs) := sub_pkgs (bare (drop 1 args)) in
  if negb (sub =s $$"install") || bool_decide (pkgs = []) then mret 0
  else
    on_s (LogCommandNote (spaced args) $$"pip-install") ;;
    each pkgs (fun pkg =>
      writeln ($$"Collecting " ++ pkg) ;;
      writeln ($$"  Downloading " ++ pkg ++ $$"-1.0.0-py3-none-any.whl (48 kB)")) ;;
    writeln ($$"Installing collected packages: " ++ join $$", " pkgs) ;;
    writeln ($$"Successfully installed " ++ join $$"-1.0.0 " pkgs ++ $$"-1.0.0") ;;
    mret 0.

(** ** Accounts, editors, crontab *)

Definition iSu (args : list str) : M Z :=
  let target := default $$"root" (List.find (fun a => negb (is_flag a)) (drop 1 args)) in
  '(pass, _) ← prompt $$"Password: ";
  on_s (LogCredential target pass) ;;
  mret 0.

Definition iPasswd (args : list str) : M Z :=
  let user := match args with _ :: a :: _ => if is_flag a then i_user I else a | _ => i_user I end in
  writeln ($$"Changing password for " ++ user ++ $$".") ;;
  '(cur, _) ← prompt $$"Current password: ";
  on_s (LogCredential user cur) ;;
  '(n1, _) ← prompt $$"New password: ";
  '(n2, _) ← prompt $$"Retype new password: ";
  on_s (LogCommandNote ($$"passwd new=" ++ n1 ++ $$" retype=" ++ n2) $$"password-change") ;;
  writeln $$"passwd: password updated successfully" ;;
  mret 0.

(** The read loop of [runEditor]: the lines typed, and whether they are saved. *)
Fixpoint editor_loop (fuel : nat) (target : str) (typed : list str) : M (str * bool) :=
  match fuel with
  | O => mret (join [nl] typed, false)
  | S f =>
      '(line, ok) ← read_a_line;
      if negb ok then mret (join [nl] typed, false)
      else
        let cmd := trim_space line in
        if bool_decide (cmd ∈ [$$":wq"; $$":x"; $$"ZZ"; $$":wq!"]) then
          writeln ([dquote] ++ target ++ [dquote] ++ $$" written") ;;
          mret (join [nl] typed, true)
        else if bool_decide (cmd ∈ [$$":q!"; $$":q"]) then mret (join [nl] typed, false)
        else editor_loop f target (typed ++ [line])
  end.
Definition runEditor (target : str) : M (str * bool) :=
  wr [cr; nl; cr; nl] ;;
  each (repeat $$"~" 6) writeln ;;
  writeln $$"~                              VIM - Vi IMproved" ;;
  writeln $$"~" ;;
  writeln ([dquote] ++ target ++ [dquote] ++ $$" [New File]") ;;
  on_s (fun s => set_idle s (300 * second)) ;;
  fuel ← gets (fun st => S (length (inp (sh_s st))));
  editor_loop fuel target [].

Definition iEditor (args : list str) : M Z :=
  let final := default [] (last args) in
  let target := if (1 <? zlen args) && negb (is_flag final) then final else $$"file" in
  '(body, saved) ← runEditor target;
  on_s (LogCommandNote ($$"editor(" ++ target ++ $$"): " ++ escape_nl body) $$"editor-input") ;;
  (if saved && negb (target =s $$"file") then
     abs ← fs_resolve target;
     if inSystemBin abs then mret tt
     else (fs_write W abs (if body =s [] then body else body ++ [nl]) ;; mret tt)
   else mret tt) ;;
  mret 0.

Fixpoint crontab_loop (args : list str) : M Z :=
  match args with
  | [] => writeln ($$"no crontab for " ++ i_user I) ;; mret 0
  | a :: rest =>
      if a =s $$"-l" then
        cron ← gets sh_cron;
        if trim_space cron =s [] then writeln ($$"no crontab for " ++ i_user I) ;; mret 0
        else each (split_byte nl (trim_right cron [nl])) writeln ;; mret 0
      else if a =s $$"-r" then modify (set_cron []) ;; mret 0
      else if a =s $$"-e" then
        '(body, saved) ← runEditor ($$"/tmp/crontab." ++ i_user I);
        (if saved : bool then
           modify (set_cron body) ;;
           on_s (LogCommandNote ($$"crontab installed:\n" ++ escape_nl body) $$"persistence")
         else mret tt) ;;
        mret 0
      else
        let file :=
          if is_flag a then crontab_loop rest
          else
            abs ← fs_resolve a;
            r ← fs_read abs;
            match r with
            | Ok data =>
                modify (set_cron data) ;;
                on_s (LogCommandNote ($$"crontab installed from " ++ a ++ $$":\n" ++ escape_nl data) $$"persistence")
            | Err _ => mret tt
            end ;;
            mret 0 in
        match rest with
        | _ :: rest' => if a =s $$"-u" then crontab_loop rest' else file
        | [] => file
        end
  end.
Definition iCrontab (args : list str) : M Z := crontab_loop (drop 1 args).

(** ** find, top *)

Definition find_fuel : nat := Z.to_nat 5002.

(** The bound checked on entry and before every entry of a directory. *)
Definition find_over (count deadline : Z) : M bool :=
  if 5000 <? count then mret true else (t ← now W; mret (deadline <? t)).

Section entries.
Context (walk : str -> Z -> M Z) (dir : str) (deadline : Z).
Fixpoint find_entries (count : Z) (l : list node) : M Z :=
  match l with
  | [] => mret count
  | e :: l' =>
      over ← find_over count deadline;
      if over : bool then mret count
      else
        let child := replace_all (dir ++ $$"/" ++ name e) $$"//" $$"/" in
        if IsDir e then (count' ← walk child count; find_entries count' l')
        else (writeln child ;; find_entries (count + 1) l')
  end.
End entries.

Fixpoint walkFind (fuel : nat) (deadline : Z) (dir : str) (count : Z) : M Z :=
  match fuel with
  | O => mret count
  | S f =>
      over ← find_over count deadline;
      if over : bool then mret count
      else
        writeln dir ;;
        r ← fs_readdir dir;
        match r with
        | Err _ => mret (count + 1)
        | Ok l => find_entries (walkFind f deadline) dir deadline (count + 1) l
        end
  end.

Definition iFind (args : list str) : M Z :=
  let start := default $$"." (List.find (fun a => negb (is_flag a)) (drop 1 args)) in
  abs ← fs_resolve start;
  t ← now W;
  walkFind find_fuel (t + 300 * second) abs 0 ;;
  mret 0.

Definition iTop : M Z :=
  up ← uptimeOf W p;
  '(total, used, free, buff, avail) ← memNumbers W p;
  t ← now W;
  let days := Z.quot (hours up) 24 in
  let tasks := zlen procTable in
  let mb k := pad_left 8 (fixed 1 k 1024) in
  writeln ($$"top - " ++ w_format W $$"15:04:05" t ++ $$" up " ++ itoa days ++ $$" days, " ++
           pad_left 2 (itoa (Z.rem (hours up) 24)) ++ $$":" ++ pad_zero 2 (itoa (Z.rem (minutes up) 60)) ++
           $$",  1 user,  load average: 0." ++ pad_zero 2 (itoa (8 + Z.rem days 30)) ++ $$", 0." ++
           pad_zero 2 (itoa (12 + Z.rem days 20)) ++ $$", 0." ++ pad_zero 2 (itoa (5 + Z.rem days 15))) ;;
  writeln ($$"Tasks: " ++ pad_left 3 (itoa tasks) ++ $$" total,   1 running, " ++ pad_left 3 (itoa (tasks - 1)) ++
           $$" sleeping,   0 stopped,   0 zombie") ;;
  writeln $$"%Cpu(s):  2.3 us,  0.7 sy,  0.0 ni, 96.8 id,  0.2 wa,  0.0 hi,  0.0 si" ;;
  writeln ($$"MiB Mem : " ++ mb total ++ $$" total, " ++ mb free ++ $$" free, " ++ mb used ++ $$" used, " ++
           mb buff ++ $$" buff/cache") ;;
  writeln ($$"MiB Swap:   2048.0 total,   1964.0 free,     84.0 used. " ++ mb avail ++ $$" avail Mem") ;;
  each [[]; $$"    PID USER      PR  NI    VIRT    RES    SHR S  %CPU  %MEM     TIME+ COMMAND";
        $$"    611 mysql     20   0 1820400 184220  18120 S   3.0   4.6   8:42.11 mysqld";
        $$"    880 www-data  20   0  294500  43120  29800 S   0.7   1.1   0:33.40 php-fpm";
        $$"    720 www-data  20   0  209360  25240  16080 S   0.3   0.6   0:11.02 nginx"; []] writeln ;;
  mret 0.

(** ** mysql, tar, viewers, vaults *)

Definition iMysql (args : list str) : M Z :=
  each (drop 1 args) (fun a =>
    if has_prefix a $$"-p" && (2 <? zlen a) then on_s (LogCredential $$"mysql" (drop 2 a)) else mret tt) ;;
  (if hasFlag args $$"-p" then
     '(pass, _) ← prompt $$"Enter password: "; on_s (LogCredential $$"mysql" pass)
   else mret tt) ;;
  writeln ($$"ERROR 2002 (HY000): Can't connect to MySQL server on '" ++ DBIP p ++ $$"' (110)") ;;
  mret 1.

Definition iTar (args : list str) : M Z :=
  if existsb (fun a => (is_flag a || (zlen a <=? 4)) && contains a $$"x") (drop 1 args)
  then writeln $$"tar: Error opening archive: Failed to open the archive" ;; mret 1
  else mret 0.

Definition show_reveal : M unit :=
  art ← randomReveal W; each (split_byte nl (trim_right art [nl])) writeln.

Definition iAsciiView (args : list str) : M Z :=
  let cmd := default [] (head args) in
  let img := default [] (last (bare (drop 1 args))) in
  if img =s [] then writeln (cmd ++ $$": no input file specified") ;; mret 1
  else
    abs ← fs_resolve img;
    r ← fs_stat abs;
    match r with
    | Err _ => writeln (cmd ++ $$": " ++ img ++ $$": No such file or directory") ;; mret 1
    | Ok _ =>
        if negb (hasImageExt img) then writeln (cmd ++ $$": " ++ img ++ $$": unrecognized image format") ;; mret 1
        else
          on_s (LogHoneytoken ($$"ascii-view:" ++ path_base img) (spaced args)) ;;
          show_reveal ;;
          mret 0
    end.

Definition iVault (args : list str) : M Z :=
  let cmd := default [] (head args) in
  on_s (LogHoneytoken ($$"vault:" ++ cmd) (spaced args)) ;;
  (if bool_decide (cmd ∈ [$$"wallet"; $$"balance"; $$"balances"; $$"bw"]) then
     each [$$"Connecting to wallet daemon at 127.0.0.1:8332 ..."; $$"Decrypting keystore ..."] writeln
   else each [$$"Unlocking vault ..."; $$"Master password accepted. Rendering entry ..."] writeln) ;;
  writeln [] ;;
  show_reveal ;;
  mret 0.

(** ** Dispatch *)

Definition runInteractive (args : list str) : M Z :=
  match args with
  | [] => mret 0
  | cmd :: _ =>
      let among l := bool_decide (cmd ∈ l) in
      if among [$$"wget"] then iWget args
      else if among [$$"curl"] then iCurl args
      else if among [$$"ssh"] then iSSH args
      else if among [$$"scp"; $$"sftp"] then iScp args
      else if among [$$"tftp"] then iTftp args
      else if among [$$"ftpget"; $$"ftpput"] then iFtp args
      else if among [$$"su"] then iSu args
      else if among [$$"sh"; $$"bash"] then iShExec args
      else if among [$$"python"; $$"python2"; $$"python3"; $$"perl"; $$"ruby"] then iInterp args
      else if among [$$"gcc"; $$"cc"; $$"g++"; $$"make"] then iCompile args
      else if among [$$"apt"; $$"apt-get"; $$"aptitude"] then iApt args
      else if among [$$"pip"; $$"pip3"] then iPip args
      else if among [$$"rsync"] then iRsync args
      else if among [$$"passwd"] then iPasswd args
      else if among [$$"vi"; $$"vim"; $$"vim.basic"; $$"nano"] then iEditor args
      else if among [$$"crontab"] then iCrontab args
      else if among [$$"find"] then iFind args
      else if among [$$"top"; $$"htop"] then iTop
      else if among [$$"mysql"] then iMysql args
      else if among [$$"tar"] then iTar args
      else if among [$$"jp2a"; $$"catimg"; $$"chafa"; $$"img2txt"; $$"asciiview"; $$"aview"; $$"cacaview"]
      then iAsciiView args
      else if among [$$"vault"; $$"passwords"; $$"pass"; $$"wallet"; $$"balance"; $$"balances"; $$"secrets"; $$"keepass";
                  $$"lpass"; $$"gopass"; $$"bw"] then iVault args
      else writeln (cmd ++ $$": terminated") ;; mret 1
  end.
End inter.
