(* ===== verification/Shell.v ===== *)
(** * Shell: the interpreter (internal/shell/shell.go)

    [expand], [runCommand], [runStatement] and [runLine] are mutually recursive
    through command substitution, [sh -c] and decoded payloads.  The recursion is
    bounded by [execDepth]: [runLine_at n] is [runLine] with [n] levels left, that
    is [n = maxExecDepth - execDepth].  [catch] is the deferred [recover].
    [sudo] and [busybox] re-dispatch on a shorter argument list. *)

From S2P Require Import Prelude GoStrings Net Paths VfsNode VfsSession Util Event Parse Session Base64 Persona ShellState ShellArith ShellText ShellCmds ShellInter.

Definition maxCmdSubs : Z := 256.
Definition maxExecDepth : Z := 25.

(** ** Expansion *)

(** [takeBudget]: clamp to what is left of the line's budget, and debit it. *)
Definition takeBudget (s : str) : M str := fun st =>
  if sh_budget st <=? 0 then (Some [], st)
  else
    let s := if sh_budget st <? zlen s then take (Z.to_nat (sh_budget st)) s else s in
    (Some s, set_budget (sh_budget st - zlen s) st).

(** The bytes up to the parenthesis that closes [depth] open ones, or to the end. *)
Fixpoint scan_close (depth : nat) (s : str) : str :=
  match s with
  | [] => []
  | c :: s' =>
      if bool_decide (c = "("%char) then c :: scan_close (S depth) s'
      else if bool_decide (c = ")"%char) then
        match depth with S (S d) => c :: scan_close (S d) s' | _ => [] end
      else c :: scan_close depth s'
  end.

Definition env_of (st : shell) (nm : str) : str := default [] (sh_env st !! nm).

Section levels.
Context (W : World) (I : ident) (nested : node -> Persona -> M unit).
Notation p := (i_p I).

Section knot.
Context (runLine : str -> M unit).

(** [runCaptured] and [cmdSub]. *)
Definition runCaptured (line : str) : M str :=
  d ← gets sh_depth;
  if maxExecDepth <=? d then mret []
  else
    prev ← gets sh_capture;
    modify (set_capture (Some [])) ;;
    runLine line ;;
    out ← gets (fun st => default [] (sh_capture st));
    modify (set_capture prev) ;;
    mret out.
Definition fold_newlines (out : str) : str := replace_byte nl $$" " (trim out [nl]).
Definition cmdSub (inner : str) : M str :=
  modify (fun st => set_subs (sh_subs st + 1) st) ;;
  over ← gets (fun st => (maxCmdSubs <? sh_subs st) || (sh_budget st <=? 0));
  if over : bool then mret []
  else out ← runCaptured inner; mret (fold_newlines out).

Definition expand_env (nm : str) : M str := v ← getenv nm; takeBudget v.

(** The text a [$] or a backtick stands for, and how many of the bytes after it
    belong to it; [w] is what follows. *)
Definition expand_dollar (w : str) : M str * nat :=
  let name := (span name_char w).1 in
  let plain := match name with
               | [] => (mret $$"$", 0%nat)
               | _ => (expand_env name, length name)
               end in
  match w with
  | d :: r =>
      if bool_decide (d = "$"%char) then (mret (itoa shellPID), 1%nat)
      else if has_prefix w $$"((" then
        let inner := scan_close 2 (drop 2 w) in
        (gets (fun st => itoa (evalArith (env_of st) inner)), (length inner + 4)%nat)
      else if bool_decide (d = "("%char) then
        let inner := scan_close 1 r in (cmdSub inner, (length inner + 2)%nat)
      else if bool_decide (d = "?"%char) then (gets (fun st => itoa (sh_last st)), 1%nat)
      else if bool_decide (d = "{"%char) then
        match index_byte r "}"%char with
        | Some j => (expand_env (take j r), (j + 2)%nat)
        | None => plain
        end
      else plain
  | [] => plain
  end.
Definition expand_backtick (w : str) : M str * nat :=
  let inner := (until backtick w).1 in (cmdSub inner, S (length inner)).

(** The loop of [expand]; [skip] bytes are already consumed. *)
Fixpoint expand_from (skip : nat) (w : str) : M str :=
  match w with
  | [] => mret []
  | c :: w' =>
      match skip with
      | S k => expand_from k w'
      | O =>
          if bool_decide (c = backtick) then
            let '(m, k) := expand_backtick w' in x ← m; y ← expand_from k w'; mret (x ++ y)
          else if bool_decide (c = "$"%char) then
            let '(m, k) := expand_dollar w' in x ← m; y ← expand_from k w'; mret (x ++ y)
          else y ← expand_from 0 w'; mret (c :: y)
      end
  end.
Definition expand (w : str) : M str :=
  if contains_any w [("$"%char); backtick] then expand_from 0 w else mret w.
Definition expandStage (stg : stage) : M (list str) := mmap expand (args stg).

(** ** Commands *)

Definition binDirs : list str :=
  [$$"/bin/"; $$"/sbin/"; $$"/usr/bin/"; $$"/usr/sbin/"; $$"/usr/local/bin/"; $$"/usr/local/sbin/"].
Definition busyboxAppletList : list str :=
  [$$"["; $$"[["; $$"ash"; $$"awk"; $$"base64"; $$"basename"; $$"cat"; $$"chmod"; $$"chown"; $$"cp";
   $$"cut"; $$"date"; $$"dd"; $$"df"; $$"dmesg"; $$"echo"; $$"egrep"; $$"env"; $$"false"; $$"fgrep";
   $$"free"; $$"ftpget"; $$"ftpput"; $$"grep"; $$"gunzip"; $$"gzip"; $$"head"; $$"hostname"; $$"id";
   $$"ifconfig"; $$"kill"; $$"killall"; $$"ln"; $$"login"; $$"ls"; $$"md5sum"; $$"mkdir"; $$"mount";
   $$"mv"; $$"nc"; $$"netstat"; $$"nproc"; $$"passwd"; $$"ping"; $$"printf"; $$"ps"; $$"pwd";
   $$"reboot"; $$"rm"; $$"rmdir"; $$"route"; $$"sed"; $$"sh"; $$"sleep"; $$"sort"; $$"tail"; $$"tar";
   $$"telnet"; $$"tftp"; $$"top"; $$"touch"; $$"tr"; $$"true"; $$"uname"; $$"uniq"; $$"uptime"; $$"wc";
   $$"wget"; $$"which"; $$"whoami"].

Definition busyboxBanner : str :=
  $$"BusyBox v" ++ BusyBoxVer p ++ $$" (Ubuntu 1:" ++ BusyBoxVer p ++ $$"-2ubuntu1) multi-call binary.
BusyBox is copyright (C) 1998-2022 Erik Andersen, Rob Landley, Denys Vlasenko
and others. Licensed under GPLv2. See source distribution for detailed
copyright notices.

Usage: busybox [function [arguments]...]
   or: busybox --list[-full]
   or: function [arguments]...

" ++ [tab] ++ $$"BusyBox is a multi-call binary that combines many common Unix
" ++ [tab] ++ $$"utilities into a single executable.  Most people will create a
" ++ [tab] ++ $$"link to busybox for each function they wish to use and BusyBox
" ++ [tab] ++ $$"will act like whatever it was invoked as.

Currently defined functions:
" ++ [tab] ++ join $$", " busyboxAppletList ++ [nl].

Definition cmdNproc (fs : session) : str :=
  let n := match ReadFile fs $$"/proc/cpuinfo" with
           | Ok data => zlen (List.filter (fun l => has_prefix l $$"processor") (split_byte nl data))
           | Err _ => 0
           end in
  itoa (if n =? 0 then 1 else n) ++ [nl].

Definition int_test (op : str) (l r : Z) : bool :=
  if op =s $$"-eq" then l =? r
  else if op =s $$"-ne" then negb (l =? r)
  else if op =s $$"-lt" then l <? r
  else if op =s $$"-le" then l <=? r
  else if op =s $$"-gt" then r <? l
  else r <=? l.
Definition evalTest (fs : session) (a : list str) : bool :=
  match a with
  | [x] => negb (x =s [])
  | [op; x] =>
      let stat_is f := match Stat fs x with Ok n => f n | Err _ => false end in
      if op =s $$"-f" then stat_is (fun n => negb (IsDir n))
      else if op =s $$"-d" then stat_is IsDir
      else if bool_decide (op ∈ [$$"-e"; $$"-r"; $$"-w"; $$"-x"]) then Exists fs x
      else if op =s $$"-s" then stat_is (fun n => 0 <? Size n)
      else if op =s $$"-z" then x =s []
      else if op =s $$"-n" then negb (x =s [])
      else false
  | [l; op; r] =>
      if bool_decide (op ∈ [$$"="; $$"=="]) then l =s r
      else if op =s $$"!=" then negb (l =s r)
      else if bool_decide (op ∈ [$$"-eq"; $$"-ne"; $$"-lt"; $$"-le"; $$"-gt"; $$"-ge"]) then
        match atoi l, atoi r with
        | (li, true), (ri, true) => int_test op li ri
        | _, _ => false
        end
      else false
  | _ => false
  end.
Definition cmdTest (fs : session) (args : list str) : str * Z :=
  let a := drop 1 args in
  let bracket := default [] (head args) =s $$"[" in
  if bracket && negb (default [] (last a) =s $$"]") then ($$"-bash: [: missing `]'" ++ [nl], 2)
  else
    let a := if bracket then take (length a - 1) a else a in
    let '(neg, a) := match a with x :: r => if x =s $$"!" then (true, r) else (false, a) | [] => (false, a) end in
    ([], if xorb neg (evalTest fs a) then 0 else 1).

(** The [default] branch of [runCommand]: a file that is run, or no command. *)
Definition run_unknown (base : str) (args : list str) : M (str * Z) :=
  if has_prefix base $$"./" || has_prefix base $$"/" then
    abs ← fs_resolve base;
    r ← fs_stat abs;
    if negb (inSystemBin abs) && match r with Ok n => negb (IsDir n) | Err _ => false end then
      c ← fs_read abs;
      match c with
      | Ok ((_ :: _) as content) => on_s (LogDropper (w_sha256 W) abs (spaced args) content)
      | _ => mret tt
      end ;;
      on_s (LogExec (spaced args) $$"dropped-exec") ;;
      mret ([], 0)
    else mret ($$"-bash: " ++ base ++ $$": No such file or directory" ++ [nl], 127)
  else mret ($$"-bash: " ++ base ++ $$": command not found" ++ [nl], 127).

(** A bare name for a path under one of the executable directories. *)
Definition base_name (cmd : str) : str :=
  match last_index_byte cmd slash with
  | Some i => if bool_decide (take (S i) cmd ∈ binDirs) then drop (S i) cmd else cmd
  | None => cmd
  end.

Definition out_of (m : M str) : M (str * Z) := x ← m; mret (x, 0).
Definition on_view {A} (f : session -> A) : M A := gets (fun st => f (sh_fs st)).
Definition src_ip : M str := gets (fun st => SrcIP (sh_s st)).

(** [cmdBusybox]; [again] runs a known applet with the rest of the arguments. *)
Definition cmdBusybox (again : list str -> str -> M (str * Z)) (args : list str) : M (str * Z) :=
  match args with
  | _ :: a :: rest =>
      let applet := match last_index_byte a slash with Some i => drop (S i) a | None => a end in
      if bool_decide (applet ∈ [$$"--list"; $$"--list-full"]) then mret (join [nl] busyboxAppletList ++ [nl], 0)
      else if bool_decide (applet ∈ busyboxAppletList) then again (applet :: rest) []
      else mret (applet ++ $$": applet not found" ++ [nl], 127)
  | _ => mret (busyboxBanner, 0)
  end.

(** The switch of [runCommand]; [again] re-dispatches. *)
Definition dispatch (again : list str -> str -> M (str * Z)) (base : str) (args : list str) (stdin : str)
    : M (str * Z) :=
  let among l := bool_decide (base ∈ l) in
  let user := i_user I in
  if among [$$"exit"; $$"logout"] then modify (set_quit true) ;; mret ($$"logout" ++ [nl], 0)
  else if among [$$"ls"; $$"dir"] then out_of (on_view (fun fs => cmdLs W fs args))
  else if among [$$"cat"] then cmdCat W p args
  else if among [$$"["; $$"test"] then on_view (fun fs => cmdTest fs args)
  else if among [$$"busybox"] then cmdBusybox again args
  else if among [$$"nproc"] then out_of (on_view cmdNproc)
  else if among [$$"pwd"] then out_of (on_view (fun fs => cwd fs ++ [nl]))
  else if among [$$"cd"] then cmdCd args
  else if among [$$"echo"] then mret (cmdEcho args, 0)
  else if among [$$"whoami"] then mret (user ++ [nl], 0)
  else if among [$$"id"] then
    mret (if user =s $$"root" then $$"uid=0(root) gid=0(root) groups=0(root)" ++ [nl]
          else let who := itoa (UserUID p) ++ $$"(" ++ user ++ $$")" in
               $$"uid=" ++ who ++ $$" gid=" ++ who ++ $$" groups=" ++ who ++ [nl], 0)
  else if among [$$"hostname"] then mret (Hostname p ++ [nl], 0)
  else if among [$$"uname"] then mret (cmdUname p args, 0)
  else if among [$$"head"; $$"tail"] then cmdHeadTail W p args stdin (base =s $$"tail")
  else if among [$$"wc"] then cmdWc W p args stdin
  else if among [$$"grep"; $$"egrep"; $$"fgrep"] then cmdGrep W p args stdin
  else if among [$$"which"] then on_view (fun fs => cmdWhich fs args)
  else if among [$$"env"; $$"printenv"] then out_of (gets (fun st => cmdEnv (sh_env st)))
  else if among [$$"stat"] then on_view (fun fs => cmdStat W fs args)
  else if among [$$"file"] then out_of (on_view (fun fs => cmdFile fs args))
  else if among [$$"touch"; $$"mkdir"; $$"rm"; $$"rmdir"; $$"cp"; $$"mv"; $$"chmod"; $$"chown"; $$"ln"]
  then cmdMutate W args
  else if among [$$"export"; $$"unset"; $$"set"; $$"alias"; $$"umask"; $$"complete"; $$"shopt"] then mret ([], 0)
  else if among [$$"history"] then cmdHistory p args
  else if among [$$"ps"] then out_of (cmdPs W I args)
  else if among [$$"free"] then out_of (freeStr W p)
  else if among [$$"df"] then mret (dfStr p, 0)
  else if among [$$"uptime"] then out_of (uptimeStr W p)
  else if among [$$"w"] then src ← src_ip; out_of (wStr W p user src (i_login I))
  else if among [$$"who"] then
    src ← src_ip;
    mret (user ++ $$"     pts/0        " ++ w_format W $$"Jan _2 15:04" (i_login I) ++ $$" (" ++ src ++ $$")" ++ [nl], 0)
  else if among [$$"last"] then src ← src_ip; out_of (lastStr W p user src (i_login I))
  else if among [$$"date"] then t ← now W; mret (w_format W $$"Mon Jan  2 15:04:05 MST 2006" t ++ [nl], 0)
  else if among [$$"ifconfig"] then out_of (ifconfigStr W p)
  else if among [$$"ip"] then out_of (cmdIP p args)
  else if among [$$"netstat"] then mret (netstatStr p, 0)
  else if among [$$"ss"] then mret (ssStr p, 0)
  else if among [$$"lscpu"] then mret (lscpuStr p, 0)
  else if among [$$"lsblk"] then mret (lsblkStr p, 0)
  else if among [$$"mount"] then mret (mountStr p, 0)
  else if among [$$"dmesg"] then mret (dmesgStr p, 0)
  else if among [$$"systemctl"; $$"service"] then out_of (cmdService W p args)
  else if among [$$"dpkg"] then mret (cmdDpkg p args, 0)
  else if among [$$"sleep"] then mret ([], 0)
  else if among [$$"true"; $$":"; $$"clear"; $$"kill"; $$"killall"; $$"sync"; $$"reset"] then mret ([], 0)
  else if among [$$"chpasswd"; $$"useradd"; $$"usermod"; $$"userdel"; $$"adduser"; $$"groupadd"; $$"groupdel"]
  then mret ([], 0)
  else if among [$$"enable"; $$"system"; $$"shell"; $$"linuxshell"] then
    mret (if isAppliance p then ([], 0) else ($$"-bash: " ++ base ++ $$": command not found" ++ [nl], 127))
  else if among [$$"false"] then mret ([], 1)
  else if among [$$"sudo"] then
    match args with _ :: ((_ :: _) as rest) => again rest stdin | _ => mret ([], 0) end
  else if among [$$"base64"] then cmdBase64 W I runLine args stdin
  else if among [$$"cut"; $$"sort"; $$"uniq"; $$"tr"; $$"awk"; $$"sed"; $$"tee"; $$"xargs"] then mret (stdin, 0)
  else run_unknown base args.

(** [runCommand] on [cmd :: rest]; every re-dispatch shortens the list, and the
    fuel is its length. *)
Fixpoint runCommand_at (fuel : nat) (args : list str) (stdin : str) : M (str * Z) :=
  match fuel, args with
  | S f, cmd :: rest =>
      let base := base_name cmd in
      dispatch (runCommand_at f) base (base :: rest) stdin
  | _, _ => mret ([], 0)
  end.
Definition runCommand (args : list str) (stdin : str) : M (str * Z) := runCommand_at (length args) args stdin.

(** ** Statements *)

Definition redirect_out (stg : stage) (out : str) : M unit :=
  abs ← fs_resolve (outFile stg);
  old ← fs_read abs;
  let data := match old with
              | Ok ((_ :: _) as existing) => if appendT stg then existing ++ out else out
              | _ => out
              end in
  e ← fs_write W abs data;
  match e with
  | Some ErrNoSpace => wr ($$"-bash: " ++ outFile stg ++ $$": No space left on device" ++ [cr; nl])
  | _ => mret tt
  end.
Definition emit (stg : stage) (out : str) : M unit :=
  if outNull stg then mret tt
  else if negb (outFile stg =s []) then redirect_out stg out
  else
    cap ← gets sh_capture;
    match cap with
    | Some b => x ← takeBudget out; modify (fun st => set_capture (Some (default [] (sh_capture st) ++ x)) st)
    | None =>
        if out =s [] then mret tt
        else
          let out := if has_suffix out [nl] then out else out ++ [nl] in
          wr (replace_byte nl [cr; nl] out)
    end.

Definition stageString (st : statement) : str := join $$" | " (map (fun s => spaced (args s)) (stages st)).

(** The filter loop of [runStatement]. *)
Fixpoint pipeline (stdin : str) (code : Z) (stgs : list stage) : M Z :=
  match stgs with
  | [] => mret code
  | stg :: rest =>
      args ← expandStage stg;
      match args with
      | [] => pipeline stdin code rest
      | _ =>
          '(out, code) ← runCommand args stdin;
          match rest with
          | [] => emit stg out ;; mret code
          | _ => pipeline out code rest
          end
      end
  end.

Definition assign_all (vars : list (str * str)) : M unit :=
  each vars (fun kv => v ← expand kv.2; setenv kv.1 v).

(** The shell a pipeline ends in, if it does. *)
Definition piped_shell (st : statement) : option str :=
  match stages st with
  | _ :: _ :: _ =>
      match last (stages st) ≫= (fun s => head (args s)) with
      | Some b => if bool_decide (b ∈ [$$"sh"; $$"bash"]) then Some b else None
      | None => None
      end
  | _ => None
  end.
Definition set_code (m : M Z) : M unit := c ← m; modify (set_last c).
Definition run_pipeline (st : statement) : M unit := set_code (pipeline [] 0 (stages st)).

Definition runStatement (st : statement) : M unit :=
  match stages st with
  | [] => mret tt
  | [stg] =>
      if bool_decide (args stg = []) then
        vars ← ordered W (assigns stg);
        assign_all vars ;;
        modify (set_last 0)
      else
        args ← expandStage stg;
        if isInteractive (default [] (head args)) then set_code (runInteractive W I runLine nested args)
        else run_pipeline st
  | first :: _ =>
      match piped_shell st with
      | Some b =>
          on_s (LogExec ($$"pipe-to-" ++ b ++ $$": " ++ stageString st) []) ;;
          args ← expandStage first;
          runInteractive W I runLine nested args ;;
          modify (set_last 0)
      | None => run_pipeline st
      end
  end.

Definition next_run (ch : str) (last : Z) : bool :=
  if ch =s $$"&&" then last =? 0 else if ch =s $$"||" then negb (last =? 0) else true.
Fixpoint run_stmts (run : bool) (stmts : list statement) : M unit :=
  match stmts with
  | [] => mret tt
  | st :: rest =>
      (if run then runStatement st else mret tt) ;;
      quit ← gets sh_quit;
      if run && quit then mret tt
      else last ← gets sh_last; run_stmts (next_run (chain st) last) rest
  end.
End knot.

(** ** Lines *)

Definition segfault : str := $$"Segmentation fault (core dumped)".
Definition catch (m : M unit) : M unit := fun st =>
  match m st with
  | (Some _, st') => (Some tt, st')
  | (None, st') => writeln segfault st'
  end.
Definition refill (st : shell) : shell :=
  if sh_depth st =? 0 then set_subs 0 (set_budget maxExpandBytes st) else st.
Definition enter (d : Z) (st : shell) : shell := set_depth (sh_depth st + d) st.

Fixpoint runLine_at (n : nat) (line : str) : M unit :=
  modify refill ;;
  match n with
  | O => writeln segfault ;; modify (set_last 139)
  | S n' =>
      modify (enter 1) ;;
      catch (run_stmts (runLine_at n') true (parse line)) ;;
      modify (enter (-1))
  end.
Definition levels_left (st : shell) : nat := Z.to_nat (maxExecDepth - sh_depth st).
Definition runLine (line : str) : M unit := fun st => runLine_at (levels_left st) line st.

(** ** The interactive loop *)

Definition shell_prompt (st : shell) : str :=
  let wd := cwd (sh_fs st) in
  let home := env_of st $$"HOME" in
  let disp := if wd =s home then $$"~"
              else if negb (home =s $$"/") && has_prefix wd (home ++ $$"/") then $$"~" ++ drop (length home) wd
              else wd in
  i_user I ++ $$"@" ++ Hostname p ++ $$":" ++ disp ++ (if i_user I =s $$"root" then $$"#" else $$"$") ++ $$" ".

Definition welcome : M unit :=
  on_s (SlowWrite ([cr; nl] ++ $$"Welcome to " ++ PrettyName p ++ $$" (GNU/Linux " ++ KernelRel p ++ $$" " ++
                   Arch p ++ $$")" ++ [cr; nl; cr; nl])) ;;
  each [$$" * Documentation:  https://help.ubuntu.com"; $$" * Management:     https://landscape.canonical.com";
        $$" * Support:        https://ubuntu.com/pro"; []] writeln ;;
  t ← now W;
  writeln ($$"Last login: " ++ w_format W $$"Mon Jan  2 15:04:05 2006" (t - 26 * hour) ++ $$" from " ++ GatewayIP p).

Fixpoint loop_from (fuel : nat) : M unit :=
  match fuel with
  | O => mret tt
  | S f =>
      quit ← gets sh_quit;
      if quit : bool then mret tt
      else
        label ← gets shell_prompt;
        '(line, ok) ← prompt label;
        if negb ok then mret tt
        else
          let line := trim_space line in
          if line =s [] then loop_from f
          else on_s count_cmd ;; on_s (LogCommand line) ;; runLine line ;; loop_from f
  end.
Definition loop : M unit :=
  on_s (fun s => set_idle s (600 * second)) ;;
  fuel ← gets (fun st => S (length (inp (sh_s st))));
  loop_from fuel.
End levels.

(** ** Shells *)

Definition defaultEnv (p : Persona) (user home : str) : gmap str str :=
  let path := if user =s $$"root" then $$"/usr/local/sbin:/usr/local/bin:/usr/sbin:/usr/bin:/sbin:/bin"
              else $$"/usr/local/bin:/usr/bin:/bin:/usr/local/games:/usr/games" in
  list_to_map [($$"PATH", path); ($$"HOME", home); ($$"USER", user); ($$"LOGNAME", user);
               ($$"SHELL", $$"/bin/bash"); ($$"TERM", $$"xterm-256color"); ($$"HOSTNAME", Hostname p);
               ($$"PWD", home); ($$"SHLVL", $$"1"); ($$"LANG", $$"en_US.UTF-8")].

Definition home_of (user : str) : str := if user =s $$"root" then $$"/root" else $$"/home/" ++ user.
Definition newShell (base : node) (p : Persona) (user : str) (s : sess) (g : Z) (tick : nat) : shell :=
  MkShell s (NewSession base (home_of user)) g (defaultEnv p user (home_of user)) 0 false 0 [] None
    maxExpandBytes 0 tick.

(** What a connection's shells share: the connection, the overlay counter and
    the readings taken. *)
Definition shared : Type := sess * Z * nat.
(** [newShell], a body, and the deferred [Release]. *)
Definition with_shell {A} (W : World) (base : node) (p : Persona) (user style : str)
    (pivot : option (str -> option (node * Persona))) (body : ident -> M A) (sg : shared)
    : option A * shell * shared :=
  let '(s, g, tick) := sg in
  let I := Ident p user style pivot (w_clock W tick) in
  let '(r, st) := body I (newShell base p user s g (S tick)) in
  (r, st, (sh_s st, fst (Release (sh_g st) (sh_fs st)), sh_tick st)).

(** The shell of a pivot target gets no resolver, so no [ssh] leads further. *)
Definition no_nested (_ : node) (_ : Persona) : M unit := mret tt.
Definition nested_shell (W : World) (style : str) (base : node) (p : Persona) : M unit := fun st =>
  let '(r, _, (s, g, t)) :=
    with_shell W base p $$"root" style None
      (fun I => welcome W I ;; loop W I no_nested) (sh_s st, sh_g st, sh_tick st) in
  (r, set_tick t (set_g g (set_s s st))).

Section entry.
Context (W : World) (base : node) (p : Persona) (user style : str)
  (pivot : option (str -> option (node * Persona))).

Definition Run (sg : shared) : shared :=
  (with_shell W base p user style pivot
     (fun I => welcome W I ;; loop W I (nested_shell W style)) sg).2.

Definition exit_code (st : shell) : Z := if sh_last st <? 0 then 0 else sh_last st.
Definition RunOnce (line : str) (sg : shared) : Z * shared :=
  let line := trim_space line in
  if line =s [] then (0, sg)
  else
    let '(_, st, sg') :=
      with_shell W base p user style pivot
        (fun I => on_s count_cmd ;; runLine W I (nested_shell W style) line) sg in
    (exit_code st, sg').

(** [RunOnceCaptured]: [CaptureOutput] swaps the session's buffer. *)
Definition captured (m : M unit) : M str := fun st =>
  let prev := capture (sh_s st) in
  match m (set_s (Session.set_capture (sh_s st) (Some [])) st) with
  | (r, st') => ((fun _ => default [] (capture (sh_s st'))) <$> r, set_s (Session.set_capture (sh_s st') prev) st')
  end.
Definition RunOnceCaptured (line : str) (sg : shared) : str * Z * shared :=
  let line := trim_space line in
  if line =s [] then ([], 0, sg)
  else
    let '(out, st, sg') :=
      with_shell W base p user style pivot
        (fun I => on_s count_cmd ;; captured (runLine W I (nested_shell W style) line)) sg in
    (default [] out, exit_code st, sg').
End entry.
