(* ===== verification/ShellSpec.v ===== *)
(** * ShellSpec: what every shell computation preserves

    [inv] is the invariant of a shell's state; [steps st st'] relates the states
    before and after a computation: the recursion depth is back where it was, the
    overlay counter moved with this session's own bytes, the event log and the
    output only grew, input was only consumed, the expansion budget was only
    spent, and a capture buffer holds no more than what was spent.  [spec m Q]
    says that [m] keeps all of this and that a result satisfies [Q]; its rules
    follow the structure of the computation. *)

From S2P Require Import Prelude GoStrings Paths VfsNode VfsSession VfsSpec Util Event Session Persona ShellState.

(** ** The connection only moves forward *)

Record sess_le (s s' : sess) : Prop := {
  le_events : exists es, events s' = events s ++ es /\ Forall (attributed s) es;
  le_out : exists o, out s' = out s ++ o;
  le_inp : exists used, inp s = used ++ inp s';
  le_ids : (port s', proto s', s_IP s', SrcIP s', DstIP s', ID s', persona_host s', Username s', Deadline s') =
           (port s, proto s, s_IP s, SrcIP s, DstIP s, ID s, persona_host s, Username s, Deadline s);
  le_cap : capture s' = None <-> capture s = None;
  le_quiet : capture s <> None -> out s' = out s /\ inp s' = inp s
}.

#[export] Instance sess_le_preorder : PreOrder sess_le.
Proof.
  split.
  - intros s. split; [by apply grows_same | by exists []; rewrite app_nil_r | by exists [] | done | done | done].
  - intros a b c [E1 [o1 O1] [i1 I1] D1 C1 X1] [E2 [o2 O2] [i2 I2] D2 C2 X2]. split.
    + apply (transitivity (y := b) (Grows a b ltac:(unfold identity; congruence) E1) (Grows b c ltac:(unfold identity; congruence) E2)).
    + exists (o1 ++ o2). by rewrite O2, O1, app_assoc.
    + exists (i1 ++ i2). by rewrite I1, I2, app_assoc.
    + by rewrite D2.
    + by rewrite C2.
    + intros Hc. destruct X1 as [<- <-]; [done |]. apply X2. by rewrite C1.
Qed.

Ltac sess_same :=
  split; [by apply grows_same | first [by exists []; rewrite app_nil_r | by eexists]
    | first [by exists [] | by eexists] | done | try done | try done].

Lemma sess_le_event s e : attributed s e -> sess_le s (add_event s e).
Proof. intros H. split; [by apply grows_event | by exists []; rewrite app_nil_r | by exists [] | done | done | done]. Qed.
Lemma sess_le_Write x s : sess_le s (Write x s).
Proof. unfold Write. destruct (capture s) eqn:E; sess_same; simpl; by rewrite E. Qed.
Lemma sess_le_out x s : capture s = None -> sess_le s (set_out s (out s ++ x)).
Proof. intros E. sess_same. Qed.
Lemma sess_le_SlowWrite x s : sess_le s (SlowWrite x s).
Proof. unfold SlowWrite. destruct (capture s) eqn:E; [apply sess_le_Write | by apply sess_le_out]. Qed.
Lemma sess_le_SlowProgress x s : sess_le s (SlowProgress x s).
Proof.
  unfold SlowProgress. destruct (capture s) eqn:E; [apply sess_le_Write |].
  etransitivity; [| apply sess_le_Write]. by apply sess_le_out.
Qed.
Lemma sess_le_idle d s : sess_le s (set_idle s d).
Proof. sess_same. Qed.
Lemma sess_le_count s : sess_le s (count_cmd s).
Proof. sess_same. Qed.
Lemma read_line_suffix b n i l ok r : read_line b n i = (l, ok, r) -> exists used, i = used ++ r.
Proof.
  revert b n. induction i as [| c i IH]; intros b n; cbn [read_line].
  { intros [= <- <- <-]. by exists []. }
  case_bool_decide; [intros [= <- <- <-]; by exists [c] |].
  case_bool_decide.
  { intros [= <- <- <-]. destruct i as [| d i]; [by exists [c] |]. destruct (_ || _); [by exists [c; d] | by exists [c]]. }
  destruct (_ <=? _); [intros [= <- <- <-]; by exists [c] |].
  intros Hr. destruct (IH _ _ Hr) as [u ->]. by exists (c :: u).
Qed.
Lemma sess_le_ReadLine s : sess_le s (ReadLine s).2.
Proof.
  unfold ReadLine. destruct (capture s) eqn:E; [done |].
  destruct (read_line [] 0 (inp s)) as [[l ok] i] eqn:R. apply read_line_suffix in R as [u Hu].
  split; simpl; [by apply grows_same | by exists []; rewrite app_nil_r | by exists u | done | by rewrite E |].
  intros []. exact E.
Qed.
(** A line that is not the end of the stream consumes input, and the stream ends
    only when nothing is left. *)
Lemma ReadLine_progress s l ok s' :
  ReadLine s = (l, ok, s') ->
  if ok : bool then (length (inp s') < length (inp s))%nat else capture s = None -> inp s' = [].
Proof.
  unfold ReadLine. destruct (capture s) eqn:E; [by intros [= <- <- <-] |].
  destruct (read_line [] 0 (inp s)) as [[l0 ok0] r] eqn:R. intros [= <- <- <-].
  destruct ok0.
  - destruct (read_line_spec [] 0 (inp s) l0 true r) as (H1 & H2 & _); [done | done | set_solver | set_solver | done |].
    apply H2. by apply H1.
  - intros _. simpl.
    assert (forall i b n r, read_line b n i = (l0, false, r) -> r = []) as H; [| by eapply H].
    clear. induction i as [| c i IH]; intros b n r; cbn [read_line]; [by intros [= <- <-] |].
    repeat (case_bool_decide; [by intros [=] |]). destruct (_ <=? _); [by intros [=] | apply IH].
Qed.
Lemma sess_le_Prompt label s : sess_le s (Prompt label s).2.
Proof. unfold Prompt. etransitivity; [apply sess_le_Write | apply sess_le_ReadLine]. Qed.

#[export] Hint Extern 1 (attributed _ _) => by repeat split : go.
#[export] Hint Resolve sess_le_event sess_le_Write sess_le_SlowWrite sess_le_SlowProgress sess_le_idle sess_le_count
  sess_le_ReadLine sess_le_Prompt : go.

(** ** Invariant and progress of a shell *)

Definition code_ok (c : Z) : Prop := 0 <= c <= 255.

Record inv (st : shell) : Prop := {
  inv_fs : wf (sh_fs st);
  inv_g : sh_g st <= maxGlobalOverlayBytes;
  inv_code : code_ok (sh_last st);
  inv_budget : 0 <= sh_budget st <= maxExpandBytes;
  inv_depth : 0 <= sh_depth st
}.

(** A capture buffer grows by at most the bytes debited from the budget. *)
Definition capture_le (c c' : option str) (spent : Z) : Prop :=
  match c, c' with
  | None, None => True
  | Some b, Some b' => exists x, b' = b ++ x /\ zlen x <= spent
  | _, _ => False
  end.

Record steps (st st' : shell) : Prop := {
  stp_depth : sh_depth st' = sh_depth st;
  stp_base : base (sh_fs st') = base (sh_fs st);
  stp_count : sh_g st' - nbytes (sh_fs st') = sh_g st - nbytes (sh_fs st);
  stp_sess : sess_le (sh_s st) (sh_s st');
  stp_tick : (sh_tick st <= sh_tick st')%nat;
  stp_quit : sh_quit st = true -> sh_quit st' = true;
  stp_budget : 0 < sh_depth st -> sh_budget st' <= sh_budget st;
  stp_capture : 0 < sh_depth st -> capture_le (sh_capture st) (sh_capture st') (sh_budget st - sh_budget st')
}.

#[export] Instance steps_preorder : PreOrder steps.
Proof.
  split.
  - intros st. split; try done. intros _. unfold capture_le.
    destruct (sh_capture st); [exists []; rewrite app_nil_r; split; [done | unfold zlen; simpl; lia] | done].
  - intros a b c [D1 B1 C1 S1 T1 Q1 U1 P1] [D2 B2 C2 S2 T2 Q2 U2 P2].
    split; [congruence | congruence | lia | by etransitivity | lia | auto | |].
    + intros Hd. rewrite D1 in U2. specialize (U1 Hd). specialize (U2 Hd). lia.
    + intros Hd. rewrite D1 in P2. specialize (P1 Hd). specialize (P2 Hd). unfold capture_le in *.
      destruct (sh_capture a), (sh_capture b), (sh_capture c); try done.
      destruct P1 as (x & -> & Hx), P2 as (y & -> & Hy). exists (x ++ y).
      rewrite app_assoc. split; [done |]. rewrite zlen_app. lia.
Qed.

Definition spec {A} (m : M A) (Q : A -> Prop) : Prop :=
  forall st, inv st -> inv (m st).2 /\ steps st (m st).2 /\ (forall a, (m st).1 = Some a -> Q a).
Definition any {A} : A -> Prop := fun _ => True.

(** ** Rules *)

Lemma spec_weaken {A} (m : M A) (P Q : A -> Prop) : spec m P -> (forall a, P a -> Q a) -> spec m Q.
Proof. intros Hm HPQ st Hi. destruct (Hm st Hi) as (? & ? & ?). eauto. Qed.

Lemma spec_any {A} (m : M A) (P : A -> Prop) : spec m P -> spec m any.
Proof. intros Hm. by eapply spec_weaken. Qed.

Lemma spec_ret {A} (a : A) (Q : A -> Prop) : Q a -> spec (mret a) Q.
Proof. intros Ha st Hi. split_and!; [done | done | by intros b [= <-]]. Qed.

Lemma spec_panic {A} (Q : A -> Prop) : spec panic Q.
Proof. by intros st Hi. Qed.

Lemma spec_bind {A B} (m : M A) (f : A -> M B) (P : A -> Prop) (Q : B -> Prop) :
  spec m P -> (forall a, P a -> spec (f a) Q) -> spec (m ≫= f) Q.
Proof.
  intros Hm Hf st Hi. unfold mbind, M_bind. destruct (Hm st Hi) as (Hi1 & Hs1 & HP).
  destruct (m st) as [[a |] st1]; simpl in *; [| by split_and!].
  destruct (Hf a (HP a eq_refl) st1 Hi1) as (Hi2 & Hs2 & HQ). split_and!; [done | by etransitivity | done].
Qed.

Lemma spec_bind_any {A B} (m : M A) (f : A -> M B) (Q : B -> Prop) :
  spec m any -> (forall a, spec (f a) Q) -> spec (m ≫= f) Q.
Proof. intros Hm Hf. eapply spec_bind; eauto. Qed.

Lemma spec_gets {A} (f : shell -> A) (Q : A -> Prop) : (forall st, inv st -> Q (f st)) -> spec (gets f) Q.
Proof. intros H st Hi. split_and!; [done | done | intros a [= <-]; auto]. Qed.

Lemma spec_reading {A} (f : nat -> A) (Q : A -> Prop) : (forall k, Q (f k)) -> spec (reading f) Q.
Proof.
  intros H st [? ? ? ? ?]. split_and!; [by split | split; try done; simpl; try lia | by intros a [= <-]].
  intros Hd. apply (stp_capture st st); [done | done].
Qed.

Lemma spec_conn {A} (f : sess -> A * sess) (Q : A -> Prop) :
  (forall s, sess_le s (f s).2) -> (forall s, Q (f s).1) -> spec (conn f) Q.
Proof.
  intros Hf HQ st [? ? ? ? ?]. unfold conn. specialize (Hf (sh_s st)). specialize (HQ (sh_s st)).
  destruct (f (sh_s st)) as [a s']. split_and!; [by split | split; try done | by intros b [= <-]].
  intros Hd. apply (stp_capture st st); [done | done].
Qed.

Lemma spec_on_s f (Q : unit -> Prop) : (forall s, sess_le s (f s)) -> Q tt -> spec (on_s f) Q.
Proof. intros Hf HQ. apply spec_conn; simpl; [done | by intros]. Qed.

Lemma spec_on_fs {A} (f : Z -> session -> Z * session * A) (Q : A -> Prop) :
  (forall g s g' s' a, wf s -> f g s = (g', s', a) ->
     wf s' /\ base s' = base s /\ g' - g = nbytes s' - nbytes s /\
     (g <= maxGlobalOverlayBytes -> g' <= maxGlobalOverlayBytes) /\ Q a) ->
  spec (on_fs f) Q.
Proof.
  intros Hf st [Hw Hg Hc Hb Hd]. unfold on_fs.
  destruct (f (sh_g st) (sh_fs st)) as [[g' s'] a] eqn:E. apply Hf in E as (Hw' & HB & Hd' & Hg' & HQ); [| done].
  split_and!; [split; simpl; auto | split; simpl; try done; try lia | by intros b [= <-]].
  intros Hpos. apply (stp_capture st st); [done | done].
Qed.

(** Assignments to the fields no invariant mentions. *)
Lemma spec_setenv nm v (Q : unit -> Prop) : Q tt -> spec (setenv nm v) Q.
Proof.
  intros HQ st [? ? ? ? ?]. split_and!; [by split | split; try done | by intros [] _].
  intros Hpos. apply (stp_capture st st); [done | done].
Qed.
Lemma spec_set_cron c (Q : unit -> Prop) : Q tt -> spec (modify (set_cron c)) Q.
Proof.
  intros HQ st [? ? ? ? ?]. split_and!; [by split | split; try done | by intros [] _].
  intros Hpos. apply (stp_capture st st); [done | done].
Qed.
Lemma spec_set_quit (Q : unit -> Prop) : Q tt -> spec (modify (set_quit true)) Q.
Proof.
  intros HQ st [? ? ? ? ?]. split_and!; [by split | split; try done | by intros [] _].
  intros Hpos. apply (stp_capture st st); [done | done].
Qed.
Lemma spec_set_last c (Q : unit -> Prop) : code_ok c -> Q tt -> spec (modify (set_last c)) Q.
Proof.
  intros Hc HQ st [? ? ? ? ?]. split_and!; [by split | split; try done | by intros [] _].
  intros Hpos. apply (stp_capture st st); [done | done].
Qed.
Lemma spec_count_sub (Q : unit -> Prop) : Q tt -> spec (modify (fun st => set_subs (sh_subs st + 1) st)) Q.
Proof.
  intros HQ st [? ? ? ? ?]. split_and!; [by split | split; try done | by intros [] _].
  intros Hpos. apply (stp_capture st st); [done | done].
Qed.

Lemma spec_each {A} (l : list A) (f : A -> M unit) : (forall x, spec (f x) any) -> spec (each l f) any.
Proof. intros Hf. induction l as [| x l IH]; [by apply spec_ret | by apply spec_bind_any]. Qed.
Lemma spec_mmap {A B} (f : A -> M B) (l : list A) : (forall x, spec (f x) any) -> spec (mmap f l) any.
Proof.
  intros Hf. induction l as [| x l IH]; [by apply spec_ret |].
  apply spec_bind_any; [done |]. intros y. apply spec_bind_any; [done |]. intros ys. by apply spec_ret.
Qed.

(** ** The calls *)

Lemma exec_base now g s o g' s' e : exec now g s o = (g', s', e) -> base s' = base s.
Proof.
  destruct o as [p b | p | p | p]; cbn [exec]; [unfold WriteFile | unfold Mkdir | unfold Remove | unfold Chdir]; cbn zeta; intros H;
    by repeat (case_match; simplify_eq/=).
Qed.

Lemma spec_exec now o (f : Z -> session -> Z * session * option err) :
  (forall g s, f g s = exec now g s o) -> spec (on_fs f) any.
Proof.
  intros Hf. apply spec_on_fs. intros g s g' s' a Hw E. rewrite Hf in E.
  pose proof (exec_wf _ _ _ _ _ _ _ Hw E). pose proof (exec_base _ _ _ _ _ _ _ E).
  pose proof (exec_counter _ _ _ _ _ _ _ Hw E) as [? ?]. by split_and!.
Qed.

Lemma spec_wr x : spec (wr x) any.
Proof. by apply spec_on_s; [auto with go |]. Qed.
Lemma spec_writeln x : spec (writeln x) any.
Proof. apply spec_on_s; [| done]. intros s. apply sess_le_Write. Qed.
Lemma spec_prompt l : spec (prompt l) any.
Proof.
  apply spec_conn; [| done]. intros s. pose proof (sess_le_Prompt l s). by destruct (Prompt l s) as [[? ?] ?].
Qed.
Lemma spec_read_a_line : spec read_a_line any.
Proof.
  apply spec_conn; [| done]. intros s. pose proof (sess_le_ReadLine s). by destruct (ReadLine s) as [[? ?] ?].
Qed.
Lemma spec_fs_chdir q : spec (fs_chdir q) any.
Proof. apply (spec_exec 0 (OpChdir q)). done. Qed.
Lemma spec_fs_remove q : spec (fs_remove q) any.
Proof. apply (spec_exec 0 (OpRemove q)). done. Qed.
Lemma spec_gets_any {A} (f : shell -> A) : spec (gets f) any.
Proof. by apply spec_gets. Qed.
Lemma spec_reading_any {A} (f : nat -> A) : spec (reading f) any.
Proof. by apply spec_reading. Qed.
Lemma spec_fs_write W q b : spec (fs_write W q b) any.
Proof. apply spec_bind_any; [apply spec_reading_any |]. intros t. apply (spec_exec t (OpWrite q b)). done. Qed.
Lemma spec_fs_mkdir W q : spec (fs_mkdir W q) any.
Proof. apply spec_bind_any; [apply spec_reading_any |]. intros t. apply (spec_exec t (OpMkdir q)). done. Qed.
Lemma spec_setenv_any nm v : spec (setenv nm v) any.
Proof. by apply spec_setenv. Qed.
Lemma spec_set_cron_any c : spec (modify (set_cron c)) any.
Proof. by apply spec_set_cron. Qed.
Lemma spec_set_quit_any : spec (modify (set_quit true)) any.
Proof. by apply spec_set_quit. Qed.

Create HintDb sh.
#[export] Hint Resolve spec_wr spec_writeln spec_prompt spec_read_a_line spec_fs_chdir spec_fs_remove spec_fs_write
  spec_fs_mkdir spec_setenv_any spec_set_cron_any spec_set_quit_any : sh.

(** [code_ok] of a constant, [any] and the other routine postconditions. *)
Ltac post := solve [exact I | unfold any; done | unfold code_ok; simpl; lia].

(** Walk through a computation with the structural rules and the [sh] lemmas. *)
Ltac sp_step :=
  match goal with
  | |- forall _, _ => intro
  | |- spec (mret _) _ => apply spec_ret; try post
  | |- spec panic _ => apply spec_panic
  | |- spec (mbind _ _) _ => apply spec_bind_any
  | |- spec (gets _) any => apply spec_gets_any
  | |- spec (reading _) any => apply spec_reading_any
  | |- spec (each _ _) any => apply spec_each
  | |- spec (mmap _ _) any => apply spec_mmap
  | |- spec _ any => solve [eauto with sh | eapply spec_any; eauto with sh]
  | |- spec (on_s _) any => apply spec_on_s; [intro; first [apply sess_le_event; by repeat split | solve [auto with go]] | exact I]
  | |- spec _ _ => solve [eauto with sh]
  | |- spec (if ?b then _ else _) _ => destruct b
  | |- spec (match ?x with _ => _ end) _ => destruct x
  end.
Ltac sp := repeat (sp_step; cbn beta zeta iota).
