(* ===== verification/ShellCmdSpec.v ===== *)
(** * ShellCmdSpec: every command keeps the shell's promises

    One lemma per command: it preserves the invariant of ShellSpec and returns an
    exit status between 0 and 255.  Commands that re-enter the shell do so under
    the hypothesis that the lines they run keep the same promises. *)

From S2P Require Import Prelude GoStrings Paths VfsNode VfsSession VfsSpec Util Event Parse Session Persona ShellState ShellText ShellCmds ShellInter ShellSpec.

Definition code_of (r : str * Z) : Prop := code_ok r.2.
Ltac post ::= solve [exact I | unfold any; done | unfold code_of, code_ok; simpl; lia
                    | unfold code_of, code_ok; simpl; repeat case_match; simpl; lia].

Section text.
Context (W : World) (p : Persona).

Lemma spec_now : spec (now W) any. Proof. unfold now. sp. Qed.
Lemma spec_randN n : spec (randN W n) any. Proof. unfold randN. sp. Qed.
Lemma spec_ordered m : spec (ordered W m) any. Proof. unfold ordered. sp. Qed.
Hint Resolve spec_now spec_randN : sh.
Lemma spec_since t : spec (since W t) any. Proof. unfold since. sp. Qed.
Lemma spec_randomReveal : spec (randomReveal W) any. Proof. unfold randomReveal. sp. Qed.
Hint Resolve spec_since spec_randomReveal : sh.
Lemma spec_uptimeOf : spec (uptimeOf W p) any. Proof. unfold uptimeOf. sp. Qed.
Hint Resolve spec_uptimeOf : sh.
Lemma spec_memNumbers : spec (memNumbers W p) any. Proof. unfold memNumbers. sp. Qed.
Hint Resolve spec_memNumbers : sh.
Lemma spec_cmdPs I args : spec (cmdPs W I args) any.
Proof. unfold cmdPs, psStr, ps_row, psStartField, uptimeOf. sp. Qed.
Lemma spec_freeStr : spec (freeStr W p) any. Proof. unfold freeStr. sp. Qed.
Lemma spec_uptimeStr : spec (uptimeStr W p) any. Proof. unfold uptimeStr. sp. Qed.
Hint Resolve spec_uptimeStr : sh.
Lemma spec_wStr user src l : spec (wStr W p user src l) any. Proof. unfold wStr, idleField. sp. Qed.
Lemma spec_lastStr user src l : spec (lastStr W p user src l) any. Proof. unfold lastStr. sp. Qed.
Lemma spec_ifconfigStr : spec (ifconfigStr W p) any. Proof. unfold ifconfigStr. sp. Qed.
Lemma spec_ipRouteStr : spec (ipRouteStr p) any. Proof. unfold ipRouteStr. sp. Qed.
Hint Resolve spec_ipRouteStr : sh.
Lemma spec_cmdIP args : spec (cmdIP p args) any. Proof. unfold cmdIP. sp. Qed.
Lemma spec_systemctlStatus nm : spec (systemctlStatus W p nm) any. Proof. unfold systemctlStatus. sp. Qed.
Hint Resolve spec_systemctlStatus : sh.
Lemma spec_cmdService args : spec (cmdService W p args) any. Proof. unfold cmdService. sp. Qed.

(** ** Files *)

Lemma spec_fs_resolve q : spec (fs_resolve q) any. Proof. unfold fs_resolve. sp. Qed.
Lemma spec_fs_stat q : spec (fs_stat q) any. Proof. unfold fs_stat. sp. Qed.
Lemma spec_fs_read q : spec (fs_read q) any. Proof. unfold fs_read. sp. Qed.
Lemma spec_fs_readdir q : spec (fs_readdir q) any. Proof. unfold fs_readdir. sp. Qed.
Lemma spec_fs_exists q : spec (fs_exists q) any. Proof. unfold fs_exists. sp. Qed.
Lemma spec_getenv q : spec (getenv q) any. Proof. unfold getenv. sp. Qed.
Hint Resolve spec_fs_resolve spec_fs_stat spec_fs_read spec_fs_readdir spec_fs_exists spec_getenv : sh.
Lemma spec_procDynamic abs : spec (procDynamic W p abs) any. Proof. unfold procDynamic. sp. Qed.
Hint Resolve spec_procDynamic : sh.
Lemma spec_readFile abs : spec (readFile W p abs) any. Proof. unfold readFile. sp. Qed.
Hint Resolve spec_readFile : sh.
Lemma spec_revealForLoot k abs cmd : spec (revealForLoot W k abs cmd) any. Proof. unfold revealForLoot. sp. Qed.
Hint Resolve spec_revealForLoot : sh.

Lemma spec_cat_files b code files : code_ok code -> spec (cat_files W p b code files) code_of.
Proof.
  revert b code. induction files as [| f files IH]; intros b code Hc; cbn [cat_files].
  { by apply spec_ret. }
  assert (code_ok 1) by post. sp; by apply spec_ret || (apply IH; done).
Qed.
Lemma spec_cmdCat args : spec (cmdCat W p args) code_of.
Proof.
  unfold cmdCat. destruct (bare _); [apply spec_ret; post | apply spec_cat_files; post].
Qed.
Lemma spec_cmdCd args : spec (cmdCd args) code_of. Proof. unfold cmdCd. sp. Qed.
Lemma spec_cmdHeadTail args stdin tail : spec (cmdHeadTail W p args stdin tail) code_of.
Proof. unfold cmdHeadTail. sp. Qed.
Lemma spec_cmdWc args stdin : spec (cmdWc W p args stdin) code_of. Proof. unfold cmdWc. sp. Qed.
Lemma spec_cmdGrep args stdin : spec (cmdGrep W p args stdin) code_of. Proof. unfold cmdGrep. sp. Qed.
Lemma spec_cmdMutate args : spec (cmdMutate W args) code_of. Proof. unfold cmdMutate. sp. Qed.
Lemma spec_cmdHistory args : spec (cmdHistory p args) code_of. Proof. unfold cmdHistory. sp. Qed.
End text.

#[export] Hint Resolve spec_now spec_randN spec_ordered spec_since spec_randomReveal spec_uptimeOf spec_memNumbers
  spec_cmdPs spec_freeStr spec_uptimeStr spec_wStr spec_lastStr spec_ifconfigStr spec_ipRouteStr spec_cmdIP
  spec_cmdService spec_fs_resolve spec_fs_stat spec_fs_read spec_fs_readdir spec_fs_exists spec_getenv
  spec_readFile spec_revealForLoot spec_cmdCat spec_cmdCd spec_cmdHeadTail spec_cmdWc spec_cmdGrep
  spec_cmdMutate spec_cmdHistory : sh.

(** ** The commands that own the terminal *)

Section inter.
Context (W : World) (I : ident) (runLine : str -> M unit) (nested : node -> Persona -> M unit)
  (HrunLine : forall l, spec (runLine l) any) (Hnested : forall f q, spec (nested f q) any).
Hint Resolve HrunLine Hnested : sh.

Lemma spec_iWget args : spec (iWget W args) code_ok. Proof using. unfold iWget. sp. Qed.
Lemma spec_iCurl args : spec (iCurl W args) code_ok. Proof using. unfold iCurl. sp. Qed.
Lemma spec_iTftp args : spec (iTftp args) code_ok. Proof using. unfold iTftp. sp. Qed.
Lemma spec_iFtp args : spec (iFtp args) code_ok. Proof using. unfold iFtp. sp. Qed.
Lemma spec_iSSH args : spec (iSSH I nested args) code_ok. Proof using Hnested. unfold iSSH. sp. Qed.
Lemma spec_iScp args : spec (iScp I args) code_ok. Proof using. unfold iScp. sp. Qed.
Lemma spec_iRsync args : spec (iRsync I args) code_ok. Proof using. unfold iRsync. sp. Qed.
Lemma spec_captureDropper q c : spec (captureDropper W q c) any. Proof using. unfold captureDropper. sp. Qed.
Hint Resolve spec_captureDropper : sh.
Lemma spec_iShExec args : spec (iShExec W runLine args) code_ok.
Proof using HrunLine.
  unfold iShExec. destruct (dash_c _); [| sp].
  apply spec_bind_any; [sp |]. intros _. apply spec_bind_any; [sp |]. intros _.
  apply spec_gets. by intros st [].
Qed.
Lemma spec_iInterp args : spec (iInterp args) code_ok. Proof using. unfold iInterp. sp. Qed.
Lemma spec_base64_input f s : spec (base64_input W I f s) any. Proof using. unfold base64_input. sp. Qed.
Hint Resolve spec_base64_input : sh.
Lemma spec_cmdBase64 args stdin : spec (cmdBase64 W I runLine args stdin) code_of.
Proof using HrunLine. unfold cmdBase64. sp. Qed.
Lemma spec_iCompile args : spec (iCompile args) code_ok. Proof using. unfold iCompile. sp. Qed.
Lemma spec_iApt args : spec (iApt W args) code_ok. Proof using. unfold iApt. sp. Qed.
Lemma spec_iPip args : spec (iPip args) code_ok. Proof using. unfold iPip. sp. Qed.
Lemma spec_iSu args : spec (iSu args) code_ok. Proof using. unfold iSu. sp. Qed.
Lemma spec_iPasswd args : spec (iPasswd I args) code_ok. Proof using. unfold iPasswd. sp. Qed.
Lemma spec_editor_loop f t l : spec (editor_loop f t l) any.
Proof using. revert l. induction f as [| f IH]; intros l; cbn [editor_loop]; sp. Qed.
Hint Resolve spec_editor_loop : sh.
Lemma spec_runEditor t : spec (runEditor t) any. Proof using. unfold runEditor. sp. Qed.
Hint Resolve spec_runEditor : sh.
Lemma spec_iEditor args : spec (iEditor W args) code_ok. Proof using. unfold iEditor. sp. Qed.
Lemma spec_crontab_loop args : spec (crontab_loop I args) code_ok.
Proof using.
  assert (forall n args, (length args <= n)%nat -> spec (crontab_loop I args) code_ok) as H; [| by eapply H].
  clear args. induction n as [| n IH]; intros [| a [| b rest]] Hn; simpl in Hn; try lia; cbn [crontab_loop]; sp;
    match goal with |- spec _ code_ok => apply IH; simpl in *; lia | _ => idtac end.
Qed.
Lemma spec_find_over c d : spec (find_over W c d) any. Proof using. unfold find_over. sp. Qed.
Hint Resolve spec_find_over : sh.
Lemma spec_find_entries walk dir d c l :
  (forall q k, spec (walk q k) any) -> spec (find_entries W walk dir d c l) any.
Proof using.
  intros Hw. revert c. induction l as [| e l IH]; intros c; cbn [find_entries]; sp; apply IH.
Qed.
Lemma spec_walkFind f d dir c : spec (walkFind W f d dir c) any.
Proof using.
  revert dir c. induction f as [| f IH]; intros dir c; cbn [walkFind]; sp.
  apply spec_find_entries. auto.
Qed.
Hint Resolve spec_walkFind : sh.
Lemma spec_iFind args : spec (iFind W args) code_ok. Proof using. unfold iFind. sp. Qed.
Lemma spec_iTop : spec (iTop W I) code_ok. Proof using. unfold iTop. sp. Qed.
Lemma spec_iMysql args : spec (iMysql I args) code_ok. Proof using. unfold iMysql. sp. Qed.
Lemma spec_iTar args : spec (iTar args) code_ok. Proof using. unfold iTar. sp. Qed.
Lemma spec_iAsciiView args : spec (iAsciiView W args) code_ok. Proof using. unfold iAsciiView, show_reveal. sp. Qed.
Lemma spec_iVault args : spec (iVault W args) code_ok. Proof using. unfold iVault, show_reveal. sp. Qed.
Hint Resolve spec_iWget spec_iCurl spec_iTftp spec_iFtp spec_iSSH spec_iScp spec_iRsync spec_iShExec spec_iInterp
  spec_iCompile spec_iApt spec_iPip spec_iSu spec_iPasswd spec_iEditor spec_crontab_loop spec_iFind spec_iTop
  spec_iMysql spec_iTar spec_iAsciiView spec_iVault : sh.
Lemma spec_runInteractive args : spec (runInteractive W I runLine nested args) code_ok.
Proof using HrunLine Hnested. unfold runInteractive, iCrontab. sp. Qed.
End inter.
