(* ===== verification/ShellFacts.v ===== *)
(** * ShellFacts: the interpreter keeps its promises

    The specification of ShellSpec for expansion, pipelines, statements, lines,
    the interactive loop and nested shells, and the bound on what expansion can
    produce. *)

From S2P Require Import Prelude GoStrings Paths VfsNode VfsSession VfsSpec VfsPool Util Event Parse Session Persona ShellState ShellArith ShellText ShellCmds ShellInter Shell ShellSpec ShellCmdSpec.

(** ** The budget *)

Lemma takeBudget_run s st :
  inv st -> exists x, takeBudget s st = (Some x, set_budget (sh_budget st - zlen x) st) /\
    zlen x <= sh_budget st /\ exists y, s = x ++ y.
Proof.
  intros [_ _ _ Hb _]. unfold takeBudget. destruct (sh_budget st <=? 0) eqn:E; bool_hyps.
  { exists []. change (zlen []) with 0. split; [| split; [lia | by exists s]].
    f_equal. destruct st. unfold set_budget. simpl. f_equal. lia. }
  destruct (sh_budget st <? zlen s) eqn:E2; bool_hyps.
  - eexists. split; [done |]. split.
    + rewrite zlen_take. lia.
    + exists (drop (Z.to_nat (sh_budget st)) s). by rewrite take_drop.
  - eexists. split; [done |]. split; [lia | exists []; by rewrite app_nil_r].
Qed.

Lemma spec_takeBudget s : spec (takeBudget s) any.
Proof.
  intros st Hi. destruct (takeBudget_run s st Hi) as (x & -> & Hx & _). destruct Hi as [? ? ? ? ?].
  pose proof (zlen_nonneg x). split_and!; [split; simpl; try done; lia | split; simpl; try done | done]; try lia.
  intros _. destruct (sh_capture st); [exists []; rewrite app_nil_r; split; [done | unfold zlen; simpl; lia] | done].
Qed.
#[export] Hint Resolve spec_takeBudget : sh.

Lemma spec_emit_capture out b st :
  inv st -> sh_capture st = Some b ->
  let m := x ← takeBudget out; modify (fun st => set_capture (Some (default [] (sh_capture st) ++ x)) st) in
  inv (m st).2 /\ steps st (m st).2 /\ (forall a, (m st).1 = Some a -> any a).
Proof.
  intros Hi Hc. destruct (takeBudget_run out st Hi) as (x & E & Hx & _). destruct Hi as [? ? ? ? ?].
  cbv zeta. unfold mbind, M_bind. rewrite E. pose proof (zlen_nonneg x). simpl. rewrite Hc. simpl.
  split_and!; [split; simpl; try done; lia | split; simpl; try done | done]; try lia.
  intros _. rewrite Hc. exists x. split; [done | lia].
Qed.

Lemma spec_redirect_out W stg out : spec (redirect_out W stg out) any.
Proof. unfold redirect_out. sp. Qed.
#[export] Hint Resolve spec_redirect_out : sh.

Lemma spec_emit W stg out : spec (emit W stg out) any.
Proof.
  intros st Hi. unfold emit. destruct (outNull stg); [by apply spec_ret |].
  destruct (negb _); [by apply spec_redirect_out |].
  rewrite !bind_gets. destruct (sh_capture st) as [b |] eqn:Hc; [by apply (spec_emit_capture out b st) |].
  destruct (out =s []); [by apply spec_ret | by apply spec_wr].
Qed.
#[export] Hint Resolve spec_emit : sh.

(** ** Substitution and expansion *)

Section levels.
Context (W : World) (I : ident) (nested : node -> Persona -> M unit)
  (Hnested : forall f q, spec (nested f q) any).
Hint Resolve Hnested : sh.

Section knot.
Context (runLine : str -> M unit) (HrunLine : forall l, spec (runLine l) any)
  (Hreturns : forall l st, (runLine l st).1 = Some tt).
Hint Resolve HrunLine : sh.

(** What [m] returns is paid for: at most [k] bytes, and the bytes debited. *)
Definition costs (m : M str) (k : Z) : Prop :=
  forall st a, inv st -> 0 < sh_depth st -> (m st).1 = Some a ->
    zlen a <= k + (sh_budget st - sh_budget (m st).2).

Lemma runCaptured_spec line : spec (runCaptured runLine line) any /\ costs (runCaptured runLine line) 0.
Proof using HrunLine Hreturns.
  assert (forall st, inv st -> let r := runCaptured runLine line st in
    inv r.2 /\ steps st r.2 /\ (0 < sh_depth st -> forall a, r.1 = Some a -> zlen a <= sh_budget st - sh_budget r.2)) as H.
  { intros st Hi. unfold runCaptured. rewrite bind_gets.
    destruct (maxExecDepth <=? sh_depth st).
    { cbv zeta. split_and!; [done | done |]. intros _ a [= <-]. unfold zlen. simpl. lia. }
    cbv zeta. rewrite bind_gets, bind_modify.
    pose proof (HrunLine line (set_capture (Some []) st)) as Hl.
    pose proof (Hreturns line (set_capture (Some []) st)) as Hr.
    destruct (runLine line (set_capture (Some []) st)) as [r st'] eqn:E. simpl in Hr. subst r.
    rewrite (bind_run _ _ _ _ _ E), bind_gets, bind_modify. simpl in Hl |- *.
    destruct Hl as ([? ? ? ? ?] & [D B C S T Q U P] & _); [by destruct Hi; split |]. simpl in *.
    assert (0 < sh_depth st -> exists x, sh_capture st' = Some x /\ zlen x <= sh_budget st - sh_budget st') as HP.
    { intros Hd. specialize (P Hd). unfold capture_le in P. destruct (sh_capture st') as [c |]; [| done].
      destruct P as (x & -> & Hx). by exists x. }
    split_and!; [by split | split; simpl; try done |].
    - intros Hd. specialize (U Hd). destruct (sh_capture st); [| done]. exists []. rewrite app_nil_r.
      unfold zlen at 1. simpl. split; [done | lia].
    - intros Hd a [= <-]. destruct (HP Hd) as (x & -> & Hx). done. }
  split.
  - intros st Hi. destruct (H st Hi) as (? & ? & _). by split_and!.
  - intros st a Hi Hd E. destruct (H st Hi) as (_ & _ & Hc). specialize (Hc Hd a E). lia.
Qed.

Lemma zlen_trim s set : zlen (trim s set) <= zlen s.
Proof.
  unfold trim. destruct (trim_right_prefix (trim_left s set) set) as [t Et].
  pose proof (zlen_nonneg t). apply (f_equal zlen) in Et. rewrite zlen_app in Et.
  unfold trim_left in *. destruct (drop_while_suffix (in_set set) s) as [q Eq].
  apply (f_equal zlen) in Eq. rewrite zlen_app in Eq. pose proof (zlen_nonneg q). lia.
Qed.

Lemma zlen_replace_one c x s : zlen (replace_byte c [x] s) = zlen s.
Proof. unfold zlen. induction s as [| y s IH]; [done |]. simpl. case_bool_decide; simpl; lia. Qed.

Lemma cmdSub_spec inner : spec (cmdSub runLine inner) any /\ costs (cmdSub runLine inner) 0.
Proof using HrunLine Hreturns.
  destruct (runCaptured_spec inner) as [Hs Hc]. split.
  { unfold cmdSub. apply spec_bind_any; [by apply spec_count_sub |]. intros _. sp. }
  intros st a Hi Hd. unfold cmdSub. rewrite bind_modify, bind_gets.
  set (st1 := set_subs (sh_subs st + 1) st).
  assert (inv st1) as Hi1 by by destruct Hi. change (sh_budget st) with (sh_budget st1).
  destruct (_ || _).
  { intros [= <-]. simpl. change (zlen []) with 0. lia. }
  unfold mbind, M_bind. specialize (Hc st1).
  destruct (runCaptured runLine inner st1) as [[o |] st2]; [| done]. intros [= <-]. simpl in *.
  specialize (Hc o Hi1 Hd eq_refl). unfold fold_newlines. change ($$" ") with [" "%char]. rewrite zlen_replace_one.
  pose proof (zlen_trim o [nl]). lia.
Qed.

Lemma itoa_length n : min_int64 <= n <= max_int64 -> zlen (itoa n) <= 20.
Proof.
  intros Hn.
  assert (forall f g m acc, 0 <= m -> m < 10 ^ Z.of_nat g -> (0 < g)%nat -> zlen (digits 10 f m acc) <= Z.of_nat g + zlen acc) as Hd.
  { induction f as [| f IH]; intros g m acc H0 Hm Hg; [simpl; lia |]. rewrite digits_step by done.
    pose proof (Z.div_mod m 10 ltac:(lia)). pose proof (Z.mod_pos_bound m 10 eq_refl).
    destruct (m / 10 =? 0) eqn:E; bool_hyps; [rewrite zlen_cons; lia |].
    assert (0 < m / 10) by (pose proof (Z.div_pos m 10); lia).
    destruct g as [| [| g]]; [lia | change (10 ^ Z.of_nat 1) with 10 in Hm; lia |].
    specialize (IH (S g) (m / 10) (zb (48 + m mod 10) :: acc)). rewrite zlen_cons in IH.
    rewrite (Nat2Z.inj_succ (S g)), Z.pow_succ_r in Hm by lia.
    assert (m / 10 < 10 ^ Z.of_nat (S g)) by (apply Z.div_lt_upper_bound; lia). lia. }
  assert (forall m, 0 <= m <= 2 ^ 63 -> zlen (digits 10 (digit_fuel m) m []) <= 19) as H19.
  { intros m Hm. specialize (Hd (digit_fuel m) 19%nat m []). change (zlen []) with 0 in Hd.
    change (10 ^ Z.of_nat 19) with 10000000000000000000 in Hd. lia. }
  unfold itoa. unfold min_int64, max_int64 in Hn. destruct (n <? 0) eqn:E; bool_hyps.
  - rewrite zlen_cons. specialize (H19 (- n)). lia.
  - specialize (H19 n). lia.
Qed.

Lemma costs_mono m k k' : costs m k -> k <= k' -> costs m k'.
Proof using. intros Hm Hk st a Hi Hd E. specialize (Hm st a Hi Hd E). lia. Qed.

Lemma costs_gets f k : (forall st, inv st -> zlen (f st) <= k) -> costs (gets f) k.
Proof using. intros Hf st a Hi _ [= <-]. specialize (Hf st Hi). simpl. lia. Qed.

Lemma costs_ret x : costs (mret x) (zlen x).
Proof using. intros st a _ _ [= <-]. simpl. lia. Qed.

Lemma costs_app m1 m2 k1 k2 :
  spec m1 any -> costs m1 k1 -> costs m2 k2 -> costs (x ← m1; y ← m2; mret (x ++ y)) (k1 + k2).
Proof using.
  intros Hs H1 H2 st a Hi Hd. unfold mbind, M_bind. destruct (Hs st Hi) as (Hi1 & Hs1 & _).
  specialize (H1 st). destruct (m1 st) as [[x |] st1]; [| done]. simpl in *. specialize (H1 x Hi Hd eq_refl).
  specialize (H2 st1). destruct (m2 st1) as [[y |] st2]; [| done]. simpl in *. intros [= <-].
  specialize (H2 y Hi1). rewrite (stp_depth _ _ Hs1) in H2. specialize (H2 Hd eq_refl). rewrite zlen_app. lia.
Qed.

Lemma expand_env_spec nm : spec (expand_env nm) any /\ costs (expand_env nm) 0.
Proof using.
  split; [unfold expand_env; sp |]. intros st a Hi _. unfold expand_env, getenv. rewrite bind_gets.
  destruct (takeBudget_run (default [] (sh_env st !! nm)) st Hi) as (x & -> & _ & _). intros [= <-]. simpl. lia.
Qed.

Lemma expand_dollar_spec w m k : expand_dollar runLine w = (m, k) -> spec m any /\ costs m 20.
Proof using HrunLine Hreturns.
  assert (forall s, zlen s <= 20 -> costs (mret s) 20) as Hret by (intros; by eapply costs_mono; [apply costs_ret |]).
  assert (forall m, spec m any /\ costs m 0 -> spec m any /\ costs m 20) as H0.
  { intros m' [Hs Hc]. split; [done |]. eapply costs_mono; [done | lia]. }
  assert (forall m' k', (match (span name_char w).1 with
    | [] => (mret $$"$", 0%nat) | _ => (expand_env (span name_char w).1, length (span name_char w).1) end) = (m', k') ->
    spec m' any /\ costs m' 20) as Hplain.
  { intros m' k'. destruct (span name_char w).1; intros [= <- <-]; [| apply H0, expand_env_spec].
    split; [sp | by apply Hret]. }
  unfold expand_dollar. cbv zeta. destruct w as [| d r]; [apply Hplain |].
  destruct (bool_decide _); [intros [= <- <-]; split; [sp | by apply Hret] |].
  destruct (has_prefix _ _).
  { intros [= <- <-]. split; [sp |]. apply costs_gets. intros st _. apply itoa_length, evalArith_range. }
  destruct (bool_decide _); [intros [= <- <-]; apply H0, cmdSub_spec |].
  destruct (bool_decide _).
  { intros [= <- <-]. split; [sp |]. apply costs_gets. intros st Hi. apply itoa_length.
    pose proof (inv_code st Hi) as Hc. unfold code_ok in Hc. unfold min_int64, max_int64. lia. }
  destruct (bool_decide _); [| apply Hplain].
  destruct (index_byte _ _); [intros [= <- <-]; apply H0, expand_env_spec | apply Hplain].
Qed.

Lemma expand_from_spec skip w : spec (expand_from runLine skip w) any /\ costs (expand_from runLine skip w) (20 * zlen w).
Proof using HrunLine Hreturns.
  revert skip. induction w as [| c w IH]; intros skip; cbn [expand_from].
  { split; [sp |]. apply costs_ret. }
  assert (forall m s, spec m any /\ costs m 20 -> spec (x ← m; y ← expand_from runLine s w; mret (x ++ y)) any /\
    costs (x ← m; y ← expand_from runLine s w; mret (x ++ y)) (20 * zlen (c :: w))) as Happ.
  { intros m s [Hs Hc]. destruct (IH s) as [Hs' Hc']. split; [sp |].
    eapply costs_mono; [by apply costs_app | rewrite zlen_cons; lia]. }
  destruct skip as [| k].
  - destruct (bool_decide _).
    { unfold expand_backtick. apply Happ. destruct (cmdSub_spec (until backtick w).1) as [Hs Hc].
      split; [done | eapply costs_mono; [done | lia]]. }
    destruct (bool_decide _).
    { destruct (expand_dollar runLine w) as [m k] eqn:E. apply Happ. by eapply expand_dollar_spec. }
    destruct (IH O) as [Hs Hc]. split; [sp |].
    assert (costs (mret [c]) 1) as H1 by apply (costs_ret [c]).
    pose proof (costs_app (mret [c]) (expand_from runLine 0 w) 1 _ ltac:(sp) H1 Hc) as Hcc.
    eapply costs_mono; [exact Hcc | rewrite zlen_cons; lia].
  - destruct (IH k) as [Hs Hc]. split; [done |]. eapply costs_mono; [done |]. rewrite zlen_cons. lia.
Qed.

Lemma expand_spec w : spec (expand runLine w) any /\ costs (expand runLine w) (20 * zlen w).
Proof using HrunLine Hreturns.
  unfold expand. destruct (contains_any _ _); [apply expand_from_spec |]. split; [sp |].
  eapply costs_mono; [apply costs_ret | pose proof (zlen_nonneg w); lia].
Qed.

Lemma spec_expand w : spec (expand runLine w) any.
Proof using HrunLine Hreturns. apply expand_spec. Qed.
Hint Resolve spec_expand : sh.

(** Total size of a list of words. *)
Definition total (l : list str) : Z := foldr (fun s acc => zlen s + acc) 0 l.

Lemma expand_words ws st l :
  inv st -> 0 < sh_depth st -> (mmap (expand runLine) ws st).1 = Some l ->
  let st' := (mmap (expand runLine) ws st).2 in
  inv st' /\ steps st st' /\ total l <= 20 * total ws + (sh_budget st - sh_budget st').
Proof using HrunLine Hreturns.
  revert st l. induction ws as [| w ws IH]; intros st l Hi Hd.
  { intros [= <-]. simpl. split_and!; [done | done | unfold total; simpl; lia]. }
  cbn [mmap]. unfold mbind, M_bind. destruct (expand_spec w) as [Hs Hc].
  destruct (Hs st Hi) as (Hi1 & Hs1 & _). specialize (Hc st).
  destruct (expand runLine w st) as [[x |] st1]; [| done]. simpl in *. specialize (Hc x Hi Hd eq_refl).
  specialize (IH st1). destruct (mmap (expand runLine) ws st1) as [[l' |] st2]; [| done]. simpl in *.
  intros [= <-]. rewrite (stp_depth _ _ Hs1) in IH. destruct (IH l' Hi1 Hd eq_refl) as (Hi2 & Hs2 & Ht).
  split_and!; [done | by etransitivity |]. unfold total in *. simpl. lia.
Qed.

(** ** Commands, pipelines, statements *)

Lemma code_cmdTest fs args : code_of (cmdTest fs args).
Proof using. unfold cmdTest. repeat case_match; simplify_eq/=; unfold code_of, code_ok; simpl; lia. Qed.
Lemma code_cmdWhich fs args : code_of (cmdWhich fs args).
Proof using. unfold cmdWhich. cbv zeta. repeat case_match; simplify_eq/=; unfold code_of, code_ok; simpl; lia. Qed.
Lemma code_cmdStat fs args : code_of (cmdStat W fs args).
Proof using. unfold cmdStat. cbv zeta. unfold code_of, code_ok. simpl. case_match; lia. Qed.
Lemma spec_on_view {A} (f : session -> A) Q : (forall fs, Q (f fs)) -> spec (on_view f) Q.
Proof using. intros Hf. by apply spec_gets. Qed.
Lemma spec_out_of m : spec m any -> spec (out_of m) code_of.
Proof using. intros Hm. unfold out_of. sp. Qed.
Lemma spec_src_ip : spec src_ip any.
Proof using. unfold src_ip. sp. Qed.
Hint Resolve spec_src_ip spec_cmdBase64 : sh.

Lemma spec_run_unknown b args : spec (run_unknown W b args) code_of.
Proof using. unfold run_unknown. sp. Qed.
Hint Resolve spec_run_unknown : sh.

Ltac sp_cmd :=
  match goal with
  | |- spec (out_of _) code_of => apply spec_out_of
  | |- spec (on_view _) any => by apply spec_on_view
  | |- spec (on_view _) code_of =>
      apply spec_on_view; intro; first [apply code_cmdTest | apply code_cmdWhich | apply code_cmdStat]
  | _ => sp_step
  end.

Lemma spec_dispatch again b args stdin :
  (forall a s, spec (again a s) code_of) -> spec (dispatch W I runLine again b args stdin) code_of.
Proof using HrunLine.
  intros Ha. unfold dispatch, cmdBusybox. cbv zeta. repeat (sp_cmd; cbn beta zeta iota).
Qed.

Lemma spec_runCommand args stdin : spec (runCommand W I runLine args stdin) code_of.
Proof using HrunLine.
  unfold runCommand. generalize (length args) as f. intros f. revert args stdin.
  induction f as [| f IH]; intros [| cmd args] stdin; cbn [runCommand_at];
    [apply spec_ret; post | apply spec_ret; post | apply spec_ret; post |].
  apply spec_dispatch, IH.
Qed.
Hint Resolve spec_runCommand : sh.

Lemma spec_expandStage stg : spec (expandStage runLine stg) any.
Proof using HrunLine Hreturns. unfold expandStage. sp. Qed.
Hint Resolve spec_expandStage : sh.

Lemma spec_pipeline stdin code stgs : code_ok code -> spec (pipeline W I runLine stdin code stgs) code_ok.
Proof using HrunLine Hreturns.
  revert stdin code. induction stgs as [| stg rest IH]; intros stdin code Hc; cbn [pipeline].
  { by apply spec_ret. }
  apply spec_bind_any; [sp |]. intros args. destruct args as [| c args]; [by apply IH |].
  eapply spec_bind; [apply spec_runCommand |]. intros [out code'] Hc'.
  destruct rest; [| by apply IH]. apply spec_bind_any; [sp |]. intros _. by apply spec_ret.
Qed.

Lemma spec_set_code m : spec m code_ok -> spec (set_code m) any.
Proof using. intros Hm. eapply spec_bind; [exact Hm |]. intros c Hc. by apply spec_set_last. Qed.

Lemma spec_runStatement st : spec (runStatement W I nested runLine st) any.
Proof using HrunLine Hreturns Hnested.
  assert (spec (run_pipeline W I runLine st) any) as Hp.
  { apply spec_set_code, spec_pipeline. post. }
  assert (forall args, spec (set_code (runInteractive W I runLine nested args)) any) as Hi.
  { intros args. by apply spec_set_code, spec_runInteractive. }
  assert (spec (modify (set_last 0)) any) as H0 by (apply spec_set_last; post).
  unfold runStatement. destruct (stages st) as [| stg [| stg2 rest]]; [sp | |].
  - destruct (bool_decide _).
    + unfold assign_all. sp.
    + apply spec_bind_any; [sp |]. intros args. destruct (isInteractive _); done.
  - destruct (piped_shell st); [| done].
    apply spec_bind_any; [sp |]. intros _. apply spec_bind_any; [sp |]. intros args.
    apply spec_bind_any; [| by intros _]. eapply spec_any. by apply spec_runInteractive.
Qed.
Hint Resolve spec_runStatement : sh.

Lemma spec_run_stmts run stmts : spec (run_stmts W I nested runLine run stmts) any.
Proof using HrunLine Hreturns Hnested.
  revert run. induction stmts as [| st rest IH]; intros run; cbn [run_stmts]; [sp |].
  apply spec_bind_any; [sp |]. intros _. apply spec_bind_any; [sp |]. intros quit.
  destruct (run && quit); [sp |]. apply spec_bind_any; [sp | auto].
Qed.
End knot.

(** ** Lines *)

Lemma spec_catch m : spec m any -> spec (catch m) any.
Proof using.
  intros Hm st Hi. unfold catch. destruct (Hm st Hi) as (Hi1 & Hs1 & _).
  destruct (m st) as [[[] |] st1]; simpl in *; [by split_and! |].
  destruct (spec_writeln segfault st1 Hi1) as (Hi2 & Hs2 & _). split_and!; [done | by etransitivity | done].
Qed.

Lemma catch_returns m st : (catch m st).1 = Some tt.
Proof using. unfold catch. by destruct (m st) as [[[] |] st1]. Qed.

Lemma spec_refill : spec (modify refill) any.
Proof using.
  intros st [? ? ? ? ?]. unfold refill. simpl. destruct (sh_depth st =? 0) eqn:E; bool_hyps; [| by split_and!; [split | |]].
  split_and!; [split; simpl; try done | split; simpl; try done; lia | done].
Qed.

Lemma spec_entered m :
  spec m any -> (forall st, (m st).1 = Some tt) -> spec (modify (enter 1) ;; m ;; modify (enter (-1))) any.
Proof using.
  intros Hm Hr st Hi. rewrite bind_modify. specialize (Hr (enter 1 st)). destruct (Hm (enter 1 st)) as (Hi1 & [D B C S T Q U P] & _).
  { destruct Hi. split; simpl; try done; lia. }
  destruct (m (enter 1 st)) as [r st1] eqn:E. simpl in *. subst r. rewrite (bind_run _ _ _ _ _ E). simpl.
  split_and!; [destruct Hi1; split; simpl; try done; destruct Hi; lia | split; simpl; try done; try lia | done];
    try (intros Hd; (apply U || apply P); lia); try done.
Qed.

Lemma runLine_at_spec n line :
  spec (runLine_at W I nested n line) any /\ (forall st, (runLine_at W I nested n line st).1 = Some tt).
Proof using Hnested.
  revert line. induction n as [| n IH]; intros line; cbn [runLine_at].
  - split; [| done]. apply spec_bind_any; [apply spec_refill |]. intros _.
    apply spec_bind_any; [sp |]. intros _. by apply spec_set_last; [post |].
  - split.
    + apply spec_bind_any; [apply spec_refill |]. intros _.
      apply spec_entered; [apply spec_catch, spec_run_stmts; intros; apply IH | intros; apply catch_returns].
    + intros st. rewrite bind_modify, bind_modify.
      match goal with |- ((catch ?m ;; _) ?s).1 = _ => pose proof (catch_returns m s) as Hr end.
      unfold mbind, M_bind. destruct (catch _ _) as [r st1]. simpl in Hr. by subst r.
Qed.

Lemma spec_runLine line : spec (runLine W I nested line) any.
Proof using Hnested. intros st Hi. by apply runLine_at_spec. Qed.
Lemma runLine_returns line st : (runLine W I nested line st).1 = Some tt.
Proof using Hnested. apply runLine_at_spec. Qed.
Hint Resolve spec_runLine : sh.

Lemma spec_welcome : spec (welcome W I) any.
Proof using. unfold welcome. sp. Qed.
Lemma spec_loop_from f : spec (loop_from W I nested f) any.
Proof using Hnested. induction f as [| f IH]; cbn [loop_from]; [sp |]. unfold shell_prompt. sp. Qed.
Hint Resolve spec_welcome spec_loop_from : sh.
Lemma spec_loop : spec (loop W I nested) any.
Proof using Hnested. unfold loop. sp. Qed.
End levels.

Lemma newShell_inv base p user s g t : g <= maxGlobalOverlayBytes -> inv (newShell base p user s g t).
Proof. intros Hg. split; simpl; [apply NewSession_wf | done | done | done | done]. Qed.
