(* ===== verification/ShellDemo.v ===== *)
(** * ShellDemo: a world, a persona and a connection to run the shell in

    The concrete inputs of the witnesses: the file tree of [VfsSpec.demo], a full
    server's persona generated from a fixed seed, and a Telnet connection. *)

From S2P Require Import Prelude GoStrings Net Paths VfsNode VfsSession VfsFacts VfsSpec Util Event Parse Session Persona PersonaFacts ShellState ShellArith ShellText ShellCmds ShellInter Shell ShellSpec ShellCmdSpec ShellFacts.

(** A clock that moves one second per reading; maps are read in key order. *)
Definition demo_world : World :=
  MkWorld (fun n => Z.of_nat n * second) Z.of_nat (fun _ m => map_to_list m) (fun l t => l)
    (fun s => $$"sha") [] (fun _ => None).
Definition demo_persona : Persona := fst (GenerateProfile 1700000000 $$"full" (repeat 3 2000)).
Definition demo_sess (input : str) : sess :=
  Sess input [] None [] 23 $$"telnet" $$"203.0.113.9:4711" $$"203.0.113.9" [] $$"00c0ffee" [] 0 [] 0 0.
Definition demo_base : node := base demo.
Definition demo_ident : ident := Ident demo_persona $$"root" [] None 0.
Definition demo_shell (input : str) : shell :=
  newShell demo_base demo_persona $$"root" (demo_sess input) 0 1.
Definition demo_nested : node -> Persona -> M unit := nested_shell demo_world [].

Definition demo_run (line : str) : Z * shared :=
  RunOnce demo_world demo_base demo_persona $$"root" [] None line (demo_sess [], 0, 0%nat).
(** What a line prints, its status, and the event names and commands it logs. *)
Definition demo_out (line : str) : str * Z := let '(c, (s, _, _)) := demo_run line in (out s, c).
Definition demo_log (line : str) : list (str * str) :=
  let '(_, (s, _, _)) := demo_run line in map (fun e => (e_Event e, e_Command e)) (events s).

Lemma demo_inv input : inv (demo_shell input).
Proof. by apply newShell_inv. Qed.
