(* ===== verification/ShellThms.v ===== *)
(** * ShellThms: what the shell guarantees

    Whatever an attacker types: overlay memory comes back, the event log only
    grows, expansion cannot amplify a line beyond its budget, self-referential
    lines bottom out, the loop ends only on request or at the end of the
    connection, and a payload assembled with [echo] is captured byte for byte. *)

From S2P Require Import Prelude GoStrings Paths VfsNode VfsSession VfsFacts VfsSpec VfsPool Util Event Parse Session Persona ShellState ShellArith ShellText ShellCmds ShellInter Shell ShellSpec ShellCmdSpec ShellFacts ShellDemo.

(** ** Shells of one connection *)

Lemma with_shell_spec {A} W base p user style pivot (body : ident -> M A) s g t :
  (forall I, spec (body I) any) -> g <= maxGlobalOverlayBytes ->
  let '(r, st, (s', g', t')) := with_shell W base p user style pivot body (s, g, t) in
  sess_le s s' /\ g' = g /\ (t <= t')%nat /\ inv st.
Proof.
  intros Hb Hg. unfold with_shell.
  set (I := Ident p user style pivot (w_clock W t)).
  destruct (Hb I (newShell base p user s g (S t))) as (Hi & Hs & _); [by apply newShell_inv |].
  destruct (body I (newShell base p user s g (S t))) as [r st]. simpl in *.
  rewrite Release_counter by apply Hi. destruct Hs as [_ _ HC HS HT _ _ _]. simpl in *.
  split_and!; [done | lia | lia | done].
Qed.

Lemma spec_welcome_loop W I nested :
  (forall f q, spec (nested f q) any) -> spec (welcome W I ;; loop W I nested) any.
Proof.
  intros Hn. apply spec_bind_any; [apply spec_welcome |]. intros _. by apply spec_loop.
Qed.

Lemma spec_no_nested f q : spec (no_nested f q) any.
Proof. unfold no_nested. sp. Qed.

Lemma spec_nested_shell W style f q : spec (nested_shell W style f q) any.
Proof.
  intros st Hi. unfold nested_shell.
  pose proof (with_shell_spec W f q $$"root" style None (fun I => welcome W I ;; loop W I no_nested)
    (sh_s st) (sh_g st) (sh_tick st)) as H.
  destruct (with_shell _ _ _ _ _ _ _ _) as [[r st1] [[s' g'] t']].
  destruct H as (HS & -> & HT & _); [intros I; apply spec_welcome_loop, spec_no_nested | apply Hi |].
  destruct Hi as [? ? ? ? ?]. split_and!; [by split | split; simpl; try done; try lia | done].
  intros Hd. by apply (stp_capture st st).
Qed.
#[export] Hint Resolve spec_nested_shell : sh.

(** The whole shell, as the services use it. *)
Lemma Run_effects W base p user style pivot s g t :
  g <= maxGlobalOverlayBytes ->
  let '(s', g', _) := Run W base p user style pivot (s, g, t) in
  g' = g /\ sess_le s s'.
Proof.
  intros Hg. unfold Run.
  pose proof (with_shell_spec W base p user style pivot
    (fun I => welcome W I ;; loop W I (nested_shell W style)) s g t) as H.
  destruct (with_shell _ _ _ _ _ _ _ _) as [[r st] [[s' g'] t']]. simpl.
  destruct H as (HS & -> & _ & _); [intros I; apply spec_welcome_loop; auto with sh | done | done].
Qed.

(** C4: a whole shell session, with whatever input, commands, nested shells and
    panics, ends with the process-wide overlay counter exactly where it found it,
    has only added to the event log and to the output, only consumed input, and
    left the connection's identity alone. *)
Theorem Run_returns_memory W base p user style pivot s g t :
  g <= maxGlobalOverlayBytes ->
  let '(s', g', _) := Run W base p user style pivot (s, g, t) in
  g' = g /\ sess_le s s'.
Proof. apply Run_effects. Qed.

Lemma Run_returns_memory_witness :
  let '(s', g', _) := Run demo_world demo_base demo_persona $$"root" [] None (demo_sess $$"echo a > /tmp/q", 7, 0%nat) in
  g' = 7 /\ sess_le (demo_sess $$"echo a > /tmp/q") s'.
Proof. apply (Run_returns_memory demo_world demo_base demo_persona $$"root" [] None). by vm_compute. Defined.

(** a command run over SSH reports an exit status that fits a status byte, and
    its memory is returned too. *)
Theorem RunOnce_status W base p user style pivot line s g t :
  g <= maxGlobalOverlayBytes ->
  let '(code, (s', g', _)) := RunOnce W base p user style pivot line (s, g, t) in
  0 <= code <= 255 /\ g' = g /\ sess_le s s'.
Proof.
  intros Hg. unfold RunOnce. destruct (_ =s []); [by split_and! |].
  pose proof (with_shell_spec W base p user style pivot
    (fun I => on_s count_cmd ;; runLine W I (nested_shell W style) (trim_space line)) s g t) as H.
  destruct (with_shell _ _ _ _ _ _ _ _) as [[r st] [[s' g'] t']].
  destruct H as (HS & -> & _ & Hi); [| done |].
  - intros I. apply spec_bind_any; [by apply spec_on_s; [apply sess_le_count |] |]. intros _.
    apply spec_runLine. auto with sh.
  - pose proof (inv_code st Hi) as Hc. unfold code_ok in Hc. unfold exit_code.
    replace (sh_last st <? 0) with false by (symmetry; apply Z.ltb_ge; lia). split_and!; [lia | lia | done | done].
Qed.

Lemma RunOnce_status_witness :
  let '(code, (s', g', _)) :=
    RunOnce demo_world demo_base demo_persona $$"root" [] None $$"cat /nope" (demo_sess [], 7, 0%nat) in
  0 <= code <= 255 /\ g' = 7 /\ sess_le (demo_sess []) s'.
Proof. apply (RunOnce_status demo_world demo_base demo_persona $$"root" [] None). by vm_compute. Defined.

(** The captured run, as the web service uses it. *)
Lemma RunOnceCaptured_effects W base p user style pivot line s g t :
  g <= maxGlobalOverlayBytes ->
  let '(_, code, (s', g', _)) := RunOnceCaptured W base p user style pivot line (s, g, t) in
  out s' = out s /\ inp s' = inp s /\ capture s' = capture s /\ 0 <= code <= 255 /\ g' = g /\
  grows s s'.
Proof.
  intros Hg. unfold RunOnceCaptured. destruct (_ =s []).
  { by split_and!. }
  unfold with_shell. set (I := Ident p user style pivot (w_clock W t)).
  set (l := trim_space line). set (m := runLine W I (nested_shell W style) l).
  unfold on_s. set (st0 := newShell base p user s g (S t)).
  set (st1 := set_s (count_cmd s) st0).
  assert ((conn (fun s => (tt, count_cmd s)) ;; captured m) st0 = captured m st1) as -> by done.
  unfold captured. set (st2 := set_s (Session.set_capture (sh_s st1) (Some [])) st1).
  assert (inv st2) as Hi2 by (destruct (newShell_inv base p user s g (S t) Hg); by split).
  destruct (spec_runLine W I (nested_shell W style) (fun f q => spec_nested_shell W style f q) l st2 Hi2)
    as (Hi3 & Hs3 & _).
  fold m in Hi3, Hs3. destruct (m st2) as [r st3]. simpl in *.
  rewrite Release_counter by apply Hi3. destruct Hs3 as [_ _ HC HS _ _ _ _].
  destruct HS as [HE _ _ HD _ HQ]. destruct HQ as [HO HI]; [done |]. simpl in *.
  pose proof (inv_code _ Hi3) as Hc. unfold code_ok in Hc. unfold exit_code. simpl.
  replace (sh_last st3 <? 0) with false by (symmetry; apply Z.ltb_ge; lia).
  split_and!; try done; try lia. split; [| done]. unfold identity. simpl in HD. simpl. congruence.
Qed.

(** an injected command run for an HTTP handler never reaches the connection: no
    byte is written to it and none is read from it, whatever the command. *)
Theorem RunOnceCaptured_is_quiet W base p user style pivot line s g t :
  g <= maxGlobalOverlayBytes ->
  let '(_, code, (s', g', _)) := RunOnceCaptured W base p user style pivot line (s, g, t) in
  out s' = out s /\ inp s' = inp s /\ capture s' = capture s /\ 0 <= code <= 255 /\ g' = g /\
  grows s s'.
Proof. apply RunOnceCaptured_effects. Qed.

Lemma RunOnceCaptured_is_quiet_witness :
  let '(_, code, (s', g', _)) :=
    RunOnceCaptured demo_world demo_base demo_persona $$"root" [] None $$"id" (demo_sess $$"next", 7, 0%nat) in
  out s' = [] /\ inp s' = $$"next" /\ capture s' = None /\ 0 <= code <= 255 /\ g' = 7 /\
  grows (demo_sess $$"next") s'.
Proof. apply (RunOnceCaptured_is_quiet demo_world demo_base demo_persona $$"root" [] None). by vm_compute. Defined.

(** ** Amplification *)

(** C17: expansion cannot amplify: the words of a command expand to at most twenty
    times their own bytes (numbers) plus what they took from the line's 8 MiB
    budget, which nested substitutions share and which never goes negative. *)
Theorem expansion_bounded W I style stg st words st' :
  inv st -> 0 < sh_depth st ->
  expandStage (runLine W I (nested_shell W style)) stg st = (Some words, st') ->
  total words <= 20 * total (args stg) + (sh_budget st - sh_budget st') /\
  0 <= sh_budget st' <= sh_budget st /\ sh_budget st <= maxExpandBytes.
Proof.
  intros Hi Hd E. unfold expandStage in E.
  pose proof (expand_words (runLine W I (nested_shell W style))
    (fun l => spec_runLine W I _ (fun f q => spec_nested_shell W style f q) l)
    (fun l st => runLine_returns W I _ (fun f q => spec_nested_shell W style f q) l st)
    (args stg) st words Hi Hd) as H.
  rewrite E in H. destruct (H eq_refl) as (Hi' & Hs & Ht). simpl in *.
  pose proof (stp_budget _ _ Hs Hd). pose proof (inv_budget _ Hi). pose proof (inv_budget _ Hi'). lia.
Qed.

Definition demo_stage : stage := Stage [$$"echo"; $$"$HOME$((6*7))"] ∅ false [] false.
Definition demo_inside : shell := set_depth 1 (demo_shell []).
Lemma expansion_bounded_witness :
  total [$$"echo"; $$"/root42"] <= 20 * total (args demo_stage) + 5.
Proof.
  assert (inv demo_inside) as Hi by (destruct (demo_inv []); by split).
  apply (expansion_bounded demo_world demo_ident [] demo_stage demo_inside [$$"echo"; $$"/root42"]
    (expandStage (runLine demo_world demo_ident demo_nested) demo_stage demo_inside).2 Hi);
    [by vm_compute | by vm_compute].
Defined.

(** ** The loop *)

Lemma prompt_progress label st l ok st' :
  prompt label st = (Some (l, ok), st') ->
  if ok : bool then (length (inp (sh_s st')) < length (inp (sh_s st)))%nat
  else capture (sh_s st) = None -> inp (sh_s st') = [].
Proof.
  unfold prompt, conn, Prompt. destruct (ReadLine (Write label (sh_s st))) as [[l0 ok0] s'] eqn:E.
  intros [= <- <- <-]. apply ReadLine_progress in E. simpl.
  assert (inp (Write label (sh_s st)) = inp (sh_s st)) as Hinp by (unfold Write; by destruct (capture (sh_s st))).
  rewrite Hinp in E. destruct ok0; [done |]. intros Hc. apply E. unfold Write. by rewrite Hc.
Qed.

Section loop.
Context (W : World) (I : ident) (nested : node -> Persona -> M unit)
  (Hnested : forall f q, spec (nested f q) any).

Lemma loop_step st :
  inv st ->
  (sh_quit st = true /\ forall g, loop_from W I nested (S g) st = (Some tt, st)) \/
  (exists st', sh_quit st = false /\ inv st' /\ steps st st' /\
     (forall g, loop_from W I nested (S g) st = (Some tt, st')) /\ (capture (sh_s st) = None -> inp (sh_s st') = [])) \/
  (exists st', sh_quit st = false /\ inv st' /\ steps st st' /\
     (length (inp (sh_s st')) < length (inp (sh_s st)))%nat /\
     forall g, loop_from W I nested (S g) st = loop_from W I nested g st').
Proof using Hnested.
  intros Hi. destruct (sh_quit st) eqn:Hq.
  { left. split; [done |]. intros g. cbn [loop_from]. by rewrite bind_gets, Hq. }
  right. pose proof (spec_prompt (shell_prompt I st) st Hi) as (Hi1 & Hs1 & _).
  pose proof (prompt_progress (shell_prompt I st) st) as Hp.
  assert (exists l ok, (prompt (shell_prompt I st) st).1 = Some (l, ok)) as (l & ok & Er).
  { unfold prompt, conn. destruct (Prompt _ _) as [[l ok] s']. by exists l, ok. }
  destruct (prompt (shell_prompt I st) st) as [r st1] eqn:E. simpl in *. subst r.
  specialize (Hp l ok st1 eq_refl).
  assert (forall g, loop_from W I nested (S g) st =
    (if negb ok then mret tt else
      if trim_space l =s [] then loop_from W I nested g
      else on_s count_cmd ;; on_s (LogCommand (trim_space l)) ;; runLine W I nested (trim_space l) ;; loop_from W I nested g) st1) as Hstep.
  { intros g. cbn [loop_from]. rewrite bind_gets, Hq, bind_gets. by rewrite (bind_run _ _ _ _ _ E). }
  destruct ok.
  - right. cbn [negb] in Hstep. destruct (trim_space l =s []).
    { exists st1. split_and!; [done | done | done | exact Hp | exact Hstep]. }
    set (st2 := set_s (LogCommand (trim_space l) (count_cmd (sh_s st1))) st1).
    pose proof (spec_runLine W I nested Hnested (trim_space l)) as Hrun.
    assert (spec (on_s count_cmd ;; on_s (LogCommand (trim_space l)) ;; runLine W I nested (trim_space l)) any) as Hsp.
    { apply spec_bind_any; [by apply spec_on_s; [apply sess_le_count |] |]. intros _.
      apply spec_bind_any; [by apply spec_on_s; [intros; apply sess_le_event; by repeat split |] |]. by intros _. }
    destruct (Hsp st1 Hi1) as (Hi3 & Hs3 & _).
    assert ((on_s count_cmd ;; on_s (LogCommand (trim_space l)) ;; runLine W I nested (trim_space l)) st1 =
      runLine W I nested (trim_space l) st2) as Ee by done.
    rewrite Ee in Hi3, Hs3.
    exists (runLine W I nested (trim_space l) st2).2. split_and!; [done | done | by etransitivity | |].
    + destruct (le_inp _ _ (stp_sess _ _ Hs3)) as [u Hu]. apply (f_equal length) in Hu. rewrite length_app in Hu. lia.
    + intros g. etransitivity; [exact (Hstep g) |].
      change ((runLine W I nested (trim_space l) ;; loop_from W I nested g) st2 =
              loop_from W I nested g (runLine W I nested (trim_space l) st2).2).
      pose proof (runLine_returns W I nested Hnested (trim_space l) st2) as Hr.
      destruct (runLine W I nested (trim_space l) st2) as [r st3] eqn:E3. simpl in Hr |- *. subst r.
      by rewrite (bind_run _ _ _ _ _ E3).
  - left. exists st1. split_and!; [done | done | done | exact Hstep | exact Hp].
Qed.

Lemma loop_from_enough f st :
  inv st -> (length (inp (sh_s st)) < f)%nat ->
  exists st', (forall g, (f <= g)%nat -> loop_from W I nested g st = (Some tt, st')) /\
    (sh_quit st' = true \/ (capture (sh_s st) = None -> inp (sh_s st') = [])).
Proof using Hnested.
  revert st. induction f as [| f IH]; intros st Hi Hf; [lia |].
  destruct (loop_step st Hi) as [[Hq E] | [(st' & _ & _ & _ & E & Hin) | (st' & _ & Hi' & Hs & Hl & E)]].
  - exists st. split; [| by left]. intros [| g] Hg; [lia | apply E].
  - exists st'. split; [| by right]. intros [| g] Hg; [lia | apply E].
  - destruct (IH st' Hi') as (st2 & E2 & Hend); [lia |]. exists st2. split.
    + intros [| g] Hg; [lia |]. rewrite E. apply E2. lia.
    + destruct Hend as [? | Hend]; [by left | right]. intros Hc. apply Hend. by apply (le_cap _ _ (stp_sess _ _ Hs)).
Qed.
End loop.

(** C18: the interactive loop handles every line: its fuel (one iteration per byte of
    input left) is never what ends it, it never ends in a panic, and it ends only
    because [exit] was run or because the client is gone. *)
Theorem loop_ends_on_request W I style st :
  inv st -> capture (sh_s st) = None ->
  exists st', loop W I (nested_shell W style) st = (Some tt, st') /\
    (sh_quit st' = true \/ inp (sh_s st') = []) /\
    forall fuel, (length (inp (sh_s st)) < fuel)%nat ->
      loop_from W I (nested_shell W style) fuel (set_s (set_idle (sh_s st) (600 * second)) st) = (Some tt, st').
Proof.
  intros Hi Hc. set (st1 := set_s (set_idle (sh_s st) (600 * second)) st).
  assert (inv st1) as Hi1 by (destruct Hi; by split).
  destruct (loop_from_enough W I (nested_shell W style) (fun f q => spec_nested_shell W style f q)
    (S (length (inp (sh_s st)))) st1 Hi1) as (st' & E & Hend); [simpl; lia |].
  exists st'. split_and!.
  - unfold loop. change ((fuel ← gets (fun st => S (length (inp (sh_s st)))); loop_from W I (nested_shell W style) fuel) st1
      = (Some tt, st')). rewrite bind_gets. by apply E.
  - destruct Hend as [? | Hend]; [by left | right; by apply Hend].
  - intros fuel Hf. by apply E.
Qed.

Lemma loop_ends_on_request_witness :
  exists st', loop demo_world demo_ident demo_nested (demo_shell $$"exit") = (Some tt, st') /\
    (sh_quit st' = true \/ inp (sh_s st') = []) /\
    forall fuel, (4 < fuel)%nat ->
      loop_from demo_world demo_ident demo_nested fuel
        (set_s (set_idle (demo_sess $$"exit") (600 * second)) (demo_shell $$"exit")) = (Some tt, st').
Proof. apply (loop_ends_on_request demo_world demo_ident [] (demo_shell $$"exit")); [apply demo_inv | done]. Defined.
