(* ===== verification/ShellLoader.v ===== *)
(** * ShellLoader: the echo-loader and the payload it leaves behind

    A BusyBox loader writes a binary with [echo -ne '\x7f\x45...' >> file], chunk
    by chunk, and runs it.  The shell decodes, appends, and records what was run:
    the recorded payload is the loader's, byte for byte. *)

From S2P Require Import Prelude GoStrings Paths VfsNode VfsSession VfsFacts VfsSpec Util Event Parse Session Persona ShellState ShellArith ShellText ShellCmds ShellInter Shell ShellSpec ShellCmdSpec ShellFacts ShellDemo.

(** ** Escapes *)

Definition hexesc (b : ascii) : str := $$"\x" ++ hex_byte b.
Definition escaped (bs : str) : str := flat_map hexesc bs.

Definition hex_pair_ok (b : ascii) : bool :=
  match hex_byte b with
  | [h1; h2] => isHexDigit h1 && isHexDigit h2 && bool_decide (zb (hexDigitVal h1 * 16 + hexDigitVal h2) = b)
                && negb (bool_decide (h1 ∈ [("$"%char); backtick])) && negb (bool_decide (h2 ∈ [("$"%char); backtick]))
  | _ => false
  end.
Lemma hex_pair b : hex_pair_ok b = true.
Proof. destruct b as [[] [] [] [] [] [] [] []]; by vm_compute. Qed.

Lemma decode_escaped bs : decodeEchoEscapes (escaped bs) = bs.
Proof.
  unfold decodeEchoEscapes. induction bs as [| b bs IH]; [done |].
  pose proof (hex_pair b) as Hb. unfold hex_pair_ok in Hb. unfold escaped. cbn [flat_map]. unfold hexesc at 1.
  destruct (hex_byte b) as [| h1 [| h2 [| ]]]; try done. bool_hyps. apply bool_decide_eq_true in H2.
  change (($$"\x" ++ [h1; h2]) ++ flat_map hexesc bs) with ("\"%char :: "x"%char :: h1 :: h2 :: escaped bs).
  cbn [decode_from]. change (bool_decide ("\"%char = "\"%char)) with true.
  change (bool_decide ("x"%char = "x"%char)) with true. cbn [negb digit_run]. rewrite H, H3. cbn [digit_run].
  rewrite IH. cbn [app]. f_equal. rewrite <- H2. f_equal; lia.
Qed.

Lemma escaped_plain bs : contains_any (escaped bs) [("$"%char); backtick] = false.
Proof.
  unfold contains_any.
  assert (index_any (escaped bs) [("$"%char); backtick] = None) as ->; [| done].
  induction bs as [| b bs IH]; [done |].
  pose proof (hex_pair b) as Hb. unfold hex_pair_ok in Hb. unfold escaped. cbn [flat_map]. unfold hexesc at 1.
  destruct (hex_byte b) as [| h1 [| h2 [| ]]]; try done. bool_hyps.
  change (($$"\x" ++ [h1; h2]) ++ flat_map hexesc bs) with ("\"%char :: "x"%char :: h1 :: h2 :: escaped bs).
  cbn [index_any]. rewrite H0, H1, IH. done.
Qed.

(** ** Writing succeeds within the budgets *)

Section file.
Context (cs : list str) (c : str) (Hg : Forall good_comp (cs ++ [c])).
Notation k := (abs_path (cs ++ [c])).

(** The file can be created: its directory exists, it is not a directory. *)
Definition writable (fs : session) : Prop :=
  wf fs /\ (exists pn, lookup fs (abs_path cs) true = Ok pn /\ IsDir pn = true) /\
  match lookup fs k false with Ok e => IsDir e = false | Err _ => True end.

Lemma WriteFile_succeeds now g fs body :
  writable fs -> zlen body <= maxOverlayFileBytes ->
  let old := from_option overlay_len 0 (overlay fs !! k) in
  nbytes fs - old + zlen body <= maxOverlayBytes -> g - old + zlen body <= maxGlobalOverlayBytes ->
  (overlay fs !! k = None -> entries fs < maxOverlayEntries) ->
  WriteFile now g fs k body =
    (g - old + zlen body, Session (base fs) (<[k := new_file k body now]> (overlay fs)) (deleted fs ∖ {[k]})
                            (cwd fs) (nbytes fs - old + zlen body), None).
Proof using Hg.
  intros (Hwf & (pn & Hp & Hd) & Hnd) Hlen old Hb Hgl He. apply good_snoc in Hg as Hg'. destruct Hg' as [Hcs Hc].
  unfold WriteFile. rewrite Resolve_abs by done.
  destruct (k =s [slash]) eqn:Hk.
  { apply seqb_eq in Hk. change [slash] with (abs_path []) in Hk. apply abs_path_root_iff in Hk; [| done].
    by apply app_eq_nil in Hk as [_ ?]. }
  rewrite parentDir_snoc, Hp, Hd by done. cbn [negb].
  destruct (lookup fs k false) as [e |]; [rewrite Hnd |]; cbv zeta; fold old.
  all: replace (maxOverlayFileBytes <? zlen body) with false by (symmetry; apply Z.ltb_ge; lia).
  all: replace (maxOverlayBytes <? nbytes fs - old + zlen body) with false by (symmetry; apply Z.ltb_ge; lia).
  all: replace (bool_decide (overlay fs !! k = None) && (maxOverlayEntries <=? entries fs)) with false by
    (case_bool_decide as Hn; [| done]; symmetry; apply Z.leb_gt; auto).
  all: unfold reserveOverlay; destruct (zlen body - old <=? 0); cbn [negb].
  all: try replace (maxGlobalOverlayBytes <? g + (zlen body - old)) with false by (symmetry; apply Z.ltb_ge; lia).
  all: cbn [negb]; by replace (g + (zlen body - old)) with (g - old + zlen body) by lia.
Qed.

Lemma written_holds now g fs body g' fs' :
  writable fs -> WriteFile now g fs k body = (g', fs', None) ->
  writable fs' /\ overlay fs' !! k = Some (new_file k body now) /\ ReadFile fs' k = Ok body /\ cwd fs' = cwd fs.
Proof using Hg.
  intros (Hwf & (pn & Hp & Hd) & Hnd) E. apply good_snoc in Hg as Hg'. destruct Hg' as [Hcs Hc].
  assert (wf fs') as Hwf' by by eapply WriteFile_wf.
  apply WriteFile_ok in E as (cs' & c' & pn' & Hg2 & Ek & Hp' & Hd' & -> & _); [| done].
  rewrite Resolve_abs in Ek by done. apply abs_path_inj in Ek as [<- <-]%app_inj_tail; [| done..].
  set (fs' := Session _ _ _ _ _) in *.
  assert (forall ff, lookup fs' k ff = Ok (new_file k body now)) as Hl by (intros ff; by apply (lookup_written fs _ _ _ cs c pn')).
  split_and!; [split_and! | | |].
  - done.
  - exists pn'. split; [| done]. unfold lookup in *. apply (lookup_parent_stable fs fs' cs c); simpl; try done; [set_solver |].
    intros k' Hk'. by rewrite lookup_insert_ne.
  - by rewrite Hl.
  - simpl. by rewrite lookup_insert_eq.
  - unfold ReadFile. rewrite Resolve_abs, Hl by done. done.
  - done.
Qed.

(** ** One loader line *)

Context (W : World) (I : ident) (nested : node -> Persona -> M unit) (runLine : str -> M unit) (f : str).

Definition chunk_stmt (app : bool) (bs ch : str) : statement :=
  Statement [Stage [$$"echo"; $$"-ne"; escaped bs] ∅ false f app] ch.

Lemma dispatch_echo again args stdin :
  dispatch W I runLine again $$"echo" args stdin = mret (cmdEcho args, 0).
Proof using. reflexivity. Qed.

Lemma expand_chunk bs st :
  mmap (expand runLine) [$$"echo"; $$"-ne"; escaped bs] st = (Some [$$"echo"; $$"-ne"; escaped bs], st).
Proof using.
  assert (forall w, contains_any w [("$"%char); backtick] = false -> expand runLine w = mret w) as Hw.
  { intros w E. unfold expand. by rewrite E. }
  cbn [mmap]. rewrite (Hw $$"echo") by done. rewrite (Hw $$"-ne") by done. by rewrite (Hw (escaped bs)) by apply escaped_plain.
Qed.

(** The line runs [echo] and hands its decoded output to the redirection. *)
Lemma chunk_runs app bs ch st :
  runStatement W I nested runLine (chunk_stmt app bs ch) st =
  (redirect_out W (Stage [$$"echo"; $$"-ne"; escaped bs] ∅ false f app) bs ;; modify (set_last 0)) st \/ f = [].
Proof using.
  destruct (decide (f = [])) as [-> | Hf]; [by right | left].
  unfold runStatement. cbn [chunk_stmt stages args]. rewrite bool_decide_eq_false_2 by done.
  unfold expandStage. cbn [args]. rewrite (bind_run _ _ _ _ _ (expand_chunk bs st)).
  change (isInteractive (default [] (head [$$"echo"; $$"-ne"; escaped bs]))) with false. cbn iota.
  unfold run_pipeline, set_code, chunk_stmt. cbn [stages pipeline]. unfold expandStage. cbn [args].
  rewrite bind_assoc, (bind_run _ _ _ _ _ (expand_chunk bs st)). cbn iota.
  unfold runCommand. cbn [length runCommand_at]. change (base_name $$"echo") with $$"echo".
  rewrite dispatch_echo.
  assert (cmdEcho [$$"echo"; $$"-ne"; escaped bs] = bs) as ->.
  { unfold cmdEcho. cbn [drop]. cbn [echo_opts].
    destruct (bool_decide (escaped bs ∈ _)) eqn:E.
    - exfalso. destruct bs as [| b bs]; [by vm_compute in E |]. apply bool_decide_eq_true in E.
      assert (head (escaped (b :: bs)) = Some "\"%char) as Hh by reflexivity.
      rewrite !elem_of_cons in E. destruct E as [E | [E | [E | [E | [E | []%elem_of_nil]]]]];
        rewrite E in Hh; by vm_compute in Hh.
    - change (bool_decide ($$"-ne" ∈ [$$"-n"; $$"-e"; $$"-ne"; $$"-en"; $$"-E"])) with true. cbn iota.
      cbn [join]. change (negb (contains $$"-ne" $$"n")) with false. cbn [andb].
      change ((false || contains $$"-ne" $$"e") && negb ($$"-ne" =s $$"-E")) with true. cbn iota.
      apply decode_escaped. }
  rewrite bind_assoc, bind_ret. unfold emit. cbn [outNull outFile].
  replace (f =s []) with false by (symmetry; by apply seqb_neq). cbn [negb].
  by rewrite bind_assoc.
Qed.

Definition moved (st : shell) (g : Z) (fs : session) : shell :=
  set_tick (S (sh_tick st)) (set_g g (set_fs fs st)).

Lemma redirect_writes stg out st x :
  Resolve (sh_fs st) (outFile stg) = k -> writable (sh_fs st) ->
  (if appendT stg then ReadFile (sh_fs st) k = Ok x else x = []) ->
  zlen (x ++ out) <= maxOverlayFileBytes ->
  let old := from_option overlay_len 0 (overlay (sh_fs st) !! k) in
  nbytes (sh_fs st) - old + zlen (x ++ out) <= maxOverlayBytes ->
  sh_g st - old + zlen (x ++ out) <= maxGlobalOverlayBytes ->
  (overlay (sh_fs st) !! k = None -> entries (sh_fs st) < maxOverlayEntries) ->
  exists fs', WriteFile (w_clock W (sh_tick st)) (sh_g st) (sh_fs st) k (x ++ out) =
      (sh_g st - old + zlen (x ++ out), fs', None) /\
    nbytes fs' = nbytes (sh_fs st) - old + zlen (x ++ out) /\
    redirect_out W stg out st = (Some tt, moved st (sh_g st - old + zlen (x ++ out)) fs').
Proof using Hg.
  intros Hr Hw Hx Hlen old Hb Hgl He.
  pose proof (WriteFile_succeeds (w_clock W (sh_tick st)) (sh_g st) (sh_fs st) (x ++ out) Hw Hlen Hb Hgl He) as E.
  eexists. split; [exact E |]. split; [done |].
  unfold redirect_out, fs_resolve, fs_read. rewrite !bind_gets, Hr.
  assert (match ReadFile (sh_fs st) k with
    | Ok ((_ :: _) as existing) => if appendT stg then existing ++ out else out | _ => out end = x ++ out) as ->.
  { destruct (appendT stg).
    - rewrite Hx. by destruct x.
    - subst x. by destruct (ReadFile _ _) as [[| ? ?] |]. }
  unfold fs_write, now. rewrite bind_assoc. unfold mbind at 1, M_bind at 1. cbn [reading].
  unfold mbind at 1, M_bind at 1, on_fs. cbn [sh_g sh_fs set_tick]. by rewrite E.
Qed.

(** One [echo -ne ... >] or [>>] line leaves the file with its old content (when
    appending) followed by the decoded bytes. *)
Lemma chunk_step (app : bool) bs ch st x :
  f <> [] -> Resolve (sh_fs st) f = k -> writable (sh_fs st) ->
  (if app then ReadFile (sh_fs st) k = Ok x /\ overlay (sh_fs st) !! k <> None else x = []) ->
  zlen (x ++ bs) <= maxOverlayFileBytes ->
  let old := from_option overlay_len 0 (overlay (sh_fs st) !! k) in
  nbytes (sh_fs st) - old + zlen (x ++ bs) <= maxOverlayBytes ->
  sh_g st - old + zlen (x ++ bs) <= maxGlobalOverlayBytes ->
  entries (sh_fs st) < maxOverlayEntries \/ app = true ->
  exists fs', let st' := set_last 0 (moved st (sh_g st - old + zlen (x ++ bs)) fs') in
    runStatement W I nested runLine (chunk_stmt app bs ch) st = (Some tt, st') /\
    writable fs' /\ ReadFile fs' k = Ok (x ++ bs) /\ cwd fs' = cwd (sh_fs st) /\
    nbytes fs' = nbytes (sh_fs st) - old + zlen (x ++ bs) /\
    from_option overlay_len 0 (overlay fs' !! k) = zlen (x ++ bs) /\ overlay fs' !! k <> None.
Proof using Hg.
  intros Hf Hr Hw Hx Hlen old Hb Hgl He.
  destruct (chunk_runs app bs ch st) as [Hrun | ?]; [| done].
  destruct (redirect_writes (Stage [$$"echo"; $$"-ne"; escaped bs] ∅ false f app) bs st x) as (fs' & E & Hn & Er); try done.
  { destruct app; [apply Hx | done]. }
  { intros Hnone. destruct He as [? | ->]; [done |]. by destruct Hx. }
  destruct (written_holds _ _ _ _ _ _ Hw E) as (Hw' & Ho' & Hr' & Hc').
  exists fs'. split_and!; try done.
  - by rewrite Hrun, (bind_run _ _ _ _ _ Er).
  - by rewrite Ho'.
  - by rewrite Ho'.
Qed.

(** The lines of a loader: the first truncates, the others append. *)
Definition loader (first : str) (rest : list str) : list statement :=
  chunk_stmt false first $$";" :: map (fun bs => chunk_stmt true bs $$";") rest.

(** The state a loader leaves, with [payload] in the file. *)
Definition loaded (payload : str) (st st' : shell) : Prop :=
  writable (sh_fs st') /\ ReadFile (sh_fs st') k = Ok payload /\ cwd (sh_fs st') = cwd (sh_fs st) /\
  sh_s st' = sh_s st /\ sh_quit st' = sh_quit st /\ sh_capture st' = sh_capture st /\
  from_option overlay_len 0 (overlay (sh_fs st') !! k) = zlen payload /\ overlay (sh_fs st') !! k <> None /\
  nbytes (sh_fs st') - zlen payload = nbytes (sh_fs st) - from_option overlay_len 0 (overlay (sh_fs st) !! k) /\
  sh_g st' - zlen payload = sh_g st - from_option overlay_len 0 (overlay (sh_fs st) !! k).

Lemma Resolve_cwd fs fs' q : cwd fs' = cwd fs -> Resolve fs' q = Resolve fs q.
Proof using. intros E. unfold Resolve. by rewrite E. Qed.

Lemma run_stmts_next run st rest s s' :
  runStatement W I nested runLine st s = (Some tt, s') -> chain st = $$";" -> sh_quit s' = false ->
  run = true -> run_stmts W I nested runLine run (st :: rest) s = run_stmts W I nested runLine true rest s'.
Proof using.
  intros E Hch Hq ->. cbn [run_stmts]. rewrite (bind_run _ _ _ _ _ E), bind_gets, Hq.
  cbn [andb]. rewrite bind_gets, Hch. done.
Qed.

Lemma appends rest x st tail :
  f <> [] -> Resolve (sh_fs st) f = k -> writable (sh_fs st) -> sh_quit st = false ->
  ReadFile (sh_fs st) k = Ok x -> overlay (sh_fs st) !! k <> None ->
  from_option overlay_len 0 (overlay (sh_fs st) !! k) = zlen x ->
  zlen (x ++ concat rest) <= maxOverlayFileBytes ->
  nbytes (sh_fs st) + zlen (concat rest) <= maxOverlayBytes ->
  sh_g st + zlen (concat rest) <= maxGlobalOverlayBytes ->
  exists st', loaded (x ++ concat rest) st st' /\
    run_stmts W I nested runLine true (map (fun bs => chunk_stmt true bs $$";") rest ++ tail) st =
    run_stmts W I nested runLine true tail st'.
Proof using Hg.
  intros Hf. revert x st. induction rest as [| bs rest IH]; intros x st Hr Hw Hq Hx Ho Hol Hlen Hb Hgl.
  { exists st. split; [| done]. unfold loaded. rewrite app_nil_r. split_and!; try done; lia. }
  cbn [concat map app] in *. rewrite zlen_app in Hb, Hgl. rewrite app_assoc in Hlen |- *.
  rewrite !zlen_app in Hlen. pose proof (zlen_nonneg (concat rest)). pose proof (zlen_nonneg bs). pose proof (zlen_nonneg x).
  destruct (chunk_step true bs $$";" st x) as (fs' & E & Hw' & Hr' & Hc' & Hn' & Hl' & Ho'); try done;
    rewrite ?zlen_app; try lia; try (by right).
  set (st1 := set_last 0 _) in E.
  destruct (IH (x ++ bs) st1) as (st' & Hld & Erun); try done.
  - rewrite <- Hr. by apply Resolve_cwd.
  - rewrite !zlen_app. lia.
  - simpl. rewrite Hn', Hol, zlen_app. lia.
  - simpl. rewrite Hol, zlen_app. lia.
  - exists st'. split; [| by rewrite (run_stmts_next true _ _ _ _ E)].
    destruct Hld as (L1 & L2 & L3 & L4 & L5 & L6 & L7 & L8 & L9 & L10). simpl in *.
    rewrite Hl' in L9, L10. rewrite Hn' in L9. unfold loaded. split_and!; try done; [by rewrite L3 | lia | lia].
Qed.

(** ** Running the payload *)

Lemma not_among b l :
  has_prefix b [slash] = true -> forallb (fun x => negb (has_prefix x [slash])) l = true -> bool_decide (b ∈ l) = false.
Proof using.
  intros Hb Hl. apply bool_decide_eq_false. intros Hin. rewrite forallb_forall in Hl.
  rewrite list_elem_of_In in Hin. specialize (Hl b Hin). by rewrite Hb in Hl.
Qed.

Lemma dispatch_path again b args stdin :
  has_prefix b [slash] = true -> dispatch W I runLine again b args stdin = run_unknown W b args.
Proof using.
  intros Hb. unfold dispatch. cbv zeta. rewrite !(not_among b _ Hb) by reflexivity. done.
Qed.

Definition exec_stmt (path : str) : statement := Statement [Stage [path] ∅ false [] false] [].

(** The path can be typed and is not taken for a system tool. *)
Definition runnable (path : str) : Prop :=
  has_prefix path [slash] = true /\ contains_any path [("$"%char); backtick] = false /\ inSystemBin path = false.

Lemma runnable_base_name path : runnable path -> base_name path = path.
Proof using.
  intros (_ & _ & Hs). unfold base_name. destruct (last_index_byte path slash) as [i |]; [| done].
  rewrite bool_decide_eq_false_2; [done |]. intros Hin. unfold inSystemBin in Hs.
  assert (take (S i) path ∈ binDirPrefixes) as Hin2 by (clear -Hin; unfold binDirs, binDirPrefixes in *; set_solver).
  assert (existsb (has_prefix path) binDirPrefixes = true); [| congruence].
  apply existsb_exists. exists (take (S i) path). rewrite <- list_elem_of_In. split; [done |].
  apply has_prefix_spec. exists (drop (S i) path). by rewrite take_drop.
Qed.

Lemma exec_runs st payload :
  runnable k -> sh_capture st = None -> writable (sh_fs st) -> ReadFile (sh_fs st) k = Ok payload -> payload <> [] ->
  runStatement W I nested runLine (exec_stmt k) st =
    (Some tt, set_last 0 (set_s (LogExec k $$"dropped-exec" (LogDropper (w_sha256 W) k k payload (sh_s st))) st)).
Proof using Hg.
  intros Hk Hc Hw Hr Hp. pose proof Hk as (Hpre & Hpl & Hsys).
  assert (forall s, mmap (expand runLine) [k] s = (Some [k], s)) as Hex.
  { intros s. cbn [mmap]. unfold expand. by rewrite Hpl. }
  unfold runStatement, exec_stmt. cbn [stages args]. rewrite bool_decide_eq_false_2 by done.
  unfold expandStage. cbn [args]. rewrite (bind_run _ _ _ _ _ (Hex st)).
  change (isInteractive (default [] (head [k]))) with (isInteractive k).
  replace (isInteractive k) with false by (symmetry; by apply not_among).
  unfold run_pipeline, set_code. cbn [stages pipeline]. unfold expandStage. cbn [args].
  rewrite bind_assoc, (bind_run _ _ _ _ _ (Hex st)). cbn iota.
  unfold runCommand. cbn [length runCommand_at]. rewrite runnable_base_name, dispatch_path by done.
  assert (Hrun : run_unknown W k [k] st = (Some ([], 0),
    set_s (LogExec k $$"dropped-exec" (LogDropper (w_sha256 W) k k payload (sh_s st))) st)).
  { unfold run_unknown, fs_resolve, fs_stat, fs_read.
    replace (has_prefix k $$"./" || has_prefix k $$"/") with true by (symmetry; change ($$"/") with [slash]; rewrite Hpre; apply orb_true_r).
    rewrite !bind_gets, Resolve_abs, Hsys by done. cbn [negb andb].
    unfold Stat. rewrite Resolve_abs by done. unfold ReadFile in Hr. rewrite Resolve_abs in Hr by done.
    destruct (lookup (sh_fs st) k true) as [n |] eqn:Hl; [| done].
    destruct (IsDir n) eqn:Hd; [done |]. cbn [negb]. rewrite bind_gets. unfold ReadFile. rewrite Resolve_abs, Hl, Hd by done.
    injection Hr as ->. destruct payload as [| x payload]; [done |]. reflexivity. }
  rewrite bind_assoc, (bind_run _ _ _ _ _ Hrun). set (st1 := set_s _ st).
  assert (emit W (Stage [k] ∅ false [] false) [] st1 = (Some tt, st1)) as He; [| by rewrite bind_assoc, (bind_run _ _ _ _ _ He)].
  unfold emit. cbn [outNull outFile]. change ([] =s []) with true. cbn [negb]. rewrite bind_gets. subst st1. cbn [sh_capture set_s].
  by rewrite Hc.
Qed.

End file.

Definition demo_chunks : str * list str :=
  ([ascii_of_nat 127; "E"%char], [[ascii_of_nat 0; "$"%char; nl]]).
Definition drop_line : str :=
  $$"echo -ne '\x7f\x45' > /tmp/q;echo -ne '\x00\x24\x0a' >> /tmp/q;/tmp/q".

Lemma demo_good : Forall good_comp ([$$"tmp"] ++ [$$"q"]).
Proof. by apply (bool_decide_unpack (Forall good_comp _)); vm_compute. Qed.
Lemma demo_writable : writable [$$"tmp"] $$"q" (sh_fs (demo_shell [])).
Proof.
  assert (sh_fs (demo_shell []) = NewSession demo_base $$"/root") as -> by reflexivity.
  split; [apply NewSession_wf | split].
  - assert (match lookup (NewSession demo_base $$"/root") (abs_path [$$"tmp"]) true with
            | Ok pn => IsDir pn | Err _ => false end = true) as H by (vm_compute; reflexivity).
    destruct (lookup _ _ _) as [pn | e]; [| discriminate H]. exists pn. split; [reflexivity | exact H].
  - assert (match lookup (NewSession demo_base $$"/root") (abs_path ([$$"tmp"] ++ [$$"q"])) false with
            | Ok pn => negb (IsDir pn) | Err _ => true end = true) as H by (vm_compute; reflexivity).
    destruct (lookup _ _ _) as [pn | e]; [by apply negb_true_iff in H | exact Logic.I].
Qed.

