(* ===== verification/ShellCases.v ===== *)
(** * ShellCases: lines where the interpreter departs from what it means to do

    Command lines evaluated in the demonstration world, and the general law behind
    the first of them. *)

From S2P Require Import Prelude GoStrings Net Paths VfsNode VfsSession VfsFacts VfsSpec Util Event Parse Session Persona ShellState ShellArith ShellText ShellCmds ShellInter Shell ShellDemo.

(** ** Arithmetic expansion *)

Lemma scan_close_inner e w :
  forallb (fun b => negb (bool_decide (b = "("%char)) && negb (bool_decide (b = ")"%char))) e = true ->
  scan_close 2 (e ++ $$"))" ++ w) = e ++ $$")".
Proof.
  induction e as [| b e IH]; intros He; [done |]. cbn [forallb] in He. bool_hyps.
  cbn [app scan_close]. rewrite H, H1. by rewrite IH.
Qed.

Lemma expand_from_skip rl u w : expand_from rl (length u) (u ++ w) = expand_from rl 0 w.
Proof. induction u as [| b u IH]; [by destruct w | exact IH]. Qed.

Lemma expand_from_dollar rl r :
  expand_from rl 0 ("$"%char :: r) =
  (let '(m, k) := expand_dollar rl r in x ← m; y ← expand_from rl k r; mret (x ++ y)).
Proof. done. Qed.

Lemma expand_arith rl e b w :
  forallb (fun b => negb (bool_decide (b = "("%char)) && negb (bool_decide (b = ")"%char))) e = true ->
  expand_from rl 0 ($$"$((" ++ e ++ $$"))" ++ b :: w) =
  (x ← gets (fun st => itoa (evalArith (env_of st) (e ++ $$")"))); y ← expand_from rl 0 w; mret (x ++ y)).
Proof.
  intros He. set (r := e ++ $$"))" ++ b :: w).
  assert (expand_dollar rl ($$"((" ++ r) =
    (gets (fun st => itoa (evalArith (env_of st) (scan_close 2 r))), (length (scan_close 2 r) + 4)%nat)) as Hd by done.
  change ($$"$((" ++ r) with ("$"%char :: ($$"((" ++ r)).
  rewrite expand_from_dollar, Hd. unfold r. rewrite scan_close_inner by done.
  replace (length (e ++ $$")") + 4)%nat with (length ($$"((" ++ e ++ $$"))" ++ [b])); [| rewrite !length_app; simpl; lia].
  replace ($$"((" ++ e ++ $$"))" ++ b :: w) with (($$"((" ++ e ++ $$"))" ++ [b]) ++ w); [by rewrite expand_from_skip |].
  by rewrite <- !app_assoc.
Qed.

(** the character that follows an arithmetic expansion is lost: a word
    [$((e))bw] expands to the value of [e] and the expansion of [w], whatever the
    byte [b] is. *)
Theorem byte_after_arithmetic_is_lost rl e b b' w st :
  forallb (fun b => negb (bool_decide (b = "("%char)) && negb (bool_decide (b = ")"%char))) e = true ->
  expand rl ($$"$((" ++ e ++ $$"))" ++ b :: w) st = expand rl ($$"$((" ++ e ++ $$"))" ++ b' :: w) st.
Proof.
  intros He. unfold expand.
  assert (forall r, contains_any ($$"$((" ++ r) [("$"%char); backtick] = true) as Hc by (intros r; by vm_compute).
  rewrite !Hc. by rewrite !expand_arith.
Qed.
Lemma byte_after_arithmetic_is_lost_witness :
  expand (fun _ => mret tt) $$"$((1+1))x" (demo_shell []) = expand (fun _ => mret tt) $$"$((1+1))y" (demo_shell []) /\
  (demo_out $$"echo $((1+1))x").1 = $$"2" ++ [cr; nl].
Proof.
  split; [by apply (byte_after_arithmetic_is_lost (fun _ => mret tt) $$"1+1" "x" "y" []) | by vm_compute].
Defined.

(** ** A command's words are expanded twice *)

(** a substitution in the arguments of a single command that is not interactive
    runs twice: [echo $(history -c)] logs the [history -c] event twice. *)
Theorem substitution_runs_twice :
  demo_log $$"echo $(history -c)" = [($$"COMMAND", $$"history -c"); ($$"COMMAND", $$"history -c")] /\
  demo_log $$"echo $(history -c) | cat" = [($$"COMMAND", $$"history -c")].
Proof. split; by vm_compute. Qed.

(** ** A count that cannot be negated *)

(** [head -n -9223372036854775808] panics (the count stays negative when negated):
    the visitor is shown a crash, where every smaller count prints the file. *)
Theorem head_of_least_int_crashes :
  (demo_out $$"head -n -9223372036854775808 /etc/passwd").1 = segfault ++ [cr; nl] /\
  (demo_out $$"head -n -9223372036854775807 /etc/passwd").1 = $$"root:x:0:0" ++ [cr; nl].
Proof. split; by vm_compute. Qed.

(** ** Self-referential lines *)

(** a line that keeps re-entering the shell bottoms out at [maxExecDepth] levels
    with the status of a crashed process, having logged one execution per level;
    the line the source's comment gives stops after two, because the
    quoted value is expanded when it is assigned. *)
Theorem self_reference_bottoms_out :
  demo_out $$"D='$'; X='sh -c ${D}X'; sh -c $X" = (segfault ++ [cr; nl], 139) /\
  zlen (demo_log $$"D='$'; X='sh -c ${D}X'; sh -c $X") = maxExecDepth /\
  zlen (demo_log ($$"X='sh -c " ++ [dquote] ++ $$"$X" ++ [dquote] ++ $$"'; sh -c " ++ [dquote] ++ $$"$X" ++ [dquote])) = 2.
Proof. split_and!; by vm_compute. Qed.
