(* ===== verification/Sleep.v ===== *)
(** * Sleep: how long [sleep] holds a session (internal/shell/shell.go, interactive.go)

    [Shell.dispatch] leaves pauses out; here is the one a client chooses.  A float64 is a
    [spec_float], [strconv.ParseFloat] a parameter, and the conversion of a float64 to an
    int64 is the one of amd64, which gives the least integer when the value does not fit. *)

From Stdlib Require Import SpecFloat.
From S2P Require Import Prelude GoStrings Parse Session.

Definition float_of (n : Z) : spec_float := binary_normalize 53 1024 n 0 false.
Definition fmul : spec_float -> spec_float -> spec_float := SFmul 53 1024.
Definition fadd : spec_float -> spec_float -> spec_float := SFadd 53 1024.

(** The integer part of a float64, towards zero. *)
Definition float_trunc (f : spec_float) : option Z :=
  match f with
  | S754_zero _ => Some 0
  | S754_finite s m e =>
      let v := if 0 <=? e then Z.pos m * 2 ^ e else Z.pos m / 2 ^ (- e) in
      Some (if s then - v else v)
  | S754_infinity _ | S754_nan => None
  end.
Definition float_int64 (f : spec_float) : Z :=
  match float_trunc f with
  | Some v => if (min_int64 <=? v) && (v <=? max_int64) then v else min_int64
  | None => min_int64
  end.

Definition maxSleep : Z := 10 * second.

Section sleep.
Context (ParseFloat : str -> option spec_float).

(** The multiplier a suffix names, and the number before it. *)
Definition sleep_unit (a : str) : Z * str :=
  if has_suffix a $$"m" then (60, trim_suffix a $$"m")
  else if has_suffix a $$"h" then (3600, trim_suffix a $$"h")
  else if has_suffix a $$"s" then (1, trim_suffix a $$"s")
  else (1, a).

(** The loop over the arguments ends at the first that is not an option. *)
Fixpoint sleep_secs (args : list str) : spec_float :=
  match args with
  | [] => S754_zero false
  | a :: rest =>
      if has_prefix a $$"-" then sleep_secs rest
      else
        let '(mult, number) := sleep_unit a in
        match ParseFloat number with
        | Some v => fadd (S754_zero false) (fmul v (float_of mult))
        | None => S754_zero false
        end
  end.

(** [cmdSleep]: the duration it hands to [pause], if it does. *)
Definition cmdSleep (args : list str) : option Z :=
  let secs := sleep_secs (tail args) in
  if SFleb secs (S754_zero false) then None
  else
    let d := float_int64 (fmul secs (float_of second)) in
    Some (if maxSleep <? d then maxSleep else d).

(** [pause]: how long it sleeps; [time.Sleep] returns at once for a negative duration. *)
Definition pause (fast capturing : bool) (d : Z) : Z := if fast || capturing then 0 else Z.max 0 d.
Definition slept (args : list str) : Z := match cmdSleep args with Some d => pause false false d | None => 0 end.

(** ** What one [sleep] does *)

(** One command never sleeps longer than ten seconds, whatever its arguments. *)
Theorem sleep_is_capped args : 0 <= slept args <= maxSleep.
Proof using.
  unfold slept, cmdSleep, pause. cbv zeta. destruct (SFleb _ _); [unfold maxSleep, second; lia |].
  cbn [orb]. destruct (maxSleep <? _) eqn:E; bool_hyps; unfold maxSleep, second in *; lia.
Qed.

(** ** Documented behaviour: an integer is read exactly *)
Hypothesis ParseFloat_integer : forall n, 0 <= n < 2 ^ 53 -> ParseFloat (itoa n) = Some (float_of n).

Definition units : list (str * Z) := [([], 1); ($$"s", 1); ($$"m", 60); ($$"h", 3600)].

(** What the command does with a number it has read. *)
Definition sleep_of (n mult : Z) : Z :=
  let secs := fadd (S754_zero false) (fmul (float_of n) (float_of mult)) in
  if SFleb secs (S754_zero false) then 0
  else let d := float_int64 (fmul secs (float_of second)) in pause false false (if maxSleep <? d then maxSleep else d).
Definition reads_as (n : Z) (u : str * Z) : bool :=
  let a := itoa n ++ u.1 in negb (has_prefix a $$"-") && bool_decide (sleep_unit a = (u.2, itoa n)).

Lemma slept_of n u : 0 <= n < 2 ^ 53 -> reads_as n u = true -> slept [$$"sleep"; itoa n ++ u.1] = sleep_of n u.2.
Proof using ParseFloat_integer.
  intros Hn [H1 H2]%andb_prop. apply negb_true_iff in H1. apply bool_decide_eq_true in H2. unfold slept, cmdSleep, sleep_of.
  cbn [tail sleep_secs]. rewrite H1, H2, ParseFloat_integer by done. cbv zeta. by destruct (SFleb _ _).
Qed.

(** Up to six hundred, in any unit, by computation. *)
Definition whole_check (n : nat) (u : str * Z) : bool :=
  reads_as (Z.of_nat n) u && (sleep_of (Z.of_nat n) u.2 =? Z.min (Z.of_nat n * u.2 * second) maxSleep).
Lemma whole_checks : forallb (fun n => forallb (whole_check n) units) (seq 0 601) = true.
Proof using. vm_compute. reflexivity. Qed.

(** A whole number, up to 600, of seconds, minutes or hours sleeps just that long, or ten seconds. *)
Theorem sleep_whole n u : 0 <= n <= 600 -> u ∈ units ->
  slept [$$"sleep"; itoa n ++ u.1] = Z.min (n * u.2 * second) maxSleep.
Proof using ParseFloat_integer.
  intros Hn Hu. pose proof (proj1 (forallb_forall _ _) whole_checks (Z.to_nat n) ltac:(apply in_seq; lia)) as H.
  apply list_elem_of_In in Hu. apply (proj1 (forallb_forall _ _) H) in Hu. unfold whole_check in Hu. rewrite Z2Nat.id in Hu by lia.
  apply andb_prop in Hu as [H1 H2%Z.eqb_eq]. rewrite <- H2. apply slept_of; [lia | exact H1].
Qed.

(** The cap is taken after a conversion that overflows: ten thousand million seconds, or
    any time that does not fit in an int64 of nanoseconds, is no pause at all. *)
Theorem huge_sleep_returns_at_once : slept [$$"sleep"; $$"9223372036"] = maxSleep /\ slept [$$"sleep"; $$"10000000000"] = 0.
Proof using ParseFloat_integer.
  assert (forall n d, n <? 9007199254740992 = true -> 0 <=? n = true -> reads_as n ([], 1) = true -> sleep_of n 1 = d -> slept [$$"sleep"; itoa n] = d) as H.
  { intros n d H1 H2 H3 <-. pose proof (slept_of n ([], 1)) as H. cbn [fst snd] in H. rewrite app_nil_r in H.
    apply H; [change (2 ^ 53) with 9007199254740992; lia | exact H3]. }
  split; [change ($$"9223372036") with (itoa 9223372036) | change ($$"10000000000") with (itoa 10000000000)]; apply H; vm_compute; reflexivity.
Qed.
End sleep.

(** ** A line of sleeps *)

(** The pause of a line whose statements are commands without pipes, one after the other. *)
Definition line_pause (ParseFloat : str -> option spec_float) (line : str) : Z :=
  foldr (fun st acc => match stages st with [stg] => slept ParseFloat (args stg) + acc | _ => acc end) 0 (parse line).
Definition digits_float (s : str) : option spec_float := let '(v, ok) := atoi s in if ok then Some (float_of v) else None.

(** The cap is one of a command, not of a line: the comment on [cmdSleep] says it cannot
    be turned into a resource-holding lever, and that of [maxSessionLifetime] that one
    connection has an absolute ceiling of an hour; a line of 3,600 bytes, a twentieth of
    what [ReadLine] takes, holds the session for longer. *)
Definition sleeping_line : str := concat (repeat $$"sleep 1m;" 400).
Theorem one_line_outlasts_the_session :
  zlen sleeping_line = 3600 /\ zlen sleeping_line * 18 <= maxLineBytes /\
  Forall (fun st => chain st = $$";" /\ map args (stages st) = [[$$"sleep"; $$"1m"]]) (parse sleeping_line) /\
  maxSessionLifetime < line_pause digits_float sleeping_line.
Proof.
  split_and!; [vm_compute; reflexivity | vm_compute; discriminate | | vm_compute; reflexivity].
  apply (bool_decide_unpack _). vm_compute. exact I.
Qed.

Lemma digits_float_itoa n : 0 <= n < 2 ^ 53 -> digits_float (itoa n) = Some (float_of n).
Proof. intros Hn. unfold digits_float. rewrite atoi_itoa; [done |]. unfold max_int64. lia. Qed.

Lemma sleep_whole_witness :
  slept digits_float [$$"sleep"; $$"7s"] = 7 * second /\ slept digits_float [$$"sleep"; $$"2m"] = maxSleep.
Proof.
  split.
  - apply (sleep_whole digits_float digits_float_itoa 7 ($$"s", 1)); [lia | by apply (bool_decide_unpack _); vm_compute].
  - apply (sleep_whole digits_float digits_float_itoa 2 ($$"m", 60)); [lia | by apply (bool_decide_unpack _); vm_compute].
Defined.
Lemma huge_sleep_returns_at_once_witness : slept digits_float [$$"sleep"; $$"10000000000"] = 0.
Proof. apply (huge_sleep_returns_at_once digits_float digits_float_itoa). Defined.
