(* ===== verification/Telnet.v ===== *)
(** * Telnet: option negotiation and login (internal/proto/telnet/telnet.go, fakehost.NAS)

    The client's stream is a list of bytes that ends, or, while the client is still
    there, has no more bytes for now.  [iac_read] is one [Read] of [iacReader] into a
    buffer of [room] bytes; [iac_stream] is what the session's buffered reader gets
    from it, one 4096-byte buffer at a time.  Negotiation replies are kept apart from
    the rest of the output: where they fall between two writes depends on timing. *)

From S2P Require Import Prelude GoStrings VfsNode VfsSession VfsLoad Util Event Session Persona Auth ShellState Shell.

Definition maxSubnegLen : Z := 256.
Definition maxNegotiations : Z := 512.
Definition loginAttempts : nat := 3.

Definition iac : ascii := zb 255.
Definition se : ascii := zb 240.
Definition sb : ascii := zb 250.
Definition will : ascii := zb 251.
Definition wont : ascii := zb 252.
Definition do : ascii := zb 253.
Definition dont : ascii := zb 254.
Definition optEcho : ascii := zb 1.
Definition optSGA : ascii := zb 3.
Definition optTType : ascii := zb 24.
Definition optNaws : ascii := zb 31.
Definition optTSpeed : ascii := zb 32.
Definition optXDisploc : ascii := zb 35.
Definition optNewEnviron : ascii := zb 39.

Definition is_b (a b : ascii) : bool := bool_decide (a = b).

(** ** The filter *)

(** The bytes [negotiate] sends for a request. *)
Definition negotiate (cmd opt : ascii) : str :=
  if is_b cmd do then
    if is_b opt optEcho || is_b opt optSGA then [] else [iac; wont; opt]
  else if is_b cmd will then
    if bool_decide (opt ∈ [optNaws; optTType; optTSpeed; optXDisploc; optNewEnviron]) then [] else [iac; dont; opt]
  else [].

(** How a scan or a read ends.  [SrcEnd]: the source has no more bytes. *)
Inductive sub_end : Type := SubDone | SubSrc | SubOver.
Inductive read_end : Type := Full | Line | SrcEnd | SubSrcEnd | Oversized | Flood.

(** The subnegotiation scan, from its [n]-th round. *)
Fixpoint skip_sub (n : Z) (raw : str) : str * sub_end :=
  if maxSubnegLen <? n then (raw, SubOver)
  else match raw with
       | [] => ([], SubSrc)
       | x :: raw' =>
           if is_b x iac then
             match raw' with
             | [] => ([], SubSrc)
             | y :: raw'' => if is_b y se then (raw'', SubDone) else skip_sub (n + 1) raw''
             end
           else skip_sub (n + 1) raw'
       end.

(** What one [Read] puts in the buffer, the replies it sends, the bytes left in the
    source, and how it ends. *)
Definition read_result : Type := str * str * str * read_end.
Definition add_data (c : ascii) (r : read_result) : read_result := let '(d, w, raw, e) := r in (c :: d, w, raw, e).
Definition add_reply (x : str) (r : read_result) : read_result := let '(d, w, raw, e) := r in (d, x ++ w, raw, e).

Fixpoint iac_read (fuel : nat) (room : nat) (negs : Z) (raw : str) : read_result :=
  match fuel, room with
  | O, _ | _, O => ([], [], raw, Full)
  | S f, S room' =>
      match raw with
      | [] => ([], [], [], SrcEnd)
      | b :: raw =>
          if is_b b iac then
            match raw with
            | [] => ([], [], [], SrcEnd)
            | c :: raw =>
                if is_b c iac then add_data iac (iac_read f room' negs raw)
                else if bool_decide (c ∈ [will; wont; do; dont]) then
                  match raw with
                  | [] => ([], [], [], SrcEnd)
                  | opt :: raw =>
                      add_reply (negotiate c opt)
                        (if maxNegotiations <? negs + 1 then ([], [], raw, Flood) else iac_read f room (negs + 1) raw)
                  end
                else if is_b c sb then
                  match skip_sub 0 raw with
                  | (raw, SubDone) => iac_read f room negs raw
                  | (raw, SubSrc) => ([], [], raw, SubSrcEnd)
                  | (raw, SubOver) => ([], [], raw, Oversized)
                  end
                else iac_read f room negs raw
            end
          else if is_b b (zb 10) then ([b], [], raw, Line)
          else add_data b (iac_read f room' negs raw)
      end
  end.
Definition bufSize : nat := 4096.
Definition Read (room : nat) (raw : str) : read_result := iac_read (S (length raw)) room 0 raw.

(** Successive reads into the session's buffer, until one does not return data
    normally. *)
Fixpoint iac_stream (fuel : nat) (raw : str) : str * str * read_end :=
  match fuel with
  | O => ([], [], Full)
  | S f =>
      let '(d, w, raw', e) := Read bufSize raw in
      match e with
      | Full | Line => let '(d', w', e') := iac_stream f raw' in (d ++ d', w ++ w', e')
      | _ => (d, w, e)
      end
  end.
Definition filtered (raw : str) : str * str * read_end := iac_stream (S (length raw)) raw.

(** What the session can read while the client keeps the connection open: a [Read]
    blocks until its buffer is full or a line feed arrives, so the bytes of one that
    has not returned are not there yet. *)
Fixpoint delivered (fuel : nat) (raw : str) : str :=
  match fuel with
  | O => []
  | S f =>
      let '(d, _, raw', e) := Read bufSize raw in
      match e with Full | Line => d ++ delivered f raw' | _ => [] end
  end.

(** ** The host a shell can pivot to *)

Section host.
Context (unmarshal : str -> option manifest) (parse_rfc3339 parse_date : str -> option Z)
  (render : Persona -> str -> str -> option str) (nas_tree : list (str * etree)) (png jpg : str).

Definition LoadNAS (now : Z) (p : Persona) : option node :=
  graftLoot png jpg now (LootPath p) <$> Load unmarshal parse_rfc3339 parse_date (renderer (render p)) now nas_tree.

Definition set_host (p : Persona) (host ip : str) : Persona :=
  MkPersona host (Domain p) (pUsername p) (UserUID p) (PrettyName p) (KernelRel p) (KernelVer p) (Arch p)
    (OpenSSHVer p) (BusyBoxVer p) (WPVer p) (TomcatVer p) (NginxVer p) (ApacheVer p) (PHPVer p) (FTPSoftware p)
    (FTPVer p) (Profile p) (Services p) ip (GatewayIP p) (GatewayHost p) (DBHost p) (DBIP p) (BackupHost p)
    (BackupIP p) (MAC p) (MachineID p) (BootID p) (RootUUID p) (BootUUID p) (RootPwHash p) (UserPwHash p)
    (RootPassword p) (UserPassword p) (SSHKeyFP p) (KnownKey p) (WPDBName p) (WPDBUser p) (WPDBPass p) (WPSalts p)
    (BootEpoch p) (LootPath p) (RootAuthKey p) (RootPrivKey p) (SSHHostKeySeed p).
Definition NAS (now : Z) (p : Persona) : option (node * Persona) :=
  let np := set_host p (BackupHost p) (BackupIP p) in
  (fun fs => (fs, np)) <$> LoadNAS now np.
Definition nasResolver (now : Z) (p : Persona) (target : str) : option (node * Persona) :=
  if negb (target =s BackupIP p) && negb (target =s BackupHost p) then None else NAS now p.

(** ** The service *)

(** [login_now] and [lucky] answer the brute-force policy's clock and dice at each
    attempt. *)
Context (W : World) (base : node) (p : Persona) (style : str) (login_now : nat -> Z) (lucky : nat -> bool) (nas_now : Z).

Definition opening : str :=
  [iac; do; optTType; iac; do; optTSpeed; iac; do; optXDisploc; iac; do; optNewEnviron; iac; will; optSGA; iac; do; optNaws].
Definition echo_on : str := [iac; will; optEcho].
Definition echo_off : str := [iac; wont; optEcho].

Definition banner (s : sess) : sess :=
  let v := trim_prefix (PrettyName p) $$"Ubuntu " in
  SlowWrite ([zb 13; zb 10] ++ $$"Ubuntu " ++ v ++ $$" " ++ Hostname p ++ $$" ttyS0" ++ [zb 13; zb 10; zb 13; zb 10]) s.

Definition loginUser (typed : str) : str := if typed =s pUsername p then pUsername p else $$"root".

Fixpoint readUsername (attempts : nat) (s : sess) : option str * sess :=
  match attempts with
  | O => (None, s)
  | S n =>
      let '(u, ok, s) := Prompt (Hostname p ++ $$" login: ") s in
      if negb ok then (None, s)
      else let u := trim_space u in if u =s [] then readUsername n s else (Some u, s)
  end.

(** The password prompt with the echo taken over. *)
Definition readPassword (s : sess) : option str * sess :=
  let '(pass, ok, s) := Prompt $$"Password: " (Write echo_on s) in
  let s := Write echo_off s in
  if negb ok then (None, s) else (Some pass, Write [zb 13; zb 10] s).

(** The state a connection runs in: the session, the overlay counter and the readings
    of the shell, and the brute-force table. *)
Definition tstate : Type := shared * option bruteForce.
Definition in_sess (f : sess -> sess) (sg : shared) : shared := let '(s, g, t) := sg in (f s, g, t).

(** One round of the login loop: [None] ends it (the client left). *)
Definition login_round (i : nat) (st : tstate) : tstate * option (str * bool) :=
  let '((s, g, t), bf) := st in
  match readUsername 64 s with
  | (None, s) => (((s, g, t), bf), None)
  | (Some user, s) =>
      let s := set_username s user in
      match readPassword s with
      | (None, s) => (((s, g, t), bf), None)
      | (Some pass, s) =>
          let '(accepted, bruteForced, bf) := AcceptFrom p bf (login_now i) (lucky i) (SrcIP s) user pass in
          (((LogCredentialResult user pass accepted bruteForced s, g, t), bf), Some (user, accepted))
      end
  end.
Fixpoint login_loop (tries i : nat) (st : tstate) : tstate * bool :=
  match tries with
  | O => (st, false)
  | S tries =>
      match login_round i st with
      | (st, None) => (st, false)
      | (st, Some (user, true)) =>
          ((Run W base p (loginUser user) style (Some (nasResolver nas_now p)) st.1, st.2), true)
      | (st, Some (_, false)) =>
          login_loop tries (S i) (in_sess (Write ($$"Login incorrect" ++ [zb 13; zb 10; zb 13; zb 10])) st.1, st.2)
      end
  end.

(** The IOS-style command line; every round consumes input. *)
Definition cisco_reply (cmd : str) (s : sess) : sess :=
  if has_prefix cmd $$"en" then Writeln $$"% Access denied" s
  else if has_prefix cmd $$"show ver" then
    Writeln (Hostname p ++ $$" uptime is 41 weeks, 2 days")
      (Writeln $$"Cisco IOS Software, C2900 Software, Version 15.7(3)M6, RELEASE SOFTWARE" s)
  else if has_prefix cmd $$"show run" then Writeln $$"% Incomplete command." s
  else Writeln $$"% Unknown command or computer name, or unable to find computer address" s.
Fixpoint cisco_loop (fuel : nat) (s : sess) : sess :=
  match fuel with
  | O => s
  | S f =>
      let '(line, ok, s) := Prompt (Hostname p ++ $$">") s in
      if negb ok then s
      else
        let cmd := trim_space line in
        if cmd =s [] then cisco_loop f s
        else
          let s := LogCommand cmd s in
          if bool_decide (cmd ∈ [$$"exit"; $$"logout"; $$"quit"]) then s else cisco_loop f (cisco_reply cmd s)
  end.
Definition cisco (s : sess) : sess :=
  let s := Writeln [] (Writeln $$"User Access Verification" (Writeln [] (Writeln [] s))) in
  let '(user, ok, s) := Prompt $$"Username: " s in
  if negb ok then s
  else match readPassword s with
       | (None, s) => s
       | (Some pass, s) =>
           let s := LogCredential (trim_space user) pass s in
           cisco_loop (S (length (inp s))) s
       end.

(** [Handle]: the session's input is the client's raw stream. *)
Definition Handle (st : tstate) : tstate * str :=
  let '((s, g, t), bf) := st in
  let s := Write opening (set_persona s (Hostname p)) in
  let '(clean, replies, _) := filtered (inp s) in
  let s := set_inp s clean in
  if style =s $$"cisco" then (((cisco s, g, t), bf), replies)
  else ((login_loop loginAttempts 0 ((banner s, g, t), bf)).1, replies).
End host.
