(* ===== verification/TelnetFacts.v ===== *)
(** * TelnetFacts: what the negotiation filter and the login promise

    A client's stream is a list of [item]s: data bytes, with 255 doubled, and the
    commands a client may put between them. *)

From S2P Require Import Prelude GoStrings VfsNode VfsSession VfsLoad Util Event Session Persona Auth ShellState Shell Telnet.

(** ** Well-formed client streams *)

Inductive item : Type :=
  | Data (c : ascii)
  | Neg (cmd opt : ascii)
  | Sub (body : str)
  | Cmd (c : ascii).
Definition encode_item (i : item) : str :=
  match i with
  | Data c => if is_b c iac then [iac; iac] else [c]
  | Neg cmd opt => [iac; cmd; opt]
  | Sub body => [iac; sb] ++ body ++ [iac; se]
  | Cmd c => [iac; c]
  end.
Definition item_ok (i : item) : Prop :=
  match i with
  | Data _ => True
  | Neg cmd _ => cmd ∈ [will; wont; do; dont]
  | Sub body => iac ∉ body /\ zlen body <= maxSubnegLen
  | Cmd c => c ∉ [iac; will; wont; do; dont; sb]
  end.
Definition item_data (i : item) : str := match i with Data c => [c] | _ => [] end.
Definition item_reply (i : item) : str := match i with Neg cmd opt => negotiate cmd opt | _ => [] end.
Definition item_negs (i : item) : Z := match i with Neg _ _ => 1 | _ => 0 end.
Definition encode (l : list item) : str := flat_map encode_item l.

Lemma is_b_refl a : is_b a a = true. Proof. by apply bool_decide_eq_true. Qed.
Lemma is_b_neq a b : a <> b -> is_b a b = false. Proof. intros. by apply bool_decide_eq_false. Qed.
Lemma item_negs_nonneg i : 0 <= item_negs i. Proof. destruct i; simpl; lia. Qed.
Lemma encode_item_nonempty i : (0 < length (encode_item i))%nat.
Proof. destruct i; simpl; try lia. destruct (is_b c iac); simpl; lia. Qed.

Lemma skip_sub_ok body rest n :
  iac ∉ body -> n + zlen body <= maxSubnegLen -> skip_sub n (body ++ [iac; se] ++ rest) = (rest, SubDone).
Proof.
  revert n. induction body as [| x body IH]; intros n Hb Hn; cbn [app skip_sub].
  - change (zlen []) with 0 in Hn. replace (maxSubnegLen <? n) with false by (symmetry; apply Z.ltb_ge; lia). done.
  - rewrite zlen_cons in Hn. pose proof (zlen_nonneg body). apply not_elem_of_cons in Hb as [Hx Hb].
    replace (maxSubnegLen <? n) with false by (symmetry; apply Z.ltb_ge; lia).
    rewrite is_b_neq by congruence. apply IH; [done | lia].
Qed.

(** A read stops after some of the items and has treated those before. *)
Lemma iac_read_items l :
  forall fuel room negs, (length (encode l) < fuel)%nat -> Forall item_ok l -> 0 <= negs ->
  negs + zsum item_negs l <= maxNegotiations ->
  exists pre post e, l = pre ++ post /\
    iac_read fuel room negs (encode l) = (flat_map item_data pre, flat_map item_reply pre, encode post, e) /\
    (e = SrcEnd /\ post = [] \/ e = Full \/ e = Line) /\
    ((0 < room)%nat -> match l with [] => e = SrcEnd | _ => pre <> [] end).
Proof.
  induction l as [| i l IH]; intros fuel room negs Hf Hok Hn Hmax; (destruct fuel as [| fuel]; [simpl in Hf; lia |]).
  { destruct room; [exists [], [], Full | exists [], [], SrcEnd]; split_and!; auto; lia. }
  destruct room as [| room]; [exists [], (i :: l), Full; split_and!; auto; lia |].
  apply Forall_cons in Hok as [Hi Hok]. rewrite zsum_cons in Hmax. pose proof (item_negs_nonneg i).
  pose proof (zsum_nonneg item_negs l item_negs_nonneg).
  change (encode (i :: l)) with (encode_item i ++ encode l) in *. rewrite length_app in Hf.
  pose proof (encode_item_nonempty i).
  assert (forall room' negs', 0 <= negs' -> negs' + zsum item_negs l <= maxNegotiations -> exists pre post e,
    i :: l = (i :: pre) ++ post /\
    iac_read fuel room' negs' (encode l) = (flat_map item_data pre, flat_map item_reply pre, encode post, e) /\
    (e = SrcEnd /\ post = [] \/ e = Full \/ e = Line)) as Hrec.
  { intros room' negs' G1 G2. destruct (IH fuel room' negs') as (pre & post & e & -> & Hr & He & _); [lia | done | done | done |].
    exists pre, post, e. done. }
  destruct i as [c | cmd opt | body | c]; cbn [encode_item item_negs item_ok] in *.
  - destruct (Hrec room negs) as (pre & post & e & Hl & Hr & He); [lia | lia |].
    destruct (is_b c iac) eqn:Ec; cbn [app iac_read].
    + apply bool_decide_eq_true in Ec as ->. rewrite !is_b_refl, Hr. exists (Data iac :: pre), post, e. done.
    + rewrite Ec, Hr. destruct (is_b c (zb 10)) eqn:E10; [| exists (Data c :: pre), post, e; done].
      exists [Data c], l, Line. split_and!; try done; auto.
  - destruct (Hrec (S room) (negs + 1)) as (pre & post & e & Hl & Hr & He); [lia | lia |].
    cbn [app iac_read]. rewrite is_b_refl. rewrite is_b_neq by (intros ->; exact (bool_decide_unpack (iac ∉ [will; wont; do; dont]) I Hi)).
    rewrite bool_decide_eq_true_2 by done. replace (maxNegotiations <? negs + 1) with false by (symmetry; apply Z.ltb_ge; lia).
    rewrite Hr. exists (Neg cmd opt :: pre), post, e. done.
  - destruct (Hrec (S room) negs) as (pre & post & e & Hl & Hr & He); [lia | lia |]. destruct Hi as [Hb Hlen].
    cbn [app iac_read]. rewrite is_b_refl. change (is_b sb iac) with false. change (is_b sb sb) with true.
    change (bool_decide (sb ∈ [will; wont; do; dont])) with false. cbn iota.
    rewrite <- app_assoc. rewrite skip_sub_ok by (done || lia). rewrite Hr. exists (Sub body :: pre), post, e. done.
  - destruct (Hrec (S room) negs) as (pre & post & e & Hl & Hr & He); [lia | lia |].
    cbn [app iac_read]. rewrite is_b_refl. rewrite !not_elem_of_cons in Hi. destruct Hi as (G1 & G2 & G3 & G4 & G5 & G6 & _).
    rewrite (is_b_neq c iac), (is_b_neq c sb) by done. rewrite bool_decide_eq_false_2 by set_solver.
    rewrite Hr. exists (Cmd c :: pre), post, e. done.
Qed.

Lemma iac_stream_items l fuel :
  (length (encode l) < fuel)%nat -> Forall item_ok l -> zsum item_negs l <= maxNegotiations ->
  iac_stream fuel (encode l) = (flat_map item_data l, flat_map item_reply l, SrcEnd).
Proof.
  revert l. induction fuel as [| fuel IH]; intros l Hf Hok Hmax; [lia |]. cbn [iac_stream]. unfold Read.
  destruct (iac_read_items l (S (length (encode l))) bufSize 0) as (pre & post & e & Hl & -> & He & Hne); [lia | done | done | done |].
  subst l. rewrite !flat_map_app. destruct He as [[-> ->] | He]; [by rewrite !app_nil_r |].
  apply Forall_app in Hok as [_ Hok]. rewrite zsum_app in Hmax. pose proof (zsum_nonneg item_negs pre item_negs_nonneg).
  assert (pre <> []) as Hp.
  { specialize (Hne ltac:(unfold bufSize; lia)). destruct (pre ++ post); [|done]. by destruct He as [-> | ->]. }
  assert (length (encode post) < length (encode (pre ++ post)))%nat.
  { unfold encode. rewrite flat_map_app, length_app. destruct pre as [| i pre]; [done |]. cbn [flat_map]. rewrite length_app.
    pose proof (encode_item_nonempty i). lia. }
  rewrite IH by (done || lia). by destruct He as [-> | ->].
Qed.

(** C16: the filter is transparent to data and invisible in the capture: whatever option
    requests, subnegotiations and other commands a client mixes into its input (up to
    512 requests), what the shell and the log see is exactly the bytes it typed, a
    doubled 255 read as one, and what it gets back is exactly the answer to each
    request. *)
Theorem filter_transparent l :
  Forall item_ok l -> zsum item_negs l <= maxNegotiations ->
  filtered (encode l) = (flat_map item_data l, flat_map item_reply l, SrcEnd).
Proof. intros Hok Hmax. apply iac_stream_items; [lia | done | done]. Qed.

Lemma filter_transparent_witness :
  let l := map Data $$"ro" ++ [Neg do (zb 34); Sub [zb 24; zb 0]; Data iac; Cmd (zb 241)] ++ map Data $$"ot" ++ [Neg will optNaws] in
  zsum item_negs l = 2 /\ filtered (encode l) = ($$"ro" ++ [iac] ++ $$"ot", [iac; wont; zb 34], SrcEnd).
Proof.
  intros l. split; [reflexivity |]. apply (filter_transparent l); [| by apply Z.leb_le].
  unfold l. repeat (apply Forall_cons; split; [cbn [item_ok]; first [done | by apply (bool_decide_unpack _) | split; [by apply (bool_decide_unpack _) | by apply Z.leb_le]] |]).
  constructor.
Defined.

(** ** Negotiation ends *)

Definition refusal (i : item) : Prop := match i with Neg cmd _ => cmd = wont \/ cmd = dont | _ => False end.

Lemma negotiate_refusal cmd opt :
  negotiate cmd opt = [] \/ exists i, negotiate cmd opt = encode_item i /\ refusal i.
Proof.
  unfold negotiate. destruct (is_b cmd do); [destruct (_ || _); [by left | right; exists (Neg wont opt); split; [done | by left]] |].
  destruct (is_b cmd will); [| by left]. case_bool_decide; [by left | right; exists (Neg dont opt); split; [done | by right]].
Qed.

Lemma iac_read_replies fuel : forall room negs raw d w raw' e,
  0 <= negs <= maxNegotiations -> iac_read fuel room negs raw = (d, w, raw', e) ->
  exists qs, w = encode qs /\ Forall refusal qs /\ zlen qs + negs <= maxNegotiations + 1.
Proof.
  assert (forall negs, negs <= maxNegotiations -> exists qs : list item, [] = encode qs /\ Forall refusal qs /\ zlen qs + negs <= maxNegotiations + 1) as H0
    by (intros; exists []; split_and!; [done | constructor | change (zlen []) with 0; lia]).
  induction fuel as [| fuel IH]; intros room negs raw d w raw' e Hn; [cbn; intros [= <- <- <- <-]; apply H0; lia |].
  destruct room as [| room]; [cbn; intros [= <- <- <- <-]; apply H0; lia |].
  assert (forall room negs raw c d w raw' e, 0 <= negs <= maxNegotiations -> add_data c (iac_read fuel room negs raw) = (d, w, raw', e) ->
    exists qs, w = encode qs /\ Forall refusal qs /\ zlen qs + negs <= maxNegotiations + 1) as IHd.
  { intros ro ne ra c d1 w1 r1 e1 Hne. destruct (iac_read fuel ro ne ra) as [[[d0 w0] r0] e0] eqn:E. intros [= <- <- <- <-]. by eapply IH. }
  destruct raw as [| b raw]; cbn [iac_read]; [intros [= <- <- <- <-]; apply H0; lia |].
  destruct (is_b b iac); [| destruct (is_b b (zb 10)); [intros [= <- <- <- <-]; apply H0; lia | by apply IHd]].
  destruct raw as [| c raw]; [intros [= <- <- <- <-]; apply H0; lia |].
  destruct (is_b c iac); [by apply IHd |]. case_bool_decide.
  - destruct raw as [| opt raw]; [intros [= <- <- <- <-]; apply H0; lia |].
    destruct (if maxNegotiations <? negs + 1 then _ else _) as [[[d0 w0] r0] e0] eqn:E. intros [= <- <- <- <-].
    assert (exists qs, w0 = encode qs /\ Forall refusal qs /\ zlen qs + (negs + 1) <= maxNegotiations + 1) as (qs & -> & Hq & Hz).
    { destruct (maxNegotiations <? negs + 1) eqn:Em; bool_hyps.
      - injection E as <- <- <- <-. exists []. split_and!; [done | constructor | change (zlen []) with 0; lia].
      - eapply IH; [| exact E]. lia. }
    destruct (negotiate_refusal c opt) as [-> | (i & -> & Hi)]; [exists qs; split_and!; [done | done | lia] |].
    exists (i :: qs). split_and!; [done | by constructor | rewrite zlen_cons; lia].
  - destruct (is_b c sb); [| by eapply IH].
    destruct (skip_sub 0 raw) as [raw2 []]; [by eapply IH | |]; intros [= <- <- <- <-]; apply H0; lia.
Qed.

(** negotiation cannot loop or be used as a reflector: all one read ever sends back are
    refusals, at most 513 of three bytes; a refusal never draws an answer, and neither
    does an acknowledgement, positive or negative, of anything the opening burst asked
    for or offered. *)
Theorem negotiation_terminates room raw :
  let '(_, w, _, _) := Read room raw in
  (exists qs, w = encode qs /\ Forall refusal qs /\ Forall (fun q => item_reply q = []) qs /\ zlen qs <= maxNegotiations + 1) /\
  Forall (fun o => negotiate will o = [] /\ negotiate wont o = []) [optTType; optTSpeed; optXDisploc; optNewEnviron; optNaws] /\
  Forall (fun o => negotiate do o = [] /\ negotiate dont o = []) [optSGA; optEcho].
Proof.
  destruct (Read room raw) as [[[d w] raw'] e] eqn:E.
  destruct (iac_read_replies _ room 0 raw d w raw' e ltac:(done) E) as (qs & -> & Hq & Hz).
  split_and!; [exists qs; split_and!; [done | done | | lia] | by repeat constructor | by repeat constructor].
  eapply Forall_impl; [exact Hq |]. intros [c | cmd opt | b | c]; simpl; try done. by intros [-> | ->].
Qed.

(** Commands without an option are not counted: any number of them is consumed by one
    read that delivers nothing. *)
Theorem commands_are_not_capped n fuel room negs :
  (n < fuel)%nat -> (0 < room)%nat ->
  iac_read fuel room negs (encode (repeat (Cmd (zb 241)) n)) = ([], [], [], SrcEnd).
Proof.
  revert fuel. induction n as [| n IH]; intros fuel Hf Hr; (destruct fuel as [| fuel]; [lia |]); (destruct room as [| room]; [lia |]); [done |].
  cbn [repeat encode flat_map encode_item app iac_read]. change (is_b iac iac) with true. change (is_b (zb 241) iac) with false.
  change (is_b (zb 241) sb) with false. change (bool_decide (zb 241 ∈ [will; wont; do; dont])) with false. cbn iota.
  apply IH; lia.
Qed.
Lemma commands_are_not_capped_witness :
  (1000 < 1001)%nat /\ (0 < 4096)%nat /\ iac_read 1001 4096 0 (encode (repeat (Cmd (zb 241)) 1000)) = ([], [], [], SrcEnd).
Proof. split; [lia |]. split; [lia |]. apply (commands_are_not_capped 1000 1001 4096 0); lia. Defined.

(** ** Lines a telnet client ends with CR NUL *)

Lemma skip_sub_suffix raw : forall n raw' e, skip_sub n raw = (raw', e) -> exists used, raw = used ++ raw'.
Proof.
  induction raw as [raw IH] using (induction_ltof1 _ (@length ascii)). unfold ltof in IH. intros n raw' e.
  destruct raw as [| x raw]; cbn [skip_sub]; [destruct (_ <? _); intros [= <- <-]; by exists [] |].
  destruct (_ <? _); [intros [= <- <-]; by exists [] |]. destruct (is_b x iac).
  - destruct raw as [| y raw]; [intros [= <- <-]; by exists [x] |].
    destruct (is_b y se); [intros [= <- <-]; by exists [x; y] |]. intros H.
    destruct (IH raw ltac:(simpl; lia) _ _ _ H) as (u & ->). by exists (x :: y :: u).
  - intros H. destruct (IH raw ltac:(simpl; lia) _ _ _ H) as (u & ->). by exists (x :: u).
Qed.

Lemma iac_read_blocks fuel : forall room negs raw d w raw' e,
  (length raw < fuel)%nat -> (length raw < room)%nat -> zb 10 ∉ raw ->
  iac_read fuel room negs raw = (d, w, raw', e) -> e <> Full /\ e <> Line.
Proof.
  induction fuel as [| fuel IH]; intros room negs raw d w raw' e Hf Hr H10; [lia |]. destruct room as [| room]; [lia |].
  assert (forall raw room negs c, (length raw < fuel)%nat -> (length raw < room)%nat -> zb 10 ∉ raw ->
    forall d w raw' e, add_data c (iac_read fuel room negs raw) = (d, w, raw', e) -> e <> Full /\ e <> Line) as IHd.
  { intros ra ro ne c H1 H2 H3 d1 w1 r1 e1. destruct (iac_read fuel ro ne ra) as [[[d0 w0] r0] e0] eqn:E. intros [= <- <- <- <-].
    exact (IH _ _ _ _ _ _ _ H1 H2 H3 E). }
  destruct raw as [| b raw]; cbn [iac_read]; [by intros [= <- <- <- <-] |].
  simpl in Hf, Hr. apply not_elem_of_cons in H10 as [Hb H10].
  destruct (is_b b iac); [| rewrite is_b_neq by congruence; apply IHd; [lia | lia | done]].
  destruct raw as [| c raw]; [by intros [= <- <- <- <-] |]. simpl in Hf, Hr. apply not_elem_of_cons in H10 as [Hc H10].
  destruct (is_b c iac); [apply IHd; [lia | lia | done] |]. case_bool_decide.
  - destruct raw as [| opt raw]; [by intros [= <- <- <- <-] |]. simpl in Hf, Hr. apply not_elem_of_cons in H10 as [_ H10].
    destruct (maxNegotiations <? negs + 1); [by intros [= <- <- <- <-] |].
    destruct (iac_read fuel (S room) (negs + 1) raw) as [[[d0 w0] r0] e0] eqn:E. intros [= <- <- <- <-].
    eapply IH; [| | exact H10 | exact E]; lia.
  - destruct (is_b c sb); [| apply IH; [lia | lia | done]].
    destruct (skip_sub 0 raw) as [raw2 s] eqn:Es. destruct (skip_sub_suffix _ _ _ _ Es) as (u & ->).
    rewrite length_app in Hf, Hr. apply not_elem_of_app in H10 as [_ H10].
    destruct s; [apply IH; [lia | lia | done] | by intros [= <- <- <- <-] | by intros [= <- <- <- <-]].
Qed.

(** C40: a line ended by CR NUL is not seen while its sender waits for an answer: the filter
    hands data on only at a line feed or when its buffer is full, so nothing of such a
    line reaches the session, although [ReadLine] would take it as complete. *)
Theorem cr_nul_line_stalls line :
  iac ∉ line -> zb 10 ∉ line -> zb 13 ∉ line -> (length line + 2 < bufSize)%nat ->
  let raw := line ++ [zb 13; zb 0] in
  (forall fuel, delivered fuel raw = []) /\ read_line [] 0 raw = (TrimCRLF line, true, []) /\
  filtered raw = (raw, [], SrcEnd).
Proof.
  intros Hi H10 H13 Hl. cbn zeta. set (raw := line ++ [zb 13; zb 0]).
  assert (zb 10 ∉ raw) as Hr10. { unfold raw. rewrite not_elem_of_app. split; [done | by apply (bool_decide_unpack _)]. }
  assert (length raw < bufSize)%nat as Hrl by (unfold raw; rewrite length_app; simpl; lia).
  split_and!.
  - intros [| fuel]; [done |]. cbn [delivered]. destruct (Read bufSize raw) as [[[d w] raw'] e] eqn:E.
    destruct (iac_read_blocks (S (length raw)) bufSize 0 raw d w raw' e ltac:(lia) Hrl Hr10 E). by destruct e.
  - unfold raw. change [zb 13; zb 0] with ([zb 13; zb 0] ++ []). rewrite (read_line_line [] 0 line [zb 13; zb 0] []); [done | | done | done | auto].
    assert (Z.of_nat bufSize = 4096) by done. unfold maxLineBytes, zlen. lia.
  - assert (encode (map Data raw) = raw /\ flat_map item_data (map Data raw) = raw /\ flat_map item_reply (map Data raw) = [] /\
            zsum item_negs (map Data raw) = 0) as (He & Hd & Hw & Hz).
    { assert (iac ∉ raw) as Hraw. { unfold raw. rewrite not_elem_of_app. split; [done | by apply (bool_decide_unpack _)]. }
      clearbody raw. clear - Hraw. induction raw as [| c raw IH]; [done |]. apply not_elem_of_cons in Hraw as [Hc Hraw].
      destruct (IH Hraw) as (H1 & H2 & H3 & H4). cbn [map encode flat_map encode_item item_data item_reply].
      rewrite is_b_neq by congruence. unfold encode in H1. rewrite zsum_cons. cbn [item_negs]. rewrite H1, H2, H3, H4. done. }
    rewrite <- He at 1. unfold filtered. rewrite iac_stream_items; [by rewrite Hd, Hw | lia | | by rewrite Hz].
    clear. induction raw; constructor; done.
Qed.

Lemma cr_nul_line_stalls_witness :
  let raw := $$"root" ++ [zb 13; zb 0] in
  delivered 10 raw = [] /\ read_line [] 0 raw = ($$"root", true, []) /\ (4 + 2 < bufSize)%nat /\
  delivered 10 ($$"root" ++ [zb 13; zb 10]) = $$"root" ++ [zb 13; zb 10].
Proof.
  intros raw. destruct (cr_nul_line_stalls $$"root") as (H1 & H2 & _);
    [by apply (bool_decide_unpack _) | by apply (bool_decide_unpack _) | by apply (bool_decide_unpack _) | by apply Nat.ltb_lt |].
  split; [apply H1 |]. split; [exact H2 |]. split; [by apply Nat.ltb_lt | reflexivity].
Defined.

(** ** Logging in *)

Section login.
Context (unmarshal : str -> option manifest) (parse_rfc3339 parse_date : str -> option Z)
  (render : Persona -> str -> str -> option str) (nas_tree : list (str * etree)) (png jpg : str)
  (W : World) (base : node) (p : Persona) (style : str) (login_now : nat -> Z) (lucky : nat -> bool) (nas_now : Z).
Local Notation round := (login_round p login_now lucky).
Local Notation tlogin := (login_loop unmarshal parse_rfc3339 parse_date render nas_tree png jpg W base p style login_now lucky nas_now).

Lemma ReadLine_events s l ok s' : ReadLine s = (l, ok, s') -> events s' = events s /\ SrcIP s' = SrcIP s /\ out s' = out s.
Proof using. unfold ReadLine. destruct (capture s); [by intros [= <- <- <-] |]. destruct (read_line _ _ _) as [[? ?] ?]. by intros [= <- <- <-]. Qed.
Lemma Write_events x s : events (Write x s) = events s /\ SrcIP (Write x s) = SrcIP s.
Proof using. unfold Write. by destruct (capture s). Qed.
Lemma Prompt_events x s l ok s' : Prompt x s = (l, ok, s') -> events s' = events s /\ SrcIP s' = SrcIP s.
Proof using. unfold Prompt. intros H. apply ReadLine_events in H as (H1 & H2 & _). by rewrite H1, H2, (proj1 (Write_events x s)), (proj2 (Write_events x s)). Qed.

Lemma readUsername_events n : forall s u s', readUsername p n s = (u, s') -> events s' = events s /\ SrcIP s' = SrcIP s.
Proof using.
  induction n as [| n IH]; intros s u s'; cbn [readUsername]; [by intros [= <- <-] |].
  destruct (Prompt _ s) as [[l ok] s1] eqn:E. apply Prompt_events in E as [E1 E2].
  destruct (negb ok); [by intros [= <- <-] |]. destruct (trim_space l =s []).
  - intros H. apply IH in H as [-> ->]. done.
  - by intros [= <- <-].
Qed.
Lemma readPassword_events s pw s' : readPassword s = (pw, s') -> events s' = events s /\ SrcIP s' = SrcIP s.
Proof using.
  unfold readPassword. destruct (Prompt _ _) as [[l ok] s1] eqn:E. apply Prompt_events in E as [E1 E2].
  rewrite (proj1 (Write_events echo_on s)) in E1. rewrite (proj2 (Write_events echo_on s)) in E2.
  destruct (negb ok); intros [= <- <-]; by rewrite ?(proj1 (Write_events _ _)), ?(proj2 (Write_events _ _)).
Qed.

(** A credential event and its verdict. *)
Definition verdict_event (accepted : bool) (e : Entry) : Prop :=
  e_Event e = $$"CREDENTIAL" /\ (e_Note e = $$"rejected" <-> accepted = false).

(** What one round leaves in the log. *)
Lemma login_round_log i s g t bf st r :
  round i ((s, g, t), bf) = (st, r) ->
  exists s' bf', st = ((s', g, t), bf') /\
  match r with
  | None => events s' = events s
  | Some (user, acc) => exists e, events s' = events s ++ [e] /\ verdict_event acc e
  end.
Proof using.
  unfold login_round. destruct (readUsername p 64 s) as [[user |] s1] eqn:E1; apply readUsername_events in E1 as [E1 E1'];
    [| intros [= <- <-]; eauto].
  destruct (readPassword (set_username s1 user)) as [[pass |] s2] eqn:E2; apply readPassword_events in E2 as [E2 E2'];
    [| intros [= <- <-]; exists s2, bf; split; [done | by rewrite E2, <- E1]].
  destruct (AcceptFrom _ _ _ _ _ _ _) as [[acc brute] bf'] eqn:Ea. intros [= <- <-].
  eexists _, bf'. split; [reflexivity |]. eexists. split; [cbn [events LogCredentialResult add_event]; by rewrite E2, <- E1 |].
  split; [done |]. cbn [e_Note set_note]. unfold credential_note.
  assert (brute = true -> acc = true) as Hb.
  { unfold AcceptFrom in Ea. destruct (Accept p user pass); [by simplify_eq |]. destruct bf as [b |]; [| by simplify_eq].
    destruct (isAppliance p && _); [by simplify_eq |]. destruct (negb _); [by simplify_eq |].
    destruct (consider _ _ _ _ _ _) as [ok b']. by simplify_eq. }
  destruct brute; [rewrite Hb by done; split; intros H; discriminate H |].
  destruct acc; split; intros H; discriminate H || done.
Qed.


(** a well-formed line of input reads as that line. *)
Lemma Prompt_line label s l rest :
  capture s = None -> zlen l < maxLineBytes -> zb 10 ∉ l -> zb 13 ∉ l -> inp s = l ++ [zb 13; zb 10] ++ rest ->
  Prompt label s = (TrimCRLF l, true, set_inp (Write label s) rest).
Proof using.
  intros Hc Hl H10 H13 Hi. unfold Prompt, ReadLine. assert (capture (Write label s) = None) as Hc2 by (unfold Write; by rewrite Hc).
  rewrite Hc2. assert (inp (Write label s) = inp s) as -> by (unfold Write; by rewrite Hc).
  rewrite Hi, (read_line_line [] 0 l [zb 13; zb 10] rest); [done | lia | done | done | auto].
Qed.

(** option traffic cannot corrupt a captured credential: when a client types a name and a
    password with any negotiation in between (inside the words, even), the first attempt
    logs exactly that name and that password, and asks the policy about exactly them. *)
Theorem captured_credential_is_clean l user pass rest s g t bf :
  Forall item_ok l -> zsum item_negs l <= maxNegotiations ->
  flat_map item_data l = user ++ [zb 13; zb 10] ++ pass ++ [zb 13; zb 10] ++ rest ->
  capture s = None ->
  zlen user < maxLineBytes -> zb 10 ∉ user -> zb 13 ∉ user -> user <> [] -> trim_space (TrimCRLF user) = user ->
  zlen pass < maxLineBytes -> zb 10 ∉ pass -> zb 13 ∉ pass -> TrimCRLF pass = pass ->
  let s1 := banner p (set_inp s (filtered (encode l)).1.1) in
  let '(acc, brute, bf') := AcceptFrom p bf (login_now 0) (lucky 0) (SrcIP s) user pass in
  exists s', round 0 ((s1, g, t), bf) = (((s', g, t), bf'), Some (user, acc)) /\ inp s' = rest /\
    exists e, events s' = events s ++ [e] /\ e_Event e = $$"CREDENTIAL" /\ e_Username e = user /\ e_Password e = pass /\
      e_Note e = credential_note acc brute.
Proof using.
  intros Hok Hneg Hdata Hc Hu Hu10 Hu13 Hune Hut Hp Hp10 Hp13 Hpt. cbn zeta. unfold filtered.
  rewrite (iac_stream_items l (S (length (encode l)))) by (done || lia). cbn [fst]. rewrite Hdata.
  set (s0 := set_inp s _). assert (capture s0 = None /\ inp s0 = user ++ [zb 13; zb 10] ++ pass ++ [zb 13; zb 10] ++ rest /\
    events s0 = events s /\ SrcIP s0 = SrcIP s) as (C0 & I0 & V0 & P0) by done. clearbody s0.
  assert (forall x a, capture a = None -> capture (Write x a) = None /\ inp (Write x a) = inp a) as Hw by (intros x a Ha; unfold Write; by rewrite Ha).
  assert (capture (banner p s0) = None /\ inp (banner p s0) = inp s0 /\ events (banner p s0) = events s0 /\ SrcIP (banner p s0) = SrcIP s0)
    as (C1 & I1 & V1 & P1) by (unfold banner, SlowWrite; by rewrite C0).
  unfold login_round. cbn [readUsername].
  rewrite (Prompt_line _ (banner p s0) user (pass ++ [zb 13; zb 10] ++ rest)) by (done || by rewrite I1).
  cbn [negb]. rewrite Hut, (proj2 (seqb_neq user [])) by done. unfold readPassword.
  set (s2 := set_username (set_inp (Write _ (banner p s0)) _) user).
  assert (capture s2 = None /\ inp s2 = pass ++ [zb 13; zb 10] ++ rest /\ events s2 = events s0 /\ SrcIP s2 = SrcIP s0) as (C2 & I2 & V2 & P2).
  { unfold s2. cbn [capture inp events SrcIP set_username set_inp]. rewrite <- V1, <- P1. unfold Write. by rewrite C1. }
  clearbody s2. destruct (Hw echo_on s2 C2) as [C3 I3].
  rewrite (Prompt_line _ (Write echo_on s2) pass rest) by (done || by rewrite I3). cbn [negb]. rewrite Hpt.
  set (s3 := Write [zb 13; zb 10] _).
  assert (events s3 = events s0 /\ SrcIP s3 = SrcIP s0 /\ inp s3 = rest) as (V3 & P3 & I4).
  { unfold s3. rewrite !(proj1 (Write_events _ _)), !(proj2 (Write_events _ _)). cbn [events SrcIP set_inp].
    rewrite !(proj1 (Write_events _ _)), !(proj2 (Write_events _ _)). split_and!; [done | done |].
    destruct (Hw $$"Password: " (Write echo_on s2) C3) as [C5 I5]. destruct (Hw echo_off (set_inp (Write $$"Password: " (Write echo_on s2)) rest) C5) as [C6 I6].
    by rewrite (proj2 (Hw [zb 13; zb 10] _ C6)), I6. }
  clearbody s3. rewrite P3, P0. destruct (AcceptFrom p bf _ _ (SrcIP s) user pass) as [[acc brute] bf'].
  eexists. split; [reflexivity |]. split; [exact I4 |]. eexists. split; [cbn [events LogCredentialResult add_event]; by rewrite V3, V0 |]. done.
Qed.
End login.

Lemma captured_credential_is_clean_witness :
  let l := map Data $$"ro" ++ [Neg do (zb 34)] ++ map Data ($$"ot" ++ [zb 13; zb 10] ++ $$"hun") ++
           [Sub [zb 24; zb 0]; Neg will optNaws] ++ map Data ($$"ter2" ++ [zb 13; zb 10]) in
  let s := demo_client [] in
  let s1 := banner demo_owner (set_inp s (filtered (encode l)).1.1) in
  zsum item_negs l = 2 /\
  let '(acc, brute, bf') := AcceptFrom demo_owner None 0 false (SrcIP s) $$"root" $$"hunter2" in
  exists s', login_round demo_owner (fun _ => 0) (fun _ => false) 0 ((s1, 0, 0%nat), None) = (((s', 0, 0%nat), bf'), Some ($$"root", acc)) /\
    inp s' = [] /\ exists e, events s' = events s ++ [e] /\ e_Event e = $$"CREDENTIAL" /\ e_Username e = $$"root" /\
      e_Password e = $$"hunter2" /\ e_Note e = credential_note acc brute.
Proof.
  intros l s s1. split; [reflexivity |].
  refine (captured_credential_is_clean demo_owner (fun _ => 0) (fun _ => false) l $$"root" $$"hunter2" [] s 0 0%nat None
    _ _ _ _ _ _ _ _ _ _ _ _ _); try (by vm_compute); try (by apply (bool_decide_unpack _)); try reflexivity.
  unfold l. cbn [map app String.list_ascii_of_string].
  repeat (apply Forall_cons; split; [cbn [item_ok]; first [exact I | by apply (bool_decide_unpack _) | split; [by apply (bool_decide_unpack _) | by apply Z.leb_le]] |]).
  apply Forall_nil_2.
Defined.

(** The command loop of the IOS persona ends: every round consumes input, so fuel beyond
    the length of the input changes nothing. *)
Section cisco.
Context (p : Persona).

Lemma Prompt_consumes x s l ok s' : Prompt x s = (l, ok, s') -> (length (inp s') <= length (inp s))%nat /\ (ok = true -> (length (inp s') < length (inp s))%nat).
Proof using.
  unfold Prompt, ReadLine. assert (inp (Write x s) = inp s) as -> by (unfold Write; by destruct (capture s)).
  destruct (capture _); [intros [= <- <- <-]; split; [unfold Write; by destruct (capture s) | done] |].
  destruct (read_line [] 0 (inp s)) as [[l0 ok0] r] eqn:E. intros [= <- <- <-]. cbn [inp set_inp].
  apply read_line_spec in E as (H1 & H2 & (u & Hu) & _); [| done | done | set_solver | set_solver].
  split; [rewrite Hu, length_app; lia |]. intros ->. apply H2. by apply H1.
Qed.

Lemma cisco_reply_inp cmd s : inp (cisco_reply p cmd s) = inp s.
Proof using.
  assert (forall x a, inp (Writeln x a) = inp a) as H by (intros; unfold Writeln, Write; by destruct (capture a)).
  unfold cisco_reply. repeat case_match; by rewrite !H.
Qed.

Theorem cisco_loop_terminates : forall fuel s, (length (inp s) < fuel)%nat -> cisco_loop p fuel s = cisco_loop p (S (length (inp s))) s.
Proof using.
  assert (forall f1 f2 s, (length (inp s) < f1)%nat -> (length (inp s) < f2)%nat -> cisco_loop p f1 s = cisco_loop p f2 s) as H;
    [| intros; apply H; lia].
  induction f1 as [| f1 IH]; intros f2 s H1 H2; [lia |]. destruct f2 as [| f2]; [lia |]. cbn [cisco_loop].
  destruct (Prompt _ s) as [[l ok] s1] eqn:E. apply Prompt_consumes in E as [_ Hlt]. destruct ok; [| done]. cbn [negb].
  specialize (Hlt eq_refl). destruct (trim_space l =s []); [apply IH; lia |].
  case_bool_decide; [done |]. apply IH; rewrite cisco_reply_inp; cbn [inp LogCommand add_event]; lia.
Qed.
End cisco.
