(* ===== verification/Ssh.v ===== *)
(** * Ssh: the SSH service (internal/proto/ssh/ssh.go, Persona.SSHHostKey)

    The transport, the handshake and the multiplexing of channels are those of
    golang.org/x/crypto/ssh, which is not part of the repository: [NewServerConn] and
    [NewSignerFromKey] are parameters.  What the service adds is modelled: the
    authentication callbacks, the channel requests, the terminal line discipline and
    the hand-over to the shell.  What a channel carries is a list of chunks, one for
    each time its [Read] returns.  Echoed input, request replies and the notes of
    requests that arrive while a command runs are kept apart from the session's own
    output and log: where they fall between two writes depends on timing. *)

From S2P Require Import Prelude GoStrings VfsNode VfsSession VfsLoad Util Event Session Persona Auth Base64 ShellState Shell Telnet.

Definition captureTimeout : Z := 15 * second.
Definition maxKexBytes : nat := 512.
Definition maxAuthTries : Z := 6.
Definition maxCookedLine : Z := 64 * 1024.

(** ** Wire strings *)

(** [binary.BigEndian]: [Uint32] of at least four bytes, and [PutUint32]. *)
Definition be_uint32 (b : str) : Z :=
  match b with
  | b0 :: b1 :: b2 :: b3 :: _ => bz b0 * 2 ^ 24 + bz b1 * 2 ^ 16 + bz b2 * 2 ^ 8 + bz b3
  | _ => 0
  end.
Definition be_put32 (n : Z) : str := [zb (n / 2 ^ 24); zb (n / 2 ^ 16); zb (n / 2 ^ 8); zb n].

Definition sshString (b : str) : str * str * bool :=
  if zlen b <? 4 then ([], b, false)
  else
    let n := be_uint32 b in
    let b := drop 4 b in
    if wrapu32 (zlen b) <? n then ([], b, false)
    else (take (Z.to_nat n) b, drop (Z.to_nat n) b, true).
Definition sshStringOnly (payload : str) : str := let '(s, _, _) := sshString payload in s.
Definition parseEnvReq (payload : str) : option (str * str) :=
  let '(name, rest, ok) := sshString payload in
  if negb ok then None
  else
    let '(val, _, ok) := sshString rest in
    if negb ok then None else Some (name, val).

(** ** The terminal line discipline *)

Record cookedTTY : Type := CookedTTY {
  t_pending : str;      (* cooked bytes ready to hand to the line reader *)
  t_line : str;         (* the line being edited *)
  t_prevCR : bool;      (* swallow a following line feed *)
  t_eof : bool;
  t_echo : str          (* what was written back to the channel *)
}.
Definition newTTY : cookedTTY := CookedTTY [] [] false false [].

Definition tty_write (x : str) (t : cookedTTY) : cookedTTY :=
  CookedTTY (t_pending t) (t_line t) (t_prevCR t) (t_eof t) (t_echo t ++ x).
Definition set_prevCR (b : bool) (t : cookedTTY) : cookedTTY :=
  CookedTTY (t_pending t) (t_line t) b (t_eof t) (t_echo t).
Definition set_line (l : str) (t : cookedTTY) : cookedTTY :=
  CookedTTY (t_pending t) l (t_prevCR t) (t_eof t) (t_echo t).
Definition set_pending (x : str) (t : cookedTTY) : cookedTTY :=
  CookedTTY x (t_line t) (t_prevCR t) (t_eof t) (t_echo t).
Definition set_eof (t : cookedTTY) : cookedTTY :=
  CookedTTY (t_pending t) (t_line t) (t_prevCR t) true (t_echo t).

Definition endLine (t : cookedTTY) : cookedTTY :=
  let t := tty_write [zb 13; zb 10] t in
  set_line [] (set_pending (t_pending t ++ t_line t ++ [zb 10]) t).

(** One input byte; the flag is set when [cook] returns. *)
Definition cook_byte (c : ascii) (t : cookedTTY) : cookedTTY * bool :=
  let cr := t_prevCR t in
  let t := set_prevCR false t in
  if bool_decide (c = zb 13) then (set_prevCR true (endLine t), false)
  else if bool_decide (c = zb 10) then (if cr then t else endLine t, false)
  else if bool_decide (c = zb 127) || bool_decide (c = zb 8) then
    (match t_line t with
     | [] => t
     | _ :: _ => tty_write [zb 8; " "%char; zb 8] (set_line (removelast (t_line t)) t)
     end, false)
  else if bool_decide (c = zb 3) then
    let t := set_line [] (tty_write ($$"^C" ++ [zb 13; zb 10]) t) in
    (set_pending (t_pending t ++ [zb 10]) t, false)
  else if bool_decide (c = zb 4) then (if t_line t =s [] then (set_eof t, true) else (t, false))
  else if 32 <=? bz c then
    let t := tty_write [c] (set_line (t_line t ++ [c]) t) in
    (if maxCookedLine <=? zlen (t_line t) then endLine t else t, false)
  else (t, false).
Fixpoint cook (raw : str) (t : cookedTTY) : cookedTTY :=
  match raw with
  | [] => t
  | c :: raw => let '(t, stop) := cook_byte c t in if stop then t else cook raw t
  end.

(** The loop of [Read], which leaves it with bytes pending, or at the end. *)
Fixpoint tty_fill (chunks : list str) (t : cookedTTY) : cookedTTY * list str * bool :=
  match t_pending t with
  | _ :: _ => (t, chunks, true)
  | [] =>
      if t_eof t then (t, chunks, false)
      else match chunks with
           | [] => (t, [], false)
           | c :: chunks => tty_fill chunks (cook c t)
           end
  end.
Definition tty_read (room : nat) (chunks : list str) (t : cookedTTY) : str * bool * list str * cookedTTY :=
  match tty_fill chunks t with
  | (t, chunks, true) => (take room (t_pending t), true, chunks, set_pending (drop room (t_pending t)) t)
  | (t, chunks, false) => ([], false, chunks, t)
  end.

(** What the session's buffered reader gets, one buffer at a time, and the terminal it
    leaves.  Every byte of input yields at most two bytes. *)
Fixpoint tty_stream (fuel : nat) (chunks : list str) (t : cookedTTY) : str * cookedTTY :=
  match fuel with
  | O => ([], t)
  | S f =>
      match tty_read bufSize chunks t with
      | (d, true, chunks, t) => let '(d', t) := tty_stream f chunks t in (d ++ d', t)
      | (_, false, _, t) => ([], t)
      end
  end.
Definition cooked (chunks : list str) : str * cookedTTY :=
  tty_stream (S (2 * length (concat chunks))) chunks newTTY.

(** ** Channel requests *)

Record chan_req : Type := ChanReq { req_type : str; WantReply : bool; req_payload : str }.
Record startReq : Type := StartReq { sr_exec : bool; sr_pty : bool; sr_cmd : str }.

(** The state of the request goroutine: what was reported over [start], the replies
    sent, and the commands and notes logged. *)
Record req_state : Type := ReqState {
  rq_pty : bool;
  rq_started : bool;
  rq_starts : list startReq;
  rq_replies : list bool;
  rq_notes : list (str * str)
}.
Definition req_init : req_state := ReqState false false [] [] [].

(** [Reply] does nothing for a request that wants none. *)
Definition reply (r : chan_req) (ok : bool) (q : req_state) : req_state :=
  if WantReply r then ReqState (rq_pty q) (rq_started q) (rq_starts q) (rq_replies q ++ [ok]) (rq_notes q) else q.
Definition note (cmd n : str) (q : req_state) : req_state :=
  ReqState (rq_pty q) (rq_started q) (rq_starts q) (rq_replies q) (rq_notes q ++ [(cmd, n)]).
Definition start (r : startReq) (q : req_state) : req_state :=
  if rq_started q then q else ReqState (rq_pty q) true (rq_starts q ++ [r]) (rq_replies q) (rq_notes q).

Definition chan_request (q : req_state) (r : chan_req) : req_state :=
  if req_type r =s $$"pty-req" then
    reply r true (ReqState true (rq_started q) (rq_starts q) (rq_replies q) (rq_notes q))
  else if req_type r =s $$"env" then
    reply r true (match parseEnvReq (req_payload r) with
                  | Some (name, val) => note ($$"export " ++ name ++ $$"=" ++ val) $$"ssh-env" q
                  | None => q
                  end)
  else if req_type r =s $$"shell" then
    start (StartReq false (rq_pty q) []) (reply r (negb (rq_started q)) q)
  else if req_type r =s $$"exec" then
    start (StartReq true (rq_pty q) (sshStringOnly (req_payload r))) (reply r (negb (rq_started q)) q)
  else if req_type r =s $$"subsystem" then
    reply r false (note ($$"subsystem " ++ sshStringOnly (req_payload r)) $$"ssh-subsystem" q)
  else reply r false q.

(** The requests up to the first that starts something, and those after it, which the
    goroutine handles while the shell runs. *)
Fixpoint until_start (q : req_state) (l : list chan_req) : req_state * list chan_req :=
  if rq_started q then (q, l)
  else match l with
       | [] => (q, [])
       | r :: l => until_start (chan_request q r) l
       end.
Definition log_notes (notes : list (str * str)) (s : sess) : sess :=
  fold_left (fun s n => LogCommandNote n.1 n.2 s) notes s.

(** ** Host key *)

(** [ed25519.NewKeyFromSeed] is a function of the seed, which stands for the key. *)
Definition seedSize : Z := 32.
Definition SSHHostKey (p : Persona) : option str :=
  seed ← b64_decode false (SSHHostKeySeed p);
  if zlen seed =? seedSize then Some seed else None.

(** ** The service *)

Inductive auth_req : Type :=
  | Password (user pass : str)
  | KeyboardInteractive (user : str) (answers : option (list str))   (* [None]: the challenge failed *)
  | PublicKey (user keyType fingerprint : str).
Definition auth_user (a : auth_req) : str :=
  match a with Password u _ | KeyboardInteractive u _ | PublicKey u _ _ => u end.

(** The session, the brute-force table and the number of attempts so far, which indexes
    the readings of the policy's clock and dice. *)
Definition astate : Type := sess * option bruteForce * nat.

(** A channel the client opens: its type, whether accepting it works, the requests
    made within [startTimeout] or until it is closed, and the chunks it carries. *)
Record channel : Type := Channel { ch_type : str; ch_accepts : bool; ch_reqs : list chan_req; ch_input : list str }.
Record conn : Type := Conn { conn_user : str; conn_chans : list channel }.

(** What a served channel leaves besides the session: the payload of the exit status,
    if one is sent, and what timing interleaves. *)
Record served : Type := Served { sv_exit : option str; sv_replies : list bool; sv_late : list Entry; sv_echo : str }.

Section host.
Context (unmarshal : str -> option manifest) (parse_rfc3339 parse_date : str -> option Z)
  (render : Persona -> str -> str -> option str) (nas_tree : list (str * etree)) (png jpg : str).
Context (W : World) (base : node) (p : Persona) (style : str) (login_now : nat -> Z) (lucky : nat -> bool) (nas_now : Z).
Context (NewSignerFromKey : str -> bool)
  (NewServerConn : str -> Z -> (auth_req -> astate -> astate * bool) -> astate -> astate * option conn).

Definition hostSigner : option str :=
  key ← SSHHostKey p; if NewSignerFromKey key then Some key else None.

Definition authPassword (user pass : str) (st : astate) : astate * bool :=
  let '(s, bf, n) := st in
  let '(ok, bruteForced, bf) := AcceptFrom p bf (login_now n) (lucky n) (SrcIP s) user pass in
  ((LogCredentialResult user pass ok bruteForced s, bf, S n), ok).
Definition authenticate (a : auth_req) (st : astate) : astate * bool :=
  match a with
  | Password user pass => authPassword user pass st
  | KeyboardInteractive user (Some (answer :: _)) => authPassword user answer st
  | KeyboardInteractive _ _ => (st, false)
  | PublicKey user keyType fp =>
      let '(s, bf, n) := st in ((LogPublicKey user keyType fp s, bf, n), false)
  end.

Definition shellUser (authed : str) : str := if authed =s pUsername p then pUsername p else $$"root".
Definition pivot (target : str) : option (node * Persona) :=
  if negb (target =s BackupIP p) && negb (target =s BackupHost p) then None
  else NAS unmarshal parse_rfc3339 parse_date render nas_tree png jpg nas_now p.

(** [HoldOpen] reads and drops whatever arrives. *)
Definition HoldOpen (s : sess) : sess := set_inp s [].
Definition tarpit (s : sess) : sess :=
  let s := set_idle (Write ($$"SSH-2.0-" ++ OpenSSHVer p ++ [zb 13; zb 10]) s) captureTimeout in
  let '(banner, _, s) := ReadLine s in
  let s := LogRaw $$"SSH_CLIENT" banner s in
  let '(kex, _, s) := ReadLine s in
  HoldOpen (LogRaw $$"SSH_KEX" (HexDump (take maxKexBytes kex)) s).
Definition tarpit_Handle (s : sess) : sess := tarpit (set_persona s (Hostname p)).

Definition shell_style : str := if style =s [] then $$"ubuntu" else style.
(** [serveSession]. *)
Definition serveSession (ch : channel) (sg : shared) : served * shared :=
  let '(s, g, t) := sg in
  if negb (ch_accepts ch) then (Served None [] [] [], sg)
  else
    let user := shellUser (Username s) in
    let '(q, rest) := until_start req_init (ch_reqs ch) in
    let s := log_notes (rq_notes q) s in
    let q' := fold_left chan_request rest q in
    let late := map (fun n => set_note (set_command (ev s $$"COMMAND") n.1) n.2) (drop (length (rq_notes q)) (rq_notes q')) in
    match rq_starts q with
    | [] => (Served None (rq_replies q) [] [], (s, g, t))
    | sr :: _ =>
        let '(i, tty) := if sr_pty sr && negb (sr_exec sr) then cooked (ch_input ch) else (concat (ch_input ch), newTTY) in
        let s := set_inp s i in
        let '(exitCode, sg) :=
          if sr_exec sr then
            RunOnce W base p user shell_style (Some pivot) (sr_cmd sr) (LogCommandNote (sr_cmd sr) $$"ssh-exec" s, g, t)
          else (0, Run W base p user shell_style (Some pivot) (s, g, t)) in
        (Served (Some (be_put32 (wrapu32 exitCode))) (rq_replies q') late (t_echo tty), sg)
    end.

(** Channels are served one after the other; only sessions are. *)
Fixpoint serve_channels (chans : list channel) (sg : shared) : list (option served) * shared :=
  match chans with
  | [] => ([], sg)
  | ch :: chans =>
      if negb (ch_type ch =s $$"session") then
        let '(r, sg) := serve_channels chans sg in (None :: r, sg)
      else
        let '(x, sg) := serveSession ch sg in
        let '(r, sg) := serve_channels chans sg in (Some x :: r, sg)
  end.

(** [Handle]. *)
Definition Handle (st : tstate) : list (option served) * tstate :=
  let '((s, g, t), bf) := st in
  let s := set_persona s (Hostname p) in
  match hostSigner with
  | None =>
      let s := LogRaw $$"SSH_NOTE" $$"no host key in persona; serving banner-and-tarpit" s in
      ([], ((tarpit s, g, t), bf))
  | Some _ =>
      match NewServerConn ($$"SSH-2.0-" ++ OpenSSHVer p) maxAuthTries authenticate (s, bf, 0%nat) with
      | ((s, bf, _), None) => ([], ((s, g, t), bf))
      | ((s, bf, _), Some c) =>
          let '(r, sg) := serve_channels (conn_chans c) (set_username s (conn_user c), g, t) in
          (r, (sg, bf))
      end
  end.
End host.
