(* ===== verification/SshFacts.v ===== *)
(** * SshFacts: what the SSH service promises

    Wire strings, the line discipline, channel requests and the login. *)

From S2P Require Import Prelude GoStrings VfsNode VfsSession VfsLoad Util Event Session Persona Auth Base64 ShellState Shell ShellDemo Telnet TelnetFacts Ssh PersonaFacts.

(** ** Wire strings *)

Lemma be_put32_length n : length (be_put32 n) = 4%nat.
Proof. done. Qed.

Lemma be_uint32_range b : 0 <= be_uint32 b < 2 ^ 32.
Proof.
  unfold be_uint32. destruct b as [| a [| b [| c [| d l]]]]; try lia.
  pose proof (bz_range a). pose proof (bz_range b). pose proof (bz_range c). pose proof (bz_range d). lia.
Qed.

Lemma be_uint32_put n rest : 0 <= n < 2 ^ 32 -> be_uint32 (be_put32 n ++ rest) = n.
Proof.
  intros Hn. unfold be_put32. cbn [app be_uint32]. rewrite !bz_zb.
  change (2 ^ 24) with 16777216. change (2 ^ 16) with 65536. change (2 ^ 8) with 256. change (2 ^ 32) with 4294967296 in Hn.
  Z.to_euclidean_division_equations. lia.
Qed.

Lemma be_put_uint32 b0 b1 b2 b3 l : be_put32 (be_uint32 (b0 :: b1 :: b2 :: b3 :: l)) = [b0; b1; b2; b3].
Proof.
  pose proof (bz_range b0). pose proof (bz_range b1). pose proof (bz_range b2). pose proof (bz_range b3).
  unfold be_put32, be_uint32. change (2 ^ 24) with 16777216. change (2 ^ 16) with 65536. change (2 ^ 8) with 256.
  repeat f_equal; apply bz_inj; rewrite bz_zb; Z.to_euclidean_division_equations; lia.
Qed.

Definition wire (s : str) : str := be_put32 (zlen s) ++ s.

Lemma sshString_wire s rest :
  zlen (s ++ rest) < 2 ^ 32 -> sshString (wire s ++ rest) = (s, rest, true).
Proof.
  intros H. pose proof (zlen_nonneg s). pose proof (zlen_nonneg rest). rewrite zlen_app in H.
  assert (wire s ++ rest = be_put32 (zlen s) ++ (s ++ rest)) as Hw by (unfold wire; by rewrite app_assoc).
  unfold sshString. cbn zeta. rewrite Hw, be_uint32_put by lia. rewrite (drop_app_length' (be_put32 _)) by done.
  rewrite zlen_app, zlen_app. change (zlen (be_put32 (zlen s))) with 4.
  replace (4 + (zlen s + zlen rest) <? 4) with false by (symmetry; apply Z.ltb_ge; lia).
  unfold wrapu32. rewrite Z.mod_small by lia.
  replace (zlen s + zlen rest <? zlen s) with false by (symmetry; apply Z.ltb_ge; lia).
  assert (Z.to_nat (zlen s) = length s) as -> by (unfold zlen; lia).
  by rewrite take_app_length, drop_app_length.
Qed.

Lemma sshString_ok b s rest : sshString b = (s, rest, true) -> b = wire s ++ rest.
Proof.
  unfold sshString. cbn zeta. destruct (zlen b <? 4) eqn:E; bool_hyps; [done |].
  destruct b as [| b0 [| b1 [| b2 [| b3 l]]]]; try (exfalso; unfold zlen in E; simpl in E; lia).
  change (drop 4 (b0 :: b1 :: b2 :: b3 :: l)) with l.
  pose proof (be_uint32_range (b0 :: b1 :: b2 :: b3 :: l)) as Hr. set (n := be_uint32 _) in *.
  destruct (wrapu32 (zlen l) <? n) eqn:E2; bool_hyps; [done |]. intros [= <- <-].
  assert (n <= zlen l) as Hn by (pose proof (zlen_nonneg l); unfold wrapu32 in E2; pose proof (Z.mod_le (zlen l) (2 ^ 32)); lia).
  unfold wire. assert (zlen (take (Z.to_nat n) l) = n) as -> by (rewrite zlen_take; lia).
  unfold n at 1. rewrite be_put_uint32. rewrite <- app_assoc, take_drop. done.
Qed.

(** an [env] request is read exactly: the parser accepts a payload if and only if it is
    two length-prefixed strings, whatever follows them, and returns those strings; no
    length field, however large, makes it read outside the payload. *)
Theorem parseEnvReq_exact payload name val :
  zlen payload < 2 ^ 32 ->
  (parseEnvReq payload = Some (name, val) <-> exists rest, payload = wire name ++ wire val ++ rest).
Proof.
  intros Hlen. unfold parseEnvReq. split.
  - destruct (sshString payload) as [[n r] []] eqn:E1; cbn [negb]; [| done].
    destruct (sshString r) as [[v r'] []] eqn:E2; cbn [negb]; [| done].
    intros [= <- <-]. apply sshString_ok in E1 as ->. apply sshString_ok in E2 as ->. by exists r'.
  - intros [rest ->]. assert (forall x, 4 <= zlen (wire x)) as H4.
    { intros x. unfold wire. rewrite zlen_app. change (zlen (be_put32 (zlen x))) with 4. pose proof (zlen_nonneg x). lia. }
    assert (forall x y, zlen (wire x ++ y) = 4 + zlen (x ++ y)) as Hz.
    { intros x y. unfold wire. rewrite !zlen_app. change (zlen (be_put32 (zlen x))) with 4. lia. }
    rewrite Hz in Hlen. rewrite sshString_wire by lia. cbn [negb].
    rewrite zlen_app, Hz in Hlen. pose proof (zlen_nonneg name). rewrite sshString_wire by lia. done.
Qed.
Lemma parseEnvReq_exact_witness :
  zlen (wire $$"LANG" ++ wire $$"C.UTF-8" ++ $$"x") < 2 ^ 32 /\
  (parseEnvReq (wire $$"LANG" ++ wire $$"C.UTF-8" ++ $$"x") = Some ($$"LANG", $$"C.UTF-8") <->
   exists rest, wire $$"LANG" ++ wire $$"C.UTF-8" ++ $$"x" = wire $$"LANG" ++ wire $$"C.UTF-8" ++ rest).
Proof. split; [reflexivity |]. apply parseEnvReq_exact. reflexivity. Defined.

(** ** The line discipline *)

(** What is already pending or echoed does not matter to what follows. *)
Definition frame (x y : str) (t : cookedTTY) : cookedTTY :=
  CookedTTY (x ++ t_pending t) (t_line t) (t_prevCR t) (t_eof t) (y ++ t_echo t).

Lemma frame_set_pending x t : t_pending t = x -> frame x [] (set_pending [] t) = t.
Proof. intros <-. unfold frame, set_pending. cbn. rewrite app_nil_r. by destruct t. Qed.

(** The cases of one byte, and the fields they leave. *)
Ltac tty_simpl :=
  unfold frame, endLine, set_prevCR, tty_write, set_line, set_pending, set_eof in *;
  cbn [t_pending t_line t_prevCR t_eof t_echo fst snd] in *.
Ltac tty_cases :=
  tty_simpl; repeat match goal with
  | |- context [bool_decide ?P] => destruct (bool_decide P); cbn [orb]
  | |- context [32 <=? ?x] => destruct (32 <=? x)
  | |- context [match ?l with [] => _ | _ :: _ => _ end] => destruct l eqn:?
  | |- context [if ?b then _ else _] => destruct b eqn:?
  end; tty_simpl.

Lemma cook_byte_frame c x y t : cook_byte c (frame x y t) = (frame x y (cook_byte c t).1, (cook_byte c t).2).
Proof.
  destruct t as [pe l cr e ec]. unfold cook_byte. tty_cases; by rewrite <- ?app_assoc.
Qed.
Lemma cook_frame raw x y t : cook raw (frame x y t) = frame x y (cook raw t).
Proof.
  revert t. induction raw as [| c raw IH]; intros t; cbn [cook]; [done |]. rewrite cook_byte_frame.
  destruct (cook_byte c t) as [t' []]; cbn [fst snd]; [done | apply IH].
Qed.

Lemma cook_byte_stop c t : t_eof t = false -> t_eof (cook_byte c t).1 = (cook_byte c t).2.
Proof. intros H. unfold cook_byte. tty_cases; done. Qed.

(** A second chunk picks up where the first left off. *)
Definition finish (raw : str) (t : cookedTTY) : cookedTTY := if t_eof t then t else cook raw t.
Lemma cook_app a b t : t_eof t = false -> cook (a ++ b) t = finish b (cook a t).
Proof.
  revert t. induction a as [| c a IH]; intros t He; cbn [app cook]; [unfold finish; by rewrite He |].
  pose proof (cook_byte_stop c t He) as Hs. destruct (cook_byte c t) as [t' []]; cbn [fst snd] in *; [unfold finish; by rewrite Hs | by apply IH].
Qed.
Lemma finish_frame raw x y t : finish raw (frame x y t) = frame x y (finish raw t).
Proof. unfold finish. cbn [frame t_eof]. destruct (t_eof t); [done | apply cook_frame]. Qed.

Definition held (t : cookedTTY) : nat := length (t_pending t) + length (t_line t).
Lemma removelast_length {A} (l : list A) : (length (removelast l) <= length l)%nat.
Proof. induction l as [| x [| y l] IH]; [done | simpl; lia | cbn [removelast length] in *; lia]. Qed.
Lemma cook_byte_held c t : (held (cook_byte c t).1 <= held t + 2)%nat.
Proof.
  unfold cook_byte, held. pose proof (removelast_length (t_line t)).
  tty_cases; rewrite ?length_app in *; simpl length in *; lia.
Qed.
Lemma cook_held raw t : (held (cook raw t) <= held t + 2 * length raw)%nat.
Proof.
  revert t. induction raw as [| c raw IH]; intros t; cbn [cook]; [simpl; lia |].
  pose proof (cook_byte_held c t). destruct (cook_byte c t) as [t' []]; cbn [fst length] in *; [lia |].
  specialize (IH t'). lia.
Qed.

Lemma tty_fill_spec chunks t t' cs ok :
  tty_fill chunks t = (t', cs, ok) ->
  finish (concat cs) t' = finish (concat chunks) t /\
  (held t' + 2 * length (concat cs) <= held t + 2 * length (concat chunks))%nat /\
  if ok then t_pending t' <> [] else t_pending t' = [] /\ t' = finish (concat chunks) t.
Proof.
  revert t. induction chunks as [| c chunks IH]; intros t; cbn [tty_fill]; destruct (t_pending t) as [| x l] eqn:Ep.
  - destruct (t_eof t) eqn:Ee; intros [= <- <- <-]; unfold finish; rewrite Ee; done.
  - intros [= <- <- <-]. split_and!; [done | lia | by rewrite Ep].
  - destruct (t_eof t) eqn:Ee.
    + intros [= <- <- <-]. unfold finish. rewrite Ee. done.
    + intros H. specialize (IH _ H) as (H1 & H2 & H3). cbn [concat].
      assert (finish (concat chunks) (cook c t) = finish (c ++ concat chunks) t) as Hf by (unfold finish at 2; by rewrite Ee, cook_app).
      rewrite <- Hf. split_and!; [done | | exact H3].
      pose proof (cook_held c t). rewrite length_app. lia.
  - intros [= <- <- <-]. split_and!; [done | lia | by rewrite Ep].
Qed.

Lemma tty_stream_finish fuel : forall chunks t,
  (held t + 2 * length (concat chunks) < fuel)%nat ->
  tty_stream fuel chunks t =
    (t_pending (finish (concat chunks) t), set_pending [] (finish (concat chunks) t)).
Proof.
  induction fuel as [| fuel IH]; intros chunks t Hf; [lia |]. cbn [tty_stream]. unfold tty_read.
  destruct (tty_fill chunks t) as [[t' cs] ok] eqn:E. apply tty_fill_spec in E as (H1 & H2 & H3).
  destruct ok.
  - set (t1 := set_pending (drop bufSize (t_pending t')) t').
    assert (t' = frame (take bufSize (t_pending t')) [] t1) as Ht.
    { unfold t1, frame, set_pending. cbn. rewrite take_drop. by destruct t'. }
    assert (held t1 < held t')%nat.
    { unfold t1, held. cbn. rewrite length_drop. destruct (t_pending t'); [done |]. unfold bufSize. simpl length. lia. }
    rewrite IH by lia. rewrite <- H1. rewrite Ht at 2 3. rewrite finish_frame. done.
  - destruct H3 as [H3 H4]. rewrite <- H4, H3. f_equal. unfold set_pending. rewrite <- H3 at 1. by destruct t'.
Qed.

Lemma cooked_finish chunks :
  cooked chunks = (t_pending (cook (concat chunks) newTTY), set_pending [] (cook (concat chunks) newTTY)).
Proof. unfold cooked. rewrite tty_stream_finish by (unfold held; simpl; lia). done. Qed.


(** ** Typed lines *)

Inductive key : Type :=
  | Char (c : ascii)
  | Erase (del : bool)      (* DEL or backspace *)
  | Other (c : ascii).      (* a control key without a meaning here *)
Definition printable (c : ascii) : Prop := 32 <= bz c /\ c <> zb 127.
Definition key_ok (k : key) : Prop :=
  match k with
  | Char c => printable c
  | Erase _ => True
  | Other c => bz c < 32 /\ c ∉ [zb 3; zb 4; zb 8; zb 10; zb 13]
  end.
Definition encode_key (k : key) : str :=
  match k with Char c => [c] | Erase true => [zb 127] | Erase false => [zb 8] | Other c => [c] end.
Definition edit (l : str) (k : key) : str :=
  match k with Char c => l ++ [c] | Erase _ => removelast l | Other _ => l end.
Definition edited (ks : list key) : str := fold_left edit ks [].

Lemma printable_facts c : printable c ->
  c <> zb 3 /\ c <> zb 4 /\ c <> zb 8 /\ c <> zb 10 /\ c <> zb 13 /\ c <> zb 0 /\ c <> zb 127 /\ (32 <=? bz c) = true.
Proof. intros [H1 H2]. split_and!; try (intros ->; vm_compute in H1; by apply H1); by apply Z.leb_le. Qed.

Lemma cook_byte_char c t :
  printable c -> zlen (t_line t) + 1 < maxCookedLine ->
  cook_byte c t = (tty_write [c] (set_line (t_line t ++ [c]) (set_prevCR false t)), false).
Proof.
  intros Hc Hl. apply printable_facts in Hc as (? & ? & ? & ? & ? & ? & ? & H32).
  unfold cook_byte. rewrite !bool_decide_eq_false_2, H32 by done. cbn [orb]. tty_simpl.
  rewrite zlen_app. change (zlen [c]) with 1.
  replace (maxCookedLine <=? zlen (t_line t) + 1) with false by (symmetry; apply Z.leb_gt; lia). done.
Qed.

Lemma edit_length l k : zlen (edit l k) <= zlen l + 1.
Proof.
  destruct k as [c | b | c]; cbn [edit]; [rewrite zlen_app; unfold zlen; simpl; lia | | lia].
  pose proof (removelast_length l). unfold zlen. lia.
Qed.

Lemma cook_byte_key k t rest :
  key_ok k -> zlen (t_line t) + 1 < maxCookedLine ->
  exists e, cook (encode_key k ++ rest) t =
    cook rest (CookedTTY (t_pending t) (edit (t_line t) k) false (t_eof t) e).
Proof.
  intros Hk Hl. destruct k as [c | b | c]; cbn [key_ok encode_key edit] in *.
  - cbn [app cook]. rewrite cook_byte_char by done. tty_simpl. eauto.
  - assert (forall c, c = zb 127 \/ c = zb 8 -> exists e, cook ([c] ++ rest) t =
      cook rest (CookedTTY (t_pending t) (removelast (t_line t)) false (t_eof t) e)) as H.
    { intros c Hc. cbn [app cook]. unfold cook_byte.
      assert (bool_decide (c = zb 13) = false /\ bool_decide (c = zb 10) = false /\
        bool_decide (c = zb 127) || bool_decide (c = zb 8) = true) as (-> & -> & ->) by (by destruct Hc as [-> | ->]).
      tty_simpl. destruct (t_line t) as [| x l] eqn:El; tty_simpl; eauto. }
    destruct b; apply H; auto.
  - cbn [app cook]. destruct Hk as [H1 H2]. rewrite !not_elem_of_cons in H2. destruct H2 as (? & ? & ? & ? & ? & _).
    assert (c <> zb 127) by (intros ->; vm_compute in H1; done).
    unfold cook_byte. rewrite !bool_decide_eq_false_2 by done. cbn [orb].
    replace (32 <=? bz c) with false by (symmetry; apply Z.leb_gt; lia). tty_simpl. eauto.
Qed.

Lemma cook_keys ks : forall t rest,
  Forall key_ok ks -> zlen (t_line t) + zlen ks < maxCookedLine -> t_prevCR t = false ->
  exists e, cook (flat_map encode_key ks ++ rest) t =
    cook rest (CookedTTY (t_pending t) (fold_left edit ks (t_line t)) false (t_eof t) e).
Proof.
  induction ks as [| k ks IH]; intros t rest Hk Hl Hp.
  { exists (t_echo t). cbn. rewrite <- Hp. by destruct t. }
  apply Forall_cons in Hk as [Hk Hks]. rewrite zlen_cons in Hl. pose proof (zlen_nonneg ks).
  cbn [flat_map fold_left]. rewrite <- app_assoc.
  destruct (cook_byte_key k t (flat_map encode_key ks ++ rest)) as [e ->]; [done | lia |].
  pose proof (edit_length (t_line t) k).
  destruct (IH (CookedTTY (t_pending t) (edit (t_line t) k) false (t_eof t) e) rest) as [e' ->]; [done | cbn [t_line]; lia | done |].
  cbn [t_pending t_line t_eof]. eauto.
Qed.

Lemma removelast_Forall {A} (P : A -> Prop) l : Forall P l -> Forall P (removelast l).
Proof. induction 1 as [| x [| y l] Hx Hl IH]; cbn [removelast] in *; [done | done | by constructor]. Qed.
Lemma edited_printable ks : Forall key_ok ks -> Forall printable (edited ks).
Proof.
  unfold edited. assert (Forall printable []) as H by constructor. revert H. generalize (@nil ascii).
  induction ks as [| k ks IH]; intros l Hl Hk; [done |]. apply Forall_cons in Hk as [Hk Hks]. cbn [fold_left].
  apply IH; [| done]. destruct k as [c | b | c]; cbn [edit key_ok] in *; [| by apply removelast_Forall | done].
  apply Forall_app; split; [done | by constructor].
Qed.
Lemma fold_edit_length ks l : zlen (fold_left edit ks l) <= zlen l + zlen ks.
Proof.
  revert l. induction ks as [| k ks IH]; intros l; cbn [fold_left]; [change (zlen []) with 0; lia |].
  specialize (IH (edit l k)). pose proof (edit_length l k). rewrite zlen_cons. lia.
Qed.

(** How a line is ended, and what may follow. *)
Definition ends (term rest : str) : Prop :=
  term = [zb 10] \/ term = [zb 13; zb 10] \/ (term = [zb 13] /\ head rest <> Some (zb 10)).

Lemma cook_prevCR raw t b : head raw <> Some (zb 10) -> t_pending (cook raw (set_prevCR b t)) = t_pending (cook raw t).
Proof.
  intros H. destruct raw as [| c raw]; [done |]. cbn [cook].
  assert (cook_byte c (set_prevCR b t) = cook_byte c t) as ->; [| done].
  unfold cook_byte. rewrite !(bool_decide_eq_false_2 (c = zb 10)) by (intros ->; done). done.
Qed.

Lemma cook_line ks term rest :
  Forall key_ok ks -> zlen ks < maxCookedLine -> ends term rest ->
  t_pending (cook (flat_map encode_key ks ++ term ++ rest) newTTY) =
    edited ks ++ [zb 10] ++ t_pending (cook rest newTTY).
Proof.
  intros Hk Hl Ht. destruct (cook_keys ks newTTY (term ++ rest)) as [e ->]; [done | done | done |]. cbn [newTTY t_pending t_line t_eof].
  fold (edited ks). set (l := edited ks).
  assert (forall y, t_pending (cook rest (CookedTTY (l ++ [zb 10]) [] false false y)) = (l ++ [zb 10]) ++ t_pending (cook rest newTTY)) as H.
  { intros y. replace (CookedTTY (l ++ [zb 10]) [] false false y) with (frame (l ++ [zb 10]) y newTTY) by (unfold frame; cbn; by rewrite !app_nil_r).
    by rewrite cook_frame. }
  rewrite app_assoc. destruct Ht as [-> | [-> | [-> Hr]]].
  - cbn [app cook]. change (cook_byte (zb 10) ?t) with (endLine (set_prevCR false t), false). cbn iota. tty_simpl. apply H.
  - cbn [app cook]. change (cook_byte (zb 13) ?t) with (set_prevCR true (endLine (set_prevCR false t)), false). cbn iota.
    change (cook_byte (zb 10) (set_prevCR true ?t)) with (set_prevCR false (set_prevCR true t), false). cbn iota. tty_simpl. apply H.
  - cbn [app cook]. change (cook_byte (zb 13) ?t) with (set_prevCR true (endLine (set_prevCR false t)), false). cbn iota.
    rewrite cook_prevCR by done. tty_simpl. apply H.
Qed.

(** C29: what an interactive client edits is what the shell reads: keystrokes in any packets,
    with any erasures, ended by CR, LF or CR LF, read as exactly the line left on the
    screen, and reading goes on right after it, with a carriage return never making an
    extra empty line. *)
Theorem typed_line_is_read ks term rest chunks s :
  Forall key_ok ks -> zlen ks < maxCookedLine -> ends term rest ->
  concat chunks = flat_map encode_key ks ++ term ++ rest -> capture s = None ->
  ReadLine (set_inp s (cooked chunks).1) = (edited ks, true, set_inp s (cooked [rest]).1).
Proof.
  intros Hk Hl Ht Hc Hs. rewrite !cooked_finish. cbn [fst concat]. rewrite app_nil_r, Hc, cook_line by done.
  unfold ReadLine. cbn [capture set_inp inp]. rewrite Hs.
  pose proof (edited_printable ks Hk) as Hp. rewrite Forall_forall in Hp.
  pose proof (fold_edit_length ks []) as Hlen. fold (edited ks) in Hlen. change (zlen (@nil ascii)) with 0 in Hlen.
  rewrite (read_line_line [] 0 (edited ks) [zb 10]); [| | | | by left].
  - cbn [app]. unfold TrimCRLF, trim_right. rewrite trim_right_fn_id; [done |].
    intros x t E. assert (x ∈ edited ks) as Hx by (rewrite E; set_solver). apply Hp, printable_facts in Hx as (? & ? & ? & ? & ? & ? & ? & ?).
    unfold in_set. apply bool_decide_eq_false. set_solver.
  - unfold maxLineBytes. unfold maxCookedLine in Hl. lia.
  - intros Hx. by apply Hp, printable_facts in Hx as (? & ? & ? & ? & ? & ? & ? & ?).
  - intros Hx. by apply Hp, printable_facts in Hx as (? & ? & ? & ? & ? & ? & ? & ?).
Qed.
Lemma typed_line_is_read_witness :
  let ks := map Char $$"lx" ++ [Erase true] ++ map Char $$"s" in
  edited ks = $$"ls" /\
  ReadLine (set_inp (demo_client []) (cooked [$$"l"; $$"x" ++ [zb 127]; $$"s" ++ [zb 13]; $$"id" ++ [zb 13]]).1) =
    (edited ks, true, set_inp (demo_client []) (cooked [$$"id" ++ [zb 13]]).1).
Proof.
  intros ks. split; [reflexivity |].
  apply (typed_line_is_read ks [zb 13] ($$"id" ++ [zb 13])); try reflexivity.
  - unfold ks, printable. repeat constructor; by apply (bool_decide_unpack _).
  - right. right. split; [reflexivity |]. by apply (bool_decide_unpack _).
Defined.

(** ** What the terminal holds *)

(** A byte of a line, and a byte the shell can receive. *)
Definition line_byte (c : ascii) : Prop := printable c.
Definition shell_byte (c : ascii) : Prop := c = zb 10 \/ printable c.
Definition chunkSize : Z := 256.
Record tty_ok (t : cookedTTY) : Prop := TtyOk {
  ok_line : zlen (t_line t) < maxCookedLine;
  ok_held : zlen (t_pending t) + zlen (t_line t) < maxCookedLine + 2 * chunkSize;
  ok_line_bytes : Forall line_byte (t_line t);
  ok_pending_bytes : Forall shell_byte (t_pending t)
}.

Lemma newTTY_ok : tty_ok newTTY.
Proof. by split. Qed.

Lemma endLine_bytes t :
  Forall line_byte (t_line t) -> Forall shell_byte (t_pending t) ->
  Forall line_byte (t_line (endLine t)) /\ Forall shell_byte (t_pending (endLine t)) /\ zlen (t_line (endLine t)) < maxCookedLine.
Proof.
  intros H1 H2. tty_simpl. split_and!; [done | | done]. rewrite !Forall_app. split_and!; [done | | by repeat constructor].
  eapply Forall_impl; [exact H1 |]. by right.
Qed.

Lemma erase_bytes t :
  zlen (t_line t) < maxCookedLine -> Forall line_byte (t_line t) -> Forall shell_byte (t_pending t) ->
  let t' := match t_line t with
            | [] => t
            | _ :: _ => tty_write [zb 8; " "%char; zb 8] (set_line (removelast (t_line t)) t)
            end in
  zlen (t_line t') < maxCookedLine /\ Forall line_byte (t_line t') /\ Forall shell_byte (t_pending t').
Proof.
  destruct t as [pe l cr e ec]. tty_simpl. intros H0 H1 H2. pose proof (removelast_length l).
  pose proof (removelast_Forall _ _ H1). destruct l as [| x l]; [done |]. tty_simpl. split_and!; [| done | done].
  unfold zlen in *. lia.
Qed.

Lemma cook_byte_bytes c t :
  zlen (t_line t) < maxCookedLine -> Forall line_byte (t_line t) -> Forall shell_byte (t_pending t) ->
  let t' := (cook_byte c t).1 in
  zlen (t_line t') < maxCookedLine /\ Forall line_byte (t_line t') /\ Forall shell_byte (t_pending t').
Proof.
  intros H0 H1 H2 t'. unfold t', cook_byte.
  destruct (bool_decide (c = zb 13)); [pose proof (endLine_bytes (set_prevCR false t) H1 H2) as (? & ? & ?); done |].
  destruct (bool_decide (c = zb 10)); [pose proof (endLine_bytes (set_prevCR false t) H1 H2) as (? & ? & ?); by destruct (t_prevCR t) |].
  destruct (bool_decide (c = zb 127)) eqn:E127; cbn [orb]; [by apply (erase_bytes (set_prevCR false t)) |].
  destruct (bool_decide (c = zb 8)); [by apply (erase_bytes (set_prevCR false t)) |].
  destruct (bool_decide (c = zb 3)).
  { tty_simpl. split_and!; [done | done |]. rewrite Forall_app. split; [done | by repeat constructor]. }
  destruct (bool_decide (c = zb 4)); [by tty_cases |].
  destruct (32 <=? bz c) eqn:E32; [| done]. apply bool_decide_eq_false in E127. bool_hyps.
  assert (Forall line_byte (t_line t ++ [c])) as Hl by (rewrite Forall_app; split; [done | by repeat constructor]).
  cbn zeta. set (t2 := tty_write _ _). destruct (maxCookedLine <=? zlen (t_line t2)) eqn:Em; bool_hyps; cbn [fst].
  - pose proof (endLine_bytes t2 Hl H2) as (? & ? & ?). done.
  - split_and!; done.
Qed.
Lemma cook_bytes raw : forall t,
  zlen (t_line t) < maxCookedLine -> Forall line_byte (t_line t) -> Forall shell_byte (t_pending t) ->
  zlen (t_line (cook raw t)) < maxCookedLine /\ Forall line_byte (t_line (cook raw t)) /\ Forall shell_byte (t_pending (cook raw t)).
Proof.
  induction raw as [| c raw IH]; intros t H0 H1 H2; cbn [cook]; [done |].
  pose proof (cook_byte_bytes c t H0 H1 H2) as (H3 & H4 & H5). destruct (cook_byte c t) as [t' []]; cbn [fst] in *; [done | by apply IH].
Qed.

Lemma tty_fill_ok chunks : forall t t' cs ok,
  tty_ok t -> Forall (fun c => zlen c <= chunkSize) chunks -> tty_fill chunks t = (t', cs, ok) ->
  tty_ok t' /\ Forall (fun c => zlen c <= chunkSize) cs.
Proof.
  induction chunks as [| c chunks IH]; intros t t' cs ok Ht Hc; cbn [tty_fill]; destruct (t_pending t) eqn:Ep.
  1, 2: destruct (t_eof t); by intros [= <- <- <-].
  - destruct (t_eof t); [by intros [= <- <- <-] |]. apply Forall_cons in Hc as [Hc Hcs]. intros H. eapply IH; [| exact Hcs | exact H].
    destruct Ht as [H1 H2 H3 H4]. destruct (cook_bytes c t H1 H3 H4) as (H5 & H6 & H7). split; [done | | done | done].
    pose proof (cook_held c t) as Hh. unfold held in Hh. rewrite Ep in Hh. simpl length in Hh. unfold zlen in *. lia.
  - by intros [= <- <- <-].
Qed.

(** an SSH client cannot make the terminal grow: however it types, the line being edited
    stays under 64 KiB and what waits for the shell under 64 KiB and a half, after every
    read; and no control byte but the line feed ever reaches the shell. *)
Theorem tty_bounded room chunks t d ok cs t' :
  tty_ok t -> Forall (fun c => zlen c <= chunkSize) chunks -> tty_read room chunks t = (d, ok, cs, t') ->
  tty_ok t' /\ Forall (fun c => zlen c <= chunkSize) cs /\ Forall shell_byte d.
Proof.
  intros Ht Hc. unfold tty_read. destruct (tty_fill chunks t) as [[t1 cs1] ok1] eqn:E.
  apply tty_fill_ok in E as [H1 H2]; [| done | done]. destruct ok1; intros [= <- <- <- <-]; [| done].
  destruct H1 as [G1 G2 G3 G4]. split_and!; [| done | by apply Forall_take].
  split; [done | | done | by apply Forall_drop]. cbn [set_pending t_pending t_line]. rewrite zlen_drop. pose proof (zlen_nonneg (t_pending t1)). lia.
Qed.
Lemma tty_bounded_witness :
  tty_ok newTTY /\
  (let '(d, ok, cs, t') := tty_read 4096 [$$"ls" ++ [zb 27; zb 13]] newTTY in tty_ok t' /\ Forall shell_byte d).
Proof.
  split; [exact newTTY_ok |].
  destruct (tty_bounded 4096 [$$"ls" ++ [zb 27; zb 13]] newTTY ($$"ls" ++ [zb 10]) true []
    (CookedTTY [] [] true false ($$"ls" ++ [zb 13; zb 10])) newTTY_ok) as (H1 & _ & H2).
  - repeat constructor. by apply Z.leb_le.
  - vm_compute. reflexivity.
  - change (tty_read 4096 [$$"ls" ++ [zb 27; zb 13]] newTTY) with
      ($$"ls" ++ [zb 10], true, @nil str, CookedTTY [] [] true false ($$"ls" ++ [zb 13; zb 10])).
    split; [exact H1 | exact H2].
Defined.

(** ** Channel requests *)

(** What a client's requests start, and what they leave in the log. *)
Fixpoint first_start (pty : bool) (l : list chan_req) : option startReq :=
  match l with
  | [] => None
  | r :: l =>
      if req_type r =s $$"shell" then Some (StartReq false pty [])
      else if req_type r =s $$"exec" then Some (StartReq true pty (sshStringOnly (req_payload r)))
      else first_start (pty || (req_type r =s $$"pty-req")) l
  end.
Definition req_note (r : chan_req) : option (str * str) :=
  if req_type r =s $$"env" then
    (fun '(name, val) => ($$"export " ++ name ++ $$"=" ++ val, $$"ssh-env")) <$> parseEnvReq (req_payload r)
  else if req_type r =s $$"subsystem" then
    Some ($$"subsystem " ++ sshStringOnly (req_payload r), $$"ssh-subsystem")
  else None.

(** Split on the type of the first request. *)
Ltac req_cases :=
  repeat match goal with |- context [?a =s $$ ?b] => destruct (a =s $$ b) eqn:? end.

Lemma seqb_both a b c : (a =s b) = true -> (a =s c) = true -> b = c.
Proof. intros H1%seqb_eq H2%seqb_eq. congruence. Qed.

Lemma chan_request_spec q r :
  let q' := chan_request q r in
  rq_notes q' = rq_notes q ++ option_list (req_note r) /\
  length (rq_replies q') = (length (rq_replies q) + if WantReply r then 1 else 0)%nat /\
  rq_starts q' = rq_starts q ++ (if rq_started q then [] else
    if req_type r =s $$"shell" then [StartReq false (rq_pty q) []]
    else if req_type r =s $$"exec" then [StartReq true (rq_pty q) (sshStringOnly (req_payload r))] else []) /\
  rq_started q' = (rq_started q || (req_type r =s $$"shell") || (req_type r =s $$"exec")) /\
  rq_pty q' = (rq_pty q || (req_type r =s $$"pty-req")).
Proof.
  destruct q as [pty st starts reps notes]. unfold chan_request, req_note, reply, note, start.
  cbn [rq_notes rq_replies rq_starts rq_started rq_pty].
  assert (forall a b, a <> b -> (req_type r =s a) = true -> (req_type r =s b) = false) as Hx.
  { intros a b Hab Ha. destruct (req_type r =s b) eqn:E; [| done]. by rewrite (seqb_both _ _ _ Ha E) in Hab. }
  destruct (req_type r =s $$"pty-req") eqn:E1; [| destruct (req_type r =s $$"env") eqn:E2; [| destruct (req_type r =s $$"shell") eqn:E3;
    [| destruct (req_type r =s $$"exec") eqn:E4; [| destruct (req_type r =s $$"subsystem") eqn:E5]]]].
  all: rewrite ?(Hx $$"pty-req" $$"env"), ?(Hx $$"pty-req" $$"shell"), ?(Hx $$"pty-req" $$"exec"), ?(Hx $$"pty-req" $$"subsystem"),
    ?(Hx $$"env" $$"shell"), ?(Hx $$"env" $$"exec"), ?(Hx $$"env" $$"subsystem"), ?(Hx $$"shell" $$"exec"), ?(Hx $$"shell" $$"subsystem"),
    ?(Hx $$"exec" $$"subsystem") by done.
  all: try destruct (parseEnvReq (req_payload r)) as [[? ?] |]; destruct (WantReply r), st, pty;
    cbn [rq_notes rq_replies rq_starts rq_started rq_pty option_list fmap option_fmap option_map orb];
    rewrite ?app_nil_r, ?length_app; cbn [length]; split_and!; try done; lia.
Qed.

Lemma requests_fold l : forall q,
  let q' := fold_left chan_request l q in
  rq_notes q' = rq_notes q ++ omap req_note l /\
  length (rq_replies q') = (length (rq_replies q) + length (List.filter WantReply l))%nat /\
  rq_starts q' = rq_starts q ++ (if rq_started q then [] else option_list (first_start (rq_pty q) l)).
Proof.
  induction l as [| r l IH]; intros q; cbn [fold_left].
  { rewrite !app_nil_r. split_and!; [done | simpl; lia | by destruct (rq_started q); rewrite app_nil_r]. }
  destruct (chan_request_spec q r) as (H1 & H2 & H3 & H4 & H5). destruct (IH (chan_request q r)) as (I1 & I2 & I3).
  cbn zeta. rewrite I1, I2, I3, H1, H2, H3, H4, H5. cbn [List.filter first_start].
  split_and!.
  - rewrite <- app_assoc. f_equal. unfold omap at 2. cbn [list_omap]. by destruct (req_note r).
  - destruct (WantReply r); simpl; lia.
  - rewrite <- app_assoc. f_equal. destruct (rq_started q); cbn [orb]; [done |].
    destruct (req_type r =s $$"shell") eqn:E3; cbn [orb]; [done |]. by destruct (req_type r =s $$"exec").
Qed.

Lemma until_start_fold l : forall q, fold_left chan_request (until_start q l).2 (until_start q l).1 = fold_left chan_request l q.
Proof.
  induction l as [| r l IH]; intros q; cbn [until_start]; destruct (rq_started q); first [done | apply IH].
Qed.
Lemma until_start_starts l : forall q,
  rq_started q = match rq_starts q with [] => false | _ => true end ->
  rq_starts (until_start q l).1 = rq_starts (fold_left chan_request l q).
Proof.
  induction l as [| r l IH]; intros q Hq; cbn [until_start]; [by destruct (rq_started q) |].
  destruct (rq_started q) eqn:Es.
  - cbn [fst]. destruct (requests_fold (r :: l) q) as (_ & _ & ->). by rewrite Es, app_nil_r.
  - cbn [fold_left]. apply IH. destruct (chan_request_spec q r) as (_ & _ & H3 & H4 & _).
    rewrite H3, H4, Es.
    assert (rq_starts q = []) as -> by (by destruct (rq_starts q)). cbn [app orb].
    by destruct (req_type r =s $$"shell"), (req_type r =s $$"exec").
Qed.

(** one channel starts at most one thing: whatever requests a client makes on a channel,
    the shell or command that runs is the first it asked for, with a terminal only if
    one was requested before it; every request that wants an answer gets exactly one; and
    every environment variable and subsystem it names is noted, before or after. *)
Theorem one_start_per_channel l :
  let '(q, rest) := until_start req_init l in
  let q' := fold_left chan_request rest q in
  rq_starts q = option_list (first_start false l) /\ rq_starts q' = rq_starts q /\
  rq_notes q' = omap req_note l /\ length (rq_replies q') = length (List.filter WantReply l).
Proof.
  destruct (until_start req_init l) as [q rest] eqn:E.
  pose proof (until_start_fold l req_init) as Hf. pose proof (until_start_starts l req_init eq_refl) as Hs. rewrite E in Hf, Hs. cbn [fst snd] in *.
  destruct (requests_fold l req_init) as (H1 & H2 & H3). cbn zeta. rewrite Hf, Hs, H1, H2, H3. done.
Qed.

(** ** The login *)

(** The library runs the callbacks on the requests of the client, and stops at the first
    one accepted; the connection may be lost at any point. *)
Inductive handshake (cb : auth_req -> astate -> astate * bool) : list auth_req -> astate -> astate -> option str -> Prop :=
  | hs_end st : handshake cb [] st st None
  | hs_reject a l st st1 st2 r : cb a st = (st1, false) -> handshake cb l st1 st2 r -> handshake cb (a :: l) st st2 r
  | hs_accept a st st1 : cb a st = (st1, true) -> handshake cb [a] st st1 (Some (auth_user a))
  | hs_lost a st st1 : cb a st = (st1, true) -> handshake cb [a] st st1 None.

(** A credential event, and whether it reports an acceptance. *)
Definition attempt_event (ok : bool) (e : Entry) : Prop :=
  e_Event e = $$"CREDENTIAL" /\ bool_decide (e_Note e ∈ [$$"accepted"; $$"accepted (brute-forced)"]) = ok.

Lemma AcceptFrom_known p bf now luck ip user pass brute bf' :
  AcceptFrom p bf now luck ip user pass = (true, brute, bf') -> knownUser p user = true.
Proof.
  unfold AcceptFrom. destruct (Accept p user pass) eqn:Ea.
  { intros _. unfold Accept in Ea. unfold knownUser. destruct (user =s $$"root"); [done |]. by destruct (user =s pUsername p). }
  destruct bf as [b |]; [| done]. destruct (isAppliance p && isApplianceDefaultCred user pass) eqn:Ei.
  { intros _. apply andb_true_iff in Ei as [_ Hi]. unfold isApplianceDefaultCred in Hi. apply andb_true_iff in Hi as [Hi _].
    unfold knownUser. by rewrite Hi. }
  by destruct (knownUser p user).
Qed.
Lemma AcceptFrom_brute p bf now luck ip user pass ok bf' :
  AcceptFrom p bf now luck ip user pass = (ok, true, bf') -> ok = true.
Proof.
  unfold AcceptFrom. destruct (Accept p user pass); [by intros [= <- <-] |]. destruct bf as [b |]; [| done].
  destruct (_ && _); [done |]. destruct (negb _); [done |]. destruct (consider _ _ _ _ _ _) as [o b']. by intros [= -> -> _].
Qed.

Section login.
Context (p : Persona) (login_now : nat -> Z) (lucky : nat -> bool).

Lemma authPassword_log user pass s bf n st ok :
  authPassword p login_now lucky user pass (s, bf, n) = (st, ok) ->
  exists e, events st.1.1 = events s ++ [e] /\ attempt_event ok e /\ e_Username e = user /\ (ok = true -> knownUser p user = true).
Proof using.
  unfold authPassword. destruct (AcceptFrom _ _ _ _ _ _ _) as [[acc brute] bf'] eqn:E. intros [= <- <-].
  eexists. split; [reflexivity |]. split_and!; [split; [done |] | done | intros ->; by eapply AcceptFrom_known].
  cbn [e_Note set_note]. unfold credential_note. destruct brute; [by apply AcceptFrom_brute in E as -> |]. by destruct acc.
Qed.

(** One callback: at most one credential event, with the verdict. *)
Lemma authenticate_log a s bf n st ok :
  authenticate p login_now lucky a (s, bf, n) = (st, ok) ->
  exists es, events st.1.1 = events s ++ es /\ Forall (attempt_event ok) es /\
    (ok = true -> knownUser p (auth_user a) = true /\ exists e, es = [e] /\ e_Username e = auth_user a).
Proof using.
  assert (forall u pw, authPassword p login_now lucky u pw (s, bf, n) = (st, ok) -> exists es, events st.1.1 = events s ++ es /\
    Forall (attempt_event ok) es /\ (ok = true -> knownUser p u = true /\ exists e, es = [e] /\ e_Username e = u)) as Hp.
  { intros u pw H. apply authPassword_log in H as (e & He & Hv & Hu & Hk). exists [e]. split_and!; [done | by constructor | eauto]. }
  destruct a as [u pw | u [[| answer l] |] | u kt fp]; cbn [authenticate auth_user].
  - apply Hp.
  - intros [= <- <-]. exists []. rewrite app_nil_r. split_and!; [done | constructor | done].
  - apply Hp.
  - intros [= <- <-]. exists []. rewrite app_nil_r. split_and!; [done | constructor | done].
  - intros [= <- <-]. eexists [_]. split_and!; [reflexivity | constructor; [by split | constructor] | done].
Qed.

Lemma handshake_log l st st' r :
  handshake (authenticate p login_now lucky) l st st' r ->
  exists rejected es, events st'.1.1 = events st.1.1 ++ rejected ++ es /\ Forall (attempt_event false) rejected /\
    Forall (attempt_event true) es /\
    match r with
    | Some u => knownUser p u = true /\ exists e, es = [e] /\ e_Username e = u
    | None => (length es <= 1)%nat
    end.
Proof using.
  induction 1 as [st | a l [[s bf] n] st1 st2 r Hcb _ (rej & es & H1 & H2 & H3 & H4) | a [[s bf] n] st1 Hcb | a [[s bf] n] st1 Hcb].
  - exists [], []. rewrite app_nil_r. split_and!; [done | constructor | constructor | simpl; lia].
  - apply authenticate_log in Hcb as (es0 & G1 & G2 & _). exists (es0 ++ rej), es.
    rewrite H1, G1, <- !app_assoc. split_and!; [done | by apply Forall_app | done | done].
  - apply authenticate_log in Hcb as (es0 & G1 & G2 & G3). destruct (G3 eq_refl) as (Hk & e & -> & Hu).
    exists [], [e]. cbn [app]. split_and!; [done | constructor | done | done | eauto].
  - apply authenticate_log in Hcb as (es0 & G1 & G2 & G3). destruct (G3 eq_refl) as (Hk & e & -> & Hu).
    exists [], [e]. cbn [app]. split_and!; [done | constructor | done | simpl; lia].
Qed.
End login.

Lemma shellUser_known p u : knownUser p u = true -> shellUser p u = u.
Proof.
  unfold knownUser, shellUser. destruct (u =s pUsername p) eqn:E; [by apply seqb_eq in E as -> |].
  rewrite orb_false_r. by intros ->%seqb_eq.
Qed.

Section service.
Context (unmarshal : str -> option manifest) (parse_rfc3339 parse_date : str -> option Z)
  (render : Persona -> str -> str -> option str) (nas_tree : list (str * etree)) (png jpg : str).
Context (W : World) (base : node) (p : Persona) (style : str) (login_now : nat -> Z) (lucky : nat -> bool) (nas_now : Z).
Context (NewSignerFromKey : str -> bool)
  (NewServerConn : str -> Z -> (auth_req -> astate -> astate * bool) -> astate -> astate * option conn).
Hypothesis NewServerConn_handshake : forall banner tries cb st st' c,
  NewServerConn banner tries cb st = (st', c) -> exists l, handshake cb l st st' (conn_user <$> c).
Local Notation serve := (serve_channels unmarshal parse_rfc3339 parse_date render nas_tree png jpg W base p style nas_now).
Local Notation handle := (Ssh.Handle unmarshal parse_rfc3339 parse_date render nas_tree png jpg W base p style login_now lucky nas_now
  NewSignerFromKey NewServerConn).

End service.

(** A library that is given a fixed list of attempts and channels. *)
Fixpoint scripted (l : list auth_req) (chans : list channel) (cb : auth_req -> astate -> astate * bool) (st : astate)
    : astate * option conn :=
  match l with
  | [] => (st, None)
  | a :: l => match cb a st with
              | (st, true) => (st, Some (Conn (auth_user a) chans))
              | (st, false) => scripted l chans cb st
              end
  end.
Lemma scripted_handshake l chans cb : forall st st' c,
  scripted l chans cb st = (st', c) -> exists l', handshake cb l' st st' (conn_user <$> c).
Proof.
  induction l as [| a l IH]; intros st st' c; cbn [scripted].
  - intros [= <- <-]. exists []. constructor.
  - destruct (cb a st) as [st1 []] eqn:E.
    + intros [= <- <-]. exists [a]. by constructor.
    + intros [l' Hl']%IH. exists (a :: l'). by econstructor.
Qed.

Definition demo_attempts : list auth_req :=
  [PublicKey $$"root" $$"ssh-rsa" $$"SHA256:x"; Password $$"root" $$"admin"; Password $$"root" (RootPassword demo_persona)].
Definition demo_exec : channel :=
  Channel $$"session" true [ChanReq $$"exec" true (wire $$"echo hi")] [].
Definition demo_ssh : list (option served) * tstate :=
  Ssh.Handle (fun _ => None) (fun _ => None) (fun _ => None) (fun _ _ _ => None) [] [] [] demo_world demo_base demo_persona []
    (fun _ => 0) (fun _ => false) 0 (fun _ => true) (fun _ _ => scripted demo_attempts [demo_exec])
    ((demo_sess [], 0, 0%nat), None).


Lemma randBytes_length n : always (randBytes n) (fun b => length b = n).
Proof.
  induction n as [| n IH]; cbn [randBytes]; [by apply always_ret |]. any_draw.
  eapply always_bind; [exact IH |]. intros r Hr. apply always_ret. simpl in *. by rewrite Hr.
Qed.
Lemma seed_decodes n : always (randStdB64NoPad n) (fun x => exists seed, b64_decode false x = Some seed /\ length seed = n).
Proof.
  unfold randStdB64NoPad. eapply always_bind; [apply randBytes_length |]. intros b Hb. apply always_ret.
  exists b. split; [apply b64_roundtrip | done].
Qed.

(** every generated instance has a usable, stable host key: the seed it persists decodes
    to the 32 bytes the key is derived from, whatever the generator draws, so a fresh
    instance never falls back to the tarpit. *)
Theorem generated_persona_has_host_key now name ds :
  exists seed, SSHHostKey (GenerateProfile now name ds).1 = Some seed /\ zlen seed = seedSize.
Proof.
  assert (always (GenerateProfile now name) (fun p => exists seed, SSHHostKey p = Some seed /\ zlen seed = seedSize)) as H; [| apply H].
  unfold GenerateProfile. any_draw. destruct a as [prof services]. any_draw. any_draw. destruct (osImage _) as [[[arch kr] kv] pn].
  repeat lazymatch goal with |- always (mbind _ fakePrivKey) _ => fail | _ => any_draw end. any_draw.
  eapply always_bind; [apply seed_decodes |]. intros x (seed & Hd & Hl). apply always_ret. exists seed.
  assert (zlen seed = seedSize) as Hz by (unfold zlen; by rewrite Hl). split; [| done].
  unfold SSHHostKey. cbn [SSHHostKeySeed]. rewrite Hd. cbn [mbind option_bind]. by rewrite Hz.
Qed.

(** ** The tarpit *)

(** without a handshake the service stays mute and records what a client opens with: the
    banner is all it writes, and the log gets the client's first line, at most 64 KiB and
    without a line break, and a dump of the start of its second. *)
Theorem tarpit_records_client p s :
  capture s = None ->
  exists banner kex, events (tarpit_Handle p s) =
      events s ++ [set_file (ev (set_persona s (Hostname p)) $$"SSH_CLIENT") [] [] [] [] banner;
                   set_file (ev (set_persona s (Hostname p)) $$"SSH_KEX") [] [] [] [] (HexDump (take maxKexBytes kex))] /\
    out (tarpit_Handle p s) = out s ++ $$"SSH-2.0-" ++ OpenSSHVer p ++ [zb 13; zb 10] /\
    zlen banner <= maxLineBytes /\ zb 10 ∉ banner.
Proof.
  intros Hc. unfold tarpit_Handle, tarpit. set (s0 := set_idle _ _).
  assert (capture s0 = None /\ events s0 = events s /\ out s0 = out s ++ $$"SSH-2.0-" ++ OpenSSHVer p ++ [zb 13; zb 10] /\
    (forall n, ev s0 n = ev (set_persona s (Hostname p)) n)) as (C0 & V0 & O0 & E0) by (unfold s0, Write; cbn [capture set_persona]; by rewrite Hc).
  clearbody s0. unfold ReadLine. rewrite C0. destruct (read_line [] 0 (inp s0)) as [[banner ok] i] eqn:Eb.
  apply read_line_spec in Eb as (_ & _ & _ & raw & -> & Hraw & H10 & _); [| done | done | set_solver | set_solver].
  cbn [capture LogRaw add_event set_inp inp]. rewrite C0. destruct (read_line [] 0 i) as [[kex ok'] i'].
  exists (TrimCRLF raw), kex. destruct (trim_right_prefix raw [zb 13; zb 10; zb 0]) as [x Ex]. split_and!.
  - cbn [HoldOpen LogRaw add_event set_inp events]. rewrite V0, <- app_assoc. cbn [app]. rewrite <- !E0. done.
  - exact O0.
  - unfold TrimCRLF. rewrite Ex in Hraw. rewrite zlen_app in Hraw. pose proof (zlen_nonneg x). lia.
  - intros Hin. apply H10. rewrite Ex. unfold TrimCRLF in Hin. set_solver.
Qed.
Lemma tarpit_records_client_witness :
  exists banner kex, events (tarpit_Handle demo_persona (demo_client ($$"SSH-2.0-Go" ++ [zb 13; zb 10; zb 0; zb 20]))) =
      events (demo_client []) ++ [set_file (ev (set_persona (demo_client []) (Hostname demo_persona)) $$"SSH_CLIENT") [] [] [] [] banner;
                   set_file (ev (set_persona (demo_client []) (Hostname demo_persona)) $$"SSH_KEX") [] [] [] [] (HexDump (take maxKexBytes kex))].
Proof.
  destruct (tarpit_records_client demo_persona (demo_client ($$"SSH-2.0-Go" ++ [zb 13; zb 10; zb 0; zb 20])) eq_refl) as (b & k & H & _).
  exists b, k. exact H.
Defined.
