(* ===== verification/Ftp.v ===== *)
(** * Ftp: the FTP login service (internal/proto/ftp/ftp.go)

    The dialogue is a loop over lines with the pending user name and the number of
    failed logins.  [unicode_upper] is [unicode.ToUpper] above ASCII.  The pauses
    before a reply are not modelled. *)

From S2P Require Import Prelude GoStrings Util Event Session Persona Auth Telnet TelnetFacts.

Definition maxFailedLogins : Z := 3.
Definition nl : str := [zb 13; zb 10].
Definition lines (l : list str) : str := flat_map (fun x => x ++ nl) l.

Definition featVsftpd : str :=
  lines [$$"211-Features:"; $$" EPRT"; $$" EPSV"; $$" MDTM"; $$" PASV"; $$" REST STREAM"; $$" SIZE"; $$" TVFS"; $$" UTF8"; $$"211 End"].
Definition featPureFTPd : str :=
  lines [$$"211-Extensions supported:"; $$" UTF8"; $$" EPRT"; $$" IDLE"; $$" MDTM"; $$" SIZE"; $$" MFMT"; $$" REST STREAM";
    $$" MLST type*;size*;sizd*;modify*;UNIX.mode*;UNIX.uid*;UNIX.gid*;unique*;"; $$" MLSD"; $$" PRET"; $$" TVFS"; $$" ESTA"; $$" PASV";
    $$" EPSV"; $$"211 End."].
Definition featProFTPD : str :=
  lines [$$"211-Features:"; $$" EPRT"; $$" EPSV"; $$" MDTM"; $$" MFMT";
    $$" MLST modify*;perm*;size*;type*;unique*;UNIX.group*;UNIX.mode*;UNIX.owner*;"; $$" MLSD"; $$" LANG en-US.UTF-8"; $$" REST STREAM";
    $$" SIZE"; $$" TVFS"; $$" UTF8"; $$"211 End"].
Definition knownVerbs : list str :=
  [$$"CWD"; $$"CDUP"; $$"PWD"; $$"LIST"; $$"NLST"; $$"RETR"; $$"STOR"; $$"STOU"; $$"APPE"; $$"DELE"; $$"MKD"; $$"RMD"; $$"RNFR";
   $$"RNTO"; $$"TYPE"; $$"PASV"; $$"EPSV"; $$"PORT"; $$"EPRT"; $$"SIZE"; $$"MDTM"; $$"MLSD"; $$"MLST"; $$"REST"; $$"ABOR"; $$"STAT";
   $$"ACCT"; $$"SITE"; $$"HELP"; $$"MODE"; $$"STRU"; $$"ALLO"; $$"OPTS"; $$"AUTH"].

Section ftp.
Context (unicode_upper : Z -> Z).

(** [strings.ToUpper]: byte by byte on ASCII text, rune by rune otherwise. *)
Definition ToUpper (s : str) : str :=
  if forallb (fun c => bz c <? 128) s then to_upper s
  else flat_map encode_rune (map (fun r => if r <? 128 then bz (upper_byte (zb r)) else unicode_upper r) (runes s)).

Definition splitCommand (line : str) : str * str :=
  let line := trim_space line in
  match index_byte line " "%char with
  | Some i => (ToUpper (take i line), trim_space (drop (i + 1) line))
  | None => (ToUpper line, [])
  end.

Context (p : Persona).

Definition banner : str :=
  let ver := FTPVer p in
  if FTPSoftware p =s $$"proftpd" then
    $$"220 ProFTPD " ++ ver ++ $$" Server (" ++ Hostname p ++ $$") [::ffff:" ++ HostIP p ++ $$"]" ++ nl
  else if FTPSoftware p =s $$"pure-ftpd" then
    lines [$$"220---------- Welcome to Pure-FTPd [privsep] ----------"; $$"220-This is a private system - No anonymous login";
      $$"220 You are user number 1 of 50 allowed."]
  else if FTPSoftware p =s $$"vsftpd" then $$"220 (vsFTPd " ++ ver ++ $$")" ++ nl
  else $$"220 (vsFTPd " ++ (if ver =s [] then $$"3.0.5" else ver) ++ $$")" ++ nl.

Definition software : str :=
  if (FTPSoftware p =s $$"proftpd") || (FTPSoftware p =s $$"pure-ftpd") then FTPSoftware p else $$"vsftpd".
Definition feat : str :=
  if software =s $$"pure-ftpd" then featPureFTPd else if software =s $$"proftpd" then featProFTPD else featVsftpd.
Definition unhandled (cmd : str) : str :=
  if software =s $$"pure-ftpd" then $$"530 You aren't logged in." ++ nl
  else if software =s $$"proftpd" then
    if bool_decide (cmd ∈ knownVerbs) then $$"530 Please login with USER and PASS first." ++ nl
    else $$"500 " ++ cmd ++ $$" not understood." ++ nl
  else $$"530 Please login with USER and PASS." ++ nl.

(** One command: the pending user, the failures, and whether the connection ends. *)
Definition command (cmd arg : str) (user : str) (failed : Z) (s : sess) : str * Z * bool * sess :=
  if cmd =s $$"USER" then (arg, failed, false, Write ($$"331 Please specify the password." ++ nl) s)
  else if cmd =s $$"PASS" then
    if user =s [] then (user, failed, false, Write ($$"503 Login with USER first." ++ nl) s)
    else
      let s := Write ($$"530 Login incorrect." ++ nl) (LogCredential user arg s) in
      (user, failed + 1, maxFailedLogins <=? failed + 1, s)
  else if cmd =s $$"QUIT" then (user, failed, true, Write ($$"221 Goodbye." ++ nl) s)
  else if cmd =s $$"SYST" then
    (user, failed, false,
     Write ((if software =s $$"vsftpd" then $$"530 Please login with USER and PASS." else $$"215 UNIX Type: L8") ++ nl) s)
  else if cmd =s $$"FEAT" then (user, failed, false, Write feat s)
  else if cmd =s $$"NOOP" then (user, failed, false, Write ($$"200 NOOP ok." ++ nl) s)
  else (user, failed, false, Write (unhandled cmd) s).
Fixpoint dialogue (fuel : nat) (user : str) (failed : Z) (s : sess) : sess :=
  match fuel with
  | O => s
  | S f =>
      let '(line, ok, s) := ReadLine s in
      if negb ok then s
      else
        let '(cmd, arg) := splitCommand line in
        let '(user, failed, stop, s) := command cmd arg user failed s in
        if stop then s else dialogue f user failed s
  end.
Definition Handle (s : sess) : sess :=
  let s := Write banner (set_persona s (Hostname p)) in
  dialogue (S (length (inp s))) [] 0 s.
End ftp.

(** * Theorems *)

(** ** The dialogue ends *)

Section facts.
Context (unicode_upper : Z -> Z) (p : Persona).
Local Notation dialogue := (Ftp.dialogue unicode_upper p).
Local Notation command := (Ftp.command p).

Lemma ReadLine_consumes s l ok s' :
  ReadLine s = (l, ok, s') -> (ok = true -> (length (inp s') < length (inp s))%nat) /\ events s' = events s /\ out s' = out s /\
    capture s' = capture s /\ (forall n, ev s' n = ev s n).
Proof using.
  intros H. destruct (ReadLine_events s l ok s' H) as (H1 & _ & H2). split_and!; [| done | done | |].
  - intros ->. unfold ReadLine in H. destruct (capture s); [done |]. destruct (read_line [] 0 (inp s)) as [[l0 ok0] r] eqn:E.
    injection H as <- -> <-. cbn [inp set_inp]. apply read_line_spec in E as (G1 & G2 & _); [by apply G2, G1 | done | done | set_solver | set_solver].
  - unfold ReadLine in H. destruct (capture s) eqn:E; [by injection H as <- <- <- |]. destruct (read_line _ _ _) as [[? ?] ?]. by injection H as <- <- <-.
  - unfold ReadLine in H. destruct (capture s) eqn:E; [by injection H as <- <- <- |]. destruct (read_line _ _ _) as [[? ?] ?]. by injection H as <- <- <-.
Qed.
Lemma Write_fields x s : inp (Write x s) = inp s /\ events (Write x s) = events s /\ (forall n, ev (Write x s) n = ev s n).
Proof using. unfold Write. by destruct (capture s). Qed.

(** A reply: one of the codes of a server nobody is logged in to, and a whole line. *)
Definition codes : list str := [$$"331"; $$"503"; $$"530"; $$"221"; $$"215"; $$"211"; $$"200"; $$"500"].
Definition reply_ok (r : str) : Prop := take 3 r ∈ codes /\ exists r0, r = r0 ++ nl.
Definition credential_of (e : Entry) : Prop := e_Event e = $$"CREDENTIAL" /\ e_Username e <> [].

Lemma unhandled_ok cmd : reply_ok (unhandled p cmd).
Proof using.
  unfold unhandled. repeat case_match.
  all: split; [by apply (bool_decide_unpack _); vm_compute | eexists; rewrite ?app_assoc; reflexivity].
Qed.
Lemma feat_ok : reply_ok (feat p).
Proof using.
  assert (forall l x, exists r0, lines (l ++ [x]) = r0 ++ nl) as H.
  { intros l x. unfold lines. rewrite flat_map_app. cbn [flat_map]. rewrite app_nil_r. eexists. by rewrite app_assoc. }
  unfold feat. repeat case_match; (split; [by apply (bool_decide_unpack _); vm_compute |]).
  all: match goal with |- exists r0, ?f = _ => unfold f; match goal with |- exists r0, lines ?l = _ =>
    let a := eval cbv in (removelast l) in let b := eval cbv in (List.last l []) in exact (H a b) end end.
Qed.

Lemma reply_line x : take 3 (x ++ nl) ∈ codes -> reply_ok (x ++ nl).
Proof using. split; [done | by exists x]. Qed.

(** What one command does: it answers once, and only a password for a named user is
    logged and counted. *)
Lemma command_spec cmd arg user failed s user' failed' stop s' :
  command cmd arg user failed s = (user', failed', stop, s') ->
  exists r logged, s' = Write r logged /\ reply_ok r /\
    ((logged = s /\ failed' = failed) \/
     (logged = LogCredential user arg s /\ user <> [] /\ failed' = failed + 1 /\ stop = (maxFailedLogins <=? failed'))).
Proof using.
  unfold Ftp.command. pose proof feat_ok. pose proof (unhandled_ok cmd). intros Hc.
  repeat case_match; simplify_eq.
  all: first
    [ exists (unhandled p cmd), s; by auto
    | exists (feat p), s; by auto
    | eexists _, s; split_and!; [reflexivity | apply reply_line; by apply (bool_decide_unpack _); vm_compute | by left]
    | eexists _, _; split_and!; [reflexivity | apply reply_line; by apply (bool_decide_unpack _); vm_compute | right; split_and!; first [done | by apply seqb_neq]] ].
Qed.

Lemma command_inp cmd arg user failed s : inp (command cmd arg user failed s).2 = inp s.
Proof using.
  destruct (command cmd arg user failed s) as [[[u f] b] s'] eqn:E. apply command_spec in E as (r & lg & -> & _ & H). cbn [snd].
  rewrite (proj1 (Write_fields _ _)). by destruct H as [[-> _] | (-> & _)].
Qed.

(** The dialogue consumes its input, so fuel beyond its length changes nothing. *)
Lemma dialogue_fuel f1 : forall f2 user failed s,
  (length (inp s) < f1)%nat -> (length (inp s) < f2)%nat -> dialogue f1 user failed s = dialogue f2 user failed s.
Proof using.
  induction f1 as [| f1 IH]; intros f2 user failed s H1 H2; [lia |]. destruct f2 as [| f2]; [lia |]. cbn [Ftp.dialogue].
  destruct (ReadLine s) as [[l ok] s1] eqn:E. apply ReadLine_consumes in E as [Hlt _]. destruct ok; [| done]. cbn [negb].
  specialize (Hlt eq_refl). destruct (splitCommand _ _) as [cmd arg]. pose proof (command_inp cmd arg user failed s1) as Hi.
  destruct (command cmd arg user failed s1) as [[[u' f'] stop] s2]. cbn [snd] in Hi.
  destruct stop; [done |]. apply IH; rewrite Hi; lia.
Qed.

Lemma Write_out x s : capture s = None -> out (Write x s) = out s ++ x /\ capture (Write x s) = None.
Proof using. intros H. unfold Write. by rewrite H. Qed.

Lemma dialogue_account fuel : forall user failed s,
  capture s = None -> 0 <= failed < maxFailedLogins ->
  exists replies logged, out (dialogue fuel user failed s) = out s ++ concat replies /\ Forall reply_ok replies /\
    events (dialogue fuel user failed s) = events s ++ logged /\ Forall credential_of logged /\ failed + zlen logged <= maxFailedLogins.
Proof using.
  assert (forall s : sess, exists replies logged, out s = out s ++ concat replies /\ Forall reply_ok replies /\
    events s = events s ++ logged /\ Forall credential_of logged /\ zlen logged = 0) as Hnil.
  { intros s. exists [], []. rewrite !app_nil_r. split_and!; (done || constructor). }
  induction fuel as [| fuel IH]; intros user failed s Hc Hf; cbn [Ftp.dialogue].
  { destruct (Hnil s) as (r & lg & H1 & H2 & H3 & H4 & H5). exists r, lg. split_and!; (done || lia). }
  destruct (ReadLine s) as [[l ok] s1] eqn:E. apply ReadLine_consumes in E as (_ & E1 & E2 & E3 & _).
  rewrite <- E1, <- E2. rewrite <- E3 in Hc. destruct ok; cbn [negb];
    [| destruct (Hnil s1) as (r & lg & H1 & H2 & H3 & H4 & H5); exists r, lg; split_and!; (done || lia)].
  destruct (splitCommand _ _) as [cmd arg]. destruct (command cmd arg user failed s1) as [[[u' f'] stop] s2] eqn:Ec.
  apply command_spec in Ec as (r & lg & -> & Hr & Hor).
  assert (exists e, events lg = events s1 ++ e /\ Forall credential_of e /\ f' = failed + zlen e /\ out lg = out s1 /\ capture lg = None /\
    (stop = false -> f' < maxFailedLogins)) as (e & V1 & V2 & V3 & V4 & V5 & V6).
  { destruct Hor as [[-> ->] | (-> & Hu & -> & ->)].
    - exists []. rewrite app_nil_r. change (zlen []) with 0. split_and!; (done || lia || constructor).
    - eexists [_]. split_and!; [reflexivity | by constructor | done | done | done |]. intros H. bool_hyps. lia. }
  destruct (Write_out r lg V5) as [W1 W2]. pose proof (proj1 (proj2 (Write_fields r lg))) as W3.
  pose proof (zlen_nonneg e). destruct stop.
  - exists [r], e. cbn [concat]. rewrite W1, W3, V1, V4, app_nil_r. split_and!; [done | by constructor | done | done |].
    destruct Hor as [[-> ->] | (_ & _ & -> & _)]; lia.
  - destruct (IH u' f' (Write r lg) W2 ltac:(specialize (V6 eq_refl); lia)) as (rs & lgs & H1 & H2 & H3 & H4 & H5).
    exists (r :: rs), (e ++ lgs). cbn [concat]. rewrite H1, W1, V4, H3, W3, V1, <- !app_assoc, zlen_app.
    split_and!; [done | by constructor | done | by apply Forall_app | lia].
Qed.

(** nobody logs in over FTP: whatever a client sends, after the banner it only gets whole
    replies with the codes of a server without a login, never a 230; the log gets
    nothing but the credentials it tried, each with a user name, and after the third the
    dialogue is over. *)
Theorem ftp_never_lets_in s :
  capture s = None ->
  exists replies logged, out (Handle unicode_upper p s) = out s ++ banner p ++ concat replies /\ Forall reply_ok replies /\
    events (Handle unicode_upper p s) = events s ++ logged /\ Forall credential_of logged /\ zlen logged <= maxFailedLogins.
Proof using.
  intros Hc. unfold Handle. destruct (Write_out (banner p) (set_persona s (Hostname p)) Hc) as [W1 W2].
  destruct (dialogue_account (S (length (inp (Write (banner p) (set_persona s (Hostname p)))))) [] 0 _ W2 ltac:(by vm_compute))
    as (r & lg & H1 & H2 & H3 & H4 & H5).
  exists r, lg. rewrite H1, H3, W1, (proj1 (proj2 (Write_fields _ _))), <- app_assoc. split_and!; (done || lia).
Qed.
End facts.

(** ** What the log gets *)

(** A name or a password: printable at both ends, no line break, not too long. *)
Record word (w : str) : Prop := Word {
  w_first : match w with c :: _ => plain c | [] => False end;
  w_last : match last w with Some c => plain c | None => False end;
  w_len : zlen w < maxLineBytes - 5;
  w_lf : zb 10 ∉ w;
  w_cr : zb 13 ∉ w
}.
#[export] Instance plain_dec c : Decision (plain c).
Proof. unfold plain. apply _. Defined.

Lemma word_last w t c : word w -> w = t ++ [c] -> plain c.
Proof. intros Hw ->. pose proof (w_last _ Hw) as H. by rewrite last_snoc in H. Qed.

Section captured.
Context (unicode_upper : Z -> Z) (p : Persona).

Lemma verb_line v w : v ∈ [$$"USER"; $$"PASS"] -> word w ->
  trim_space (v ++ $$" " ++ w) = v ++ $$" " ++ w /\ TrimCRLF (v ++ $$" " ++ w) = v ++ $$" " ++ w /\
  splitCommand unicode_upper (v ++ $$" " ++ w) = (v, w).
Proof using.
  intros Hv Hw. destruct w as [| c0 w0] eqn:Ew; [destruct (w_first _ Hw) |]. rewrite <- Ew in *.
  assert (forall c t, v ++ $$" " ++ w = t ++ [c] -> plain c) as Hend.
  { intros c t H. destruct (exists_last (l := w)) as (w' & x & Hx); [by rewrite Ew |]. rewrite Hx in H.
    replace (v ++ $$" " ++ w' ++ [x]) with ((v ++ $$" " ++ w') ++ [x]) in H by (by rewrite <- !app_assoc).
    apply app_inj_tail in H as [_ <-]. eapply word_last; [exact Hw | exact Hx]. }
  assert (forall x, plain x -> in_set [zb 13; zb 10; zb 0] x = false) as Hset.
  { intros x Hx. unfold in_set. apply bool_decide_eq_false. rewrite !elem_of_cons. intros [-> | [-> | [-> | []%elem_of_nil]]]; discriminate Hx. }
  assert (trim_space w = w) as Hwt.
  { apply trim_space_id; [intros c t E; pose proof (w_first _ Hw) as H; by rewrite E in H | intros c t E; by eapply word_last]. }
  assert (trim_space (v ++ $$" " ++ w) = v ++ $$" " ++ w) as Ht.
  { apply trim_space_id; [| exact Hend]. intros c t. apply list_elem_of_In in Hv. destruct Hv as [<- | [<- | []]]; intros [= <- _]; done. }
  split_and!; [exact Ht | |].
  - unfold TrimCRLF, trim_right. apply trim_right_fn_id. intros x t E. apply Hset. by apply (Hend x t).
  - unfold splitCommand. cbn zeta. rewrite Ht.
    assert (index_byte (v ++ $$" " ++ w) " "%char = Some 4%nat /\ take 4 (v ++ $$" " ++ w) = v /\ drop (4 + 1) (v ++ $$" " ++ w) = w /\
      ToUpper unicode_upper v = v) as (-> & -> & -> & ->).
    { apply list_elem_of_In in Hv. destruct Hv as [<- | [<- | []]]; done. }
    by rewrite Hwt.
Qed.

Lemma ReadLine_verb v w rest s : v ∈ [$$"USER"; $$"PASS"] -> word w -> capture s = None -> inp s = v ++ $$" " ++ w ++ nl ++ rest ->
  ReadLine s = (v ++ $$" " ++ w, true, set_inp s rest).
Proof using unicode_upper.
  intros Hv Hw Hc Hi. unfold ReadLine. rewrite Hc, Hi.
  replace (v ++ $$" " ++ w ++ nl ++ rest) with ((v ++ $$" " ++ w) ++ nl ++ rest) by (by rewrite <- !app_assoc).
  assert (zlen v = 4 /\ zb 10 ∉ v /\ zb 13 ∉ v) as (Hl & H10 & H13).
  { apply list_elem_of_In in Hv. destruct Hv as [<- | [<- | []]]; (split_and!; [done | |]); by apply (bool_decide_unpack _); vm_compute. }
  pose proof (w_len _ Hw). pose proof (w_lf _ Hw). pose proof (w_cr _ Hw).
  rewrite read_line_line; [by rewrite app_nil_l, (proj1 (proj2 (verb_line v w Hv Hw))) | | | | by right; left].
  - rewrite !zlen_app, Hl. change (zlen $$" ") with 1. lia.
  - rewrite !elem_of_app. intros [? | [?%list_elem_of_singleton | ?]]; done.
  - rewrite !elem_of_app. intros [? | [?%list_elem_of_singleton | ?]]; done.
Qed.

Definition typed (l : list (str * str)) : str :=
  flat_map (fun '(u, pw) => $$"USER" ++ $$" " ++ u ++ nl ++ $$"PASS" ++ $$" " ++ pw ++ nl) l.
Definition logged_as (s : sess) (l : list (str * str)) : list Entry :=
  map (fun '(u, pw) => set_cred (ev s $$"CREDENTIAL") u pw) l.

Lemma command_pass arg user failed s : user <> [] ->
  command p $$"PASS" arg user failed s =
    (user, failed + 1, maxFailedLogins <=? failed + 1, Write ($$"530 Login incorrect." ++ nl) (LogCredential user arg s)).
Proof using. intros Hu. unfold command. by rewrite (proj2 (seqb_neq user [])). Qed.

Lemma dialogue_typed l : forall fuel user failed s rest,
  Forall (fun c => word c.1 /\ word c.2) l -> capture s = None -> inp s = typed l ++ rest -> (length (inp s) < fuel)%nat ->
  0 <= failed < maxFailedLogins -> failed + zlen l <= maxFailedLogins -> (failed + zlen l = maxFailedLogins \/ rest = []) ->
  events (dialogue unicode_upper p fuel user failed s) = events s ++ logged_as s l /\
  inp (dialogue unicode_upper p fuel user failed s) = rest.
Proof using.
  induction l as [| [u pw] l IH]; intros fuel user failed s rest Hl Hc Hi Hf Hfail Hle Hor.
  { change (zlen []) with 0 in Hor. destruct Hor as [? | ->]; [lia |]. destruct fuel as [| fuel]; [lia |]. cbn [dialogue].
    unfold ReadLine. rewrite Hc, Hi. cbn. by rewrite app_nil_r. }
  apply Forall_cons in Hl as [[Hu Hpw] Hl]. cbn [fst snd] in Hu, Hpw. rewrite zlen_cons in Hle, Hor. pose proof (zlen_nonneg l).
  assert (inp s = $$"USER" ++ $$" " ++ u ++ nl ++ ($$"PASS" ++ $$" " ++ pw ++ nl ++ typed l ++ rest)) as Hi1
    by (rewrite Hi; unfold typed; cbn [flat_map]; by rewrite <- !app_assoc).
  assert ((5 + length (typed l ++ rest) < length (inp s))%nat) as Hlen by (rewrite Hi1, !length_app; simpl length; lia).
  destruct fuel as [| [| fuel]]; [lia | lia |]. cbn [dialogue].
  rewrite (ReadLine_verb $$"USER" u (($$"PASS" ++ $$" " ++ pw ++ nl ++ typed l ++ rest)) s); [| by set_solver | done | done | done]. cbn [negb].
  rewrite (proj2 (proj2 (verb_line $$"USER" u ltac:(set_solver) Hu))).
  change (command p $$"USER" u user failed ?x) with (u, failed, false, Write ($$"331 Please specify the password." ++ nl) x). cbn iota.
  set (s1 := Write _ (set_inp s _)).
  assert (capture s1 = None /\ inp s1 = $$"PASS" ++ $$" " ++ pw ++ nl ++ (typed l ++ rest) /\ events s1 = events s /\ forall n, ev s1 n = ev s n)
    as (C1 & I1 & V1 & E1) by (unfold s1, Write; cbn [capture set_inp]; by rewrite Hc).
  clearbody s1. rewrite (ReadLine_verb $$"PASS" pw (typed l ++ rest) s1); [| by set_solver | done | done | done]. cbn [negb].
  rewrite (proj2 (proj2 (verb_line $$"PASS" pw ltac:(set_solver) Hpw))).
  rewrite command_pass by (intros ->; destruct (w_first _ Hu)).
  set (s2 := Write _ (LogCredential _ _ _)).
  assert (capture s2 = None /\ inp s2 = typed l ++ rest /\ events s2 = events s ++ [set_cred (ev s $$"CREDENTIAL") u pw] /\ forall n, ev s2 n = ev s n)
    as (C2 & I2 & V2 & E2).
  { unfold s2, Write. cbn [capture LogCredential add_event set_inp]. rewrite C1. cbn [events set_out inp LogCredential add_event set_inp]. rewrite V1.
    split_and!; [done | done | by rewrite <- E1 | intros n; by rewrite <- E1]. }
  assert (logged_as s2 l = logged_as s l) as Hlog by (unfold logged_as; apply map_ext; intros [a b]; by rewrite E2).
  clearbody s2. destruct (maxFailedLogins <=? failed + 1) eqn:Em; bool_hyps.
  - assert (l = []) as -> by (destruct l as [| x l]; [done | rewrite zlen_cons in *; pose proof (zlen_nonneg l); lia]). by rewrite V2, I2.
  - destruct (IH fuel u (failed + 1) s2 rest Hl C2 I2) as [H1 H2]; [rewrite I2; lia | lia | lia | destruct Hor; [left; lia | by right] |].
    rewrite H1, H2, V2, Hlog, <- app_assoc. done.
Qed.

End captured.

Definition demo_ftp_input : list (str * str) := [($$"root", $$"toor"); ($$"anonymous", $$"a@b.c")].

Lemma ftp_never_lets_in_witness :
  exists replies logged, out (Handle (fun r => r) demo_owner (demo_client $$"x")) = banner demo_owner ++ concat replies /\
    Forall reply_ok replies /\ events (Handle (fun r => r) demo_owner (demo_client $$"x")) = logged /\ Forall credential_of logged /\
    zlen logged <= maxFailedLogins.
Proof.
  destruct (ftp_never_lets_in (fun r => r) demo_owner (demo_client $$"x") eq_refl) as (r & lg & H1 & H2 & H3 & H4 & H5).
  exists r, lg. split_and!; [exact H1 | exact H2 | exact H3 | exact H4 | exact H5].
Defined.

(** The argument of a command is trimmed, so white space around a password is not in
    the log. *)
Theorem password_spaces_lost unicode_upper : splitCommand unicode_upper $$"PASS  secret " = ($$"PASS", $$"secret").
Proof. reflexivity. Qed.
