(* ===== verification/Config.v ===== *)
(** * Config: the configuration file and start-up (internal/config, cmd/sweetty/main.go)

    The JSON codec works on [jconfig], the fields an object names: its text form is a
    parameter, what [encoding/json] does with the struct tags is modelled by [fields]
    (marshal) and [apply] (unmarshal over a base).  A float64 is a [spec_float].  What
    the commands print on the terminal is not modelled. *)

From Stdlib Require Import SpecFloat.
From S2P Require Import Prelude GoStrings Net Util Event Session Haproxy Portal Persona Auth.

Definition defaultPortalPort : Z := 8888.

(** ** The schema *)

Record BruteForce : Type := MkBruteForce { b_Enabled : bool; b_AfterTries : Z; b_AfterSeconds : Z; b_Probability : spec_float }.
Record Listener : Type := MkListener { l_Port : Z; l_Protocol : str; l_Persona : str }.
Record Config : Type := MkConfig {
  PortalPort : Z; LogFile : str; c_ProxyProtocol : bool; ProxyTrustedCIDRs : list str; PortalBind : str;
  GeoIPFile : str; AsnFile : str; RecordDir : str; PersonaFile : str; c_BruteForce : BruteForce;
  AdminConsoles : list AdminConsole; Listeners : list Listener
}.
Definition no_bruteforce : BruteForce := MkBruteForce false 0 0 (S754_zero false).

Definition DefaultListeners : list Listener :=
  [MkListener 21 $$"ftp" []; MkListener 22 $$"ssh" []; MkListener 23 $$"telnet" $$"ubuntu"; MkListener 80 $$"http" $$"wordpress";
   MkListener 443 $$"https" []; MkListener 2323 $$"telnet" $$"ubuntu"; MkListener 8080 $$"http" $$"tomcat"].
Definition base_config (l : list Listener) : Config :=
  MkConfig defaultPortalPort $$"sweetty.log" false [] $$"127.0.0.1" [] [] [] [] no_bruteforce [] l.
Definition DefaultConfig : Config := base_config DefaultListeners.
Definition Generate (p : Persona) : Config :=
  base_config (map (fun s => MkListener (Port s) (Protocol s) (Style s)) (Services p)).

Definition set_PortalPort (v : Z) (c : Config) : Config :=
  MkConfig v (LogFile c) (c_ProxyProtocol c) (ProxyTrustedCIDRs c) (PortalBind c) (GeoIPFile c) (AsnFile c) (RecordDir c)
    (PersonaFile c) (c_BruteForce c) (AdminConsoles c) (Listeners c).
Definition set_LogFile (v : str) (c : Config) : Config :=
  MkConfig (PortalPort c) v (c_ProxyProtocol c) (ProxyTrustedCIDRs c) (PortalBind c) (GeoIPFile c) (AsnFile c) (RecordDir c)
    (PersonaFile c) (c_BruteForce c) (AdminConsoles c) (Listeners c).
Definition set_Listeners (v : list Listener) (c : Config) : Config :=
  MkConfig (PortalPort c) (LogFile c) (c_ProxyProtocol c) (ProxyTrustedCIDRs c) (PortalBind c) (GeoIPFile c) (AsnFile c) (RecordDir c)
    (PersonaFile c) (c_BruteForce c) (AdminConsoles c) v.

Definition PersonaPath (c : Config) (configPath : str) : str :=
  if PersonaFile c =s [] then path_join (path_dir configPath) $$"persona.json"
  else if has_prefix (PersonaFile c) $$"/" then PersonaFile c
  else path_join (path_dir configPath) (PersonaFile c).

(** ** The codec *)

Record jbrute : Type := JBrute { jb_Enabled : option bool; jb_AfterTries : option Z; jb_AfterSeconds : option Z; jb_Probability : option spec_float }.
Record jconfig : Type := JConfig {
  j_PortalPort : option Z; j_LogFile : option str; j_ProxyProtocol : option bool; j_ProxyTrustedCIDRs : option (list str);
  j_PortalBind : option str; j_GeoIPFile : option str; j_AsnFile : option str; j_RecordDir : option str; j_PersonaFile : option str;
  j_BruteForce : option jbrute; j_AdminConsoles : option (list AdminConsole); j_Listeners : option (list Listener)
}.

(** [omitempty]. *)
Definition omit_str (s : str) : option str := if s =s [] then None else Some s.
Definition omit_list {A} (l : list A) : option (list A) := match l with [] => None | _ => Some l end.
Definition omit_bool (b : bool) : option bool := if b then Some true else None.
Definition omit_int (n : Z) : option Z := if n =? 0 then None else Some n.
Definition omit_float (f : spec_float) : option spec_float := match f with S754_zero _ => None | _ => Some f end.
Definition is_zero_brute (b : BruteForce) : bool :=
  negb (b_Enabled b) && (b_AfterTries b =? 0) && (b_AfterSeconds b =? 0) &&
  match b_Probability b with S754_zero false => true | _ => false end.

(** What [MarshalIndent] writes, and what [Unmarshal] does to its target. *)
Definition fields (c : Config) : jconfig :=
  JConfig (Some (PortalPort c)) (Some (LogFile c)) (omit_bool (c_ProxyProtocol c)) (omit_list (ProxyTrustedCIDRs c))
    (omit_str (PortalBind c)) (omit_str (GeoIPFile c)) (omit_str (AsnFile c)) (omit_str (RecordDir c)) (omit_str (PersonaFile c))
    (let b := c_BruteForce c in
     if is_zero_brute b then None
     else Some (JBrute (omit_bool (b_Enabled b)) (omit_int (b_AfterTries b)) (omit_int (b_AfterSeconds b)) (omit_float (b_Probability b))))
    (omit_list (AdminConsoles c)) (Some (Listeners c)).
Definition apply_brute (j : jbrute) (b : BruteForce) : BruteForce :=
  MkBruteForce (default (b_Enabled b) (jb_Enabled j)) (default (b_AfterTries b) (jb_AfterTries j))
    (default (b_AfterSeconds b) (jb_AfterSeconds j)) (default (b_Probability b) (jb_Probability j)).
Definition apply (j : jconfig) (c : Config) : Config :=
  MkConfig (default (PortalPort c) (j_PortalPort j)) (default (LogFile c) (j_LogFile j)) (default (c_ProxyProtocol c) (j_ProxyProtocol j))
    (default (ProxyTrustedCIDRs c) (j_ProxyTrustedCIDRs j)) (default (PortalBind c) (j_PortalBind j)) (default (GeoIPFile c) (j_GeoIPFile j))
    (default (AsnFile c) (j_AsnFile j)) (default (RecordDir c) (j_RecordDir j)) (default (PersonaFile c) (j_PersonaFile j))
    (match j_BruteForce j with Some b => apply_brute b (c_BruteForce c) | None => c_BruteForce c end)
    (default (AdminConsoles c) (j_AdminConsoles j)) (default (Listeners c) (j_Listeners j)).

(** The end of [Load]. *)
Definition fill_defaults (cfg : Config) : Config :=
  let cfg := if PortalPort cfg =? 0 then set_PortalPort defaultPortalPort cfg else cfg in
  let cfg := if LogFile cfg =s [] then set_LogFile $$"sweetty.log" cfg else cfg in
  match Listeners cfg with [] => set_Listeners DefaultListeners cfg | _ => cfg end.

Section codec.
Context (json_parse : str -> option jconfig) (json_print : jconfig -> str).

(** [Load]: [None] is an error; [file] is [None] when it cannot be read. *)
Definition Load (file : option str) : option Config :=
  data ← file;
  j ← json_parse data;
  Some (fill_defaults (apply j (set_Listeners [] DefaultConfig))).

(** [Write] into a file that must not exist: the new file, or [None]. *)
Definition Write (cfg : Config) (file : option str) : option str :=
  match file with Some _ => None | None => Some (json_print (fields cfg)) end.
Definition WriteDefault (file : option str) : option str := Write DefaultConfig file.
End codec.

(** ** Start-up *)

Inductive action : Type := DoInit | DoVersion | DoHapwatch | DoRun | Usage.
Definition subcommand (arg : str) : action :=
  if arg =s $$"init" then DoInit else if arg =s $$"version" then DoVersion else if arg =s $$"hapwatch" then DoHapwatch
  else if arg =s [] then DoRun else Usage.

Definition intOr (v def : Z) : Z := if v <=? 0 then def else v.
Definition floatOr (v def : spec_float) : spec_float := if SFleb v (S754_zero false) then def else v.
(** The double nearest to 0.4. *)
Definition f04 : spec_float := S754_finite false 7205759403792794 (-54).

Definition portalExposedToNetwork (cfg : Config) : bool :=
  if bool_decide (PortalBind cfg ∈ [$$"127.0.0.1"; $$"::1"; $$"localhost"]) then false
  else if PortalBind cfg =s [] then true
  else match ParseAddr (PortalBind cfg) with
       | Some (A6 _ (_ :: _)) => true        (* [net.ParseIP] takes no zone *)
       | Some ip => negb (IsLoopback ip)
       | None => true
       end.

Definition hasProtocol (listeners : list Listener) (proto : str) : bool := existsb (fun lc => l_Protocol lc =s proto) listeners.

(** The implementation a listener gets. *)
Inductive service : Type :=
  | TelnetSvc (style : str) | SshTarpit | SshSvc (style : str) | HttpSvc (style : str) | HttpsSvc | FtpSvc.
Definition svc_Name (v : service) : str :=
  match v with
  | TelnetSvc _ => $$"telnet" | SshTarpit | SshSvc _ => $$"ssh" | HttpSvc _ => $$"http" | HttpsSvc => $$"https" | FtpSvc => $$"ftp"
  end.
Definition buildProtocol (lc : Listener) : option service :=
  if l_Protocol lc =s $$"telnet" then Some (TelnetSvc (if l_Persona lc =s [] then $$"ubuntu" else l_Persona lc))
  else if l_Protocol lc =s $$"ssh" then Some (if l_Persona lc =s $$"tarpit" then SshTarpit else SshSvc (l_Persona lc))
  else if l_Protocol lc =s $$"http" then Some (HttpSvc (if l_Persona lc =s [] then $$"nginx-static" else l_Persona lc))
  else if l_Protocol lc =s $$"https" then Some HttpsSvc
  else if l_Protocol lc =s $$"ftp" then Some FtpSvc
  else None.

(** The policy of [run], with the probability it draws against. *)
Definition bruteForce_of (b : BruteForce) : option (BruteForceConfig * spec_float) :=
  if b_Enabled b then
    Some (BruteForceCfg true (intOr (b_AfterTries b) 4) (wrap64 (intOr (b_AfterSeconds b) 45 * second)), floatOr (b_Probability b) f04)
  else None.

(** The listener loop of [run]; [bind] says whether a port can be bound, given those
    already bound. *)
Section run.
Context (bind : list Z -> Z -> bool).
Fixpoint start_listeners (bound : list Z) (l : list Listener) : list (Listener * service) :=
  match l with
  | [] => []
  | lc :: l =>
      match buildProtocol lc with
      | None => start_listeners bound l
      | Some v => if bind bound (l_Port lc) then (lc, v) :: start_listeners (l_Port lc :: bound) l else start_listeners bound l
      end
  end.

Inductive outcome : Type :=
  | Fatal (ctx : str)
  | NoListeners
  | Running (p : Persona) (bf : option (BruteForceConfig * spec_float)) (servers : list (Listener * service)) (exposed : bool).

Context (json_parse : str -> option jconfig) (json_print : jconfig -> str)
  (persona_parse : str -> option Persona) (persona_print : Persona -> str) (fakehost_loads : Persona -> bool)
  (writable : str -> bool).

(** The files start-up works on; [writable] says which paths can be written. *)
Abbreviation disk := (gmap str str).

(** [run]: the outcome, and the disk with the persona it may have written. *)
Definition run (configPath : str) (fresh : Persona) (d : disk) : outcome * disk :=
  match Load json_parse (d !! configPath) with
  | None => (Fatal $$"config", d)
  | Some cfg =>
      if negb (writable (LogFile cfg)) then (Fatal $$"log", d)
      else
        let path := PersonaPath cfg configPath in
        match LoadOrCreate persona_parse (d !! path) fresh with
        | None => (Fatal $$"persona", d)
        | Some (p, written) =>
            if written && negb (writable path) then (Fatal $$"persona", d)
            else
              let d := if written : bool then <[path := persona_print p]> d else d in
              if negb (fakehost_loads p) then (Fatal $$"fakehost", d)
              else match start_listeners [] (Listeners cfg) with
                   | [] => (NoListeners, d)
                   | servers => (Running p (bruteForce_of (c_BruteForce cfg)) servers (portalExposedToNetwork cfg), d)
                   end
        end
  end.

(** [init]: the disk, and whether it succeeded. *)
Definition init (configPath : str) (p : Persona) (d : disk) : disk * bool :=
  let cfg := Generate p in
  if negb (writable configPath) then (d, false)
  else match Write json_print cfg (d !! configPath) with
       | None => (d, false)
       | Some text =>
           let d := <[configPath := text]> d in
           let personaPath := PersonaPath cfg configPath in
           if negb (writable personaPath) then (d, false) else (<[personaPath := persona_print p]> d, true)
       end.
End run.

(** ** The stick-table watcher *)

(** One poll of [hapwatch]: the sources read, or the error's text. *)
Definition poll : Type := (list Source + str) * Z.
Definition hapwatch_step (st : bool * Watcher) (x : poll) : bool * Watcher * list Entry :=
  let '(failing, w) := st in
  match x with
  | (inr err, _) =>
      (true, w, if failing then [] else [System ($$"hapwatch: HAProxy stick-table unreachable (" ++ err ++ $$"); retrying")])
  | (inl srcs, now) =>
      let '(due, w) := Flooding w srcs now in
      (false, w, (if failing then [System $$"hapwatch: HAProxy stick-table reachable again"] else []) ++
                 map (fun s => FloodBlocked (IP s) (ConnRate s)) due)
  end.
Fixpoint hapwatch (st : bool * Watcher) (l : list poll) : list (list Entry) :=
  match l with
  | [] => []
  | x :: l => let '(failing, w, es) := hapwatch_step st x in es :: hapwatch (failing, w) l
  end.
