(* ===== verification/ConfigFacts.v ===== *)
(** * ConfigFacts: what start-up promises

    A configuration read back is the one written, a fresh instance starts every service
    it was given, and the portal stays local unless the operator says otherwise. *)

From Stdlib Require Import SpecFloat.
From S2P Require Import Prelude GoStrings Net Util Event Session Haproxy Portal Persona PersonaFacts Auth Config.

(** ** The file *)

Lemma default_omit_str s : default [] (omit_str s) = s.
Proof. unfold omit_str. destruct (s =s []) eqn:E; [by apply seqb_eq in E as -> | done]. Qed.
Lemma default_omit_list {A} (l : list A) : default [] (omit_list l) = l.
Proof. by destruct l. Qed.
Lemma default_omit_bool b : default false (omit_bool b) = b.
Proof. by destruct b. Qed.
Lemma default_omit_int n : default 0 (omit_int n) = n.
Proof. unfold omit_int. destruct (n =? 0) eqn:E; [bool_hyps; done | done]. Qed.
Lemma default_omit_float f : f <> S754_zero true -> default (S754_zero false) (omit_float f) = f.
Proof. by destruct f as [[] | | |]. Qed.

(** What [run] can use: every field is meaningful, and the probability is not a negative
    zero, which the file cannot say. *)
Record usable (c : Config) : Prop := Usable {
  u_port : PortalPort c <> 0;
  u_log : LogFile c <> [];
  u_bind : PortalBind c <> [];
  u_prob : b_Probability (c_BruteForce c) <> S754_zero true;
  u_listeners : Listeners c <> []
}.

Lemma apply_fields c : usable c -> apply (fields c) (set_Listeners [] DefaultConfig) = c.
Proof.
  intros [_ _ Hb Hp _]. destruct c as [pp lf pr ci bi ge asn re pe br ac li]. unfold apply, fields. cbn in Hb, Hp |- *.
  rewrite default_omit_bool, !default_omit_list, !default_omit_str.
  assert (default $$"127.0.0.1" (omit_str bi) = bi) as Hbi by (unfold omit_str; by rewrite (proj2 (seqb_neq bi [])) by done).
  rewrite Hbi. f_equal. destruct br as [en tr se pb]. cbn in Hp |- *. destruct (is_zero_brute _) eqn:E.
  - unfold is_zero_brute in E. cbn in E. destruct en; [done |]. destruct (tr =? 0) eqn:E1; [| done]. destruct (se =? 0) eqn:E2; [| done].
    destruct pb as [[] | | |]; try done. bool_hyps. by subst.
  - unfold apply_brute. cbn. by rewrite default_omit_bool, !default_omit_int, default_omit_float.
Qed.

(** what is written is what is read: a usable configuration survives its file, omitted
    fields and defaults included, given that the JSON text says what was printed; and
    [Write] never replaces a file. *)
Lemma Load_Write json_parse json_print c :
  json_parse (json_print (fields c)) = Some (fields c) -> usable c -> Load json_parse (Write json_print c None) = Some c.
Proof.
  intros Hj Hu. unfold Load, Write. cbn [mbind option_bind]. rewrite Hj. cbn [mbind option_bind].
  rewrite apply_fields by done. destruct Hu as [H1 H2 _ _ H5]. unfold fill_defaults.
  rewrite (proj2 (Z.eqb_neq _ _)) by done. rewrite (proj2 (seqb_neq _ _)) by done. by destruct (Listeners c).
Qed.
Theorem config_roundtrip json_parse json_print c :
  json_parse (json_print (fields c)) = Some (fields c) -> usable c ->
  Load json_parse (Write json_print c None) = Some c /\ forall old, Write json_print c (Some old) = None.
Proof. intros Hj Hu. split; [by apply Load_Write | done]. Qed.

Definition demo_config : Config :=
  MkConfig 9000 $$"x.log" true [$$"10.0.0.0/8"] $$"0.0.0.0" [] [] [] [] (MkBruteForce true 0 30 f04) [] [MkListener 22 $$"ssh" []].
Lemma config_roundtrip_witness :
  let parse (x : str) := if x =s $$"text" then Some (fields demo_config) else None in
  j_GeoIPFile (fields demo_config) = None /\
  Load parse (Write (fun _ => $$"text") demo_config None) = Some demo_config /\ forall old, Write (fun _ => $$"text") demo_config (Some old) = None.
Proof.
  intros parse. split; [reflexivity |]. apply (config_roundtrip parse (fun _ => $$"text") demo_config); [reflexivity |].
  split; intros H; vm_compute in H; discriminate H.
Defined.

Lemma fill_defaults_spec c :
  let c' := fill_defaults c in
  PortalPort c' <> 0 /\ LogFile c' <> [] /\ Listeners c' <> [] /\
  Listeners c' = (match Listeners c with [] => DefaultListeners | l => l end) /\ PortalBind c' = PortalBind c.
Proof.
  unfold fill_defaults. cbn zeta.
  set (c1 := if PortalPort c =? 0 then _ else c).
  assert (PortalPort c1 <> 0 /\ Listeners c1 = Listeners c /\ PortalBind c1 = PortalBind c) as (P1 & <- & <-).
  { unfold c1. destruct (PortalPort c =? 0) eqn:E; bool_hyps; done. } clearbody c1.
  set (c2 := if LogFile c1 =s [] then _ else c1).
  assert (PortalPort c2 <> 0 /\ LogFile c2 <> [] /\ Listeners c2 = Listeners c1 /\ PortalBind c2 = PortalBind c1) as (P2 & F2 & <- & <-).
  { unfold c2. destruct (LogFile c1 =s []) eqn:E; [done |]. by apply seqb_neq in E. } clearbody c2.
  destruct (Listeners c2) as [| x l] eqn:El; [done |]. by rewrite El.
Qed.

(** whatever the file says, a configuration that loads can be run: it has a portal port, a
    log file and at least one listener; the listeners the file names replace the default
    ones; and a file that does not mention the portal's address leaves it on loopback. *)
Theorem Load_complete json_parse data j cfg :
  json_parse data = Some j -> Load json_parse (Some data) = Some cfg ->
  PortalPort cfg <> 0 /\ LogFile cfg <> [] /\ Listeners cfg <> [] /\
  Listeners cfg = (match default [] (j_Listeners j) with [] => DefaultListeners | l => l end) /\
  (j_PortalBind j = None -> portalExposedToNetwork cfg = false).
Proof.
  intros Hj. unfold Load. cbn [mbind option_bind]. rewrite Hj. cbn [mbind option_bind].
  pose proof (fill_defaults_spec (apply j (set_Listeners [] DefaultConfig))) as (H1 & H2 & H3 & H4 & H5).
  set (c := fill_defaults _) in *. clearbody c. intros [= <-]. split_and!; [done | done | done | done |].
  intros Hn. unfold portalExposedToNetwork. rewrite H5. cbn. by rewrite Hn.
Qed.
Definition demo_json : jconfig :=
  JConfig None (Some []) None None None None None None None None None (Some [MkListener 23 $$"telnet" []]).
Lemma Load_complete_witness :
  let cfg := set_Listeners [MkListener 23 $$"telnet" []] DefaultConfig in
  Load (fun _ => Some demo_json) (Some $$"{}") = Some cfg /\ PortalPort cfg <> 0 /\ portalExposedToNetwork cfg = false.
Proof.
  intros cfg. split; [reflexivity |].
  destruct (Load_complete (fun _ => Some demo_json) $$"{}" demo_json cfg eq_refl eq_refl) as (H & _ & _ & _ & Hx).
  split; [exact H | exact (Hx eq_refl)].
Defined.

(** ** Services *)

Lemma buildProtocol_known lc :
  l_Protocol lc ∈ known_protocols -> exists v, buildProtocol lc = Some v /\ svc_Name v = l_Protocol lc.
Proof.
  intros H. unfold buildProtocol. apply list_elem_of_In in H. destruct H as [<- | [<- | [<- | [<- | [<- | []]]]]]; cbn.
  all: try destruct (l_Persona lc =s $$"tarpit"); eexists; (split; [reflexivity | done]).
Qed.
Lemma buildProtocol_unknown lc : l_Protocol lc ∉ known_protocols -> buildProtocol lc = None.
Proof.
  intros H. unfold buildProtocol. unfold known_protocols in H. rewrite !not_elem_of_cons in H.
  destruct H as (H1 & H2 & H3 & H4 & H5 & _). by rewrite !(proj2 (seqb_neq (l_Protocol lc) _)).
Qed.

Section start.
Context (bind : list Z -> Z -> bool).

Lemma start_listeners_built l : forall bound,
  Forall (fun '(lc, v) => buildProtocol lc = Some v /\ svc_Name v = l_Protocol lc) (start_listeners bind bound l).
Proof using.
  induction l as [| lc l IH]; intros bound; cbn [start_listeners]; [constructor |].
  destruct (buildProtocol lc) as [v |] eqn:Ev; [| apply IH]. destruct (bind _ _); [| apply IH]. constructor; [| apply IH].
  destruct (decide (l_Protocol lc ∈ known_protocols)) as [Hk | Hk]; [| by rewrite buildProtocol_unknown in Ev].
  destruct (buildProtocol_known lc Hk) as (v' & Hv' & Hn). rewrite Ev in Hv'. by injection Hv' as ->.
Qed.

Lemma start_listeners_sublist l : forall bound, sublist (map fst (start_listeners bind bound l)) l.
Proof using.
  induction l as [| lc l IH]; intros bound; cbn [start_listeners]; [constructor |].
  repeat case_match; cbn [map fst]; by constructor.
Qed.
Lemma start_listeners_ports l : forall bound,
  (forall bd port, port ∈ bd -> bind bd port = false) ->
  NoDup (map (fun x => l_Port x.1) (start_listeners bind bound l)) /\
  Forall (fun x => l_Port x.1 ∉ bound) (start_listeners bind bound l).
Proof using.
  induction l as [| lc l IH]; intros bound Hb; cbn [start_listeners]; [by repeat constructor |].
  destruct (buildProtocol lc) as [v |]; [| by apply IH]. destruct (bind bound (l_Port lc)) eqn:Eb; [| by apply IH].
  destruct (IH (l_Port lc :: bound) Hb) as [H3 H4]. rewrite Forall_forall in H4. cbn [map fst]. split.
  - constructor; [| done]. intros (x & Hx & Hin)%list_elem_of_fmap. apply H4 in Hin. set_solver.
  - constructor; [intros Hin; by rewrite Hb in Eb |]. apply Forall_forall. intros x Hx. specialize (H4 x Hx). set_solver.
Qed.

(** start-up skips what it cannot serve and nothing else: the servers are, in the order
    of the file, listeners whose port could be bound, each running the implementation of
    its protocol; a protocol that is not one of the five gets none; and no port is
    listened on twice. *)
Theorem start_listeners_spec l :
  (forall bd port, port ∈ bd -> bind bd port = false) ->
  let servers := start_listeners bind [] l in
  sublist (map fst servers) l /\
  Forall (fun '(lc, v) => buildProtocol lc = Some v /\ svc_Name v = l_Protocol lc) servers /\
  (forall lc, l_Protocol lc ∉ known_protocols -> lc ∉ map fst servers) /\
  NoDup (map (fun x => l_Port x.1) servers).
Proof using.
  intros Hb. pose proof (start_listeners_built l []) as Hbuilt. split_and!; [apply start_listeners_sublist | done | | by apply start_listeners_ports].
  intros lc Hk ([lc' v] & -> & Hin)%list_elem_of_fmap. rewrite Forall_forall in Hbuilt.
  destruct (Hbuilt _ Hin) as [Hbuild _]. by rewrite buildProtocol_unknown in Hbuild.
Qed.

Lemma start_listeners_all l : forall bound,
  (forall bd port, port ∉ bd -> 1 <= port <= 65535 -> bind bd port = true) ->
  Forall (fun lc => l_Protocol lc ∈ known_protocols /\ 1 <= l_Port lc <= 65535 /\ l_Port lc ∉ bound) l -> NoDup (map l_Port l) ->
  map fst (start_listeners bind bound l) = l.
Proof using.
  induction l as [| lc l IH]; intros bound Hb Hl Hnd; cbn [start_listeners]; [done |].
  apply Forall_cons in Hl as [(Hk & Hr & Hn) Hl]. cbn [map] in Hnd. apply NoDup_cons in Hnd as [Hin Hnd].
  destruct (buildProtocol_known lc Hk) as (v & -> & _). rewrite Hb by done. cbn [map fst]. f_equal. apply IH; [done | | done].
  rewrite Forall_forall in Hl |- *. intros x Hx. destruct (Hl x Hx) as (? & ? & ?). split_and!; [done | lia | lia |].
  apply not_elem_of_cons. split; [| done]. intros E. apply Hin. rewrite <- E. by apply list_elem_of_fmap_2.
Qed.
End start.

(** ** A fresh instance *)

Lemma app_ne_l {A} (a b : list A) : a <> [] -> a ++ b <> [].
Proof. by destruct a. Qed.
Lemma app_ne_r {A} (a b : list A) : b <> [] -> a ++ b <> [].
Proof. by destruct a. Qed.

Lemma pad_zero_ne w x : 0 < w -> pad_zero w x <> [].
Proof.
  intros Hw. unfold pad_zero. intros [H1 H2]%app_eq_nil. rewrite H2 in H1. change (zlen []) with 0 in H1. rewrite Z.sub_0_r in H1.
  destruct (Z.to_nat w) eqn:E; [lia | done].
Qed.

Lemma hostname_nonempty profile role : always (makeHostnameFromRole profile role) (fun h => h <> []).
Proof.
  assert (forall a b : str, a ++ $$"-" ++ b <> []) as Hdash by (intros; by apply app_ne_r).
  unfold makeHostnameFromRole. destruct (profile =s $$"legacy").
  - unfold makeApplianceHostname. any_draw. repeat case_match; any_draw; apply always_ret; try apply Hdash.
    by apply app_ne_r, pad_zero_ne.
  - unfold makeServerHostname. any_draw. any_draw. repeat case_match;
      try lazymatch goal with |- always (mbind _ (pick codenamePool)) _ =>
        eapply always_bind; [by apply always_pick |]; intros c Hc; any_draw end;
      repeat any_draw; try apply always_ret; try apply Hdash; try done.
    + assert (c <> []) as Hne.
      { assert (Forall (fun x => x <> []) codenamePool) as Hf by (by apply (bool_decide_unpack _); vm_compute).
        rewrite Forall_forall in Hf. by apply Hf. }
      case_match; [any_draw |]; apply always_ret; [by apply app_ne_l | done].
    + by apply app_ne_r, app_ne_r, pad_zero_ne.
Qed.

Lemma GenerateProfile_hostname now name : always (GenerateProfile now name) (fun p => Persona.Hostname p <> []).
Proof.
  unfold GenerateProfile. any_draw. destruct a as [prof services]. any_draw.
  eapply always_bind; [apply hostname_nonempty |]. intros h Hh. destruct (osImage _) as [[[arch kr] kv] pn].
  repeat any_draw. by apply always_ret.
Qed.

(** The codecs, on a system where files can be written and free ports bound. *)
Section fresh.
Context (bind : list Z -> Z -> bool) (json_parse : str -> option jconfig) (json_print : jconfig -> str)
  (persona_parse : str -> option Persona) (persona_print : Persona -> str) (fakehost_loads : Persona -> bool) (writable : str -> bool).
Hypothesis bind_free : forall bd port, port ∉ bd -> 1 <= port <= 65535 -> bind bd port = true.
Hypothesis all_writable : forall path, writable path = true.

(** C20: an instance comes up as it was generated: after [init], [run] uses that persona and no
    other, starts every service of its profile, none skipped, each with the implementation
    of its protocol, with the portal on loopback and the guessing policy off, and changes
    nothing on disk; and a second [init] changes nothing. *)
Theorem init_then_run configPath now name ds fresh d :
  let p := (GenerateProfile now name ds).1 in
  json_parse (json_print (fields (Generate p))) = Some (fields (Generate p)) ->
  persona_parse (persona_print p) = Some p -> trim_space (persona_print p) <> [] -> fakehost_loads p = true ->
  d !! configPath = None -> PersonaPath (Generate p) configPath <> configPath ->
  exists d' servers,
    init json_print persona_print writable configPath p d = (d', true) /\
    run bind json_parse persona_parse persona_print fakehost_loads writable configPath fresh d' = (Running p None servers false, d') /\
    servers <> [] /\
    map fst servers = map (fun s => MkListener (Port s) (Protocol s) (Style s)) (Services p) /\
    Forall (fun '(lc, v) => buildProtocol lc = Some v /\ svc_Name v = l_Protocol lc) servers /\
    forall q, init json_print persona_print writable configPath q d' = (d', false).
Proof using bind_free all_writable.
  intros p Hjson Hpp Hts Hload Hd Hpath. set (cfg := Generate p).
  destruct (GenerateProfile_ok now name ds) as [(Hne & Hnd & Hsv) _]. fold p in Hne, Hnd, Hsv.
  assert (Persona.Hostname p <> []) as Hhost by apply GenerateProfile_hostname.
  assert (usable cfg) as Hu by (split; try done; cbn; by destruct (Services p)).
  set (servers := start_listeners bind [] (Listeners cfg)).
  assert (map fst servers = Listeners cfg) as Hall.
  { apply start_listeners_all; [done | |].
    - cbn. rewrite Forall_map. eapply Forall_impl; [exact Hsv |]. intros s [Hk Hr]. cbn. split_and!; [done | lia | lia | set_solver].
    - cbn. rewrite map_map. exact Hnd. }
  assert (servers <> []) as Hsne by (intros E; rewrite E in Hall; symmetry in Hall; by apply (u_listeners _ Hu)).
  exists (<[PersonaPath cfg configPath := persona_print p]> (<[configPath := json_print (fields cfg)]> d)), servers.
  assert (init json_print persona_print writable configPath p d =
    (<[PersonaPath cfg configPath := persona_print p]> (<[configPath := json_print (fields cfg)]> d), true)) as Hinit.
  { unfold init, Write. fold cfg. by rewrite Hd, !all_writable. }
  set (d' := <[PersonaPath cfg configPath := _]> _) in *.
  assert (d' !! configPath = Some (json_print (fields cfg))) as Hc by (unfold d'; by rewrite lookup_insert_ne, lookup_insert_eq).
  split_and!; [exact Hinit | | done | exact Hall | |].
  - unfold run. rewrite Hc.
    assert (Load json_parse (Some (json_print (fields cfg))) = Some cfg) as -> by (by apply (Load_Write json_parse json_print cfg)).
    rewrite all_writable. cbn [negb]. cbn zeta. unfold d' at 1. rewrite lookup_insert_eq.
    unfold LoadOrCreate. rewrite Hpp, (proj2 (seqb_neq _ _) Hts), (proj2 (seqb_neq _ _) Hhost).
    cbn [andb]. rewrite Hload. cbn [negb]. fold servers. by destruct servers.
  - apply start_listeners_built.
  - intros q. unfold init, Write. by rewrite all_writable, Hc.
Qed.
End fresh.

Definition demo_bind (bd : list Z) (port : Z) : bool := bool_decide (port ∉ bd).
Lemma start_listeners_spec_witness :
  let l := [MkListener 22 $$"ssh" $$"tarpit"; MkListener 70 $$"gopher" []; MkListener 22 $$"telnet" []; MkListener 21 $$"ftp" []] in
  start_listeners demo_bind [] l = [(MkListener 22 $$"ssh" $$"tarpit", SshTarpit); (MkListener 21 $$"ftp" [], FtpSvc)] /\
  sublist (map fst (start_listeners demo_bind [] l)) l.
Proof.
  intros l. split; [vm_compute; reflexivity |].
  apply (start_listeners_spec demo_bind l). intros bd port H. unfold demo_bind. by apply bool_decide_eq_false_2; intros Hn.
Defined.

Lemma init_then_run_witness :
  let p := (GenerateProfile 1700000000 $$"full" (repeat 3 2000)).1 in
  exists d' servers,
    init (fun _ => $$"{}") (fun _ => $$"p") (fun _ => true) $$"config.json" p ∅ = (d', true) /\
    run demo_bind (fun _ => Some (fields (Generate p))) (fun _ => Some p) (fun _ => $$"p") (fun _ => true) (fun _ => true) $$"config.json" p d' =
      (Running p None servers false, d') /\
    map fst servers = map (fun s => MkListener (Port s) (Protocol s) (Style s)) (Services p).
Proof.
  intros p.
  destruct (init_then_run demo_bind (fun _ => Some (fields (Generate p))) (fun _ => $$"{}") (fun _ => Some p) (fun _ => $$"p") (fun _ => true)
    (fun _ => true)) with (configPath := $$"config.json") (now := 1700000000) (name := $$"full") (ds := repeat 3 2000) (fresh := p) (d := ∅ : gmap str str)
    as (d' & servers & H1 & H2 & _ & H3 & _).
  - intros bd port H _. unfold demo_bind. by apply bool_decide_eq_true_2.
  - reflexivity.
  - reflexivity.
  - reflexivity.
  - by apply (bool_decide_unpack (_ <> _)).
  - reflexivity.
  - reflexivity.
  - by apply (bool_decide_unpack (_ <> _)); vm_compute.
  - exists d', servers. split; [exact H1 |]. split; [exact H2 | exact H3].
Defined.

(** ** The guessing policy *)

(** a policy that is switched on has sane thresholds whatever else the file says: at least
    one try, and a positive delay of whole seconds, the defaults standing in for values
    left out; but a delay of 9223372037 seconds or more overflows the duration, and the
    smallest such value makes it negative, so that no time has to pass at all. *)
Theorem bruteForce_thresholds b cfg pr :
  bruteForce_of b = Some (cfg, pr) ->
  Enabled cfg = true /\ 1 <= AfterTries cfg /\ (b_AfterTries b <= 0 -> AfterTries cfg = 4) /\
  (b_AfterSeconds b <= 0 -> After cfg = 45 * second) /\
  (0 < b_AfterSeconds b <= 9223372036 -> After cfg = b_AfterSeconds b * second) /\
  (b_AfterSeconds b = 9223372037 -> After cfg < 0).
Proof.
  unfold bruteForce_of. destruct (b_Enabled b); [| done]. intros [= <- _]. cbn [Enabled AfterTries After]. unfold intOr.
  split_and!; [done | | | | |].
  - destruct (b_AfterTries b <=? 0) eqn:E; bool_hyps; lia.
  - intros H. by rewrite (proj2 (Z.leb_le _ _) H).
  - intros H. by rewrite (proj2 (Z.leb_le _ _) H).
  - intros H. rewrite (proj2 (Z.leb_gt _ _)) by lia. apply wrap64_small. unfold min_int64, max_int64, second. lia.
  - intros ->. by vm_compute.
Qed.
Lemma bruteForce_thresholds_witness :
  bruteForce_of (MkBruteForce true 0 9223372037 (S754_zero false)) = Some (BruteForceCfg true 4 (-9223372036709551616), f04) /\
  After (BruteForceCfg true 4 (-9223372036709551616)) < 0.
Proof.
  split; [reflexivity |].
  apply (bruteForce_thresholds (MkBruteForce true 0 9223372037 (S754_zero false)) (BruteForceCfg true 4 (-9223372036709551616)) f04); reflexivity.
Defined.

(** ** The stick-table watcher *)

Definition polls_ok (l : list poll) : list (list Source * Z) :=
  omap (fun x => match x.1 with inl srcs => Some (srcs, x.2) | inr _ => None end) l.
(** What the watcher reports over a sequence of polls that all succeed. *)
Fixpoint flood_log (w : Watcher) (l : list (list Source * Z)) : list Entry :=
  match l with
  | [] => []
  | (srcs, now) :: l =>
      let '(due, w) := Flooding w srcs now in map (fun s => FloodBlocked (IP s) (ConnRate s)) due ++ flood_log w l
  end.
Definition is_flood (e : Entry) : bool := e_Event e =s $$"FLOOD_BLOCKED".
Fixpoint outages (failing : bool) (l : list poll) : Z :=
  match l with
  | [] => 0
  | (inr _, _) :: l => (if failing then 0 else 1) + outages true l
  | (inl _, _) :: l => (if failing then 1 else 0) + outages false l
  end.

Lemma filter_floods due : List.filter is_flood (map (fun s => FloodBlocked (IP s) (ConnRate s)) due) = map (fun s => FloodBlocked (IP s) (ConnRate s)) due.
Proof. induction due as [| s due IH]; [done |]. cbn [map List.filter]. by rewrite IH. Qed.
Lemma filter_no_floods due : List.filter (fun e => negb (is_flood e)) (map (fun s => FloodBlocked (IP s) (ConnRate s)) due) = [].
Proof. by induction due as [| s due IH]. Qed.

(** an outage of the edge costs nothing: the flood events are exactly those of the polls
    that succeeded, as if the others had not been made, so no cooldown is lost; and the
    outage itself is reported once when it starts and once when it ends, however many
    polls it lasts. *)
Theorem hapwatch_outages w l failing :
  List.filter is_flood (concat (hapwatch (failing, w) l)) = flood_log w (polls_ok l) /\
  zlen (List.filter (fun e => negb (is_flood e)) (concat (hapwatch (failing, w) l))) = outages failing l.
Proof.
  revert w failing. induction l as [| [[srcs | err] now] l IH]; intros w failing; [done | |]; cbn [hapwatch hapwatch_step].
  - destruct (Flooding w srcs now) as [due w'] eqn:E. cbn [concat]. destruct (IH w' false) as [H1 H2].
    rewrite !List.filter_app, H1. unfold polls_ok. cbn [omap list_omap fst snd flood_log outages]. rewrite E, filter_floods, filter_no_floods.
    split; [by destruct failing |]. rewrite !zlen_app, H2. change (zlen []) with 0. rewrite Z.add_0_r. f_equal. by destruct failing.
  - cbn [concat]. destruct (IH w true) as [H1 H2]. rewrite !List.filter_app, H1, zlen_app, H2. cbn [outages]. by destruct failing.
Qed.
