(* ===== verification/Seccomp.v ===== *)
(** * Seccomp: the system-call filter (cmd/sweetty/seccomp_linux.go)

    The filter is a classic BPF program over the kernel's [seccomp_data].  The constants
    of golang.org/x/sys/unix are parameters.  The kernel that runs the program is one too:
    [verdict prog pc acc nr arch] is what it answers when the program is at instruction
    [pc] with [acc] in the accumulator, and the hypotheses are the documented meaning of
    the three kinds of instruction the program uses. *)

From S2P Require Import Prelude.

Definition seccompDataNR : Z := 0.
Definition seccompDataArch : Z := 4.

(** The audit architectures of the two builds. *)
Definition auditArch_amd64 : Z := 0xC000003E.
Definition auditArch_arm64 : Z := 0xC00000B7.

Record SockFilter : Type := Insn { Code : Z; Jt : nat; Jf : nat; K : Z }.
Record bpf : Type := Bpf { LD_W_ABS : Z; JMP_JEQ_K : Z; RET_K : Z; RET_KILL : Z; RET_ALLOW : Z }.

Section filter.
Context (B : bpf) (auditArch : Z) (denied : list Z).

(** The entry of one denied call. *)
Definition deny (nr : Z) : list SockFilter := [Insn (JMP_JEQ_K B) 0 1 nr; Insn (RET_K B) 0 0 (RET_KILL B)].
Definition filter_head : list SockFilter :=
  [Insn (LD_W_ABS B) 0 0 seccompDataArch; Insn (JMP_JEQ_K B) 1 0 auditArch; Insn (RET_K B) 0 0 (RET_KILL B);
   Insn (LD_W_ABS B) 0 0 seccompDataNR].
Definition lockdown_filter : list SockFilter :=
  filter_head ++ flat_map deny denied ++ [Insn (RET_K B) 0 0 (RET_ALLOW B)].

(** What the kernel does with it. *)
Context (verdict : list SockFilter -> nat -> Z -> Z -> Z -> option Z).
Record kernel : Prop := Kernel {
  k_load prog pc acc nr arch jt jf k : prog !! pc = Some (Insn (LD_W_ABS B) jt jf k) ->
    verdict prog pc acc nr arch = verdict prog (S pc) (if k =? seccompDataNR then nr else if k =? seccompDataArch then arch else 0) nr arch;
  k_jeq prog pc acc nr arch jt jf k : prog !! pc = Some (Insn (JMP_JEQ_K B) jt jf k) ->
    verdict prog pc acc nr arch = verdict prog (S pc + (if (acc =? k)%Z then jt else jf))%nat acc nr arch;
  k_ret prog pc acc nr arch jt jf k : prog !! pc = Some (Insn (RET_K B) jt jf k) -> verdict prog pc acc nr arch = Some k
}.

Lemma deny_length : length (flat_map deny denied) = (2 * length denied)%nat.
Proof using. induction denied as [| x l IH]; [done |]. cbn [flat_map]. rewrite length_app, IH. simpl. lia. Qed.

(** The run of comparisons, from the [i]-th denied call on. *)
Lemma deny_run (Hk : kernel) nr arch rest : forall pre l post,
  rest = flat_map deny l ++ post ->
  (forall k, post !! 0%nat = Some (Insn (RET_K B) 0 0 k) ->
   verdict (pre ++ rest) (length pre) nr nr arch = Some (if bool_decide (nr ∈ l) then RET_KILL B else k)).
Proof using.
  intros pre l. revert pre rest. induction l as [| x l IH]; intros pre rest post -> k Hp.
  - rewrite bool_decide_eq_false_2 by set_solver. cbn [flat_map app].
    eapply (k_ret Hk). by rewrite lookup_app_r, Nat.sub_diag by lia.
  - assert ((pre ++ flat_map deny (x :: l) ++ post) !! length pre = Some (Insn (JMP_JEQ_K B) 0 1 x)) as Hj
      by (rewrite lookup_app_r, Nat.sub_diag by lia; done).
    assert ((pre ++ flat_map deny (x :: l) ++ post) !! S (length pre) = Some (Insn (RET_K B) 0 0 (RET_KILL B))) as Hr
      by (rewrite lookup_app_r by lia; by replace (S (length pre) - length pre)%nat with 1%nat by lia).
    rewrite (k_jeq Hk _ _ _ _ _ _ _ _ Hj). destruct (nr =? x) eqn:E; bool_hyps.
    + subst. rewrite Nat.add_0_r, (k_ret Hk _ _ _ _ _ _ _ _ Hr). by rewrite bool_decide_eq_true_2 by set_solver.
    + replace (S (length pre) + 1)%nat with (length (pre ++ deny x)) by (rewrite length_app; simpl; lia).
      replace (pre ++ flat_map deny (x :: l) ++ post) with ((pre ++ deny x) ++ flat_map deny l ++ post)
        by (cbn [flat_map]; by rewrite <- !app_assoc).
      rewrite (IH (pre ++ deny x) _ post eq_refl k Hp). f_equal.
      assert (bool_decide (nr ∈ l) = bool_decide (nr ∈ x :: l)) as -> by (apply bool_decide_ext; set_solver). done.
Qed.

(** The verdict of the filter on one call. *)
Lemma filter_verdict nr arch :
  kernel ->
  verdict lockdown_filter 0 0 nr arch =
    Some (if negb (arch =? auditArch) then RET_KILL B else if bool_decide (nr ∈ denied) then RET_KILL B else RET_ALLOW B).
Proof using.
  intros Hk. unfold lockdown_filter.
  rewrite (k_load Hk _ 0%nat 0 nr arch 0 0 seccompDataArch) by done. change (seccompDataArch =? seccompDataNR) with false.
  change (seccompDataArch =? seccompDataArch) with true. cbn iota.
  rewrite (k_jeq Hk _ 1%nat arch nr arch 1 0 auditArch) by done. destruct (arch =? auditArch); cbn [negb].
  - rewrite (k_load Hk _ 3%nat arch nr arch 0 0 seccompDataNR) by done. change (seccompDataNR =? seccompDataNR) with true. cbn iota.
    exact (deny_run Hk nr arch _ filter_head denied [Insn (RET_K B) 0 0 (RET_ALLOW B)] eq_refl (RET_ALLOW B) eq_refl).
  - by rewrite (k_ret Hk _ 2%nat arch nr arch 0 0 (RET_KILL B)).
Qed.

End filter.

(** ** The x32 numbers

    A call made through the x32 ABI of an x86-64 kernel reports the same architecture as
    a native one; its number has bit 30 set. *)
Definition x32_bit : Z := 2 ^ 30.

(** the architecture check does not close the x32 door: on x86-64, every denied call is
    allowed when it is made under its x32 number. *)
Theorem x32_calls_are_allowed B denied verdict nr :
  kernel B verdict -> Forall (fun n => 0 <= n < x32_bit) denied -> 0 <= nr < x32_bit ->
  verdict (lockdown_filter B auditArch_amd64 denied) 0%nat 0 (Z.lor nr x32_bit) auditArch_amd64 = Some (RET_ALLOW B).
Proof.
  intros Hk Hd Hnr. rewrite filter_verdict by done. rewrite Z.eqb_refl. cbn [negb].
  rewrite bool_decide_eq_false_2; [done |]. intros Hin. rewrite Forall_forall in Hd. specialize (Hd _ Hin).
  assert (Z.testbit (Z.lor nr x32_bit) 30 = true) as H1 by (rewrite Z.lor_spec; apply orb_true_iff; right; by unfold x32_bit; rewrite Z.pow2_bits_true).
  assert (Z.testbit (Z.lor nr x32_bit) 30 = false) as H2; [| congruence].
  rewrite Z.testbit_eqb by lia. apply Z.eqb_neq. fold x32_bit. rewrite Z.div_small by done. done.
Qed.

(** A kernel, the constants and the denied calls of linux/amd64. *)
Definition linux : bpf := Bpf 0x20 0x15 0x06 0x80000000 0x7fff0000.
Definition denied_amd64 : list Z := [59; 322; 101; 175; 313; 176; 246].
Fixpoint interp (fuel : nat) (prog : list SockFilter) (pc : nat) (acc nr arch : Z) : option Z :=
  match fuel with
  | O => None
  | S f =>
      match prog !! pc with
      | None => None
      | Some i =>
          if Code i =? LD_W_ABS linux then interp f prog (S pc) (if K i =? seccompDataNR then nr else if K i =? seccompDataArch then arch else 0) nr arch
          else if Code i =? JMP_JEQ_K linux then interp f prog (S pc + (if (acc =? K i)%Z then Jt i else Jf i))%nat acc nr arch
          else if Code i =? RET_K linux then Some (K i) else None
      end
  end.
(** Jumps only go forward, so the instructions left are fuel enough. *)
Definition linux_verdict (prog : list SockFilter) (pc : nat) (acc nr arch : Z) : option Z :=
  interp (length prog - pc) prog pc acc nr arch.
Lemma interp_fuel f1 : forall f2 prog pc acc nr arch,
  (length prog - pc <= f1)%nat -> (length prog - pc <= f2)%nat -> interp f1 prog pc acc nr arch = interp f2 prog pc acc nr arch.
Proof.
  assert (forall f prog pc acc nr arch, (length prog <= pc)%nat -> interp f prog pc acc nr arch = None) as H0.
  { intros [| f] prog pc acc nr arch H; [done |]. cbn [interp]. by rewrite (proj2 (lookup_ge_None prog pc)) by lia. }
  induction f1 as [| f1 IH]; intros f2 prog pc acc nr arch H1 H2; [by rewrite !H0 by lia |].
  destruct f2 as [| f2]; [by rewrite !H0 by lia |]. cbn [interp]. destruct (prog !! pc) as [i |]; [| done].
  destruct (_ =? _); [apply IH; lia |]. destruct (_ =? _); [apply IH; lia | done].
Qed.
Lemma linux_kernel : kernel linux linux_verdict.
Proof.
  assert (forall (prog : list SockFilter) pc i, prog !! pc = Some i -> exists f, (length prog - pc)%nat = S f) as Hf.
  { intros prog pc i H. apply lookup_lt_Some in H. exists (length prog - pc - 1)%nat. lia. }
  split; intros prog pc acc nr arch jt jf k H; unfold linux_verdict; destruct (Hf _ _ _ H) as [f Ef]; rewrite Ef; cbn [interp]; rewrite H; cbn [Code K Jt Jf].
  - change (LD_W_ABS linux =? LD_W_ABS linux) with true. cbn iota. apply interp_fuel; lia.
  - change (JMP_JEQ_K linux =? LD_W_ABS linux) with false. change (JMP_JEQ_K linux =? JMP_JEQ_K linux) with true. cbn iota. apply interp_fuel; lia.
  - done.
Qed.

Lemma x32_calls_are_allowed_witness :
  linux_verdict (lockdown_filter linux auditArch_amd64 denied_amd64) 0%nat 0 (Z.lor 520 x32_bit) auditArch_amd64 = Some (RET_ALLOW linux).
Proof.
  apply (x32_calls_are_allowed linux denied_amd64 linux_verdict 520 linux_kernel); [| by unfold x32_bit].
  unfold denied_amd64, x32_bit. repeat (constructor; [by split |]). constructor.
Defined.
