(* ===== verification/HttpPages.v ===== *)
(** * HttpPages: the pages the HTTP personas serve (internal/proto/http/http.go)

    Each page is the text of the source with the persona's fields in the place of the
    format verbs.  [Q] turns the tildes of a literal into double quotes; no page has a
    tilde of its own.  [EscapeString] is [html.EscapeString]. *)

From S2P Require Import Prelude GoStrings Persona.

Definition Q (s : str) : str := map (fun c => if bool_decide (c = "~"%char) then zb 34 else c) s.

Definition escape_byte (c : ascii) : str :=
  if bool_decide (c = "&"%char) then $$"&amp;"
  else if bool_decide (c = "'"%char) then $$"&#39;"
  else if bool_decide (c = "<"%char) then $$"&lt;"
  else if bool_decide (c = ">"%char) then $$"&gt;"
  else if bool_decide (c = zb 34) then $$"&#34;"
  else [c].
Definition EscapeString (s : str) : str := flat_map escape_byte s.

Definition wpSecretsPage (art : str) (p : Persona) : str :=
  Q $$"<!DOCTYPE html>
<html lang=~en-US~>
<head>
<meta charset=~UTF-8~>
<meta name=~viewport~ content=~width=device-width, initial-scale=1.0~>
<title>Dashboard &lsaquo; " ++
  EscapeString (Hostname p) ++
  Q $$" &mdash; WordPress</title>
<style>
body{margin:0;background:#1d2327;color:#f0f0f1;font-family:-apple-system,BlinkMacSystemFont,~Segoe UI~,Roboto,Helvetica,Arial,sans-serif;font-size:13px}
#wpwrap{padding:20px}
h1{font-weight:400;font-size:23px;margin:0 0 8px}
.caca{overflow:auto}
</style>
</head>
<body class=~wp-admin wp-core-ui~>
<div id=~wpwrap~>
<h1>Dashboard</h1>
<p>Howdy, admin. You did the work. Here are the secrets.</p>
<div class=~caca~>" ++
  art ++
  Q $$"</div>
</div>
</body>
</html>".

Definition wpBackupPage (art : str) (p : Persona) : str :=
  Q $$"<!DOCTYPE html>
<html lang=~en-US~>
<head>
<meta charset=~UTF-8~>
<meta name=~viewport~ content=~width=device-width, initial-scale=1.0~>
<title>Backups &lsaquo; " ++
  EscapeString (Hostname p) ++
  Q $$" &mdash; WordPress</title>
<style>
body{margin:0;background:#1d2327;color:#f0f0f1;font-family:-apple-system,BlinkMacSystemFont,~Segoe UI~,Roboto,Helvetica,Arial,sans-serif;font-size:13px}
#wpwrap{padding:20px}
h1{font-weight:400;font-size:23px;margin:0 0 8px}
.caca{overflow:auto}
</style>
</head>
<body class=~wp-admin wp-core-ui~>
<div id=~wpwrap~>
<h1>Backups</h1>
<p>You really kept digging. Here is the backup.</p>
<div class=~caca~>" ++
  art ++
  Q $$"</div>
</div>
</body>
</html>".

Definition wpFrontPage (p : Persona) : str :=
  Q $$"<!DOCTYPE html>
<html lang=~en-US~>
<head>
<meta charset=~UTF-8~>
<meta name=~viewport~ content=~width=device-width, initial-scale=1~>
<meta name=~generator~ content=~WordPress " ++
  WPVer p ++
  Q $$"~>
<title>" ++
  Hostname p ++
  Q $$" | Just another WordPress site</title>
<link rel=~stylesheet~ id=~wp-block-library-css~ href=~/wp-includes/css/dist/block-library/style.min.css?ver=" ++
  WPVer p ++
  Q $$"~ media=~all~>
</head>
<body class=~home blog wp-embed-responsive~>
<header class=~site-header~>
<h1 class=~site-title~><a href=~/~ rel=~home~>" ++
  Hostname p ++
  Q $$"</a></h1>
<p class=~site-description~>Just another WordPress site</p>
</header>
<main id=~main~ class=~site-main~>
<article class=~post-1 post type-post status-publish~>
<h2 class=~entry-title~><a href=~/?p=1~ rel=~bookmark~>Hello world!</a></h2>
<div class=~entry-content~><p>Welcome to WordPress. This is your first post. Edit or delete it, then start writing!</p></div>
</article>
</main>
<footer class=~site-footer~><p>Proudly powered by <a href=~https://wordpress.org/~>WordPress</a></p></footer>
</body>
</html>
".

Definition wpLoginPage (p : Persona) : str :=
  Q $$"<!DOCTYPE html>
<html lang=~en-US~>
<head>
<meta charset=~UTF-8~>
<meta name=~viewport~ content=~width=device-width, initial-scale=1.0~>
<meta name=~robots~ content=~noindex, follow~>
<title>Log In | " ++
  Hostname p ++
  Q $$"</title>
<link rel=~stylesheet~ href=~/wp-admin/css/login.min.css?ver=" ++
  WPVer p ++
  Q $$"~ media=~all~>
</head>
<body class=~login no-js login-action-login wp-core-ui locale-en-us~>
<div id=~login~>
<h1><a href=~https://wordpress.org/~>Powered by WordPress</a></h1>
<form name=~loginform~ id=~loginform~ action=~/wp-login.php~ method=~post~>
<p><label for=~user_login~>Username or Email Address</label>
<input type=~text~ name=~log~ id=~user_login~ class=~input~ value=~~ size=~20~ autocapitalize=~off~ autocomplete=~username~></p>
<div class=~user-pass-wrap~>
<label for=~user_pass~>Password</label>
<input type=~password~ name=~pwd~ id=~user_pass~ class=~input password-input~ value=~~ size=~20~ autocomplete=~current-password~></div>
<p class=~forgetmenot~><input name=~rememberme~ type=~checkbox~ id=~rememberme~ value=~forever~> <label for=~rememberme~>Remember Me</label></p>
<p class=~submit~>
<input type=~submit~ name=~wp-submit~ id=~wp-submit~ class=~button button-primary button-large~ value=~Log In~>
<input type=~hidden~ name=~redirect_to~ value=~/wp-admin/~>
<input type=~hidden~ name=~testcookie~ value=~1~></p>
</form>
<p id=~nav~><a href=~/wp-login.php?action=lostpassword~>Lost your password?</a></p>
<p id=~backtoblog~><a href=~/~>Go to " ++
  Hostname p ++
  Q $$"</a></p>
</div>
</body>
</html>
".

Definition wpReadme (p : Persona) : str :=
  Q $$"<!DOCTYPE html>
<html>
<head>
<meta charset=~UTF-8~>
<title>WordPress ReadMe</title>
</head>
<body>
<h1 id=~logo~>WordPress</h1>
<p style=~text-align: center;~>Semantic Personal Publishing Platform</p>
<h2>Version " ++
  WPVer p ++
  Q $$"</h2>
<p>Using WordPress, you can build great websites quickly.</p>
<h3>Installation: Famous 5-minute install</h3>
<ol>
<li>Unzip the package in an empty directory and upload everything.</li>
<li>Open wp-admin/install.php in your browser.</li>
</ol>
</body>
</html>
".

Definition apache501Body (meth : str) : str :=
  Q $$"<!DOCTYPE HTML PUBLIC ~-//W3C//DTD HTML 4.01//EN~ ~http://www.w3.org/TR/html4/strict.dtd~>
<html><head>
<title>501 Not Implemented</title>
</head><body>
<h1>Not Implemented</h1>
<p>" ++
  EscapeString meth ++
  Q $$" not supported for current URL.<br />
</p>
</body></html>
".

Definition wp404 (p : Persona) : str :=
  Q $$"<!DOCTYPE html>
<html lang=~en-US~>
<head>
<meta charset=~UTF-8~>
<meta name=~viewport~ content=~width=device-width, initial-scale=1~>
<meta name=~generator~ content=~WordPress " ++
  WPVer p ++
  Q $$"~>
<title>Page not found | " ++
  Hostname p ++
  Q $$"</title>
</head>
<body class=~error404~>
<header class=~site-header~><h1 class=~site-title~><a href=~/~ rel=~home~>" ++
  Hostname p ++
  Q $$"</a></h1></header>
<main id=~main~ class=~site-main~>
<h2 class=~page-title~>Oops! That page can't be found.</h2>
<p>It looks like nothing was found at this location. Maybe try a search?</p>
</main>
</body>
</html>
".

Definition xmlrpcFault : str :=
  Q $$"<?xml version=~1.0~ encoding=~UTF-8~?>
<methodResponse>
  <fault>
    <value>
      <struct>
        <member>
          <name>faultCode</name>
          <value><int>-32700</int></value>
        </member>
        <member>
          <name>faultString</name>
          <value><string>parse error. not well formed</string></value>
        </member>
      </struct>
    </value>
  </fault>
</methodResponse>
".

Definition tomcatHome (p : Persona) : str :=
  Q $$"<!DOCTYPE html>
<html lang=~en~>
<head>
<meta charset=~UTF-8~>
<title>Apache Tomcat/" ++
  TomcatVer p ++
  Q $$"</title>
<link href=~/manager/images/tomcat.css~ rel=~stylesheet~ type=~text/css~>
</head>
<body>
<div id=~wrapper~>
<div id=~navigation~ class=~curved~>
<span id=~nav-home~><a href=~https://tomcat.apache.org/~>Home</a></span>
<span id=~nav-hosts~><a href=~https://tomcat.apache.org/whichversion.html~>Documentation</a><a href=~https://tomcat.apache.org/configuration.html~>Configuration</a><a href=~https://tomcat.apache.org/examples.html~>Examples</a><a href=~https://wiki.apache.org/tomcat/FrontPage~>Wiki</a><a href=~https://tomcat.apache.org/lists.html~>Mailing Lists</a></span>
<span id=~nav-help~><a href=~https://tomcat.apache.org/findhelp.html~>Find Help</a></span>
</div>
<div id=~asf-box~><h1>Apache Tomcat/" ++
  TomcatVer p ++
  Q $$"</h1></div>
<div id=~upgrade~><p>If you're seeing this, you've successfully installed Tomcat. Congratulations!</p></div>
<div id=~actions~>
<a href=~/manager/status~>Server Status</a>
<a href=~/manager/html~>Manager App</a>
<a href=~/host-manager/html~>Host Manager</a>
</div>
</div>
</body>
</html>
".

Definition tomcat401 : str :=
  Q $$"<!doctype html><html lang=~en~><head><title>401 Unauthorized</title><style type=~text/css~>body {font-family:Tahoma,Arial,sans-serif;} h1 {background-color:#525D76;color:white;}</style></head><body><h1>401 Unauthorized</h1><hr class=~line~><p>You are not authorized to view this page. If you have not changed any configuration files, please examine the file conf/tomcat-users.xml in your installation.</p></body></html>".

Definition tomcat404 (p : Persona) : str :=
  Q $$"<!doctype html><html lang=~en~><head><title>HTTP Status 404 – Not Found</title><style type=~text/css~>body {font-family:Tahoma,Arial,sans-serif;} h1, h2, h3, b {color:white;background-color:#525D76;} h1 {font-size:22px;} h2 {font-size:16px;} h3 {font-size:14px;} p {font-size:12px;} a {color:black;} .line {height:1px;background-color:#525D76;border:none;}</style></head><body><h1>HTTP Status 404 – Not Found</h1><hr class=~line~ /><p><b>Type</b> Status Report</p><p><b>Description</b> The origin server did not find a current representation for the target resource or is not willing to disclose that one exists.</p><hr class=~line~ /><h3>Apache Tomcat/" ++
  TomcatVer p ++
  Q $$"</h3></body></html>".

Definition nginxDefaultIndex : str :=
  Q $$"<!DOCTYPE html>
<html>
<head>
<title>Welcome to nginx!</title>
<style>
html { color-scheme: light dark; }
body { width: 35em; margin: 0 auto;
font-family: Tahoma, Verdana, Arial, sans-serif; }
</style>
</head>
<body>
<h1>Welcome to nginx!</h1>
<p>If you see this page, the nginx web server is successfully installed and
working. Further configuration is required.</p>

<p>For online documentation and support please refer to
<a href=~http://nginx.org/~>nginx.org</a>.<br/>
Commercial support is available at
<a href=~http://nginx.com/~>nginx.com</a>.</p>

<p><em>Thank you for using nginx.</em></p>
</body>
</html>
".

Definition nginxErrorPage (p : Persona) (title : str) : str :=
  Q $$"<html>
<head><title>" ++
  title ++
  Q $$"</title></head>
<body>
<center><h1>" ++
  title ++
  Q $$"</h1></center>
<hr><center>nginx/" ++
  NginxVer p ++
  Q $$"</center>
</body>
</html>
".

Definition wpRobots : str :=
  $$"User-agent: *" ++ [zb 10] ++ $$"Disallow: /wp-admin/" ++ [zb 10] ++ $$"Allow: /wp-admin/admin-ajax.php" ++ [zb 10].

(** The default index is the 615-byte file nginx ships, as its ETag (0x267) says. *)
Example nginx_index_length : zlen nginxDefaultIndex = 615.
Proof. reflexivity. Qed.
