(* ===== verification/Http.v ===== *)
(** * Http: the web service (internal/proto/http, internal/proto/https)

    One request per connection: read, log, answer.  [World] gives SHA-256, [md5] is
    its parameter, [date] the formatted clock at the answer; the two embedded pictures
    are parameters.  The regular expressions are written out as the leftmost-first
    matchers they denote. *)

From S2P Require Import Prelude GoStrings VfsNode VfsSession Util Event Session Base64 StableSort Persona ShellState Shell HttpPages.

Definition loginPageDelay : Z := 200.
Definition loginPostDelay : Z := 3000.
Definition xmlrpcPostDelay : Z := 2000.
Definition notFoundDelay : Z := 500.
Definition managerAuthDelay : Z := 2000.
Definition exploitDelay : Z := 400.
Definition maxBodyBytes : Z := 65536.
Definition maxHeaders : nat := 100.
Definition crlf : str := [zb 13; zb 10].
Definition dq : str := [zb 34].

(** ** Requests *)

Definition parseRequestLine (line : str) : str * str :=
  let fs := fields line in
  let meth := match fs with m :: _ => to_upper m | [] => [] end in
  let path := match fs with _ :: p :: _ => p | _ => [] end in
  (meth, if path =s [] then $$"/" else path).

Definition splitHeader (line : str) : option (str * str) :=
  match index_byte line ":"%char with
  | Some i => Some (trim_space (take i line), trim_space (drop (S i) line))
  | None => None
  end.

Definition atoiSafe (s : str) : Z :=
  match atoi (trim_space s) with (n, true) => if n <? 0 then 0 else n | _ => 0 end.

Definition readBody (s : sess) (contentLength : Z) : str * sess :=
  if contentLength <=? 0 then ([], s)
  else ReadN (if maxBodyBytes <? contentLength then maxBodyBytes else contentLength) s.

Definition pathOnly (target : str) : str :=
  match index_any target $$"?#" with Some i => take i target | None => target end.

Fixpoint readHeaders (n : nat) (headers : gmap str str) (s : sess) : gmap str str * sess :=
  match n with
  | O => (headers, s)
  | S n =>
      let '(line, lok, s) := ReadLine s in
      if line =s [] then (headers, s)
      else
        let headers := match splitHeader line with Some (k, v) => <[to_lower k := v]> headers | None => headers end in
        if negb lok then (headers, s) else readHeaders n headers s
  end.

Definition headersOnly (resp : str) : str :=
  match index_str resp (crlf ++ crlf) with Some i => take (i + 4) resp | None => resp end.

(** ** Responses *)

Definition hdr : Type := str * str.
Definition header_line (h : hdr) : str := h.1 ++ $$": " ++ h.2 ++ crlf.
Definition httpHead (status : Z) (reason : str) (headers : list hdr) (body : str) : str :=
  $$"HTTP/1.1 " ++ itoa status ++ $$" " ++ reason ++ crlf ++ flat_map header_line headers ++ crlf ++ body.

Definition canonicalHeaderOrder : list str :=
  [$$"X-Powered-By"; $$"Link"; $$"Expires"; $$"Cache-Control"; $$"Set-Cookie"; $$"X-Frame-Options";
   $$"Content-Security-Policy"; $$"Referrer-Policy"; $$"Location"; $$"WWW-Authenticate"; $$"Allow";
   $$"Last-Modified"; $$"ETag"; $$"Accept-Ranges"; $$"Vary"].
Definition contentLength (body : str) : hdr := ($$"Content-Length", itoa (zlen body)).
Definition contentType (ct : str) : list hdr := if ct =s [] then [] else [($$"Content-Type", ct)].

Definition key_less (a b : str) : bool := negb (str_le b a).
(** The headers of [extra] in canonical order, then the others by name; the map's
    iteration order is undone by the sort. *)
Definition orderedExtras (extra : gmap str str) : list hdr :=
  let known := omap (fun k => (fun v => (k, v)) <$> extra !! k) canonicalHeaderOrder in
  let emitted k := (k =s $$"Server") || bool_decide (k ∈ map fst known) in
  let rest := stable_sort key_less (List.filter (fun k => negb (emitted k)) (map fst (map_to_list extra))) in
  known ++ map (fun k => (k, default [] (extra !! k))) rest.

Definition withHeader (base : gmap str str) (key value : str) : gmap str str := <[key := value]> base.

Section responses.
Context (date : str).

Definition nginxResponse (status : Z) (reason ct body : str) (extra : gmap str str) : str :=
  httpHead status reason
    ([($$"Server", default [] (extra !! $$"Server")); ($$"Date", date)] ++ contentType ct ++ [contentLength body] ++
     orderedExtras extra ++ [($$"Connection", $$"close")]) body.
Definition apacheResponse (status : Z) (reason ct body : str) (extra : gmap str str) : str :=
  let server := default [] (extra !! $$"Server") in
  httpHead status reason
    ([($$"Date", date)] ++ (if server =s [] then [] else [($$"Server", server)]) ++ orderedExtras extra ++
     [contentLength body] ++ contentType ct ++ [($$"Connection", $$"close")]) body.
Definition tomcatResponse (status : Z) (reason ct body : str) (extra : gmap str str) : str :=
  httpHead status reason
    (contentType ct ++ [($$"Content-Language", $$"en"); contentLength body; ($$"Date", date)] ++ orderedExtras extra ++
     [($$"Connection", $$"close")]) body.
End responses.

(** ** The WordPress trap *)

Definition wpBreakInAfter : Z := 5.
Definition wpTrackCap : Z := 50000.
Definition wpDeepAfter : Z := 10.

Record trap : Type := Trap { wpTries : gmap str Z; wpBroken : gset str; wpAdminHits : gmap str Z; wpRevealLogged : gset str }.
Definition no_trap : trap := Trap ∅ ∅ ∅ ∅.

Definition wpLetIn (srcIP : str) (t : trap) : bool * trap :=
  if bool_decide (srcIP ∈ wpBroken t) then (true, t)
  else if negb (bool_decide (is_Some (wpTries t !! srcIP))) && (wpTrackCap <=? Z.of_nat (size (wpTries t))) then (false, t)
  else
    let n := default 0 (wpTries t !! srcIP) + 1 in
    if wpBreakInAfter <=? n
    then (true, Trap (delete srcIP (wpTries t)) ({[srcIP]} ∪ wpBroken t) (wpAdminHits t) (wpRevealLogged t))
    else (false, Trap (<[srcIP := n]> (wpTries t)) (wpBroken t) (wpAdminHits t) (wpRevealLogged t)).

Definition wpBrokenIn (srcIP : str) (t : trap) : bool := bool_decide (srcIP ∈ wpBroken t).

Inductive reveal : Type := NoReveal | First | Deep.
Definition wpAdminReveal (srcIP : str) (t : trap) : reveal * trap :=
  if negb (wpBrokenIn srcIP t) then (NoReveal, t)
  else
    let n := default 0 (wpAdminHits t !! srcIP) + 1 in
    (if wpDeepAfter <=? n then Deep else First,
     Trap (wpTries t) (wpBroken t) (<[srcIP := n]> (wpAdminHits t)) (wpRevealLogged t)).

Definition wpLogReveal (srcIP : str) (t : trap) : bool * trap :=
  if bool_decide (srcIP ∈ wpRevealLogged t) then (false, t)
  else (true, Trap (wpTries t) (wpBroken t) (wpAdminHits t) ({[srcIP]} ∪ wpRevealLogged t)).

(** ** Form decoding ([net/url]) *)

Fixpoint QueryUnescape (s : str) : option str :=
  match s with
  | [] => Some []
  | "%"%char :: s' =>
      match s' with
      | a :: b :: s'' =>
          match unhex a, unhex b, QueryUnescape s'' with
          | Some x, Some y, Some r => Some (zb (x * 16 + y) :: r)
          | _, _, _ => None
          end
      | _ => None
      end
  | "+"%char :: s' => (fun r => " "%char :: r) <$> QueryUnescape s'
  | c :: s' => (fun r => c :: r) <$> QueryUnescape s'
  end.

(** One pair of a query: [Some None] for an empty piece, [None] an error. *)
Definition query_pair (piece : str) : option (option (str * str)) :=
  if bool_decide (";"%char ∈ piece) then None
  else if piece =s [] then Some None
  else
    let '(k, v) := match index_byte piece "="%char with Some i => (take i piece, drop (S i) piece) | None => (piece, []) end in
    match QueryUnescape k, QueryUnescape v with
    | Some k, Some v => Some (Some (k, v))
    | _, _ => None
    end.
Fixpoint ParseQuery (pieces : list str) : option (list (str * str)) :=
  match pieces with
  | [] => Some []
  | piece :: rest =>
      match query_pair piece, ParseQuery rest with
      | Some (Some kv), Some l => Some (kv :: l)
      | Some None, Some l => Some l
      | _, _ => None
      end
  end.
Definition form_get (l : list (str * str)) (k : str) : str :=
  match List.find (fun kv => kv.1 =s k) l with Some (_, v) => v | None => [] end.
Definition parseWPLogin (body : str) : str * str :=
  match ParseQuery (split_byte "&"%char body) with
  | Some l => (form_get l $$"log", form_get l $$"pwd")
  | None => ([], [])
  end.

(** ** Exploits *)

Definition re_space (c : ascii) : bool := bool_decide (c ∈ [zb 9; zb 10; zb 12; zb 13; " "%char]).
Definition is_quote (c : ascii) : bool := bool_decide (c = zb 34) || bool_decide (c = "'"%char).
Definition b64_class (c : ascii) : bool := is_lower c || is_upper c || is_digit c || bool_decide (c ∈ $$"+/=").

(** [re_opening w]: the word, spaces, an opening parenthesis, spaces. *)
Definition after_word (w s : str) : option str := if has_prefix s w then Some (drop (length w) s) else None.
Definition open_paren (s : str) : option str :=
  match drop_while re_space s with
  | "("%char :: s' => Some (drop_while re_space s')
  | _ => None
  end.
Definition call_of (w s : str) : option str := after_word w s ≫= open_paren.
Fixpoint first_call (ws : list str) (s : str) : option str :=
  match ws with
  | [] => None
  | w :: ws => match call_of w s with Some r => Some r | None => first_call ws s end
  end.
(** At the first position where the matcher succeeds. *)
Fixpoint leftmost {A} (m : str -> option A) (s : str) : option A :=
  match m s with
  | Some a => Some a
  | None => match s with [] => None | _ :: s' => leftmost m s' end
  end.

(** A quoted argument whose text is in the class. *)
Definition take_while (f : ascii -> bool) (s : str) : str := take (length s - length (drop_while f s)) s.
Definition quoted_class (s : str) : option str :=
  match s with
  | q :: s' =>
      if is_quote q then
        match take_while b64_class s', drop_while b64_class s' with
        | (_ :: _) as w, q' :: _ => if is_quote q' then Some w else None
        | _, _ => None
        end
      else None
  | [] => None
  end.
(** The shortest non-empty text up to a quote, spaces and a closing parenthesis. *)
Definition closes (s : str) : bool :=
  match s with
  | q :: s' => is_quote q && match drop_while re_space s' with ")"%char :: _ => true | _ => false end
  | [] => false
  end.
Fixpoint lazy_text (s : str) : option str :=
  match s with
  | [] => None
  | c :: s' =>
      if bool_decide (c = zb 10) then None
      else if closes s' then Some [c] else (fun t => c :: t) <$> lazy_text s'
  end.
Definition quoted_lazy (s : str) : option str :=
  match s with q :: s' => if is_quote q then lazy_text s' else None | [] => None end.

Definition exec_words : list str := [$$"shell_exec"; $$"system"; $$"passthru"; $$"exec"; $$"popen"].
Definition reBase64Exec (s : str) : option str :=
  leftmost (fun s => (first_call (exec_words ++ [$$"proc_open"]) s ≫= call_of $$"base64_decode") ≫= quoted_class) s.
Definition reLiteralExec (s : str) : option str := leftmost (fun s => first_call exec_words s ≫= quoted_lazy) s.
(** Case is ignored for the function's name only; the text is as it was. *)
Definition reEchoMd5 (s : str) : option str :=
  leftmost (fun s => ((if to_lower (take 3 s) =s $$"md5" then Some (drop 3 s) else None) ≫= open_paren) ≫= quoted_lazy) s.
Definition reThinkVars (s : str) : option str :=
  leftmost (fun s => after_word $$"vars[1][]=" s ≫= fun r =>
    match take_while (fun c => negb (bool_decide (c = "&"%char)) && negb (re_space c)) r with [] => None | w => Some w end) s.

Definition injected_verbs : list str :=
  [$$"wget"; $$"curl"; $$"tftp"; $$"ftpget"; $$"busybox"; $$"chmod"; $$"/bin/"; $$"sh "; $$"|sh"; $$"nc "].
Definition looksLikeInjected (s : str) : bool := existsb (contains s) injected_verbs.

Definition backtick : ascii := zb 96.
Definition commandAfterInjection (s : str) : str :=
  let after_semi s :=
    match index_byte s ";"%char with
    | Some i => let c := trim_space (drop (S i) s) in if looksLikeInjected c then c else []
    | None => []
    end in
  match index_byte s backtick with
  | Some i =>
      let rest := drop (S i) s in
      match index_byte rest backtick with
      | Some j =>
          let c := trim_space (take j rest) in
          if looksLikeInjected c then c else after_semi (drop (S j) rest)
      | None => after_semi s
      end
  | None => after_semi s
  end.

Section exploit.
Context (md5 : str -> str).

(** The command and the marker. *)
Definition extractRCE (path body : str) : option (str * str) :=
  let decoded := default body (QueryUnescape body) in
  let lpath := to_lower path in
  let phpish := contains body $$"<?php" || contains lpath $$"phpunit" || contains lpath $$"eval-stdin" ||
                contains lpath $$"cgi-bin" || contains lpath $$"%add" || contains (to_lower body) $$"allow_url_include" in
  let marker := if phpish then match reEchoMd5 body with Some m => md5 m | None => [] end else [] in
  let injected := let c := commandAfterInjection decoded in if c =s [] then None else Some (c, marker) in
  let php :=
    if phpish then
      match reBase64Exec body ≫= b64_decode true with
      | Some raw => Some (trim_space raw, marker)
      | None =>
          match reLiteralExec body with
          | Some c => Some (trim_space c, marker)
          | None =>
              match injected with
              | Some r => Some r
              | None => if looksLikeInjected decoded then Some (trim_space decoded, marker) else None
              end
          end
      end
    else None in
  let think :=
    if contains lpath $$"invokefunction" || contains (to_lower body) $$"invokefunction" then
      match reThinkVars (path ++ $$"&" ++ body) with
      | Some c => Some (trim_space (default c (QueryUnescape c)), marker)
      | None => None
      end
    else None in
  let router :=
    if contains lpath $$"/goform/" || contains lpath $$"gponform" || contains lpath $$"boaform" ||
       contains lpath $$"/setup.cgi" || contains lpath $$"/hnap1"
    then injected else None in
  match php with
  | Some r => Some r
  | None => match think with Some r => Some r | None => router end
  end.
End exploit.

(** ** The personas *)

(** The body of an embedded document. *)
Definition extractArtBody (doc : str) : str :=
  match index_str doc $$"<body>", last_index_str doc $$"</body>" with
  | Some i, Some j => if (i <? j)%nat then drop (i + 6) (take j doc) else doc
  | _, _ => doc
  end.

Section http.
Context (W : World) (md5 : str -> str) (date : str) (base : option node) (p : Persona) (style : str) (art backup : str).

Definition resp : Type := str * Z.

Definition wpHeaders : gmap str str :=
  list_to_map [($$"Server", $$"Apache/" ++ ApacheVer p ++ $$" (Ubuntu)"); ($$"X-Powered-By", $$"PHP/" ++ PHPVer p)].
Definition wpLoggedInCookie : str :=
  $$"wordpress_logged_in_" ++ take 32 (w_sha256 W ($$"wp-logged-in:" ++ Hostname p)) ++ $$"=admin%7C9999999999%7Chash; path=/; HttpOnly".
Definition html_utf8 : str := $$"text/html; charset=UTF-8".
Definition redirect (h : gmap str str) (location : str) : str := apacheResponse date 302 $$"Found" [] [] (withHeader h $$"Location" location).

Definition wp_front : resp :=
  let h := withHeader wpHeaders $$"Link"
             ($$"<http://" ++ Hostname p ++ $$"/index.php?rest_route=/>; rel=" ++ dq ++ $$"https://api.w.org/" ++ dq) in
  (apacheResponse date 200 $$"OK" html_utf8 (wpFrontPage p) (withHeader h $$"Vary" $$"Accept-Encoding"), 0).
Definition wp_login_page : resp :=
  let h := <[$$"Vary" := $$"Accept-Encoding"]>
           (<[$$"Referrer-Policy" := $$"strict-origin-when-cross-origin"]>
           (<[$$"Content-Security-Policy" := $$"frame-ancestors 'self';"]>
           (<[$$"X-Frame-Options" := $$"SAMEORIGIN"]>
           (<[$$"Set-Cookie" := $$"wordpress_test_cookie=WP%20Cookie%20check; path=/; HttpOnly"]>
           (<[$$"Cache-Control" := $$"no-cache, must-revalidate, max-age=0, no-store, private"]>
           (withHeader wpHeaders $$"Expires" $$"Wed, 11 Jan 1984 05:00:00 GMT")))))) in
  (apacheResponse date 200 $$"OK" html_utf8 (wpLoginPage p) h, loginPageDelay).
Definition wp_login_post (body : str) (s : sess) (t : trap) : resp * sess * trap :=
  let '(user, pass) := parseWPLogin body in
  let '(accepted, t) := wpLetIn (SrcIP s) t in
  let s := LogCredentialResult user pass accepted accepted s in
  let h := if accepted then withHeader (withHeader wpHeaders $$"Location" $$"/wp-admin/") $$"Set-Cookie" wpLoggedInCookie
           else withHeader wpHeaders $$"Location" $$"/wp-login.php?error=invalid_credentials" in
  ((apacheResponse date 302 $$"Found" [] [] h, loginPostDelay), s, t).
Definition wp_admin (s : sess) (t : trap) : resp * sess * trap :=
  let '(r, t) := wpAdminReveal (SrcIP s) t in
  match r with
  | NoReveal => ((redirect wpHeaders $$"/wp-login.php?redirect_to=%2Fwp-admin%2F&reauth=1", 0), s, t)
  | _ =>
      let '(log, t) := wpLogReveal (SrcIP s) t in
      let nm := match r with Deep => $$"deep" | _ => $$"first" end in
      let s := if log then LogHoneytoken $$"jt-reveal:wp-admin" ($$"wordpress break-in reveal (" ++ nm ++ $$")") s else s in
      let page := match r with Deep => wpBackupPage backup p | _ => wpSecretsPage art p end in
      ((apacheResponse date 200 $$"OK" html_utf8 page wpHeaders, loginPageDelay), s, t)
  end.

Definition respondWordPress (meth path body : str) (s : sess) (t : trap) : resp * sess * trap :=
  let route := pathOnly path in
  let post := meth =s $$"POST" in
  let answer status reason ct page h delay := ((apacheResponse date status reason ct page h, delay), s, t) in
  if negb (meth =s $$"GET") && negb (meth =s $$"HEAD") && negb post then
    answer 501 $$"Not Implemented" $$"text/html; charset=iso-8859-1" (apache501Body meth)
      (withHeader wpHeaders $$"Allow" $$"POST,OPTIONS,HEAD,GET,TRACE") 0
  else if route =s $$"/" then (wp_front, s, t)
  else if route =s $$"/wp-login.php" then if post then wp_login_post body s t else (wp_login_page, s, t)
  else if route =s $$"/xmlrpc.php" then
    if post then answer 200 $$"OK" $$"text/xml; charset=UTF-8" xmlrpcFault wpHeaders xmlrpcPostDelay
    else answer 405 $$"Method Not Allowed" $$"text/plain; charset=UTF-8" $$"XML-RPC server accepts POST requests only."
           (withHeader wpHeaders $$"Allow" $$"POST") 0
  else if has_prefix route $$"/wp-admin" then wp_admin s t
  else if route =s $$"/readme.html" then answer 200 $$"OK" html_utf8 (wpReadme p) wpHeaders 0
  else if route =s $$"/robots.txt" then answer 200 $$"OK" $$"text/plain; charset=UTF-8" wpRobots wpHeaders 0
  else answer 404 $$"Not Found" html_utf8 (wp404 p) wpHeaders notFoundDelay.

Definition respondTomcat (path : str) : resp :=
  let ct := $$"text/html;charset=utf-8" in
  let route := pathOnly path in
  if route =s $$"/" then (tomcatResponse date 200 [] ct (tomcatHome p) ∅, 0)
  else if has_prefix route $$"/manager" || has_prefix route $$"/host-manager" then
    (tomcatResponse date 401 [] ct tomcat401
       (withHeader ∅ $$"WWW-Authenticate" ($$"Basic realm=" ++ dq ++ $$"Tomcat Manager Application" ++ dq)), managerAuthDelay)
  else (tomcatResponse date 404 [] ct (tomcat404 p) ∅, 0).

Definition respondNginx (meth path : str) : resp :=
  let h : gmap str str := {[$$"Server" := $$"nginx/" ++ NginxVer p]} in
  if negb (meth =s $$"GET") && negb (meth =s $$"HEAD") then
    (nginxResponse date 405 $$"Not Allowed" $$"text/html" (nginxErrorPage p $$"405 Not Allowed") h, 0)
  else if pathOnly path =s $$"/" then
    (nginxResponse date 200 $$"OK" $$"text/html" nginxDefaultIndex
       (<[$$"Accept-Ranges" := $$"bytes"]> (<[$$"ETag" := dq ++ $$"6434bbbe-267" ++ dq]>
        (withHeader h $$"Last-Modified" $$"Tue, 11 Apr 2023 01:45:34 GMT"))), 0)
  else (nginxResponse date 404 $$"Not Found" $$"text/html" (nginxErrorPage p $$"404 Not Found") h, 0).

(** ** The bridge to the shell *)

Definition rceUser : str := $$"www-data".
Definition runRCE (root : node) (cmd : str) (sg : shared) : str * shared :=
  let '(s, g, tk) := sg in
  let '(out, _, sg) := RunOnceCaptured W root p rceUser $$"ubuntu" None cmd (LogExec ($$"http-rce: " ++ cmd) [] s, g, tk) in
  (out, sg).
Definition rceResponse (out marker : str) : str :=
  apacheResponse date 200 $$"OK" html_utf8 (if marker =s [] then out else marker) wpHeaders.
Definition tryExploit (path body : str) (sg : shared) : option (resp * shared) :=
  match base with
  | None => None
  | Some root =>
      match extractRCE md5 path body with
      | Some (cmd, marker) =>
          if cmd =s [] then None
          else let '(out, sg) := runRCE root cmd sg in Some ((rceResponse out marker, exploitDelay), sg)
      | None => None
      end
  end.

Definition respond (meth path body : str) (sg : shared) (t : trap) : resp * shared * trap :=
  match tryExploit path body sg with
  | Some (r, sg) => (r, sg, t)
  | None =>
      if style =s $$"tomcat" then (respondTomcat path, sg, t)
      else if style =s $$"wordpress" then
        let '(s, g, tk) := sg in
        let '(r, s, t) := respondWordPress meth path body s t in (r, (s, g, tk), t)
      else (respondNginx meth path, sg, t)
  end.

(** [Handle]: the second component is the delay before the answer. *)
Definition Handle (sg : shared) (t : trap) : shared * trap * Z :=
  let '(s, g, tk) := sg in
  let '(requestLine, ok, s) := ReadLine (set_persona s (Hostname p)) in
  if (requestLine =s []) && negb ok then ((s, g, tk), t, 0)
  else
    let '(meth, path) := parseRequestLine requestLine in
    let '(headers, s) := readHeaders maxHeaders ∅ s in
    let s := LogHTTPRequest meth requestLine path headers s in
    let '(body, s) :=
      if meth =s $$"POST" then
        let '(body, s) := readBody s (atoiSafe (default [] (headers !! $$"content-length"))) in
        (body, LogHTTPPost path body (w_sha256 W body) s)
      else ([], s) in
    let '((out, delay), (s, g, tk), t) := respond meth path body (s, g, tk) t in
    ((Write (if meth =s $$"HEAD" then headersOnly out else out) s, g, tk), t, delay).
End http.

(** ** HTTPS *)

Definition captureTimeout : Z := 15 * second.
Definition maxHelloBytes : nat := 128.
Definition is_hello (buf : str) : bool :=
  match buf with a :: b :: _ => bool_decide (a = zb 22) && bool_decide (b = zb 3) | _ => false end.
Definition show_bool (b : bool) : str := if b then $$"true" else $$"false".
(** Up to the tarpit, which only waits. *)
Definition https_Handle (p : Persona) (s : sess) : sess :=
  let s := set_idle (set_persona s (Hostname p)) captureTimeout in
  let '(line, _, s) := ReadLine s in
  let buf := take maxHelloBytes line in
  LogRaw $$"TLS_HELLO" ($$"tls_hello=" ++ show_bool (is_hello buf) ++ $$" hex=" ++ HexDump buf) s.
