(* ===== verification/PortalMux.v ===== *)
(** * PortalMux: the portal's routes (internal/portal/portal.go)

    [engine] registers the handlers on [net/http]'s multiplexer, whose matching is
    written out: literal segments before wildcards before subtrees, HEAD served by GET,
    paths redirected to their clean form.  A request's [rq_path] is the escaped path.
    A handler answers with a [reply]; what [encoding/json] makes of a page is not
    modelled. *)

From S2P Require Import Prelude GoStrings Paths Event Geo Feed Analyze Overview Portal PortalPage Config.

(** ** The multiplexer of [net/http] *)

Inductive segment : Type := Lit (s : str) | Wild (name : str) | Subtree.
Record pattern : Type := Pattern { pt_method : str; pt_segs : list segment }.

(** The segments of a pattern's path: an empty last piece is a subtree. *)
Fixpoint parse_segments (pieces : list str) : list segment :=
  match pieces with
  | [] => []
  | [p] => [if p =s [] then Subtree else if p =s $$"{$}" then Lit [slash]
            else if has_prefix p $$"{" then Wild (take (length p - 2) (drop 1 p)) else Lit p]
  | p :: ps => (if has_prefix p $$"{" then Wild (take (length p - 2) (drop 1 p)) else Lit p) :: parse_segments ps
  end.
Definition parsePattern (s : str) : pattern :=
  match index_byte s " "%char with
  | Some i => Pattern (take i s) (parse_segments (split_byte slash (drop (i + 2) s)))
  | None => Pattern [] (parse_segments (split_byte slash (drop 1 s)))
  end.

(** [url.PathUnescape], and the text itself where that fails. *)
Fixpoint PathUnescape (s : str) : option str :=
  match s with
  | [] => Some []
  | "%"%char :: s' =>
      match s' with
      | a :: b :: s'' =>
          match unhex a, unhex b, PathUnescape s'' with
          | Some x, Some y, Some r => Some (zb (x * 16 + y) :: r)
          | _, _, _ => None
          end
      | _ => None
      end
  | c :: s' => (fun r => c :: r) <$> PathUnescape s'
  end.
Definition pathUnescape (s : str) : str := default s (PathUnescape s).

(** [cleanPath]: a trailing slash survives. *)
Definition cleanPath (p : str) : str :=
  if p =s [] then [slash]
  else
    let p := if has_prefix p [slash] then p else slash :: p in
    let np := path_clean p in
    if has_suffix p [slash] && negb (np =s [slash]) then np ++ [slash] else np.

(** What [firstSegment] takes off a path one by one; a trailing slash is a segment. *)
Fixpoint segment_names (pieces : list str) : list str :=
  match pieces with
  | [] => []
  | [p] => [if p =s [] then [slash] else pathUnescape p]
  | p :: ps => pathUnescape p :: segment_names ps
  end.
Definition path_segments (path : str) : list str :=
  if path =s [] then [] else segment_names (split_byte slash (drop 1 path)).

(** A node of the routing tree is the patterns below it: the segments still to match. *)
Section tree.
Context {H : Type}.
Definition node : Type := list (list segment * (pattern * H)).
Definition lit_child (seg : str) (n : node) : node :=
  omap (fun x => match x.1 with Lit s :: p => if s =s seg then Some (p, x.2) else None | _ => None end) n.
Definition wild_child (n : node) : node :=
  omap (fun x => match x.1 with Wild _ :: p => Some (p, x.2) | _ => None end) n.
Definition leaf (n : node) : option (pattern * H) :=
  head (omap (fun x => match x.1 with [] => Some x.2 | _ => None end) n).
Definition multi (n : node) : option (pattern * H) :=
  head (omap (fun x => match x.1 with Subtree :: _ => Some x.2 | _ => None end) n).

Fixpoint matchPath (segs : list str) (n : node) (matches : list str) : option ((pattern * H) * list str) :=
  match segs with
  | [] => (fun r => (r, matches)) <$> leaf n
  | seg :: rest =>
      match matchPath rest (lit_child seg n) matches with
      | Some r => Some r
      | None =>
          match (if seg =s [slash] then None else matchPath rest (wild_child n) (matches ++ [seg])) with
          | Some r => Some r
          | None => (fun r => (r, matches)) <$> multi n
          end
      end
  end.

Definition routes : Type := list (pattern * H).
Definition method_child (rs : routes) (m : str) : node :=
  omap (fun r => if pt_method r.1 =s m then Some (pt_segs r.1, r) else None) rs.
Definition tree_match (rs : routes) (m path : str) : option ((pattern * H) * list str) :=
  let segs := path_segments path in
  match matchPath segs (method_child rs m) [] with
  | Some r => Some r
  | None =>
      match (if m =s $$"HEAD" then matchPath segs (method_child rs $$"GET") [] else None) with
      | Some r => Some r
      | None => matchPath segs (method_child rs []) []
      end
  end.

(** [exactMatch]: a subtree matches exactly at its own slash. *)
Definition exactMatch (p : pattern) (path : str) : bool :=
  match last (pt_segs p) with
  | Some Subtree => has_suffix path [slash] && (length (pt_segs p) =? length (filter (fun c => c = slash) path))%nat
  | _ => true
  end.

Inductive routed : Type :=
  | Dispatch (h : H) (values : list (str * str)) | Moved (location : str) | MethodNotAllowed | NotFound.
Definition wild_names (p : pattern) : list str := omap (fun s => match s with Wild n => Some n | _ => None end) (pt_segs p).
Definition allowed (rs : routes) (path : str) : bool :=
  existsb (fun r => negb (pt_method r.1 =s []) &&
    match matchPath (path_segments path) (method_child rs (pt_method r.1)) [] with Some _ => true | None => false end) rs.

(** [findHandler] for a request without a host-specific pattern. *)
Definition findHandler (rs : routes) (m escaped : str) : routed :=
  let path := if m =s $$"CONNECT" then escaped else cleanPath escaped in
  let n := tree_match rs m path in
  let to_slash :=
    if match n with Some ((p, _), _) => exactMatch p path | None => false end then false
    else if has_suffix path [slash] || (path =s []) then false
    else match tree_match rs m (path ++ [slash]) with Some ((p, _), _) => exactMatch p (path ++ [slash]) | None => false end in
  if to_slash then Moved (cleanPath (pathUnescape escaped) ++ [slash])
  else if negb (path =s escaped) then Moved path
  else match n with
       | Some ((p, h), values) => Dispatch h (zip (wild_names p) values)
       | None =>
           if allowed rs path || (negb (has_suffix path [slash]) && allowed rs (path ++ [slash])) then MethodNotAllowed
           else NotFound
       end.
End tree.
Arguments node : clear implicits.
Arguments routes : clear implicits.
Arguments routed : clear implicits.

(** ** The routes *)

Inductive handler : Type :=
  | DashboardPage | Events | LogQuery | Honeytokens | Payloads | GetOverview | ConsoleList | ConsoleProxy
  | ByIP | BySession | Recordings | GetCast | JtPrize.
Definition registered : list (string * handler) :=
  [("GET /{$}", DashboardPage); ("GET /dashboard", DashboardPage); ("GET /dashboard/events", Events);
   ("GET /dashboard/log", LogQuery); ("GET /dashboard/honeytokens", Honeytokens); ("GET /dashboard/payloads", Payloads);
   ("GET /dashboard/overview", GetOverview); ("GET /dashboard/consoles", ConsoleList);
   ("/dashboard/console/", ConsoleProxy); ("GET /dashboard/ip/{ip}", ByIP); ("GET /dashboard/session/{id}", BySession);
   ("GET /dashboard/recordings", Recordings); ("GET /dashboard/cast/{id}", GetCast); ("GET /dashboard/jt-prize.jpg", JtPrize)]%string.
Definition mux : routes handler := map (fun r => (parsePattern ($$(r.1)), r.2)) registered.

(** ** Answers *)

Inductive page : Type :=
  | PLog (l : list Entry) | PIP (ip : str) (l : list Entry) (profile : Assessment) | PSession (id : str) (l : list Entry)
  | PHoneytokens (h : honeytokenPage) | PPayloads (p : payloadPage) | POverview (o : response)
  | PRecordings (ids : list str) | PConsoles (l : list (str * str)).
Inductive body : Type := Json (p : page) | Text (s : str) | Empty.
Record reply : Type := Reply { rp_status : Z; rp_header : list (str * str); rp_body : body }.
(** A handler ends with a reply, hands the connection to a stream or to a console's
    proxy, or panics, with [http.ErrAbortHandler] or with anything else; the multiplexer
    itself may redirect. *)
Inductive result : Type :=
  | Answer (r : reply) | Redirected (location : str) | Streaming (s : stream) | Proxying (c : consoleEntry) (r : outreq) | Panics (abort : bool).

Definition writeJSON (status : Z) (v : page) : result :=
  Answer (Reply status [($$"Content-Type", $$"application/json; charset=utf-8")] (Json v)).
Definition writeString (status : Z) (s : str) : result :=
  Answer (Reply status [($$"Content-Type", $$"text/plain; charset=utf-8")] (Text s)).
Definition writeData (status : Z) (contentType : str) (b : str) : result :=
  Answer (Reply status [($$"Content-Type", contentType)] (Text b)).
Definition recoverHandler (r : result) : result :=
  match r with
  | Panics true => Panics true
  | Panics false => Answer (Reply 500 [] Empty)
  | _ => r
  end.

(** ** The portal *)

Record Portal : Type := MkPortal { p_cfg : Config; p_geo : Resolver; p_consoles : gmap str consoleEntry; p_version : str }.
Definition SetVersion (v : str) (p : Portal) : Portal := MkPortal (p_cfg p) (p_geo p) (p_consoles p) v.

Inductive start_notice : Type :=
  | DbFailed (file : str) | DbLoaded (n : Z) | ConsoleNotice (n : notice).

(** [csv] reads the records of a database file, [None] when it cannot be opened. *)
Section new.
Context (csv : str -> option (list (list str))) (url_parse : str -> option URL).
Definition load_database (file : str) (load : Resolver -> list (list str) -> Resolver) (count : Resolver -> Z)
    (st : Resolver * list start_notice) : Resolver * list start_notice :=
  let '(r, notes) := st in
  if file =s [] then st
  else match csv file with
       | None => (r, notes ++ [DbFailed file])
       | Some recs => let r := load r recs in (r, notes ++ [DbLoaded (count r)])
       end.
Definition New (cfg : Config) : Portal * list start_notice :=
  let '(r, notes) :=
    load_database (AsnFile cfg) LoadASN (fun r => zlen (asnRanges r))
      (load_database (GeoIPFile cfg) LoadCSV (fun r => zlen (ranges r)) (NewResolver, [])) in
  let '(consoles, cnotes) := buildConsoles url_parse (AdminConsoles cfg) in
  (MkPortal cfg r consoles [], notes ++ map ConsoleNotice cnotes).
End new.

Record request : Type := Request {
  rq_method : str; rq_path : str; rq_query : list (str * str); rq_header : gmap str (list str)
}.
Definition Get (l : list (str * str)) (k : str) : str :=
  match List.find (fun kv => kv.1 =s k) l with Some (_, v) => v | None => [] end.
Definition header_get (h : gmap str (list str)) (k : str) : str := default [] (head (default [] (h !! k))).

Section serve.
Context (decode : str -> option Entry) (rfc : str -> option Z).
(** The files on disk (the log, the casts), the recording directory's listing, the day,
    the orders of the ranges over maps, and the embedded picture. *)
Context (read : str -> option str) (read_dir : str -> option (list str)) (todayStr : str).
Context (ports : gmap Z portStat -> list portStat) (agents : gmap str (agentStat * gset str) -> list agentStat).
Context (consoles_range : gmap str consoleEntry -> list consoleEntry) (jtPrizeJPG : str).
Context (p : Portal).

Definition log_file : option str := read (LogFile (p_cfg p)).
(** A query over the log, with its answer when the log cannot be opened. *)
Definition with_log {A} (unreadable : A) (query : str -> A) : A :=
  match log_file with Some file => query file | None => unreadable end.

(** [live] is the number of streams open. *)
Definition handle (h : handler) (values : list (str * str)) (rq : request) (live : Z) : result * Z :=
  match h with
  | DashboardPage => (writeData 200 $$"text/html; charset=utf-8" dashboardHTML, live)
  | Events =>
      match sse_gate live SseOpen with
      | (live, false) => (writeString 503 $$"too many event streams", live)
      | (live', true) =>
          match log_file with
          | None => (writeString 500 $$"log unavailable", live)
          | Some file => (Streaming (open_stream file (header_get (rq_header rq) $$"Last-Event-ID")), live')
          end
      end
  | LogQuery =>
      (writeJSON 200 (PLog (with_log [] (fun file =>
         logQuery decode file (Get (rq_query rq) $$"limit") (Get (rq_query rq) $$"ip") (Get (rq_query rq) $$"event")))), live)
  | Honeytokens => (writeJSON 200 (PHoneytokens (with_log (HtPage [] 0 0 ∅ false) (honeytokens decode (p_geo p)))), live)
  | Payloads => (writeJSON 200 (PPayloads (with_log (PlPage [] 0 0 ∅ ∅ 0 false) (payloads decode (p_geo p)))), live)
  | GetOverview =>
      (writeJSON 200 (POverview (with_log (emptyOverview (p_geo p))
         (overview decode rfc (p_geo p) (p_version p) todayStr ports agents))), live)
  | ConsoleList => (writeJSON 200 (PConsoles (consoleList (consoles_range (p_consoles p)))), live)
  | ConsoleProxy =>
      (match console (p_consoles p) (pathUnescape (rq_path rq)) (rq_header rq) with
       | NoSuchConsole => writeString 404 $$"no such console"
       | Redirect location => Answer (Reply 302 [($$"Location", location)] Empty)
       | Forward c r => Proxying c r
       end, live)
  | ByIP =>
      let ip := Get values $$"ip" in
      let l := with_log [] (byIP decode ip) in
      (writeJSON 200 (PIP ip l (analyzeSource rfc l)), live)
  | BySession => let id := Get values $$"id" in (writeJSON 200 (PSession id (with_log [] (bySession decode id))), live)
  | Recordings =>
      (writeJSON 200 (PRecordings (recordings (RecordDir (p_cfg p)) (read_dir (RecordDir (p_cfg p))))), live)
  | GetCast =>
      (match cast read (RecordDir (p_cfg p)) (Get values $$"id") with
       | Some data => writeData 200 $$"application/x-asciicast; charset=utf-8" data
       | None => Answer (Reply 404 [] Empty)
       end, live)
  | JtPrize =>
      (Answer (Reply 200 [($$"Cache-Control", $$"public, max-age=86400"); ($$"Content-Type", $$"image/jpeg")] (Text jtPrizeJPG)), live)
  end.

Definition engine (rq : request) (live : Z) : result * Z :=
  match findHandler mux (rq_method rq) (rq_path rq) with
  | Dispatch h values => let '(r, live) := handle h values rq live in (recoverHandler r, live)
  | Moved location => (Redirected location, live)
  | MethodNotAllowed => (Answer (Reply 405 [($$"Allow", $$"GET, HEAD")] (Text $$"Method Not Allowed")), live)
  | NotFound => (Answer (Reply 404 [] (Text $$"404 page not found")), live)
  end.
End serve.
