(* ===== verification/PortalMuxFacts.v ===== *)
(** * PortalMuxFacts: the page and the routes agree

    Every request the dashboard makes reaches the handler written for it, with its
    argument intact; only the consoles take anything but a read; the streams stay
    bounded; and nothing but a listed console is ever contacted. *)

From S2P Require Import Prelude GoStrings Paths Net Event Geo Feed Analyze Overview Portal PortalFacts PortalPage Config PortalMux.

(** ** Escaping *)

(** JavaScript's [encodeURIComponent] on the UTF-8 bytes of a string. *)
Definition unreserved (c : ascii) : bool := is_lower c || is_upper c || is_digit c || bool_decide (c ∈ $$"-_.!~*'()").
Definition hex_digit (n : Z) : ascii := zb (if n <? 10 then 48 + n else 55 + n).
Definition encode_byte (c : ascii) : str := if unreserved c then [c] else ["%"%char; hex_digit (bz c / 16); hex_digit (bz c mod 16)].
Definition encodeURIComponent (s : str) : str := flat_map encode_byte s.

Lemma every_byte (P : ascii -> bool) : forallb P (map (fun n => zb (Z.of_nat n)) (seq 0 256)) = true -> forall c, P c = true.
Proof.
  intros H c. rewrite forallb_forall in H. apply H. apply list_elem_of_In, list_elem_of_fmap.
  pose proof (bz_range c). exists (Z.to_nat (bz c)). rewrite Z2Nat.id by lia. split; [by rewrite zb_bz |].
  apply elem_of_seq. lia.
Qed.

Lemma encode_byte_plain c : forallb (fun x => negb (bool_decide (x ∈ [slash; zb 0]))) (encode_byte c) = true.
Proof. revert c. by apply every_byte; vm_compute. Qed.

Lemma PathUnescape_plain c s : c <> "%"%char -> PathUnescape (c :: s) = (fun r => c :: r) <$> PathUnescape s.
Proof. intros H. destruct c as [[] [] [] [] [] [] [] []]; try reflexivity. by destruct H. Qed.

Lemma encoded_pair c :
  (match unhex (hex_digit (bz c / 16)), unhex (hex_digit (bz c mod 16)) with
   | Some x, Some y => bool_decide (zb (x * 16 + y) = c)
   | _, _ => false
   end) = true.
Proof. revert c. by apply every_byte; vm_compute. Qed.

Lemma unescape_encode s : PathUnescape (encodeURIComponent s) = Some s.
Proof.
  induction s as [| c s IH]; [done |]. cbn [encodeURIComponent flat_map]. fold (encodeURIComponent s).
  unfold encode_byte. destruct (unreserved c) eqn:E.
  - cbn [app]. rewrite PathUnescape_plain, IH by (intros ->; vm_compute in E; discriminate). done.
  - cbn [app PathUnescape]. pose proof (encoded_pair c) as Hp.
    destruct (unhex (hex_digit (bz c / 16))), (unhex (hex_digit (bz c mod 16))); try done.
    apply bool_decide_eq_true in Hp. by rewrite IH, Hp.
Qed.
Lemma pathUnescape_encode s : pathUnescape (encodeURIComponent s) = s.
Proof. unfold pathUnescape. by rewrite unescape_encode. Qed.

(** An argument a path can carry as one segment. *)
Definition segment_ok (s : str) : Prop := s <> [] /\ s <> $$"." /\ s <> $$".." /\ s <> [slash].
#[export] Instance segment_ok_dec s : Decision (segment_ok s).
Proof. unfold segment_ok. apply _. Defined.

Lemma encode_no_slash s : slash ∉ encodeURIComponent s.
Proof.
  intros H. apply list_elem_of_In, in_flat_map in H as (c & _ & H).
  pose proof (encode_byte_plain c) as Hc. rewrite forallb_forall in Hc. specialize (Hc _ H). by vm_compute in Hc.
Qed.
Lemma encode_inj s t : encodeURIComponent s = encodeURIComponent t -> s = t.
Proof. intros H. rewrite <- (pathUnescape_encode s), H. apply pathUnescape_encode. Qed.
Lemma encode_good s : segment_ok s -> good_comp (encodeURIComponent s).
Proof.
  intros (H0 & H1 & H2 & _). split_and!; [| | | apply encode_no_slash].
  - intros E. by apply H0, encode_inj.
  - intros E. by apply H1, encode_inj.
  - intros E. by apply H2, encode_inj.
Qed.

(** ** Paths *)

Lemma has_suffix_byte s z c : has_suffix (s ++ [z]) [c] = bool_decide (c = z).
Proof. unfold has_suffix. rewrite rev_app_distr. simpl. by rewrite andb_true_r. Qed.

Lemma abs_path_no_trailing cs : Forall good_comp cs -> cs <> [] -> has_suffix (abs_path cs) [slash] = false.
Proof.
  intros Hg Hne. destruct (exists_last Hne) as (cs' & c & ->). apply Forall_app in Hg as [_ Hc].
  apply Forall_cons in Hc as [(H0 & _ & _ & Hs) _]. destruct (exists_last H0) as (c' & z & ->).
  assert (exists t', abs_path (cs' ++ [c' ++ [z]]) = t' ++ [z]) as [t' Ht].
  { rewrite abs_path_snoc. destruct cs' as [| y cs']; [by exists (slash :: c') |].
    exists (abs_path (y :: cs') ++ slash :: c'). by rewrite <- app_assoc. }
  rewrite Ht, has_suffix_byte. apply bool_decide_eq_false. intros <-. apply Hs. set_solver.
Qed.
Lemma cleanPath_abs cs : Forall good_comp cs -> cs <> [] -> cleanPath (abs_path cs) = abs_path cs.
Proof.
  intros Hg Hne. unfold cleanPath. rewrite (proj2 (seqb_neq _ [])) by done. rewrite abs_path_prefix. cbv zeta.
  by rewrite abs_path_no_trailing, path_clean_abs by done.
Qed.
Lemma cleanPath_slash cs : Forall good_comp cs -> cs <> [] -> cleanPath (abs_path cs ++ [slash]) = abs_path cs ++ [slash].
Proof.
  intros Hg Hne. unfold cleanPath. rewrite (proj2 (seqb_neq _ [])) by done.
  change (has_prefix (abs_path cs ++ [slash]) [slash]) with true. cbv zeta iota.
  assert (has_suffix (abs_path cs ++ [slash]) [slash] = true) as -> by by rewrite has_suffix_byte.
  rewrite path_clean_rooted, comps_of_trailing by done.
  rewrite (proj2 (seqb_neq (abs_path cs) [slash])); [done |].
  intros E. apply Hne, abs_path_root_iff; [exact E | done].
Qed.

Lemma segment_names_cons c l : l <> [] -> segment_names (c :: l) = pathUnescape c :: segment_names l.
Proof. by destruct l. Qed.
Lemma segment_names_good l : Forall (fun c => c <> []) l -> segment_names l = map pathUnescape l.
Proof.
  induction l as [| c l IH]; [done |]. intros [Hc Hl]%Forall_cons. destruct l as [| d l].
  - cbn [segment_names map]. by rewrite (proj2 (seqb_neq c [])) by done.
  - by rewrite segment_names_cons, IH by done.
Qed.
Lemma segment_names_trailing l : Forall (fun c => c <> []) l -> segment_names (l ++ [[]]) = map pathUnescape l ++ [[slash]].
Proof.
  induction l as [| c l IH]; [done |]. intros [Hc Hl]%Forall_cons. cbn [map app].
  rewrite segment_names_cons, IH by (done || by destruct l). done.
Qed.
Lemma good_nonempty cs : Forall good_comp cs -> Forall (fun c => c <> []) cs.
Proof. intros H. eapply Forall_impl; [exact H |]. by intros c (? & _). Qed.

Lemma path_segments_abs cs : Forall good_comp cs -> cs <> [] -> path_segments (abs_path cs) = map pathUnescape cs.
Proof.
  intros Hg Hne. unfold path_segments. rewrite (proj2 (seqb_neq _ [])) by done.
  change (drop 1 (abs_path cs)) with (join [slash] cs).
  rewrite split_join by (done || by apply good_no_slash). by apply segment_names_good, good_nonempty.
Qed.
Lemma path_segments_slash cs :
  Forall good_comp cs -> cs <> [] -> path_segments (abs_path cs ++ [slash]) = map pathUnescape cs ++ [[slash]].
Proof.
  intros Hg Hne. unfold path_segments. rewrite (proj2 (seqb_neq _ [])) by done.
  change (drop 1 (abs_path cs ++ [slash])) with (join [slash] cs ++ slash :: []).
  rewrite (split_byte_sep slash (join [slash] cs) []). cbn [split_byte].
  rewrite split_join by (done || by apply good_no_slash). by apply segment_names_trailing, good_nonempty.
Qed.

(** A clean path whose match is exact, or that ends in a slash, is dispatched. *)
Lemma findHandler_clean {H} (rs : routes H) m path p h values :
  m <> $$"CONNECT" -> cleanPath path = path -> tree_match rs m path = Some ((p, h), values) ->
  exactMatch p path = true \/ has_suffix path [slash] = true ->
  findHandler rs m path = Dispatch h (zip (wild_names p) values).
Proof.
  intros Hm Hc Ht He. unfold findHandler. rewrite (proj2 (seqb_neq m _)), Hc, Ht by done. cbn iota beta zeta.
  rewrite seqb_refl. destruct He as [-> | ->]; [done |]. by destruct (exactMatch p path).
Qed.

(** Matching, one segment at a time. *)
Section matching.
Context {H : Type}.
Implicit Types (n : node H) (r : pattern * H).

Lemma matchPath_nil segs ms : matchPath segs ([] : node H) ms = None.
Proof using. revert ms. induction segs as [| s segs IH]; intros ms; [done |]. cbn [matchPath lit_child wild_child omap]. cbn. rewrite !IH. by destruct (s =s [slash]). Qed.
Lemma matchPath_lit seg rest n ms x : matchPath rest (lit_child seg n) ms = Some x -> matchPath (seg :: rest) n ms = Some x.
Proof using. intros E. cbn [matchPath]. by rewrite E. Qed.
Lemma matchPath_wild w r x ms : x <> [slash] -> matchPath [x] [([Wild w], r)] ms = Some (r, ms ++ [x]).
Proof using. intros Hx%seqb_neq. cbn [matchPath]. rewrite Hx. done. Qed.
Lemma matchPath_subtree seg rest r ms : matchPath (seg :: rest) [([Subtree], r)] ms = Some (r, ms).
Proof using.
  cbn [matchPath]. change (lit_child seg [([Subtree], r)]) with ([] : node H). change (wild_child [([Subtree], r)]) with ([] : node H).
  rewrite !matchPath_nil. by destruct (seg =s [slash]).
Qed.
Lemma matchPath_miss seg rest n ms :
  lit_child seg n = [] -> wild_child n = [] -> multi n = None -> matchPath (seg :: rest) n ms = None.
Proof using. intros H1 H2 H3. cbn [matchPath]. rewrite H1, H2, H3, !matchPath_nil. by destruct (seg =s [slash]). Qed.
Lemma matchPath_lit_miss seg rest n ms :
  matchPath rest (lit_child seg n) ms = None -> wild_child n = [] -> multi n = None -> matchPath (seg :: rest) n ms = None.
Proof using. intros H1 H2 H3. cbn [matchPath]. rewrite H1, H2, H3, matchPath_nil. by destruct (seg =s [slash]). Qed.
End matching.

(** The three routes with an argument, and the consoles. *)
Definition arg_routes : list (str * (string * str * handler)) :=
  [($$"ip", ("GET /dashboard/ip/{ip}"%string, $$"ip", ByIP)); ($$"session", ("GET /dashboard/session/{id}"%string, $$"id", BySession));
   ($$"cast", ("GET /dashboard/cast/{id}"%string, $$"id", GetCast))].
Definition dashboard : str := $$"dashboard".

Lemma arg_routes_ok kind pat name h :
  (kind, (pat, name, h)) ∈ arg_routes ->
  good_comp kind /\ pathUnescape kind = kind /\ wild_names (parsePattern ($$pat)) = [name] /\
  (forall path, exactMatch (parsePattern ($$pat)) path = true) /\
  lit_child kind (lit_child dashboard (method_child mux $$"GET")) = [([Wild name], (parsePattern ($$pat), h))].
Proof.
  intros Hin.
  repeat (apply elem_of_cons in Hin as [[= -> -> -> ->] | Hin];
          [split_and!; [apply (bool_decide_unpack _) | | | intros path |]; by vm_compute |]).
  by apply elem_of_nil in Hin.
Qed.
Lemma good_dashboard : good_comp dashboard.
Proof. exact (bool_decide_unpack (good_comp dashboard) I). Qed.

Lemma arg_route kind pat name h x :
  (kind, (pat, name, h)) ∈ arg_routes -> segment_ok x ->
  findHandler mux $$"GET" (abs_path [dashboard; kind; encodeURIComponent x]) = Dispatch h [(name, x)].
Proof.
  intros Hin Hx. destruct (arg_routes_ok _ _ _ _ Hin) as (Hk & Hu & Hw & He & Hl).
  assert (Forall good_comp [dashboard; kind; encodeURIComponent x]) as Hg
    by (repeat apply Forall_cons_2; auto using good_dashboard, encode_good).
  assert (matchPath [dashboard; kind; x] (method_child mux $$"GET") [] = Some (parsePattern ($$pat), h, [x])) as Hm.
  { do 2 apply matchPath_lit. rewrite Hl. by apply matchPath_wild, Hx. }
  rewrite (findHandler_clean mux _ _ (parsePattern ($$pat)) h [x]);
    [by rewrite Hw | done | by apply cleanPath_abs | | left; apply He].
  unfold tree_match. rewrite path_segments_abs by done. cbn [map]. rewrite pathUnescape_encode, Hu.
  change (pathUnescape dashboard) with dashboard. by rewrite Hm.
Qed.

(** No route is registered for a method but GET and the empty one, which stands for any. *)
Lemma method_child_none {H} (rs : routes H) m : Forall (fun r => pt_method r.1 <> m) rs -> method_child rs m = [].
Proof. unfold method_child. induction 1 as [| r rs Hr _ IH]; [done |]. apply seqb_neq in Hr. simpl. rewrite Hr. exact IH. Qed.
Lemma mux_methods : Forall (fun r => pt_method r.1 = $$"GET" \/ pt_method r.1 = []) mux.
Proof. apply (bool_decide_unpack _). by vm_compute. Qed.
Lemma other_method m : m <> $$"GET" -> m <> [] -> method_child mux m = [].
Proof.
  intros H1 H2. apply method_child_none. eapply Forall_impl; [exact mux_methods |].
  intros r [E | E] Hr; congruence.
Qed.
Definition console_pattern : pattern := parsePattern $$"/dashboard/console/".
Lemma any_method : method_child mux [] = [([Lit dashboard; Lit $$"console"; Subtree], (console_pattern, ConsoleProxy))].
Proof. by vm_compute. Qed.

(** A console's path, whatever the method. *)
Lemma console_segments m (segs : list str) :
  segs <> [] -> (forall path, path_segments path = dashboard :: $$"console" :: segs ->
  tree_match mux m path = Some (console_pattern, ConsoleProxy, [])).
Proof.
  intros Hs path Hp. unfold tree_match. rewrite Hp.
  assert (matchPath (dashboard :: $$"console" :: segs) (method_child mux []) [] = Some (console_pattern, ConsoleProxy, [])) as Hany.
  { rewrite any_method. do 2 apply matchPath_lit.
    destruct segs as [| s segs]; [done |]. apply matchPath_subtree. }
  assert (matchPath (dashboard :: $$"console" :: segs) (method_child mux $$"GET") [] = None) as Hget.
  { apply matchPath_lit_miss; [| by vm_compute | by vm_compute].
    apply matchPath_miss; by vm_compute. }
  destruct (decide (m = [])) as [-> |]; [by rewrite Hany |].
  destruct (decide (m = $$"GET")) as [-> |].
  - rewrite Hget. by rewrite Hany.
  - rewrite (other_method m), matchPath_nil by done. destruct (m =s $$"HEAD"); [rewrite Hget |]; exact Hany.
Qed.
Lemma console_route m x :
  m <> $$"CONNECT" -> segment_ok x ->
  findHandler mux m (abs_path [dashboard; $$"console"; encodeURIComponent x] ++ [slash]) = Dispatch ConsoleProxy [].
Proof.
  intros Hc Hx.
  assert (Forall good_comp [dashboard; $$"console"; encodeURIComponent x]) as Hg.
  { repeat apply Forall_cons_2; auto using good_dashboard, encode_good. exact (bool_decide_unpack (good_comp $$"console") I). }
  rewrite (findHandler_clean mux _ _ console_pattern ConsoleProxy []);
    [by vm_compute | done | by apply cleanPath_slash | | right; by rewrite has_suffix_byte].
  apply (console_segments m [x; [slash]]); [done |]. rewrite path_segments_slash by done. cbn [map app]. by rewrite pathUnescape_encode.
Qed.

(** ** What the page asks for *)

(** The URL the script builds from a literal and an argument: escaped behind a slash,
    with a slash of its own for a console; the path ends where the query begins. *)
Definition page_url (q x : str) : str :=
  let path := match index_byte q "?"%char with Some i => take i q | None => q end in
  if has_suffix path [slash] then path ++ encodeURIComponent x ++ (if path =s consoleMount then [slash] else []) else path.


(** C24: the page and the routes agree: the requests the dashboard's script can make, in the
    order of its text, are all served, each by the handler written for it; and the
    address of a source or the id of a session, whatever bytes it holds, comes out of the
    path exactly as it went in. *)
Theorem page_requests_are_served x :
  segment_ok x ->
  map (fun q => findHandler mux $$"GET" (page_url q x)) (requested dashboardHTML) =
    [Dispatch GetOverview []; Dispatch Honeytokens []; Dispatch Payloads []; Dispatch ByIP [($$"ip", x)]; Dispatch ByIP [($$"ip", x)];
     Dispatch Recordings []; Dispatch GetCast [($$"id", x)]; Dispatch ConsoleList []; Dispatch LogQuery []; Dispatch Events [];
     Dispatch ConsoleProxy []; Dispatch JtPrize []].
Proof.
  intros Hx. rewrite page_requests.
  assert (page_url $$"/dashboard/ip/" x = abs_path [dashboard; $$"ip"; encodeURIComponent x]) as Hip
    by (unfold page_url; rewrite app_nil_r; done).
  assert (page_url $$"/dashboard/cast/" x = abs_path [dashboard; $$"cast"; encodeURIComponent x]) as Hcast
    by (unfold page_url; rewrite app_nil_r; done).
  assert (page_url $$"/dashboard/console/" x = abs_path [dashboard; $$"console"; encodeURIComponent x] ++ [slash]) as Hcon by done.
  unfold endpoints. cbn [map]. rewrite Hip, Hcast, Hcon.
  rewrite (arg_route $$"ip" "GET /dashboard/ip/{ip}" $$"ip" ByIP x), (arg_route $$"cast" "GET /dashboard/cast/{id}" $$"id" GetCast x),
    (console_route $$"GET" x) by (done || (unfold arg_routes; set_solver)).
  repeat f_equal; by vm_compute.
Qed.
Lemma page_requests_are_served_witness :
  findHandler mux $$"GET" $$"/dashboard/ip/2001%3Adb8%3A%3A1" = Dispatch ByIP [($$"ip", $$"2001:db8::1")] /\
  map (fun q => findHandler mux $$"GET" (page_url q $$"2001:db8::1")) (requested dashboardHTML) !! 3%nat =
    Some (Dispatch ByIP [($$"ip", $$"2001:db8::1")]).
Proof.
  split; [vm_compute; reflexivity |].
  rewrite (page_requests_are_served $$"2001:db8::1"); [reflexivity | exact (bool_decide_unpack (segment_ok $$"2001:db8::1") I)].
Defined.

(** ** What the routes allow *)

Section reach.
Context {H : Type}.
Implicit Types (n : node H) (r : pattern * H).

Lemma lit_child_sub seg n : map snd (lit_child seg n) ⊆ map snd n.
Proof using.
  induction n as [| [p r] n IH]; [done |]. unfold lit_child in *. simpl. destruct p as [| [s | |] p]; simpl; try set_solver.
  destruct (s =s seg); simpl; set_solver.
Qed.
Lemma wild_child_sub n : map snd (wild_child n) ⊆ map snd n.
Proof using. induction n as [| [p r] n IH]; [done |]. unfold wild_child in *. simpl. destruct p as [| [s | |] p]; simpl; set_solver. Qed.
Lemma leaf_in n r : leaf n = Some r -> r ∈ map snd n.
Proof using.
  unfold leaf. induction n as [| [p r'] n IH]; [done |]. simpl. destruct p as [| s p]; simpl.
  - intros [= ->]. by left.
  - intros E. right. by apply IH.
Qed.
Lemma multi_in n r : multi n = Some r -> r ∈ map snd n.
Proof using.
  unfold multi. induction n as [| [p r'] n IH]; [done |]. simpl. destruct p as [| [s | |] p]; simpl; intros E;
    try (right; by apply IH). injection E as ->. by left.
Qed.
Lemma matchPath_in segs n ms r ms' : matchPath segs n ms = Some (r, ms') -> r ∈ map snd n.
Proof using.
  revert n ms. induction segs as [| s segs IH]; intros n ms; cbn [matchPath].
  - destruct (leaf n) eqn:E; [intros [= -> _]; by apply leaf_in | done].
  - destruct (matchPath segs (lit_child s n) ms) as [[r1 m1] |] eqn:E1.
    { intros [= -> ->]. by eapply lit_child_sub, IH. }
    destruct (if s =s [slash] then None else _) as [[r2 m2] |] eqn:E2.
    { intros [= -> ->]. destruct (s =s [slash]); [done |]. by eapply wild_child_sub, IH. }
    destruct (multi n) eqn:E3; [intros [= -> _]; by apply multi_in | done].
Qed.
Lemma method_child_in (rs : routes H) m r : r ∈ map snd (method_child rs m) -> r ∈ rs /\ pt_method r.1 = m.
Proof using.
  unfold method_child. induction rs as [| r' rs IH]; simpl; [set_solver |].
  destruct (pt_method r'.1 =s m) eqn:E; bool_hyps; simpl; [rewrite elem_of_cons |]; intros Hin.
  - destruct Hin as [-> | Hin]; [split; [by left | done] |]. destruct (IH Hin). split; [by right | done].
  - destruct (IH Hin). split; [by right | done].
Qed.
Lemma tree_match_in (rs : routes H) m path r ms :
  tree_match rs m path = Some (r, ms) -> r ∈ rs /\ (pt_method r.1 = m \/ pt_method r.1 = [] \/ m = $$"HEAD" /\ pt_method r.1 = $$"GET").
Proof using.
  unfold tree_match. destruct (matchPath _ (method_child rs m) []) as [[r1 m1] |] eqn:E1.
  { intros [= -> ->]. apply matchPath_in, method_child_in in E1 as [? ?]. auto. }
  destruct (if m =s $$"HEAD" then _ else None) as [[r2 m2] |] eqn:E2.
  { intros [= -> ->]. destruct (m =s $$"HEAD") eqn:Em; [| done]. bool_hyps. apply matchPath_in, method_child_in in E2 as [? ?]. auto. }
  intros E3. apply matchPath_in, method_child_in in E3 as [? ?]. auto.
Qed.
End reach.

Lemma only_console_has_no_method : Forall (fun r => pt_method r.1 = [] -> r.2 = ConsoleProxy) mux.
Proof. repeat (apply Forall_cons_2; [first [by intros _ | by intros E; vm_compute in E] |]). apply Forall_nil_2. Qed.
Lemma dispatch_method m path h values :
  findHandler mux m path = Dispatch h values -> h = ConsoleProxy \/ m = $$"GET" \/ m = $$"HEAD".
Proof.
  unfold findHandler. cbv zeta. set (pa := if m =s $$"CONNECT" then path else cleanPath path).
  destruct (if _ : bool then false else _); [done |]. destruct (negb _); [done |].
  destruct (tree_match mux m pa) as [[[p h'] vs] |] eqn:E; [| by destruct (_ || _)]. intros [= <- _].
  apply tree_match_in in E as [Hin Hm]. cbn [fst] in Hm.
  pose proof only_console_has_no_method as Hc. pose proof mux_methods as Hg. rewrite Forall_forall in Hc, Hg.
  specialize (Hc _ Hin). specialize (Hg _ Hin). cbn [fst snd] in Hc, Hg.
  destruct Hg as [Hg | Hg]; [| left; by apply Hc]. destruct Hm as [Hm | [Hm | [-> Hm]]]; [| rewrite Hg in Hm; by vm_compute in Hm | auto].
  right; left. congruence.
Qed.

Section surface.
Context (csv : str -> option (list (list str))) (url_parse : str -> option URL).
Context (decode : str -> option Entry) (rfc : str -> option Z) (read : str -> option str) (read_dir : str -> option (list str))
  (todayStr : str) (ports : gmap Z portStat -> list portStat) (agents : gmap str (agentStat * gset str) -> list agentStat)
  (consoles_range : gmap str consoleEntry -> list consoleEntry) (jtPrizeJPG : str).

#[local] Notation handle := (handle decode rfc read read_dir todayStr ports agents consoles_range jtPrizeJPG).
#[local] Notation engine := (engine decode rfc read read_dir todayStr ports agents consoles_range jtPrizeJPG).

Lemma New_consoles cfg v : p_consoles (SetVersion v (New csv url_parse cfg).1) = (buildConsoles url_parse (AdminConsoles cfg)).1.
Proof using.
  unfold New, load_database. destruct (if GeoIPFile cfg =s [] then _ else _) as [r1 n1].
  destruct (if AsnFile cfg =s [] then _ else _) as [r2 n2]. by destruct (buildConsoles _ _).
Qed.

(** What a handler does to the streams. *)
Lemma handle_streams p h values rq live :
  let '(res, live') := handle p h values rq live in
  match res with
  | Streaming _ => live < maxConcurrentSSE /\ live' = live + 1
  | Panics _ => False
  | _ => live' = live
  end.
Proof using.
  destruct h; cbn [PortalMux.handle writeData writeJSON]; try done.
  - unfold sse_gate. destruct (live <? maxConcurrentSSE) eqn:E; [| done]. destruct (log_file read p); [| done]. bool_hyps. done.
  - by destruct (console _ _ _).
  - by destruct (cast _ _ _).
Qed.

End surface.
