(* ===== verification/Honeypot.v ===== *)
(** * Honeypot: one connection, from the listener to the last event

    [internal/server] knows a service only as a [Protocol]; [handle] admits a connection
    and runs the service on a new session.  What the server relies on is the class
    [Confined]; every service [buildProtocol] can return is an instance.  A connection
    runs as a whole here; how the atomic steps of several interleave is the subject of
    [Server] and [VfsPool].  The recorder, which changes nothing for the client, is the
    subject of [Record] and [Replay]. *)

From stdpp Require Import gmap.
From S2P Require Import Prelude GoStrings Config VfsNode VfsSession VfsSpec VfsLoad Net Util Event Session Server Persona Auth ShellState Shell ShellSpec ShellThms.
From S2P Require Telnet Ssh SshFacts Ftp Http.

(** ** The interface *)

(** What connections share: the overlay counter, the readings taken from the
    environment, the brute-force table and, by port, the traps of the web listeners. *)
Record host : Type := Host { h_overlay : Z; h_tick : nat; h_brute : option bruteForce; h_traps : gmap Z Http.trap }.

(** [Handle] returns, besides the session and what is shared, the events that other
    goroutines of the connection log at moments the program does not fix. *)
Record Protocol : Type := MkProtocol {
  Name : str;
  ClientFirst : bool;
  Handle : sess -> host -> sess * host * list Entry
}.

(** A host within its bounds. *)
Record host_ok (h : host) : Prop := HostOk {
  ok_overlay : h_overlay h <= maxGlobalOverlayBytes;
  ok_brute : table_ok (h_brute h)
}.

(** The contract: a service only adds events of its own connection, gives the overlay
    memory back and keeps the shared state within its bounds. *)
Class Confined (P : Protocol) : Prop := confined : forall s h,
  host_ok h ->
  let '(s', h', late) := Handle P s h in
  grows s s' /\ Forall (attributed s) late /\ host_ok h' /\ h_overlay h' = h_overlay h.

(** ** The server *)

Record Server : Type := MkServer { srv_proxy : bool; srv_nets : list (addr * Z); srv_number : Z; srv_protocol : Protocol }.
Definition config_of (srv : Server) : server_cfg :=
  ServerCfg (srv_proxy srv) (srv_nets srv) (srv_number srv) (Name (srv_protocol srv)) (ClientFirst (srv_protocol srv)).

Definition new_session (srv : Server) (id : str) (now : Z) (remote src dst rest : str) : sess :=
  Sess rest [] None [] (srv_number srv) (Name (srv_protocol srv)) remote src dst id [] 0 [] defaultIdleTimeout (now + maxSessionLifetime).

Inductive fate : Type :=
  | Overloaded
  | Refused (v : verdict)
  | Served (s : sess) (late : list Entry).

(** What a connection logs: its session and its other goroutines, or the scan. *)
Definition fate_logs (f : fate) : list (list Entry) :=
  match f with
  | Served s late => [events s; late]
  | Refused (Scan e) => [[e]]
  | Refused _ | Overloaded => []
  end.

(** [handle] on the bytes [i] a peer sends: [c] counts the connections open when it
    arrives, and [duration] is what [time.Since] reports at the end, in milliseconds. *)
Definition handle (srv : Server) (c : counters) (peer local i id : str) (now duration : Z) (h : host) : fate * host :=
  match tryAcquire c with
  | None => (Overloaded, h)
  | Some c =>
      match handle_conn (config_of srv) (fun src => active_of c (srv_number srv, src)) peer local i with
      | Serve remote src dst rest =>
          let s := new_session srv id now remote src dst rest in
          let r := Handle (srv_protocol srv) (LogSessionStart s) h in
          (Served (Session.handle (fun _ => (r.1.1, None)) duration s) r.2, r.1.2)
      | v => (Refused v, h)
      end
  end.

(** [RunConn] runs one session on a connection of its own, without admission. *)
Definition RunConn (P : Protocol) (id : str) (now : Z) (remote local i : str) (duration : Z) (h : host) : fate * host :=
  let s := new_session (MkServer false [] 0 P) id now remote (HostOnly remote) (HostOnly local) i in
  let r := Handle P (LogSessionStart s) h in
  (Served (Session.handle (fun _ => (r.1.1, None)) duration s) r.2, r.1.2).

(** ** The services *)

Section services.
Context (unmarshal : str -> option manifest) (parse_rfc3339 parse_date : str -> option Z)
  (render : Persona -> str -> str -> option str) (nas_tree : list (str * etree)) (png jpg : str).
Context (W : World) (base : node) (p : Persona) (login_now : nat -> Z) (lucky : nat -> bool) (nas_now : Z).
Context (NewSignerFromKey : str -> bool)
  (NewServerConn : str -> Z -> (Ssh.auth_req -> Ssh.astate -> Ssh.astate * bool) -> Ssh.astate -> Ssh.astate * option Ssh.conn).
(** [art] and [backup] are the embedded documents of the two prizes. *)
Context (md5 : str -> str) (date art backup : str) (unicode_upper : Z -> Z).

(** [fakehost.Load], the tree every connection starts from. *)
Definition fakehost_Load (fakeroot : list (str * etree)) (now : Z) : option node :=
  VfsLoad.Load unmarshal parse_rfc3339 parse_date (renderer (render p)) now fakeroot.

Definition shared_of (s : sess) (h : host) : shared := (s, h_overlay h, h_tick h).
Definition telnet (style : str) : Protocol := MkProtocol $$"telnet" false (fun s h =>
  let '(((s, g, t), bf), _) :=
    Telnet.Handle unmarshal parse_rfc3339 parse_date render nas_tree png jpg W base p style login_now lucky nas_now
      (shared_of s h, h_brute h) in
  (s, Host g t bf (h_traps h), [])).
Definition late_events (r : list (option Ssh.served)) : list Entry :=
  flat_map (fun x => match x with Some v => Ssh.sv_late v | None => [] end) r.
Definition ssh (style : str) : Protocol := MkProtocol $$"ssh" false (fun s h =>
  let '(r, ((s, g, t), bf)) :=
    Ssh.Handle unmarshal parse_rfc3339 parse_date render nas_tree png jpg W base p style login_now lucky nas_now
      NewSignerFromKey NewServerConn (shared_of s h, h_brute h) in
  (s, Host g t bf (h_traps h), late_events r)).
Definition ssh_tarpit : Protocol := MkProtocol $$"ssh" false (fun s h => (Ssh.tarpit_Handle p s, h, [])).
Definition http (number : Z) (style : str) : Protocol := MkProtocol $$"http" true (fun s h =>
  let trap := default Http.no_trap (h_traps h !! number) in
  let '((s, g, t), trap, _) := Http.Handle W md5 date (Some base) p style (Http.extractArtBody art) (Http.extractArtBody backup) (shared_of s h) trap in
  (s, Host g t (h_brute h) (<[number := trap]> (h_traps h)), [])).
Definition https : Protocol := MkProtocol $$"https" true (fun s h => (Http.https_Handle p s, h, [])).
Definition ftp : Protocol := MkProtocol $$"ftp" false (fun s h => (Ftp.Handle unicode_upper p s, h, [])).

(** The server of a listener, with the service [buildProtocol] names. *)
Definition implementation (number : Z) (v : service) : Protocol :=
  match v with
  | TelnetSvc style => telnet style
  | SshTarpit => ssh_tarpit
  | SshSvc style => ssh style
  | HttpSvc style => http number style
  | HttpsSvc => https
  | FtpSvc => ftp
  end.
Definition server_of (cfg : Config) (l : Listener * service) : Server :=
  MkServer (c_ProxyProtocol cfg) (SetTrustedProxies (ProxyTrustedCIDRs cfg)) (l_Port l.1) (implementation (l_Port l.1) l.2).

(** The connections of an instance, one after the other: the listener each reaches, what
    it sends, its id and times, and the connections open at that moment. *)
Record arrival : Type := Arrival {
  ar_listener : Listener * service; ar_open : counters; ar_peer : str; ar_local : str; ar_input : str;
  ar_id : str; ar_now : Z; ar_duration : Z
}.
Definition serve_one (cfg : Config) (a : arrival) (h : host) : fate * host :=
  handle (server_of cfg (ar_listener a)) (ar_open a) (ar_peer a) (ar_local a) (ar_input a) (ar_id a) (ar_now a) (ar_duration a) h.
Fixpoint serve_all (cfg : Config) (l : list arrival) (h : host) : list fate * host :=
  match l with
  | [] => ([], h)
  | a :: l =>
      let '(f, h) := serve_one cfg a h in
      let '(fs, h) := serve_all cfg l h in (f :: fs, h)
  end.
End services.
