(* ===== verification/HoneypotFacts.v ===== *)
(** * HoneypotFacts: every service keeps the server's contract

    Each handler is shown to be [Confined]; the server's theorem is proved from that
    alone, and then holds of every listener a configuration can start. *)

From stdpp Require Import gmap.
From S2P Require Import Prelude GoStrings Config VfsNode VfsSession VfsSpec VfsLoad Net Util Event Session Server Persona Auth ShellState Shell ShellSpec ShellDemo ShellThms Honeypot.
From S2P Require Telnet Ssh SshFacts Ftp Http.

(** ** Rules *)

Lemma grows_of_le s s' : sess_le s s' -> grows s s'.
Proof. intros H. split; [| apply H]. pose proof (le_ids _ _ H) as E. unfold identity. congruence. Qed.

Lemma grows_Write x s : grows s (Write x s). Proof. apply grows_of_le, sess_le_Write. Qed.
Lemma grows_SlowWrite x s : grows s (SlowWrite x s). Proof. apply grows_of_le, sess_le_SlowWrite. Qed.
Lemma grows_ReadLine s : grows s (ReadLine s).2. Proof. apply grows_of_le, sess_le_ReadLine. Qed.
Lemma grows_Prompt l s : grows s (Prompt l s).2. Proof. apply grows_of_le, sess_le_Prompt. Qed.
Lemma grows_log s e : e_Session e = ID s -> e_IP e = s_IP s -> e_SrcIP e = SrcIP s -> e_DstIP e = DstIP s -> e_Port e = port s ->
  e_Protocol e = proto s -> grows s (add_event s e).
Proof. intros. apply grows_event. by repeat split. Qed.

Create HintDb grow discriminated.
#[export] Hint Resolve grows_Write grows_SlowWrite : grow.
#[export] Hint Extern 1 (grows _ _) => apply grows_log; reflexivity : grow.
#[export] Hint Extern 2 (grows _ _) => apply grows_same; reflexivity : grow.

(** One step of a chain, from its last operation back. *)
Ltac grow :=
  lazymatch goal with
  | |- grows ?s ?s => reflexivity
  | |- grows _ _ => first [done | by auto with grow]
  end.
(** Reads leave an equation behind. *)
Lemma grows_read {s l ok s'} : ReadLine s = (l, ok, s') -> grows s s'.
Proof. intros E. pose proof (grows_ReadLine s) as H. by rewrite E in H. Qed.
Lemma grows_prompt {x s l ok s'} : Prompt x s = (l, ok, s') -> grows s s'.
Proof. intros E. pose proof (grows_Prompt x s) as H. by rewrite E in H. Qed.

(** ** Shells *)

Lemma Run_grows W base p user style pivot s g t :
  g <= maxGlobalOverlayBytes ->
  let '(s', g', _) := Run W base p user style pivot (s, g, t) in grows s s' /\ g' = g.
Proof.
  intros Hg. pose proof (Run_effects W base p user style pivot s g t Hg) as H.
  destruct (Run _ _ _ _ _ _ _) as [[s' g'] t']. destruct H as [-> H]. split; [by apply grows_of_le | done].
Qed.
Lemma RunOnce_grows W base p user style pivot line s g t :
  g <= maxGlobalOverlayBytes ->
  let '(_, (s', g', _)) := RunOnce W base p user style pivot line (s, g, t) in grows s s' /\ g' = g.
Proof.
  intros Hg. pose proof (RunOnce_status W base p user style pivot line s g t Hg) as H.
  destruct (RunOnce _ _ _ _ _ _ _ _) as [code [[s' g'] t']]. destruct H as (_ & -> & H). split; [by apply grows_of_le | done].
Qed.

(** ** Telnet *)

Section telnet.
Context (unmarshal : str -> option manifest) (parse_rfc3339 parse_date : str -> option Z)
  (render : Persona -> str -> str -> option str) (nas_tree : list (str * etree)) (png jpg : str).
Context (W : World) (base : node) (p : Persona) (style : str) (login_now : nat -> Z) (lucky : nat -> bool) (nas_now : Z).

Lemma grows_readUsername n s : grows s (Telnet.readUsername p n s).2.
Proof using.
  revert s. induction n as [| n IH]; intros s; cbn [Telnet.readUsername]; [done |].
  destruct (Prompt _ s) as [[u ok] s1] eqn:E. apply grows_prompt in E. destruct ok; cbn [negb]; [| done].
  destruct (trim_space u =s []); [by etransitivity; [| apply IH] | done].
Qed.
Lemma grows_readPassword s : grows s (Telnet.readPassword s).2.
Proof using.
  unfold Telnet.readPassword. destruct (Prompt _ _) as [[pass ok] s1] eqn:E. apply grows_prompt in E.
  transitivity (Write Telnet.echo_on s); [grow |]. transitivity s1; [done |]. destruct ok; cbn [negb snd]; [| grow].
  transitivity (Write Telnet.echo_off s1); grow.
Qed.

(** What a connection may do to its state. *)
Definition keeps (st st' : Telnet.tstate) : Prop :=
  grows st.1.1.1 st'.1.1.1 /\ st'.1.1.2 = st.1.1.2 /\ (table_ok st.2 -> table_ok st'.2).
#[local] Instance keeps_preorder : PreOrder keeps.
Proof using.
  split; [by intros [[[s g] t] bf] |]. intros a b c (G1 & E1 & B1) (G2 & E2 & B2).
  split_and!; [by etransitivity | congruence | auto].
Qed.

Lemma keeps_round i st : keeps st (Telnet.login_round p login_now lucky i st).1.
Proof using.
  destruct st as [[[s g] t] bf]. unfold Telnet.login_round.
  pose proof (grows_readUsername 64 s) as Hu. destruct (Telnet.readUsername p 64 s) as [[user |] s1]; cbn [snd] in Hu; [| by split_and!].
  pose proof (grows_readPassword (set_username s1 user)) as Hp. cbv zeta.
  assert (grows s (set_username s1 user)) as Hu' by (etransitivity; [exact Hu | grow]).
  destruct (Telnet.readPassword _) as [[pass |] s2]; cbn [snd] in Hp; [| split_and!; cbn [fst snd]; [by etransitivity | done | done]].
  destruct (AcceptFrom _ _ _ _ _ _ _) as [[ok br] bf'] eqn:E. split_and!; cbn [fst snd]; [| done | intros H; by eapply AcceptFrom_size].
  etransitivity; [exact Hu' |]. etransitivity; [exact Hp | grow].
Qed.

Lemma keeps_login tries : forall i st, st.1.1.2 <= maxGlobalOverlayBytes ->
  keeps st (Telnet.login_loop unmarshal parse_rfc3339 parse_date render nas_tree png jpg W base p style login_now lucky nas_now tries i st).1.
Proof using.
  induction tries as [| tries IH]; intros i st Hg; cbn [Telnet.login_loop]; [done |].
  pose proof (keeps_round i st) as Hr. destruct (Telnet.login_round _ _ _ i st) as [st1 [[user ok] |]]; cbn [fst] in Hr; [| done].
  pose proof Hr as (_ & Eg & _). destruct st1 as [[[s1 g1] t1] bf1]. cbn [fst snd] in Eg. subst g1. destruct ok; cbn [fst snd].
  - pose proof (Run_grows W base p (Telnet.loginUser p user) style
      (Some (Telnet.nasResolver unmarshal parse_rfc3339 parse_date render nas_tree png jpg nas_now p)) s1 st.1.1.2 t1 Hg) as H.
    etransitivity; [exact Hr |]. destruct (Run _ _ _ _ _ _ _) as [[s2 g2] t2]. destruct H as [H ->]. by split_and!.
  - etransitivity; [exact Hr |]. etransitivity; [| apply IH; exact Hg]. split_and!; cbn [fst snd Telnet.in_sess]; [grow | done | done].
Qed.

Lemma grows_cisco_reply cmd s : grows s (Telnet.cisco_reply p cmd s).
Proof using.
  unfold Telnet.cisco_reply, Writeln. repeat case_match; [grow | | grow | grow]. etransitivity; [| apply grows_Write]. grow.
Qed.
Lemma grows_cisco_loop fuel : forall s, grows s (Telnet.cisco_loop p fuel s).
Proof using.
  induction fuel as [| fuel IH]; intros s; cbn [Telnet.cisco_loop]; [done |].
  destruct (Prompt _ s) as [[line ok] s1] eqn:E. apply grows_prompt in E. destruct ok; cbn [negb]; [| done].
  destruct (trim_space line =s []); [by etransitivity; [| apply IH] |].
  assert (grows s (LogCommand (trim_space line) s1)) as Hl by (etransitivity; [exact E | grow]).
  case_bool_decide; [done |]. etransitivity; [exact Hl |]. etransitivity; [apply grows_cisco_reply | apply IH].
Qed.
Lemma grows_cisco s : grows s (Telnet.cisco p s).
Proof using.
  unfold Telnet.cisco. set (s0 := Writeln [] (Writeln _ _)).
  assert (grows s s0) as H0 by (unfold s0, Writeln; do 3 (etransitivity; [| apply grows_Write]); grow).
  destruct (Prompt _ s0) as [[user ok] s1] eqn:E. apply grows_prompt in E. etransitivity; [exact H0 |]. etransitivity; [exact E |].
  destruct ok; cbn [negb]; [| done]. pose proof (grows_readPassword s1) as Hp.
  destruct (Telnet.readPassword s1) as [[pass |] s2]; cbn [snd] in Hp; [| done].
  etransitivity; [exact Hp |]. etransitivity; [| apply grows_cisco_loop]. grow.
Qed.

Lemma keeps_telnet st : st.1.1.2 <= maxGlobalOverlayBytes ->
  keeps st (Telnet.Handle unmarshal parse_rfc3339 parse_date render nas_tree png jpg W base p style login_now lucky nas_now st).1.
Proof using.
  intros Hg. destruct st as [[[s g] t] bf]. cbn [fst snd] in Hg. unfold Telnet.Handle. cbv zeta.
  set (s0 := Write _ _). assert (grows s s0) as H0 by (unfold s0; etransitivity; [| apply grows_Write]; grow).
  destruct (Telnet.filtered (inp s0)) as [[clean replies] e].
  assert (grows s (set_inp s0 clean)) as H1 by (etransitivity; [exact H0 | grow]).
  destruct (style =s $$"cisco"); cbn [fst].
  - split_and!; cbn [fst snd]; [| done | done]. etransitivity; [exact H1 | apply grows_cisco].
  - etransitivity; [| apply keeps_login; exact Hg]. split_and!; cbn [fst snd]; [| done | done].
    etransitivity; [exact H1 |]. unfold Telnet.banner. grow.
Qed.
End telnet.

(** ** SSH *)

Section ssh.
Context (unmarshal : str -> option manifest) (parse_rfc3339 parse_date : str -> option Z)
  (render : Persona -> str -> str -> option str) (nas_tree : list (str * etree)) (png jpg : str).
Context (W : World) (base : node) (p : Persona) (style : str) (login_now : nat -> Z) (lucky : nat -> bool) (nas_now : Z).
Context (NewSignerFromKey : str -> bool)
  (NewServerConn : str -> Z -> (Ssh.auth_req -> Ssh.astate -> Ssh.astate * bool) -> Ssh.astate -> Ssh.astate * option Ssh.conn).
Hypothesis NewServerConn_handshake : forall banner tries cb st st' c,
  NewServerConn banner tries cb st = (st', c) -> exists l, SshFacts.handshake cb l st st' (Ssh.conn_user <$> c).

Lemma grows_tarpit s : grows s (Ssh.tarpit p s).
Proof using.
  unfold Ssh.tarpit. cbv zeta. destruct (ReadLine (set_idle _ _)) as [[b ok] s1] eqn:E1.
  destruct (ReadLine (LogRaw _ _ s1)) as [[k ok2] s2] eqn:E2. apply grows_read in E1, E2.
  transitivity s1; [etransitivity; [| exact E1]; etransitivity; [apply grows_Write | grow] |].
  transitivity (LogRaw $$"SSH_CLIENT" b s1); [grow |]. transitivity s2; [done |].
  transitivity (LogRaw $$"SSH_KEX" (HexDump (take Ssh.maxKexBytes k)) s2); [grow |]. unfold Ssh.HoldOpen. grow.
Qed.

Lemma authenticate_grows a st :
  grows st.1.1 (Ssh.authenticate p login_now lucky a st).1.1.1 /\
  (table_ok st.1.2 -> table_ok (Ssh.authenticate p login_now lucky a st).1.1.2).
Proof using.
  destruct st as [[s bf] n].
  assert (forall user pass, grows s (Ssh.authPassword p login_now lucky user pass (s, bf, n)).1.1.1 /\
    (table_ok bf -> table_ok (Ssh.authPassword p login_now lucky user pass (s, bf, n)).1.1.2)) as H.
  { intros user pass. unfold Ssh.authPassword. destruct (AcceptFrom _ _ _ _ _ _ _) as [[ok br] bf'] eqn:E.
    split; cbn [fst snd]; [grow | intros Hb; by eapply AcceptFrom_size]. }
  destruct a as [user pass | user [[| answer l] |] | user kt fp]; cbn [Ssh.authenticate fst snd]; first [apply H | done | split; [grow | done]].
Qed.
Lemma handshake_grows l st st' r :
  SshFacts.handshake (Ssh.authenticate p login_now lucky) l st st' r ->
  grows st.1.1 st'.1.1 /\ (table_ok st.1.2 -> table_ok st'.1.2).
Proof using.
  induction 1 as [st | a l st st1 st2 r E _ IH | a st st1 E | a st st1 E].
  2-4: pose proof (authenticate_grows a st) as H; rewrite E in H; cbn [fst] in H.
  - done.
  - destruct H as [H1 H2], IH as [I1 I2]. split; [by etransitivity | auto].
  - done.
  - done.
Qed.

Lemma grows_log_notes notes s : grows s (Ssh.log_notes notes s).
Proof using.
  unfold Ssh.log_notes. revert s. induction notes as [| x notes IH]; intros s; simpl; [done |].
  etransitivity; [| apply IH]. grow.
Qed.

Lemma serveSession_grows ch s g t :
  g <= maxGlobalOverlayBytes ->
  let '(v, (s', g', t')) := Ssh.serveSession unmarshal parse_rfc3339 parse_date render nas_tree png jpg W base p style nas_now ch (s, g, t) in
  grows s s' /\ g' = g /\ Forall (attributed s) (Ssh.sv_late v).
Proof using.
  intros Hg. unfold Ssh.serveSession. destruct (Ssh.ch_accepts ch); cbn [negb]; [| by split_and!]. cbv zeta.
  destruct (Ssh.until_start _ _) as [q rest]. set (s1 := Ssh.log_notes _ s).
  assert (grows s s1) as H1 by apply grows_log_notes.
  destruct (Ssh.rq_starts q) as [| sr l]; [by split_and! |].
  set (late := map _ _). assert (Forall (attributed s) late) as Hlate.
  { unfold late. apply Forall_forall. intros e He. apply list_elem_of_fmap in He as (n & -> & _).
    apply (attributed_identity s s1); [apply H1 | by repeat split]. }
  destruct (if Ssh.sr_pty sr && negb (Ssh.sr_exec sr) then Ssh.cooked (Ssh.ch_input ch) else (concat (Ssh.ch_input ch), Ssh.newTTY)) as [i tty].
  assert (grows s (set_inp s1 i)) as H2 by (etransitivity; [exact H1 | grow]).
  destruct (Ssh.sr_exec sr).
  - assert (grows s (LogCommandNote (Ssh.sr_cmd sr) $$"ssh-exec" (set_inp s1 i))) as H3 by (etransitivity; [exact H2 | grow]).
    match goal with |- context [RunOnce ?a ?b ?c ?d ?e ?f ?h (?s', ?g', ?t')] =>
      pose proof (RunOnce_grows a b c d e f h s' g' t' Hg) as H; destruct (RunOnce a b c d e f h (s', g', t')) as [code [[s2 g2] t2]] end.
    destruct H as [H ->]. split_and!; [by etransitivity | done | done].
  - match goal with |- context [Run ?a ?b ?c ?d ?e ?f (?s', ?g', ?t')] =>
      pose proof (Run_grows a b c d e f s' g' t' Hg) as H; destruct (Run a b c d e f (s', g', t')) as [[s2 g2] t2] end.
    destruct H as [H ->]. split_and!; [by etransitivity | done | done].
Qed.

Lemma serve_channels_grows chans : forall s g t,
  g <= maxGlobalOverlayBytes ->
  let '(r, (s', g', t')) := Ssh.serve_channels unmarshal parse_rfc3339 parse_date render nas_tree png jpg W base p style nas_now chans (s, g, t) in
  grows s s' /\ g' = g /\ Forall (attributed s) (late_events r).
Proof using.
  induction chans as [| ch chans IH]; intros s g t Hg; cbn [Ssh.serve_channels]; [by split_and! |].
  destruct (negb _).
  - specialize (IH s g t Hg). destruct (Ssh.serve_channels _ _ _ _ _ _ _ _ _ _ _ _ chans _) as [r [[s' g'] t']]. exact IH.
  - pose proof (serveSession_grows ch s g t Hg) as H. destruct (Ssh.serveSession _ _ _ _ _ _ _ _ _ _ _ _ ch _) as [v [[s1 g1] t1]].
    destruct H as (H1 & -> & H2). specialize (IH s1 g t1 Hg).
    destruct (Ssh.serve_channels _ _ _ _ _ _ _ _ _ _ _ _ chans _) as [r [[s' g'] t']]. destruct IH as (I1 & -> & I2).
    split_and!; [by etransitivity | done |]. unfold late_events. cbn [flat_map]. apply Forall_app. split; [done |].
    eapply Forall_impl; [exact I2 |]. intros e. apply attributed_identity, H1.
Qed.

Lemma ssh_grows s g t bf :
  g <= maxGlobalOverlayBytes ->
  let '(r, ((s', g', t'), bf')) :=
    Ssh.Handle unmarshal parse_rfc3339 parse_date render nas_tree png jpg W base p style login_now lucky nas_now
      NewSignerFromKey NewServerConn ((s, g, t), bf) in
  grows s s' /\ g' = g /\ (table_ok bf -> table_ok bf') /\ Forall (attributed s) (late_events r).
Proof using NewServerConn_handshake.
  intros Hg. unfold Ssh.Handle. cbv zeta.
  assert (grows s (set_persona s (Hostname p))) as H0 by grow. destruct (Ssh.hostSigner p NewSignerFromKey).
  - destruct (NewServerConn _ _ _ _) as [[[s1 bf1] n1] c] eqn:E. apply NewServerConn_handshake in E as [auths Hl].
    apply handshake_grows in Hl as [H1 H2]. cbn [fst snd] in H1, H2.
    assert (grows s s1) as Hs by (etransitivity; [exact H0 | exact H1]). destruct c as [c |]; [| by split_and!].
    pose proof (serve_channels_grows (Ssh.conn_chans c) (set_username s1 (Ssh.conn_user c)) g t Hg) as H.
    destruct (Ssh.serve_channels _ _ _ _ _ _ _ _ _ _ _ _ _ _) as [r [[s' g'] t']]. destruct H as (H3 & -> & H4).
    split_and!; [etransitivity; [exact Hs |]; etransitivity; [| exact H3]; grow | done | done |].
    eapply Forall_impl; [exact H4 |]. intros e. apply attributed_identity. apply Hs.
  - split_and!; [| done | done | done]. etransitivity; [exact H0 |]. etransitivity; [| apply grows_tarpit]. grow.
Qed.
End ssh.

(** ** FTP *)

Lemma grows_ftp_command p cmd arg user failed s : grows s (Ftp.command p cmd arg user failed s).2.
Proof.
  unfold Ftp.command. repeat case_match; cbn [snd]; try grow. etransitivity; [| apply grows_Write]. grow.
Qed.
Lemma grows_ftp up p s : grows s (Ftp.Handle up p s).
Proof.
  unfold Ftp.Handle. cbv zeta.
  assert (forall fuel user failed s, grows s (Ftp.dialogue up p fuel user failed s)) as H.
  { induction fuel as [| fuel IH]; intros user failed s0; cbn [Ftp.dialogue]; [done |].
    destruct (ReadLine s0) as [[line ok] s1] eqn:E. apply grows_read in E. destruct ok; cbn [negb]; [| done].
    destruct (Ftp.splitCommand _ line) as [cmd arg]. pose proof (grows_ftp_command p cmd arg user failed s1) as Hc.
    destruct (Ftp.command _ _ _ _ _ s1) as [[[u f] stop] s2]. cbn [snd] in Hc.
    transitivity s2; [by etransitivity |]. destruct stop; [done | apply IH]. }
  etransitivity; [| apply H]. etransitivity; [| apply grows_Write]. grow.
Qed.

(** ** HTTP and HTTPS *)

Lemma grows_https p s : grows s (Http.https_Handle p s).
Proof.
  unfold Http.https_Handle. destruct (ReadLine _) as [[line ok] s1] eqn:E. apply grows_read in E.
  transitivity s1; [etransitivity; [| exact E]; grow | grow].
Qed.

Section http.
Context (W : World) (md5 : str -> str) (date : str) (base : option node) (p : Persona) (style art backup : str).

Lemma grows_readHeaders n : forall headers s, grows s (Http.readHeaders n headers s).2.
Proof using.
  induction n as [| n IH]; intros headers s; cbn [Http.readHeaders]; [done |].
  destruct (ReadLine s) as [[line ok] s1] eqn:E. apply grows_read in E. destruct (line =s []); [done |].
  destruct ok; cbn [negb snd]; [by etransitivity; [| apply IH] | done].
Qed.
Lemma grows_readBody s n : grows s (Http.readBody s n).2.
Proof using. unfold Http.readBody, ReadN. repeat case_match; cbn [snd]; grow. Qed.
Lemma grows_wordpress meth path body s t :
  grows s (Http.respondWordPress W date p art backup meth path body s t).1.2.
Proof using.
  assert (grows s (Http.wp_login_post W date p body s t).1.2) as H1.
  { unfold Http.wp_login_post. destruct (Http.parseWPLogin body), (Http.wpLetIn _ t). cbn [fst snd]. grow. }
  assert (grows s (Http.wp_admin date p art backup s t).1.2) as H2.
  { unfold Http.wp_admin. destruct (Http.wpAdminReveal _ t) as [[] t1]; [done | |];
      destruct (Http.wpLogReveal _ t1) as [[] t2]; cbn [fst snd]; first [done | grow]. }
  unfold Http.respondWordPress. cbv zeta. repeat case_match; first [done | exact H1 | exact H2].
Qed.

Lemma tryExploit_grows path body s g tk r s' g' tk' :
  g <= maxGlobalOverlayBytes ->
  Http.tryExploit W md5 date base p path body (s, g, tk) = Some (r, (s', g', tk')) -> grows s s' /\ g' = g.
Proof using.
  intros Hg. unfold Http.tryExploit. destruct base as [root |]; [| done]. destruct (Http.extractRCE md5 path body) as [[cmd marker] |]; [| done].
  destruct (cmd =s []); [done |]. unfold Http.runRCE.
  pose proof (RunOnceCaptured_effects W root p Http.rceUser $$"ubuntu" None cmd (LogExec ($$"http-rce: " ++ cmd) [] s) g tk Hg) as H.
  destruct (RunOnceCaptured _ _ _ _ _ _ _ _) as [[o c] [[s1 g1] t1]]. destruct H as (_ & _ & _ & _ & -> & H).
  intros [= _ <- <- _]. split; [| done]. by transitivity (LogExec ($$"http-rce: " ++ cmd) [] s); [grow |].
Qed.

Lemma http_grows s g tk t :
  g <= maxGlobalOverlayBytes ->
  let '((s', g', _), _, _) := Http.Handle W md5 date base p style art backup (s, g, tk) t in grows s s' /\ g' = g.
Proof using.
  intros Hg. unfold Http.Handle. assert (grows s (set_persona s (Hostname p))) as H0 by grow.
  destruct (ReadLine _) as [[line ok] s1] eqn:E. apply grows_read in E.
  assert (grows s s1) as H1 by (by etransitivity). destruct (_ && _); [done |].
  destruct (Http.parseRequestLine line) as [meth path].
  pose proof (grows_readHeaders Http.maxHeaders ∅ s1) as Hh. destruct (Http.readHeaders _ _ s1) as [headers s2]. cbn [snd] in Hh.
  set (s3 := LogHTTPRequest meth line path headers s2).
  assert (grows s s3) as H3 by (transitivity s1; [done |]; transitivity s2; [done | unfold s3; grow]).
  assert (forall body s4, grows s s4 ->
    let '((out, delay), (s', g', tk'), t') := Http.respond W md5 date base p style art backup meth path body (s4, g, tk) t in
    grows s s' /\ g' = g) as Hrest.
  { intros body s4 H4. unfold Http.respond. destruct (Http.tryExploit _ _ _ _ _ path body _) as [[r [[s5 g5] tk5]] |] eqn:Ex.
    - apply tryExploit_grows in Ex as [H5 ->]; [| done]. destruct r. split; [by etransitivity | done].
    - destruct (style =s $$"tomcat"); [by destruct (Http.respondTomcat _ _ _) |].
      destruct (style =s $$"wordpress"); [| by destruct (Http.respondNginx _ _ _ _)].
      pose proof (grows_wordpress meth path body s4 t) as Hw. destruct (Http.respondWordPress _ _ _ _ _ _ _ _ _ _) as [[[o d] s5] t5].
      cbn [fst snd] in Hw. split; [by etransitivity | done]. }
  assert (forall body s4, grows s s4 ->
    let '((s', g', _), _, _) :=
      (let '((out, delay), (s, g, tk), t) := Http.respond W md5 date base p style art backup meth path body (s4, g, tk) t in
       ((Write (if meth =s $$"HEAD" then Http.headersOnly out else out) s, g, tk), t, delay)) in grows s s' /\ g' = g) as Hend.
  { intros body s4 H4. specialize (Hrest body s4 H4).
    destruct (Http.respond _ _ _ _ _ _ _ _ _ _ _ _ _) as [[[o d] [[s5 g5] tk5]] t5]. destruct Hrest as [H5 ->].
    split; [etransitivity; [exact H5 | apply grows_Write] | done]. }
  destruct (meth =s $$"POST"); [| by apply Hend].
  pose proof (grows_readBody s3 (Http.atoiSafe (default [] (headers !! $$"content-length")))) as Hb.
  destruct (Http.readBody s3 _) as [body s4]. cbn [snd] in Hb. apply Hend. etransitivity; [exact H3 |]. etransitivity; [exact Hb | grow].
Qed.
End http.

(** ** The services keep the contract *)

Section services.
Context (unmarshal : str -> option manifest) (parse_rfc3339 parse_date : str -> option Z)
  (render : Persona -> str -> str -> option str) (nas_tree : list (str * etree)) (png jpg : str).
Context (W : World) (base : node) (p : Persona) (login_now : nat -> Z) (lucky : nat -> bool) (nas_now : Z).
Context (NewSignerFromKey : str -> bool)
  (NewServerConn : str -> Z -> (Ssh.auth_req -> Ssh.astate -> Ssh.astate * bool) -> Ssh.astate -> Ssh.astate * option Ssh.conn).
Context (md5 : str -> str) (date art backup : str) (unicode_upper : Z -> Z).
Hypothesis NewServerConn_handshake : forall banner tries cb st st' c,
  NewServerConn banner tries cb st = (st', c) -> exists l, SshFacts.handshake cb l st st' (Ssh.conn_user <$> c).
#[local] Notation server_of := (server_of unmarshal parse_rfc3339 parse_date render nas_tree png jpg W base p login_now lucky nas_now
  NewSignerFromKey NewServerConn md5 date art backup unicode_upper).
#[local] Notation serve_all := (serve_all unmarshal parse_rfc3339 parse_date render nas_tree png jpg W base p login_now lucky nas_now
  NewSignerFromKey NewServerConn md5 date art backup unicode_upper).
#[local] Notation implementation := (implementation unmarshal parse_rfc3339 parse_date render nas_tree png jpg W base p login_now lucky nas_now
  NewSignerFromKey NewServerConn md5 date art backup unicode_upper).

#[export] Instance telnet_confined style :
  Confined (telnet unmarshal parse_rfc3339 parse_date render nas_tree png jpg W base p login_now lucky nas_now style).
Proof using.
  intros s h [Ho Hb]. cbn [Handle telnet].
  pose proof (keeps_telnet unmarshal parse_rfc3339 parse_date render nas_tree png jpg W base p style login_now lucky nas_now
    (shared_of s h, h_brute h) Ho) as H.
  destruct (Telnet.Handle _ _ _ _ _ _ _ _ _ _ _ _ _ _ _) as [[[[s' g'] t'] bf'] w]. destruct H as (H1 & H2 & H3). cbn [fst snd shared_of] in *.
  subst g'. split_and!; [done | constructor | split; cbn; auto | done].
Qed.
#[export] Instance ssh_confined style :
  Confined (ssh unmarshal parse_rfc3339 parse_date render nas_tree png jpg W base p login_now lucky nas_now NewSignerFromKey NewServerConn style).
Proof using NewServerConn_handshake.
  intros s h [Ho Hb]. cbn [Handle ssh].
  pose proof (ssh_grows unmarshal parse_rfc3339 parse_date render nas_tree png jpg W base p style login_now lucky nas_now
    NewSignerFromKey NewServerConn NewServerConn_handshake s (h_overlay h) (h_tick h) (h_brute h) Ho) as H. unfold shared_of.
  destruct (Ssh.Handle _ _ _ _ _ _ _ _ _ _ _ _ _ _ _ _ _) as [r [[[s' g'] t'] bf']]. destruct H as (H1 & -> & H2 & H3).
  split_and!; [done | done | split; cbn; auto | done].
Qed.
#[export] Instance tarpit_confined : Confined (ssh_tarpit p).
Proof using.
  intros s h Hh. cbn. split_and!; [| constructor | done | done]. unfold Ssh.tarpit_Handle. etransitivity; [| apply grows_tarpit]. grow.
Qed.
#[export] Instance http_confined number style : Confined (http W base p md5 date art backup number style).
Proof using.
  intros s h [Ho Hb]. cbn [Handle http].
  pose proof (http_grows W md5 date (Some base) p style (Http.extractArtBody art) (Http.extractArtBody backup) s (h_overlay h) (h_tick h)
    (default Http.no_trap (h_traps h !! number)) Ho) as H. unfold shared_of.
  destruct (Http.Handle _ _ _ _ _ _ _ _ _ _) as [[[[s' g'] t'] trap'] d]. destruct H as [H ->].
  split_and!; [done | constructor | split; cbn; auto | done].
Qed.
#[export] Instance https_confined : Confined (https p).
Proof using. intros s h Hh. cbn. split_and!; [apply grows_https | constructor | done | done]. Qed.
#[export] Instance ftp_confined : Confined (ftp p unicode_upper).
Proof using. intros s h Hh. cbn. split_and!; [apply grows_ftp | constructor | done | done]. Qed.

#[export] Instance implementation_confined number v : Confined (implementation number v).
Proof using NewServerConn_handshake. destruct v; apply _. Qed.

(** ** One connection *)

(** What is left of a connection that was served: its log opens with SESSION_START and
    closes with SESSION_END, and every event, those of its other goroutines included,
    names this connection and its source; the source is the peer unless a trusted proxy
    vouched for another, and was below its cap.  A refusal has its reason. *)
Definition accounted (srv : Server) (c : counters) (peer id : str) (duration : Z) (f : fate) : Prop :=
  match f with
  | Overloaded => maxConns <= tokens c
  | Refused Dropped => srv_proxy srv = true /\ peerTrusted (srv_nets srv) peer = true
  | Refused (Shed src) => maxConnsPerIP <= active_of c (srv_number srv, src)
  | Refused (Scan e) => ClientFirst (srv_protocol srv) = true /\ exists remote, e = PortScan remote (srv_number srv) (Name (srv_protocol srv))
  | Refused (Serve _ _ _ _) => False
  | Served s late =>
      exists remote opening between closing,
        events s = opening :: between ++ [closing] /\
        e_Event opening = $$"SESSION_START" /\ e_Event closing = $$"SESSION_END" /\ e_DurationMs closing = duration /\
        Forall (fun e => e_Session e = id /\ e_IP e = remote /\ e_SrcIP e = HostOnly remote /\
                         e_Port e = srv_number srv /\ e_Protocol e = Name (srv_protocol srv)) (events s ++ late) /\
        (peerTrusted (srv_nets srv) peer = false \/ srv_proxy srv = false -> remote = peer) /\
        tokens c < maxConns /\ active_of c (srv_number srv, HostOnly remote) < maxConnsPerIP
  end.

Lemma handle_conn_serve cfg active peer local i remote src dst rest :
  handle_conn cfg active peer local i = Serve remote src dst rest ->
  src = HostOnly remote /\ active src < maxConnsPerIP /\
  (peerTrusted (trustedProxyNets cfg) peer = false \/ ProxyProtocol cfg = false -> remote = peer).
Proof using.
  unfold handle_conn. destruct (endpoints cfg peer local i) as [[[rem d] r] |] eqn:E; [| done]. cbv zeta.
  destruct (maxConnsPerIP <=? active (HostOnly rem)) eqn:E1; [done |]. destruct (_ && _); [done |].
  intros [= <- <- _ _]. bool_hyps. split_and!; [done | lia |]. intros H. unfold endpoints in E.
  assert (ProxyProtocol cfg && peerTrusted (trustedProxyNets cfg) peer = false) as Hn by (destruct H as [-> | ->]; [apply andb_false_r | done]).
  rewrite Hn in E. by injection E as <- _ _.
Qed.

Lemma handle_conn_refuses srv c peer local i id duration v :
  handle_conn (config_of srv) (fun src => active_of c (srv_number srv, src)) peer local i = v ->
  match v with Serve _ _ _ _ => True | _ => accounted srv c peer id duration (Refused v) end.
Proof using.
  intros <-. unfold handle_conn. destruct (endpoints _ _ _ _) as [[[rem d] r] |] eqn:E.
  - destruct (maxConnsPerIP <=? _) eqn:E1; bool_hyps; [done |]. destruct (_ && _) eqn:E2; [| done].
    apply andb_prop in E2 as [E2 _]. split; [exact E2 | by exists rem].
  - unfold endpoints in E. destruct (_ && _) eqn:E1; [| done]. by apply andb_prop in E1.
Qed.

(** What a service leaves of a new session. *)
Lemma session_accounts srv `{!Confined (srv_protocol srv)} id now remote dst rest duration h :
  host_ok h ->
  let s0 := new_session srv id now remote (HostOnly remote) dst rest in
  let r := Handle (srv_protocol srv) (LogSessionStart s0) h in
  let s := Session.handle (fun _ => (r.1.1, None)) duration s0 in
  (exists opening between closing,
     events s = opening :: between ++ [closing] /\
     e_Event opening = $$"SESSION_START" /\ e_Event closing = $$"SESSION_END" /\ e_DurationMs closing = duration /\
     Forall (fun e => e_Session e = id /\ e_IP e = remote /\ e_SrcIP e = HostOnly remote /\
                      e_Port e = srv_number srv /\ e_Protocol e = Name (srv_protocol srv)) (events s ++ r.2)) /\
  host_ok r.1.2 /\ h_overlay r.1.2 = h_overlay h.
Proof using.
  intros Hh s0. pose proof (confined (LogSessionStart s0) h Hh) as H. cbv zeta.
  destruct (Handle (srv_protocol srv) (LogSessionStart s0) h) as [[s1 h1] late].
  destruct H as ([Hi (es & He & Hf)] & Hl & Hh1 & Ho). cbn [fst snd]. split_and!; [| done | done].
  assert (forall e, attributed (LogSessionStart s0) e -> e_Session e = id /\ e_IP e = remote /\ e_SrcIP e = HostOnly remote /\
            e_Port e = srv_number srv /\ e_Protocol e = Name (srv_protocol srv)) as Hat by (intros e (A1 & A2 & A3 & _ & A4 & A5); done).
  set (last := set_cred (set_end (ev s1 $$"SESSION_END") duration (CmdCount s1)) (Username s1) []).
  assert (attributed (LogSessionStart s0) last) as Hend by (eapply attributed_identity; [exact Hi | by repeat split]).
  exists (ev s0 $$"SESSION_START"), es, last. cbn [Session.handle LogSessionEnd add_event events fst snd]. rewrite He.
  split_and!; [by rewrite <- !app_assoc | done | done | done |].
  apply Forall_app. split; [| eapply Forall_impl; [exact Hl | exact Hat]].
  apply Forall_app. split; [| by constructor; [apply Hat |]].
  apply Forall_app. split; [constructor; [by repeat split | constructor] | eapply Forall_impl; [exact Hf | exact Hat]].
Qed.

Lemma handle_accounts srv `{!Confined (srv_protocol srv)} c peer local i id now duration h :
  host_ok h ->
  let '(f, h') := handle srv c peer local i id now duration h in
  accounted srv c peer id duration f /\ host_ok h' /\ h_overlay h' = h_overlay h.
Proof using.
  intros Hh. unfold handle, tryAcquire. destruct (tokens c <? maxConns) eqn:Et; bool_hyps; [| by split_and!]. destruct (handle_conn _ _ _ _ _) as [| | | remote src dst rest] eqn:E;
    try (split_and!; [exact (handle_conn_refuses srv _ peer local i id duration _ E) | done | done]).
  apply handle_conn_serve in E as (-> & Hcap & Hpeer).
  destruct (session_accounts srv id now remote dst rest duration h Hh) as ((o & b & e & H1 & H2 & H3 & H4 & H5) & Hh1 & Ho).
  cbv zeta. split_and!; [exists remote, o, b, e; by split_and! | done | done].
Qed.

(** The connections of [RunConn] are accounted for in the same way. *)
Lemma RunConn_accounts P `{!Confined P} id now remote local i duration h :
  host_ok h ->
  let '(f, h') := RunConn P id now remote local i duration h in
  accounted (MkServer false [] 0 P) (Counters 0 ∅ ∅) remote id duration f /\ host_ok h' /\ h_overlay h' = h_overlay h.
Proof using.
  intros Hh. destruct (session_accounts (MkServer false [] 0 P) id now remote (HostOnly local) i duration h Hh)
    as ((o & b & c & H1 & H2 & H3 & H4 & H5) & Hh1 & Ho).
  unfold RunConn. cbv zeta. split_and!; [exists remote, o, b, c; by split_and! | done | done].
Qed.

Lemma serve_all_accounts cfg l h :
  host_ok h ->
  let '(fates, h') := serve_all cfg l h in
  Forall2 (fun a f => accounted (server_of cfg (ar_listener a)) (ar_open a) (ar_peer a) (ar_id a) (ar_duration a) f) l fates /\
  host_ok h' /\ h_overlay h' = h_overlay h.
Proof using NewServerConn_handshake.
  revert h. induction l as [| a l IH]; intros h Hh; cbn [Honeypot.serve_all]; [by split_and! |]. unfold serve_one.
  set (srv := server_of cfg (ar_listener a)).
  assert (Confined (srv_protocol srv)) as Hc by apply implementation_confined.
  pose proof (handle_accounts srv (ar_open a) (ar_peer a) (ar_local a) (ar_input a) (ar_id a) (ar_now a) (ar_duration a) h Hh) as H.
  destruct (handle srv _ _ _ _ _ _ _ h) as [f h1]. destruct H as (Ha & Hh1 & Ho1). specialize (IH h1 Hh1).
  destruct (serve_all cfg l h1) as [fs h2]. destruct IH as (I1 & I2 & I3).
  split_and!; [by constructor | done | congruence].
Qed.

(** every connection is accounted for: whatever the clients of an instance send to its
    listeners, each connection is refused for a stated reason or leaves a log that opens
    and closes with the session, every event of which carries that session's id, the
    listener and a source the client did not choose; the memory of every overlay is
    given back, and the shared tables stay within their bounds. *)
Theorem every_connection_accounted cfg l h :
  host_ok h ->
  let '(fates, h') := serve_all cfg l h in
  Forall2 (fun a f => accounted (server_of cfg (ar_listener a)) (ar_open a) (ar_peer a) (ar_id a) (ar_duration a) f) l fates /\
  host_ok h' /\ h_overlay h' = h_overlay h.
Proof using NewServerConn_handshake. exact (serve_all_accounts cfg l h). Qed.
End services.

(** Three visitors of an instance: a guess over SSH that runs a command, a guess over
    FTP, and a bare connect to the web port. *)
Definition demo_arrival (port : Z) (proto input id : str) : arrival :=
  let lc := MkListener port proto [] in
  Arrival (lc, default FtpSvc (buildProtocol lc)) (Counters 0 ∅ ∅) $$"198.51.100.7:4242" $$"203.0.113.5:1" input id 0 12.
Definition demo_arrivals : list arrival :=
  [demo_arrival 22 $$"ssh" [] $$"A1"; demo_arrival 21 $$"ftp" ($$"USER root" ++ [zb 10] ++ $$"PASS toor" ++ [zb 10]) $$"B2";
   demo_arrival 80 $$"http" [] $$"C3"].
Definition demo_serve : list fate * host :=
  serve_all (fun _ => None) (fun _ => None) (fun _ => None) (fun _ _ _ => None) [] [] [] demo_world demo_base demo_persona
    (fun _ => 0) (fun _ => false) 0 (fun _ => true) (fun _ _ => SshFacts.scripted SshFacts.demo_attempts [SshFacts.demo_exec])
    (fun _ => []) [] [] [] (fun r => r) DefaultConfig demo_arrivals (Host 7 0 None ∅).
Definition fate_log (f : fate) : list (str * str) :=
  match f with
  | Served s late => map (fun e => (e_Session e, e_Event e)) (events s ++ late)
  | Refused (Scan e) => [([], e_Event e)]
  | Refused _ | Overloaded => []
  end.

Lemma every_connection_accounted_witness :
  map fate_log demo_serve.1 =
    [map (fun e => ($$"A1", e)) [$$"SESSION_START"; $$"CREDENTIAL"; $$"CREDENTIAL"; $$"CREDENTIAL"; $$"COMMAND"; $$"SESSION_END"];
     map (fun e => ($$"B2", e)) [$$"SESSION_START"; $$"CREDENTIAL"; $$"SESSION_END"]; [([], $$"PORT_SCAN")]] /\
  host_ok demo_serve.2 /\ h_overlay demo_serve.2 = 7.
Proof.
  split; [vm_compute; reflexivity |].
  pose proof (every_connection_accounted (fun _ => None) (fun _ => None) (fun _ => None) (fun _ _ _ => None) [] [] [] demo_world demo_base demo_persona
    (fun _ => 0) (fun _ => false) 0 (fun _ => true) (fun _ _ => SshFacts.scripted SshFacts.demo_attempts [SshFacts.demo_exec])
    (fun _ => []) [] [] [] (fun r => r) (fun _ _ => SshFacts.scripted_handshake _ _) DefaultConfig demo_arrivals (Host 7 0 None ∅)) as H.
  unfold demo_serve. destruct (serve_all _ _ _ _ _ _ _ _ _ _ _ _ _ _ _ _ _ _ _ _ _ _ _) as [fates h'].
  apply H. split; [by apply Z.leb_le | done].
Defined.
