(* ===== verification/Replay.v ===== *)
(** * Replay: from what a session writes to what the operator sees

    The connection a session writes to is a stack of wrappers ([recordConn], [chanConn]
    and the socket, internal/server); the recorder of [Record] gets what passes through
    the outermost one.  The cast it writes is served by [Portal.cast] and read back by
    the script of the dashboard ([parseCast], [playFrames] and [cleanTerm], html.go).
    [encoding/json] quotes a string here as it does in Go, and [JSON.parse] is given on
    the lines of a cast.  A string of the script is the list of its UTF-16 units. *)

From stdpp Require Import list.
From S2P Require Import Prelude GoStrings Util Session Record Portal.

(** ** Strings in JSON *)

(** What [for i := 0; i < len(s)] with [utf8.DecodeRune] meets: runes and widths. *)
Fixpoint rune_widths (skip : nat) (s : str) : list (Z * nat) :=
  match s with
  | [] => []
  | _ :: s' =>
      match skip with
      | S k => rune_widths k s'
      | O => let '(r, w) := decode_rune s in (r, w) :: rune_widths (w - 1) s'
      end
  end.

(** [encoding/json] with HTML escaping, as [json.Marshal] uses it. *)
Definition hex_digit (n : Z) : ascii := zb (if n <? 10 then 48 + n else 87 + n).
Definition json_escape (r : Z) : str :=
  if (r =? 34) || (r =? 92) then [zb 92; zb r]
  else if r =? 8 then $$"\b" else if r =? 12 then $$"\f" else if r =? 10 then $$"\n"
  else if r =? 13 then $$"\r" else if r =? 9 then $$"\t"
  else if (r <? 32) || (r =? 60) || (r =? 62) || (r =? 38) then $$"\u00" ++ [hex_digit (r / 16); hex_digit (r mod 16)]
  else if (r =? 8232) || (r =? 8233) then $$"\u202" ++ [hex_digit (r mod 16)]
  else encode_rune r.
Definition json_item (rw : Z * nat) : str :=
  if (rw.1 =? RuneError) && (rw.2 <=? 1)%nat then $$"\ufffd" else json_escape rw.1.
Definition json_string (s : str) : str := [zb 34] ++ flat_map json_item (rune_widths 0 s) ++ [zb 34].

(** [strconv.FormatFloat] with six decimals, of a time of [us] microseconds. *)
Definition format_offset (us : Z) : str := itoa (us / 1000000) ++ $$"." ++ pad_zero 6 (itoa (us mod 1000000)).

(** The header of [record.New]: [json.Marshal] sorts the keys of a map. *)
Definition cast_header (width height now : Z) : str :=
  let key k v := [zb 34] ++ k ++ [zb 34] ++ $$":" ++ itoa v in
  $$"{" ++ key $$"height" height ++ $$"," ++ key $$"timestamp" now ++ $$"," ++ key $$"version" 2 ++ $$"," ++
  key $$"width" width ++ $$"}".
Definition cast_file (dir id : str) : str := path_join dir (id ++ $$".cast").

(** ** The connection *)

(** A [net.Conn]: the accepted socket, the [n]th channel rebound over it, or one whose
    writes are teed into the recorder. *)
Inductive conn : Type :=
  | Socket
  | chanConn (n : nat) (base : conn)
  | recordConn (inner : conn).

(** What reached the client, in order, on the socket in clear ([None]) or on a channel,
    and the session's recorder. *)
Record wire : Type := Wire { w_conn : conn; w_sent : list (option nat * str); w_rec : option Recorder }.

(** One [Write]: how many bytes the transport took, when, and how much of the cast's
    line the disk took. *)
Record attempt : Type := Attempt { at_bytes : str; at_took : nat; at_time : Z; at_disk : nat }.
Definition taken (a : attempt) : str := take (at_took a) (at_bytes a).

Fixpoint conn_Write (c : conn) (a : attempt) (sent : list (option nat * str)) (rec : option Recorder)
  : list (option nat * str) * option Recorder :=
  match c with
  | Socket => (sent ++ [(None, taken a)], rec)
  | chanConn n _ => (sent ++ [(Some n, taken a)], rec)
  | recordConn inner =>
      let '(sent, rec) := conn_Write inner a sent rec in
      (sent, if (0 <? at_took a)%nat then Record.Write json_string (taken a) (format_offset (at_time a)) (at_disk a) rec else rec)
  end.

(** Where deadlines, addresses and lifetime are kept. *)
Fixpoint transport (c : conn) : conn :=
  match c with Socket => Socket | chanConn _ base => transport base | recordConn inner => transport inner end.

Definition RawConn (c : conn) : conn := match c with recordConn inner => inner | _ => c end.
Definition Rebind (n : nat) (c : conn) : conn :=
  let base := chanConn n (RawConn c) in
  match c with recordConn _ => recordConn base | _ => base end.

(** The channel whose terminal the session reads: [cookedTTY] echoes on it directly. *)
Definition channel_of (c : conn) : option nat := match RawConn c with chanConn n _ => Some n | _ => None end.

(** [handle]: the connection a session starts on, with a recorder when one was opened. *)
Definition accept (rec : option Recorder) : wire :=
  match rec with Some _ => Wire (recordConn Socket) [] rec | None => Wire Socket [] None end.

Inductive op : Type :=
  | Put (a : attempt)          (* Session.Write, WriteBytes and the slow helpers *)
  | Handshake (b : str)        (* the SSH library, on RawConn *)
  | Echo (b : str)             (* cookedTTY.cook *)
  | Channel (n : nat).         (* Rebind *)

Definition step (w : wire) (o : op) : wire :=
  match o with
  | Put a =>
      let '(sent, rec) := conn_Write (w_conn w) a (w_sent w) (w_rec w) in Wire (w_conn w) sent rec
  | Handshake b =>
      let '(sent, rec) := conn_Write (RawConn (w_conn w)) (Attempt b (length b) 0 0) (w_sent w) (w_rec w) in
      Wire (w_conn w) sent rec
  | Echo b => Wire (w_conn w) (w_sent w ++ [(channel_of (w_conn w), b)]) (w_rec w)
  | Channel n => Wire (Rebind n (w_conn w)) (w_sent w) (w_rec w)
  end.
Definition run_ops (ops : list op) (w : wire) : wire := fold_left step ops w.

(** What a session's helpers hand to [conn.Write], piece by piece. *)
Definition write_pieces (x : str) (s : sess) : list str := match capture s with Some _ => [] | None => [x] end.
Definition slow_pieces (x : str) (s : sess) : list str :=
  match capture s with Some _ => [] | None => map encode_rune (runes x) end.
Definition progress_pieces (label : str) (s : sess) : list str :=
  match capture s with
  | Some _ => []
  | None => map (fun i => let pct := i * 100 / 50 in
      [zb 13] ++ label ++ $$" " ++ progressBar pct ++ $$" " ++ pad_left 3 (itoa pct) ++ $$"%") (seqZ 0 51) ++ [[zb 10]]
  end.

(** ** The script *)

Definition units_of (r : Z) : list Z :=
  if r <? 65536 then [r] else [55296 + (r - 65536) / 1024; 56320 + (r - 65536) mod 1024].
Definition utf16 (rs : list Z) : list Z := flat_map units_of rs.
(** [response.text()]. *)
Definition js_text (body : str) : list Z := utf16 (runes body).
Definition lit (s : str) : list Z := map bz s.

Fixpoint js_split (c : Z) (s : list Z) : list (list Z) :=
  match s with
  | [] => [[]]
  | x :: s => match js_split c s with
              | l :: ls => if x =? c then [] :: l :: ls else (x :: l) :: ls
              | [] => []
              end
  end.

(** [JSON.parse] of [[number, string, string]]; a number stays its text. *)
Definition is_dig (c : Z) : bool := (48 <=? c) && (c <=? 57).
Fixpoint digit_span (s : list Z) : list Z * list Z :=
  match s with
  | c :: s' => if is_dig c then let '(d, r) := digit_span s' in (c :: d, r) else ([], s)
  | [] => ([], [])
  end.
Definition js_exponent (s : list Z) : option (list Z * list Z) :=
  match s with
  | e :: s' =>
      if (e =? 101) || (e =? 69) then
        let '(sign, s'') := match s' with c :: t => if (c =? 43) || (c =? 45) then ([c], t) else ([], s') | [] => ([], []) end in
        match digit_span s'' with ([], _) => None | (d, r) => Some (e :: sign ++ d, r) end
      else Some ([], s)
  | [] => Some ([], [])
  end.
Definition js_fraction (s : list Z) : option (list Z * list Z) :=
  match s with
  | c :: s' => if c =? 46 then match digit_span s' with ([], _) => None | (d, r) => Some (c :: d, r) end else Some ([], s)
  | [] => Some ([], [])
  end.
Definition js_integer (s : list Z) : option (list Z * list Z) :=
  match s with
  | c :: s' => if c =? 48 then Some ([c], s') else match digit_span s with ([], _) => None | (d, r) => Some (d, r) end
  | [] => None
  end.
Definition js_sign (s : list Z) : list Z * list Z :=
  match s with c :: s' => if c =? 45 then ([c], s') else ([], s) | [] => ([], []) end.
Definition js_number (s : list Z) : option (list Z * list Z) :=
  let '(sign, s) := js_sign s in
  '(i, s) ← js_integer s; '(f, s) ← js_fraction s; '(e, s) ← js_exponent s; Some (sign ++ i ++ f ++ e, s).

Definition js_hex (c : Z) : option Z :=
  if is_dig c then Some (c - 48)
  else if (97 <=? c) && (c <=? 102) then Some (c - 87)
  else if (65 <=? c) && (c <=? 70) then Some (c - 55) else None.
Definition js_hex4 (a b c d : Z) : option Z :=
  a ← js_hex a; b ← js_hex b; c ← js_hex c; d ← js_hex d; Some (a * 4096 + b * 256 + c * 16 + d).
Definition js_escape (e : Z) : option Z :=
  if (e =? 34) || (e =? 92) || (e =? 47) then Some e
  else if e =? 98 then Some 8 else if e =? 102 then Some 12 else if e =? 110 then Some 10
  else if e =? 114 then Some 13 else if e =? 116 then Some 9 else None.
Definition put_unit (u : Z) (r : option (list Z * list Z)) : option (list Z * list Z) :=
  match r with Some (s, t) => Some (u :: s, t) | None => None end.
(** After the opening quote. *)
Fixpoint js_string (s : list Z) : option (list Z * list Z) :=
  match s with
  | [] => None
  | c :: s =>
      if c =? 34 then Some ([], s)
      else if c =? 92 then
        match s with
        | e :: s =>
            if e =? 117 then
              match s with
              | h1 :: h2 :: h3 :: h4 :: s =>
                  match js_hex4 h1 h2 h3 h4 with Some u => put_unit u (js_string s) | None => None end
              | _ => None
              end
            else match js_escape e with Some u => put_unit u (js_string s) | None => None end
        | [] => None
        end
      else if c <? 32 then None
      else put_unit c (js_string s)
  end.

Fixpoint js_space (s : list Z) : list Z :=
  match s with c :: s' => if (c =? 32) || (c =? 9) || (c =? 10) || (c =? 13) then js_space s' else s | [] => [] end.
(** A punctuator, with the space allowed around it. *)
Definition js_token (c : Z) (s : list Z) : option (list Z) :=
  match js_space s with x :: s => if x =? c then Some (js_space s) else None | [] => None end.
Definition js_quoted (s : list Z) : option (list Z * list Z) :=
  match js_space s with c :: s => if c =? 34 then js_string s else None | [] => None end.

Record frame : Type := Frame { f_t : list Z; f_d : list Z }.
Definition JSON_event (s : list Z) : option (list Z * list Z * list Z) :=
  s ← js_token 91 s; '(t, s) ← js_number s; s ← js_token 44 s; '(k, s) ← js_quoted s;
  s ← js_token 44 s; '(d, s) ← js_quoted s; s ← js_token 93 s;
  match s with [] => Some (t, k, d) | _ => None end.

Definition cast_frame (ln : list Z) : option frame :=
  if bool_decide (ln = []) then None
  else match JSON_event ln with
       | Some (t, k, d) => if bool_decide (k = lit $$"o") then Some (Frame t d) else None
       | None => None
       end.
Definition parseCast (text : list Z) : list frame := omap cast_frame (drop 1 (js_split 10 text)).

(** A global [replace] by nothing: [m] is the length of the match at the head, if any. *)
Fixpoint re_delete (m : list Z -> nat) (skip : nat) (s : list Z) : list Z :=
  match s with
  | [] => []
  | c :: s' =>
      match skip with
      | S k => re_delete m k s'
      | O => match m s with O => c :: re_delete m 0 s' | S k => re_delete m k s' end
      end
  end.
Fixpoint span_len (f : Z -> bool) (s : list Z) : nat :=
  match s with c :: s => if f c then S (span_len f s) else 0 | [] => 0 end.
Definition unit_in (lo hi c : Z) : bool := (lo <=? c) && (c <=? hi).
Definition csi_param (c : Z) : bool := unit_in 48 57 c || (c =? 59) || (c =? 63).
Definition csi_inter (c : Z) : bool := unit_in 32 47 c.
Definition csi_final (c : Z) : bool := unit_in 64 126 c.
(** The three classes of the first pattern are disjoint, so its greedy match is the only one. *)
Definition match_csi (s : list Z) : nat :=
  match s with
  | e :: b :: s =>
      if (e =? 27) && (b =? 91) then
        let i := span_len csi_param s in
        let j := span_len csi_inter (drop i s) in
        match drop (i + j) s with c :: _ => if csi_final c then (3 + i + j)%nat else 0%nat | [] => 0%nat end
      else 0%nat
  | _ => 0%nat
  end.
Definition match_charset (s : list Z) : nat :=
  match s with
  | e :: b :: c :: _ =>
      if (e =? 27) && ((b =? 40) || (b =? 41)) && ((c =? 65) || (c =? 66) || unit_in 48 57 c) then 3%nat else 0%nat
  | _ => 0%nat
  end.
Definition match_single (s : list Z) : nat :=
  match s with
  | e :: c :: _ => if (e =? 27) && ((c =? 61) || (c =? 62) || (c =? 78) || (c =? 77)) then 2%nat else 0%nat
  | _ => 0%nat
  end.
Definition term_control (c : Z) : bool := unit_in 0 8 c || unit_in 11 31 c || (c =? 127).
Definition cleanTerm (s : list Z) : list Z :=
  List.filter (fun c => negb (term_control c)) (re_delete match_single 0 (re_delete match_charset 0 (re_delete match_csi 0 s))).

(** What [playFrames] has put on the screen at the end. *)
Definition playFrames (frames : list frame) : list Z := flat_map (fun f => cleanTerm (f_d f)) frames.
