(* ===== verification/ReplayFacts.v ===== *)
(** * ReplayFacts: the operator replays what the session wrote

    Valid UTF-8 and its decoding, the quoting of [encoding/json] against the strings of
    [JSON.parse], the lines of a cast, the wrappers of the connection, and the escape
    sequences the player removes. *)

From stdpp Require Import list.
From S2P Require Import Prelude GoStrings Util Session Record Portal PortalFacts Replay.
From S2P Require Ssh Telnet.

(** ** Valid UTF-8 *)

Definition utf8 (s : str) : Prop := flat_map encode_rune (runes s) = s.
#[export] Instance utf8_dec s : Decision (utf8 s) := decide (flat_map encode_rune (runes s) = s).

Lemma runes_encode_all rs t : Forall scalar rs -> runes (flat_map encode_rune rs ++ t) = rs ++ runes t.
Proof using.
  induction 1 as [| r rs Hr _ IH]; [done |]. cbn [flat_map app]. by rewrite <- app_assoc, runes_encode, IH.
Qed.

Lemma utf8_encode rs : Forall scalar rs -> utf8 (flat_map encode_rune rs).
Proof using.
  intros H. unfold utf8. pose proof (runes_encode_all rs [] H) as E. rewrite !app_nil_r in E. by rewrite E.
Qed.

Lemma utf8_rune r : scalar r -> utf8 (encode_rune r).
Proof using. intros H. pose proof (utf8_encode [r]) as E. cbn in E. rewrite app_nil_r in E. apply E. by constructor. Qed.

Lemma utf8_runes_app a b : utf8 a -> runes (a ++ b) = runes a ++ runes b.
Proof using. intros H. pose proof (runes_encode_all (runes a) b (runes_scalar a)) as E. by rewrite H in E. Qed.

Lemma utf8_nil : utf8 [].
Proof using. done. Qed.

Lemma utf8_app a b : utf8 a -> utf8 b -> utf8 (a ++ b).
Proof using. intros Ha Hb. unfold utf8. by rewrite utf8_runes_app, flat_map_app, Ha, Hb. Qed.

Lemma utf8_concat l : Forall utf8 l -> utf8 (concat l).
Proof using. induction 1; [apply utf8_nil | by apply utf8_app]. Qed.

Definition ascii_text (s : str) : Prop := Forall (fun c => bz c < 128) s.

Lemma ascii_runes s t : ascii_text s -> runes (s ++ t) = map bz s ++ runes t.
Proof using.
  induction 1 as [| c s Hc _ IH]; [done |]. cbn [app map]. rewrite <- IH. unfold runes. cbn [runes_from].
  assert (decode_rune (c :: s ++ t) = (bz c, 1%nat)) as ->; [| done].
  cbn [decode_rune]. cbv zeta. by rewrite (proj2 (Z.ltb_lt _ _) Hc).
Qed.

Lemma ascii_runes_nil s : ascii_text s -> runes s = lit s.
Proof using. intros H. pose proof (ascii_runes s [] H) as E. rewrite !app_nil_r in E. exact E. Qed.

Lemma ascii_utf8 s : ascii_text s -> utf8 s.
Proof using.
  intros H. unfold utf8. rewrite (ascii_runes_nil s H). induction H as [| c s Hc _ IH]; [done |]. cbn [lit map flat_map].
  unfold lit in IH. rewrite IH. pose proof (bz_range c) as Hr. unfold encode_rune.
  replace ((bz c <? 0) || (1114111 <? bz c) || ((55296 <=? bz c) && (bz c <=? 57343))) with false
    by (symmetry; rewrite !orb_false_iff, andb_false_iff, !Z.ltb_ge, !Z.leb_gt; lia).
  rewrite (proj2 (Z.ltb_lt _ _) Hc). cbn [bytes map app]. by rewrite zb_bz.
Qed.

Lemma utf16_app a b : utf16 (a ++ b) = utf16 a ++ utf16 b.
Proof using. apply flat_map_app. Qed.

Lemma utf16_ascii s : ascii_text s -> utf16 (lit s) = lit s.
Proof using.
  induction 1 as [| c s Hc _ IH]; [done |]. cbn [lit map utf16 flat_map]. unfold utf16, lit in IH. rewrite IH.
  unfold units_of. by rewrite (proj2 (Z.ltb_lt _ _)) by lia.
Qed.

Lemma js_text_app a b : utf8 a -> js_text (a ++ b) = js_text a ++ js_text b.
Proof using. intros H. unfold js_text. by rewrite utf8_runes_app, utf16_app. Qed.

Lemma js_text_ascii s t : ascii_text s -> js_text (s ++ t) = lit s ++ js_text t.
Proof using. intros H. rewrite js_text_app by by apply ascii_utf8. f_equal. unfold js_text. by rewrite ascii_runes_nil, utf16_ascii. Qed.

(** ** Quoted strings *)

Lemma decode_from_runes k s : map fst (rune_widths k s) = runes_from k s.
Proof using.
  revert k. induction s as [| c s IH]; intros [| k]; cbn [rune_widths runes_from]; try done.
  destruct (decode_rune (c :: s)) as [r w]. cbn [map fst]. by rewrite IH.
Qed.

Definition put_units (us : list Z) (r : option (list Z * list Z)) : option (list Z * list Z) := foldr put_unit r us.

Lemma put_units_Some us s t : put_units us (Some (s, t)) = Some (us ++ s, t).
Proof using. induction us as [| u us IH]; [done |]. cbn. unfold put_units in IH. by rewrite IH. Qed.

(** One quoted rune: it is valid UTF-8 without a line break, and reads back. *)
Record item_ok (x : str) (r : Z) : Prop := ItemOk {
  it_utf8 : utf8 x;
  it_line : Forall (fun u => 32 <= u) (js_text x);
  it_read : forall rest, js_string (js_text x ++ rest) = put_units (units_of r) (js_string rest)
}.

Ltac literal_item := split; [by vm_compute | vm_compute; repeat (constructor; [discriminate |]); constructor | reflexivity].

Lemma json_ascii_ok r : 0 <= r < 128 -> item_ok (json_escape r) r.
Proof using.
  intros H. assert (r ∈ seqZ 0 128) as Hin by (apply elem_of_seqZ; lia). clear H. revert r Hin. apply Forall_forall.
  change (seqZ 0 128) with (map Z.of_nat (seq 0 128)). cbn [seq map].
  repeat (constructor; [literal_item |]). constructor.
Qed.

Lemma js_string_put us rest : Forall (fun u => 128 <= u) us -> js_string (us ++ rest) = put_units us (js_string rest).
Proof using.
  induction 1 as [| u us Hu _ IH]; [done |]. cbn [app js_string put_units foldr]. unfold put_units in IH. rewrite IH.
  rewrite !(proj2 (Z.eqb_neq u _)), (proj2 (Z.ltb_ge u 32)) by lia. done.
Qed.

Lemma json_wide_ok r : scalar r -> 128 <= r -> r <> 8232 -> r <> 8233 -> item_ok (json_escape r) r.
Proof using.
  intros Hs Hr H1 H2. unfold json_escape. rewrite !(proj2 (Z.eqb_neq r _)), (proj2 (Z.ltb_ge r 32)) by lia. cbn [orb].
  assert (js_text (encode_rune r) = units_of r) as E.
  { unfold js_text. pose proof (runes_encode r [] Hs) as E. rewrite app_nil_r in E. rewrite E. cbn. apply app_nil_r. }
  assert (Forall (fun u => 128 <= u) (units_of r)) as Hu.
  { unfold units_of. destruct (r <? 65536) eqn:E1; bool_hyps; [by repeat constructor |].
    pose proof (Z.div_pos (r - 65536) 1024). pose proof (Z.mod_pos_bound (r - 65536) 1024). repeat constructor; lia. }
  split; [by apply utf8_rune | |]; rewrite E; [eapply Forall_impl; [exact Hu | cbn; lia] | by intros rest; apply js_string_put].
Qed.

Lemma json_item_ok r w : scalar r -> item_ok (json_item (r, w)) r.
Proof using.
  intros Hs. unfold json_item. cbn [fst snd]. destruct ((r =? RuneError) && (w <=? 1)%nat) eqn:E.
  { apply andb_prop in E as [E _]. apply Z.eqb_eq in E as ->.
    literal_item. }
  destruct (Z.lt_ge_cases r 128) as [H | H]; [apply json_ascii_ok; unfold scalar in Hs; lia |].
  destruct (Z.eq_dec r 8232) as [-> | H1]; [literal_item |]. destruct (Z.eq_dec r 8233) as [-> | H2]; [literal_item |].
  by apply json_wide_ok.
Qed.

Lemma json_items_ok l rest :
  Forall scalar (map fst l) ->
  utf8 (flat_map json_item l) /\ Forall (fun u => 32 <= u) (js_text (flat_map json_item l)) /\
  js_string (js_text (flat_map json_item l) ++ 34 :: rest) = Some (utf16 (map fst l), rest).
Proof using.
  induction l as [| [r w] l IH]; intros H; [done |]. cbn [map fst] in H. apply Forall_cons in H as [Hr H].
  destruct (IH H) as (I1 & I2 & I3). destruct (json_item_ok r w Hr) as [J1 J2 J3]. cbn [flat_map].
  rewrite js_text_app by done. split_and!; [by apply utf8_app | by apply Forall_app |].
  by rewrite <- app_assoc, J3, I3, put_units_Some.
Qed.

(** Any bytes, quoted: one line of valid UTF-8, read back as the text they decode to. *)
Lemma json_string_ok s :
  exists body, json_string s = [zb 34] ++ body ++ [zb 34] /\ utf8 body /\ Forall (fun u => 32 <= u) (js_text body) /\
    forall rest, js_string (js_text body ++ 34 :: rest) = Some (js_text s, rest).
Proof using.
  exists (flat_map json_item (rune_widths 0 s)). assert (Forall scalar (map fst (rune_widths 0 s))) as H
    by (rewrite decode_from_runes; apply runes_scalar).
  destruct (json_items_ok (rune_widths 0 s) [] H) as (H1 & H2 & _). split_and!; [done | done | done |].
  intros rest. destruct (json_items_ok (rune_widths 0 s) rest H) as (_ & _ & ->). unfold js_text, runes. by rewrite decode_from_runes.
Qed.

(** ** Offsets *)

Definition digit_text (s : str) : Prop := Forall (fun c => is_digit c = true) s.

Lemma digit_lit s : digit_text s -> ascii_text s /\ Forall (fun u => is_dig u = true) (lit s).
Proof using.
  intros H. split; [eapply Forall_impl; [exact H |] | apply Forall_fmap; eapply Forall_impl; [exact H |]];
    intros c Hc; cbn; unfold is_digit in Hc; apply in_range_spec in Hc; unfold is_dig; [lia |]. apply andb_true_iff. rewrite !Z.leb_le. lia.
Qed.

Lemma digit_span_all d t :
  Forall (fun u => is_dig u = true) d -> (forall c t', t = c :: t' -> is_dig c = false) -> digit_span (d ++ t) = (d, t).
Proof using.
  intros Hd Ht. induction Hd as [| c d Hc _ IH]; cbn [app digit_span].
  - destruct t as [| c t]; [done |]. cbn [digit_span]. by rewrite (Ht c t eq_refl).
  - by rewrite Hc, IH.
Qed.

(** No leading zero. *)
Lemma digits_head fuel n acc : 0 < n < 10 ^ Z.of_nat fuel -> exists c s, digits 10 fuel n acc = c :: s /\ bz c <> 48.
Proof using.
  revert n acc. induction fuel as [| fuel IH]; intros n acc Hn; [cbn in Hn; lia |]. rewrite digits_step by lia.
  pose proof (Z.mod_pos_bound n 10 eq_refl). pose proof (Z.div_mod n 10 ltac:(lia)). destruct (n / 10 =? 0) eqn:E; bool_hyps.
  - eexists _, _. split; [reflexivity |]. rewrite bz_zb, Z.mod_small by lia. lia.
  - apply IH. pose proof (Z.div_pos n 10). rewrite Nat2Z.inj_succ, Z.pow_succ_r in Hn by lia.
    split; [lia |]. apply Z.div_lt_upper_bound; lia.
Qed.

Lemma itoa_json n t :
  0 <= n -> (forall c t', t = c :: t' -> is_dig c = false) -> js_integer (lit (itoa n) ++ t) = Some (lit (itoa n), t).
Proof using.
  intros Hn Ht. destruct (itoa_nonneg n Hn) as (_ & Hd & Hne). apply digit_lit in Hd as [_ Hd].
  destruct (Z.eq_dec n 0) as [-> | Hz]; [by destruct t |].
  destruct (digits_head (digit_fuel n) n []) as (c & s & E & Hc); [split; [lia | by apply digit_fuel_enough] |].
  unfold itoa in *. rewrite (proj2 (Z.ltb_ge n 0) Hn) in *. rewrite E in *. cbn [lit map app js_integer].
  rewrite (proj2 (Z.eqb_neq _ _) Hc). change (bz c :: map bz s ++ t) with (lit (c :: s) ++ t). by rewrite digit_span_all.
Qed.

Lemma pad_zero_digits n : 0 <= n -> digit_text (pad_zero 6 (itoa n)) /\ pad_zero 6 (itoa n) <> [].
Proof using.
  intros Hn. destruct (itoa_nonneg n Hn) as (_ & Hd & Hne). unfold pad_zero. split.
  - apply Forall_app. split; [| done]. apply Forall_forall. intros x Hx. apply list_elem_of_In, repeat_spec in Hx as ->. done.
  - intros E. by apply app_eq_nil in E as [_ E].
Qed.

Lemma offset_number us t :
  0 <= us -> (forall c t', t = c :: t' -> is_dig c = false /\ c <> 101 /\ c <> 69) ->
  js_number (lit (format_offset us) ++ t) = Some (lit (format_offset us), t).
Proof using.
  intros Hus Ht. unfold format_offset. pose proof (Z.div_pos us 1000000 Hus ltac:(lia)) as Hq. pose proof (Z.mod_pos_bound us 1000000 ltac:(lia)) as Hm.
  destruct (pad_zero_digits (us mod 1000000)) as [Hp Hpn]; [lia |]. set (f := pad_zero 6 _) in *. apply digit_lit in Hp as [_ Hp].
  assert (js_sign (lit (itoa (us / 1000000) ++ $$"." ++ f) ++ t) = ([], lit (itoa (us / 1000000) ++ $$"." ++ f) ++ t)) as Hs.
  { destruct (itoa_nonneg _ Hq) as (_ & Hd & Hne). destruct (itoa (us / 1000000)) as [| c s]; [done |].
    apply digit_lit in Hd as [_ Hd]. apply Forall_cons in Hd as [Hc _]. cbn [app lit map js_sign].
    unfold is_dig in Hc. bool_hyps. by rewrite (proj2 (Z.eqb_neq _ 45)) by lia. }
  unfold js_number. rewrite Hs. unfold lit. rewrite !map_app, <- !app_assoc. fold lit.
  rewrite itoa_json by (try done; by intros c t' [= <- _]). change (map bz $$".") with [46]. cbn [mbind option_bind app js_fraction].
  change (46 =? 46) with true. cbv iota.
  rewrite digit_span_all by (try done; intros c t' E; by apply Ht in E as [? _]).
  destruct (map bz f) as [| x f'] eqn:E; [by destruct f |].
  assert (js_exponent t = Some ([], t)) as Hexp.
  { destruct t as [| c t]; [done |]. destruct (Ht c t eq_refl) as (_ & H1 & H2). cbn [js_exponent].
    by rewrite (proj2 (Z.eqb_neq c 101)), (proj2 (Z.eqb_neq c 69)). }
  cbn -[js_exponent]. rewrite Hexp. cbn. by rewrite app_nil_r.
Qed.

Lemma format_offset_ascii us : 0 <= us -> ascii_text (format_offset us) /\ Forall (fun u => 32 <= u) (lit (format_offset us)).
Proof using.
  intros Hus. pose proof (Z.div_pos us 1000000 Hus ltac:(lia)) as Hq. pose proof (Z.mod_pos_bound us 1000000 ltac:(lia)) as Hm.
  destruct (itoa_nonneg _ Hq) as (_ & Hd & _). destruct (pad_zero_digits (us mod 1000000)) as [Hp _]; [lia |].
  apply digit_lit in Hd as [Ha Hd]. apply digit_lit in Hp as [Hb Hp]. unfold format_offset, lit.
  rewrite !map_app. split; (apply Forall_app; split; [| apply Forall_app; split]); try done; try by repeat constructor.
  all: eapply Forall_impl; [eassumption |]; intros u Hu; cbn in Hu |- *; unfold is_dig in Hu; bool_hyps; lia.
Qed.

(** ** Lines *)

Lemma js_split_cons c s : exists l ls, js_split c s = l :: ls.
Proof using. induction s as [| x s (l & ls & E)]; [by exists [], [] |]. cbn [js_split]. rewrite E. destruct (x =? c); eauto. Qed.

Lemma js_split_line l t : Forall (fun u => 32 <= u) l -> js_split 10 (l ++ 10 :: t) = l :: js_split 10 t.
Proof using.
  induction 1 as [| u l Hu _ IH]; cbn [app js_split].
  - by destruct (js_split_cons 10 t) as (l & ls & ->).
  - rewrite IH. by rewrite (proj2 (Z.eqb_neq u 10)) by lia.
Qed.

(** The text of an event line, with the text [d] of its quoted string. *)
Definition event_units (off d : list Z) : list Z :=
  lit ($$"[") ++ off ++ lit ($$", " ++ [zb 34] ++ $$"o" ++ [zb 34] ++ $$", " ++ [zb 34]) ++ d ++ [34; 93].

Lemma JSON_event_units us d v :
  0 <= us -> (forall rest, js_string (d ++ 34 :: rest) = Some (v, rest)) ->
  JSON_event (event_units (lit (format_offset us)) d) = Some (lit (format_offset us), lit $$"o", v).
Proof using.
  intros Hus Hd. unfold event_units, JSON_event.
  assert (forall t, js_space (lit (format_offset us) ++ t) = lit (format_offset us) ++ t) as Hsp.
  { intros t. pose proof (Z.div_pos us 1000000 Hus ltac:(lia)) as Hq. destruct (itoa_nonneg _ Hq) as (_ & Hg & Hne).
    unfold format_offset. destruct (itoa (us / 1000000)) as [| c s]; [done |]. apply digit_lit in Hg as [_ Hg].
    apply Forall_cons in Hg as [Hc _]. cbn [lit map app js_space]. unfold is_dig in Hc. bool_hyps.
    by rewrite !(proj2 (Z.eqb_neq (bz c) _)) by lia. }
  change (lit ($$", " ++ [zb 34] ++ $$"o" ++ [zb 34] ++ $$", " ++ [zb 34]) ++ d ++ [34; 93])
    with (44 :: 32 :: 34 :: 111 :: 34 :: 44 :: 32 :: 34 :: d ++ [34; 93]).
  assert (forall t, js_token 91 (lit $$"[" ++ lit (format_offset us) ++ t) = Some (lit (format_offset us) ++ t)) as ->.
  { intros t. change (Some (js_space (lit (format_offset us) ++ t)) = Some (lit (format_offset us) ++ t)). by rewrite Hsp. }
  cbn [mbind option_bind]. rewrite offset_number by (first [done | by intros c t' [= <- _]; split_and!]).
  assert (js_quoted (34 :: d ++ [34; 93]) = Some (v, [93])) as Hq by (apply (Hd [93])).
  cbn -[js_quoted lit]. change (js_quoted (34 :: 111 :: 34 :: 44 :: 32 :: 34 :: d ++ [34; 93]))
    with (Some ([111], 44 :: 32 :: 34 :: d ++ [34; 93])). cbn -[js_quoted lit]. by rewrite Hq.
Qed.

(** The units of an event line of the recorder. *)
Lemma cast_line_units us b :
  0 <= us ->
  exists d, utf8 (cast_line json_string (format_offset us) b) /\
    (forall t, js_text (cast_line json_string (format_offset us) b ++ t) = event_units (lit (format_offset us)) d ++ 10 :: js_text t) /\
    Forall (fun u => 32 <= u) (event_units (lit (format_offset us)) d) /\
    JSON_event (event_units (lit (format_offset us)) d) = Some (lit (format_offset us), lit $$"o", js_text b).
Proof using.
  intros Hus. destruct (json_string_ok b) as (body & E & Hu & Hl & Hr). destruct (format_offset_ascii us Hus) as [Ha Hb].
  set (mid := $$", " ++ [zb 34] ++ $$"o" ++ [zb 34] ++ $$", " ++ [zb 34]). set (fin := [zb 34] ++ $$"]" ++ [zb 10]).
  assert (cast_line json_string (format_offset us) b = $$"[" ++ format_offset us ++ mid ++ body ++ fin) as ->.
  { unfold cast_line, mid, fin. rewrite E. by rewrite <- !app_assoc. }
  assert (ascii_text $$"[" /\ ascii_text mid /\ ascii_text fin) as (A1 & A2 & A3) by (split_and!; repeat constructor).
  exists (js_text body). split_and!.
  - eauto 10 using utf8_app, ascii_utf8.
  - intros t. unfold event_units. rewrite <- !app_assoc, js_text_ascii, js_text_ascii, js_text_ascii, js_text_app, js_text_ascii by done. done.
  - unfold event_units. repeat (apply Forall_app; split); try done; by repeat constructor.
  - by apply JSON_event_units.
Qed.

Definition frame_of (w : str * str * nat) : list frame :=
  if zlen w.1.1 =? 0 then [] else [Frame (lit w.1.2) (js_text w.1.1)].

(** A header and the lines of some writes, read by the script. *)
Lemma parseCast_lines header ws tail :
  ascii_text header -> Forall (fun u => 32 <= u) (lit header) ->
  Forall (fun w => exists us, 0 <= us /\ w.1.2 = format_offset us) ws ->
  parseCast (js_text (header ++ [zb 10] ++ cast_lines json_string ws ++ tail)) =
    flat_map frame_of ws ++ parseCast (10 :: js_text tail).
Proof using.
  intros Ha Hh Hws. rewrite js_text_ascii, js_text_ascii by (try done; by repeat constructor). unfold parseCast.
  change (lit [zb 10] ++ js_text (cast_lines json_string ws ++ tail)) with (10 :: js_text (cast_lines json_string ws ++ tail)).
  rewrite js_split_line by done. change (10 :: js_text tail) with ([] ++ 10 :: js_text tail). rewrite js_split_line by done. cbn [drop].
  clear Ha Hh. induction Hws as [| [[b off] took] ws (us & Hus & Hoff) _ IH]; [done |].
  cbn [fst snd] in Hoff. subst off. cbn [flat_map]. rewrite <- app_assoc, <- IH. unfold frame_of. cbn [fst snd].
  unfold cast_lines. cbn [flat_map]. destruct (zlen b =? 0); [done |].
  destruct (cast_line_units us b Hus) as (d & _ & Hu & Hl & He). rewrite <- app_assoc, Hu, js_split_line by done.
  assert (cast_frame (event_units (lit (format_offset us)) d) = Some (Frame (lit (format_offset us)) (js_text b))) as Hf.
  { unfold cast_frame. rewrite He. by destruct d. }
  cbn [drop omap list_omap]. by rewrite Hf.
Qed.

Lemma parseCast_end : parseCast (10 :: js_text []) = [].
Proof using. reflexivity. Qed.

Definition truncated : list Z := [13; 10] ++ lit $$"[recording truncated]" ++ [13; 10].

Lemma parseCast_marker us :
  0 <= us -> parseCast (10 :: js_text (cast_marker (format_offset us))) = [Frame (lit (format_offset us)) truncated].
Proof using.
  intros Hus. destruct (format_offset_ascii us Hus) as [Ha Hb]. set (body := $$"\r\n[recording truncated]\r\n").
  set (mid := $$", " ++ [zb 34] ++ $$"o" ++ [zb 34] ++ $$", " ++ [zb 34]). set (fin := [zb 34] ++ $$"]" ++ [zb 10]).
  assert (cast_marker (format_offset us) = $$"[" ++ format_offset us ++ mid ++ body ++ fin ++ []) as ->.
  { unfold cast_marker, mid, fin, body. by rewrite <- !app_assoc. }
  rewrite !js_text_ascii by (first [done | repeat constructor]).
  change (lit $$"[" ++ lit (format_offset us) ++ lit mid ++ lit body ++ lit fin ++ js_text [])
    with (lit $$"[" ++ lit (format_offset us) ++ lit mid ++ lit body ++ [34; 93] ++ [10]).
  assert (JSON_event (event_units (lit (format_offset us)) (lit body)) = Some (lit (format_offset us), lit $$"o", truncated)) as He
    by (by apply JSON_event_units).
  assert (Forall (fun u => 32 <= u) (event_units (lit (format_offset us)) (lit body))) as Hl.
  { unfold event_units. repeat (apply Forall_app; split); try done; by repeat constructor. }
  unfold parseCast. change (10 :: ?t) with ([] ++ 10 :: t). rewrite js_split_line by done. cbn [drop].
  replace (lit $$"[" ++ lit (format_offset us) ++ lit mid ++ lit body ++ [34; 93] ++ [10])
    with (event_units (lit (format_offset us)) (lit body) ++ 10 :: []) by (unfold event_units; by rewrite <- !app_assoc).
  rewrite js_split_line by done. cbn [js_split].
  assert (cast_frame (event_units (lit (format_offset us)) (lit body)) = Some (Frame (lit (format_offset us)) truncated)) as Hf.
  { unfold cast_frame. rewrite He. done. }
  cbn [drop omap list_omap]. by rewrite Hf.
Qed.

Lemma itoa_ascii n : ascii_text (itoa n) /\ Forall (fun u => 32 <= u) (lit (itoa n)).
Proof using.
  assert (forall m, 0 <= m -> ascii_text (itoa m) /\ Forall (fun u => 32 <= u) (lit (itoa m))) as Hpos.
  { intros m Hm. destruct (itoa_nonneg m Hm) as (_ & Hd & _). apply digit_lit in Hd as [Ha Hd]. split; [done |].
    eapply Forall_impl; [exact Hd |]. intros u Hu. cbn in Hu |- *. unfold is_dig in Hu. bool_hyps. lia. }
  destruct (Z.lt_ge_cases n 0) as [H | H]; [| by apply Hpos]. destruct (Hpos (- n)) as [H1 H2]; [lia |]. revert H1 H2.
  unfold itoa. rewrite (proj2 (Z.ltb_lt n 0) H), (proj2 (Z.ltb_ge (- n) 0)) by lia. intros H1 H2.
  split; constructor; done.
Qed.

Lemma cast_header_ok w h now : ascii_text (cast_header w h now) /\ Forall (fun u => 32 <= u) (lit (cast_header w h now)).
Proof using.
  pose proof (itoa_ascii w) as [W1 W2]. pose proof (itoa_ascii h) as [H1 H2]. pose proof (itoa_ascii now) as [N1 N2].
  unfold cast_header, ascii_text, lit. cbv zeta. rewrite !map_app. split; repeat (apply Forall_app; split); try done; by repeat constructor.
Qed.

(** ** The wrappers *)

Fixpoint plain (c : conn) : Prop := match c with Socket => True | chanConn _ base => plain base | recordConn _ => False end.
(** At most the outermost wrapper records, and it does when the session has a recorder. *)
Definition wired (rec : bool) (c : conn) : Prop :=
  if rec then exists inner, c = recordConn inner /\ plain inner else plain c.

Lemma wired_raw rec c : wired rec c -> plain (RawConn c).
Proof using. destruct rec; [intros (i & -> & H); exact H |]. by destruct c. Qed.

Lemma wired_rebind rec n c : wired rec c -> wired rec (Rebind n c).
Proof using.
  intros H. pose proof (wired_raw rec c H) as Hr. destruct rec; [destruct H as (i & -> & H); by exists (chanConn n i) |].
  by destruct c.
Qed.

Lemma plain_write c a sent rec : plain c -> conn_Write c a sent rec = (sent ++ [(match c with chanConn n _ => Some n | _ => None end, taken a)], rec).
Proof using. by destruct c. Qed.

(** What the recorder is handed. *)
Definition recorded_op (o : op) : list (str * str * nat) :=
  match o with
  | Put a => if (0 <? at_took a)%nat then [(taken a, format_offset (at_time a), at_disk a)] else []
  | _ => []
  end.
Definition recorded (ops : list op) : list (str * str * nat) := flat_map recorded_op ops.
(** What the client receives. *)
Definition delivered (o : op) : str := match o with Put a => taken a | Handshake b | Echo b => b | Channel _ => [] end.

Lemma step_recorded o c sent r :
  wired true c ->
  let w := step (Wire c sent r) o in
  wired true (w_conn w) /\ w_rec w = write_all json_string (recorded_op o) r /\
  concat (map snd (w_sent w)) = concat (map snd sent) ++ delivered o.
Proof using.
  intros H. pose proof (wired_raw true c H) as Hr. destruct o as [a | b | b | n]; cbn [step w_conn w_sent w_rec recorded_op delivered].
  - destruct H as (i & -> & Hi). cbn [conn_Write]. rewrite plain_write by done. cbn [w_conn w_sent w_rec]. split_and!; [by exists i | |].
    + by destruct (0 <? at_took a)%nat.
    + rewrite map_app, concat_app. cbn. by rewrite app_nil_r.
  - rewrite plain_write by done. cbn [w_conn w_sent w_rec]. split_and!; [done | done |].
    rewrite map_app, concat_app. cbn. unfold taken. cbn. by rewrite firstn_all, app_nil_r.
  - split_and!; [done | done |]. rewrite map_app, concat_app. cbn. by rewrite app_nil_r.
  - split_and!; [by apply wired_rebind | done | by rewrite app_nil_r].
Qed.

Lemma run_recorded ops w :
  wired true (w_conn w) ->
  w_rec (run_ops ops w) = write_all json_string (recorded ops) (w_rec w) /\
  concat (map snd (w_sent (run_ops ops w))) = concat (map snd (w_sent w)) ++ flat_map delivered ops.
Proof using.
  revert w. induction ops as [| o ops IH]; intros [c sent r] H; [cbn; by rewrite app_nil_r |].
  destruct (step_recorded o c sent r H) as (H1 & H2 & H3). destruct (IH _ H1) as [I1 I2].
  change (run_ops (o :: ops) (Wire c sent r)) with (run_ops ops (step (Wire c sent r) o)). split.
  - rewrite I1, H2. unfold recorded, write_all. cbn [flat_map w_rec]. by rewrite foldl_app.
  - rewrite I2, H3. cbn [flat_map w_sent]. by rewrite app_assoc.
Qed.

(** ** From the session to the operator *)

Lemma base58_safe draws id : (Base58GenStrict draws 12).1 = Some id -> safeID id = true.
Proof using.
  intros H. apply Base58GenStrict_spec in H as [Hl Hf]. unfold safeID.
  destruct id as [| c id]; [done |]. replace (64 <? zlen (c :: id)) with false by (symmetry; apply Z.ltb_ge; unfold zlen; lia).
  assert (Forall (fun c => bz c < 128 /\ safe_rune (bz c) = true) base58Alphabet) as Ha by (repeat constructor).
  rewrite Forall_forall in Ha. cbn [seqb orb].
  assert (ascii_text (c :: id)) as Hasc by (eapply Forall_impl; [exact Hf | intros x Hx; by apply Ha]).
  rewrite ascii_runes_nil by done. apply forallb_forall. intros u Hu. unfold lit in Hu. apply in_map_iff in Hu as (x & <- & Hx).
  apply list_elem_of_In in Hx. rewrite Forall_forall in Hf. by apply Ha, Hf.
Qed.

(** The disk takes the line of a write, and would take the marker instead. *)
Definition disk_takes (o : op) : Prop :=
  match o with
  | Put a => 0 <= at_time a /\
      zlen (cast_line json_string (format_offset (at_time a)) (taken a)) + zlen (cast_marker (format_offset (at_time a))) <= Z.of_nat (at_disk a)
  | _ => True
  end.
Lemma recorded_on_disk ops :
  Forall disk_takes ops ->
  Forall (fun w => zlen (cast_line json_string w.1.2 w.1.1) + zlen (cast_marker w.1.2) <= Z.of_nat w.2) (recorded ops) /\
  Forall (fun w => exists us, 0 <= us /\ w.1.2 = format_offset us) (recorded ops).
Proof using.
  induction 1 as [| o ops Ho _ [I1 I2]]; [by split |]. unfold recorded. cbn [flat_map]. fold (recorded ops).
  destruct o as [a | b | b | n]; [| done ..]. cbn [recorded_op]. destruct (0 <? at_took a)%nat; [| done].
  destruct Ho as [Ht Hd]. split; constructor; cbn [fst snd]; eauto.
Qed.

(** Nothing reaches the client but what the session itself writes. *)
Definition session_only (o : op) : Prop := match o with Handshake _ | Echo _ => False | _ => True end.

Lemma frames_text ops :
  Forall session_only ops -> Forall (fun w => utf8 w.1.1) (recorded ops) ->
  flat_map f_d (flat_map frame_of (recorded ops)) = js_text (flat_map delivered ops).
Proof using.
  induction 1 as [| o ops Ho _ IH]; [done |]. unfold recorded. cbn [flat_map]. fold (recorded ops). intros Hu.
  apply Forall_app in Hu as [Hu1 Hu]. rewrite !flat_map_app, IH by done.
  destruct o as [a | b | b | n]; [| done ..]. cbn [recorded_op delivered] in *.
  destruct (0 <? at_took a)%nat eqn:E.
  - apply Forall_cons in Hu1 as [Hu1 _]. cbn [fst snd] in Hu1. rewrite js_text_app by done. f_equal. cbn [flat_map app].
    unfold frame_of. cbn [fst snd]. destruct (zlen (taken a) =? 0) eqn:Ez; [| cbn; by rewrite !app_nil_r].
    apply Z.eqb_eq in Ez. by rewrite (nil_length_inv (taken a)) by (unfold zlen in Ez; lia).
  - apply Nat.ltb_ge in E. unfold taken. by replace (at_took a) with 0%nat by lia.
Qed.

(** C6: the operator replays what the session wrote: the file a session records under its
    freshly drawn id is the one the portal serves, and the dashboard reads from it one
    frame for each write, with its time and its text, whatever the bytes, up to the
    size limit and then a note; nothing of the handshake is in it; and when every write
    is text and nothing else was sent, the frames are together the text the client got. *)
Theorem replay_is_what_was_written draws id dir now ops :
  (Base58GenStrict draws 12).1 = Some id -> dir <> [] -> Forall disk_takes ops ->
  let w := run_ops ops (accept (New (cast_header 80 24 now) true)) in
  exists r, w_rec w = Some r /\
    let served := Portal.cast (fun p => if p =s cast_file dir id then Some (rc_file (default r (Close (Some r)))) else None) dir id in
    let frames := parseCast (js_text (default [] served)) in
    served = Some (rc_file r) /\
    if rc_capped r then
      exists pre b us took post, recorded ops = pre ++ (b, format_offset us, took) :: post /\
        frames = flat_map frame_of pre ++ [Frame (lit (format_offset us)) truncated]
    else
      frames = flat_map frame_of (recorded ops) /\
      (Forall session_only ops -> Forall (fun w => utf8 w.1.1) (recorded ops) ->
       flat_map f_d frames = js_text (concat (map snd (w_sent w)))).
Proof using.
  intros Hid Hdir Hops w. destruct (recorded_on_disk ops Hops) as [Hdisk Hoff]. apply base58_safe in Hid.
  destruct (run_recorded ops (accept (New (cast_header 80 24 now) true))) as [Hrec Hsent]; [by exists Socket |].
  fold w in Hrec, Hsent. destruct (cast_bounded json_string (cast_header 80 24 now) (recorded ops)) as (r & Hr & _ & Hfull).
  exists r. split; [by rewrite Hrec |]. specialize (Hfull Hdisk). destruct (cast_header_ok 80 24 now) as [Ha Hl].
  assert (forall read, Portal.cast read dir id = read (cast_file dir id)) as Hserve.
  { intros read. unfold Portal.cast, cast_path. rewrite Hid. by destruct dir. }
  rewrite !Hserve, seqb_refl. cbn zeta. split; [done |]. cbn [default from_option Close rc_file Datatypes.id]. destruct (rc_capped r).
  - destruct Hfull as (pre & b & off & took & post & Hp & Hf & _). rewrite Hp in Hoff.
    apply Forall_app in Hoff as [Hpre [(us & Hus & Hx) _]%Forall_cons]. cbn [fst snd] in Hx. subst off.
    exists pre, b, us, took, post. split; [done |]. by rewrite Hf, parseCast_lines, parseCast_marker.
  - pose proof (parseCast_lines (cast_header 80 24 now) (recorded ops) [] Ha Hl Hoff) as E. rewrite parseCast_end, !app_nil_r in E.
    rewrite Hfull, E. split; [done |]. intros Hs Hu. rewrite Hsent. by apply frames_text.
Qed.

Definition demo_put (x : str) : op := Put (Attempt x (length x) 1250000 4096).
Definition demo_ops : list op :=
  [Channel 0; demo_put ($$"caf" ++ bytes [195; 169] ++ $$" <&> " ++ bytes [240; 159; 146; 167; 10]); demo_put []; demo_put ($$"a" ++ [zb 34; zb 92; zb 7])].
Lemma replay_is_what_was_written_witness :
  exists r, w_rec (run_ops demo_ops (accept (New (cast_header 80 24 0) true))) = Some r /\
    flat_map f_d (parseCast (js_text (rc_file r))) = lit $$"caf" ++ [233] ++ lit $$" <&> " ++ [55357; 56487; 10; 97; 34; 92; 7].
Proof.
  destruct (replay_is_what_was_written [Some (repeat 0 12)] (repeat "1"%char 12) $$"/var/rec" 0 demo_ops) as (r & Hr & Hs & H);
    [reflexivity | done | repeat constructor; vm_compute; discriminate |].
  exists r. split; [exact Hr |].
  assert (rc_capped r = false) as Hc.
  { assert (option_map rc_capped (w_rec (run_ops demo_ops (accept (New (cast_header 80 24 0) true)))) = Some false) as E by (vm_compute; reflexivity).
    rewrite Hr in E. by injection E. }
  rewrite Hc in H. destruct H as [_ H]. cbv zeta in Hs. rewrite Hs in H. cbn [default from_option Datatypes.id] in H. rewrite H.
  - vm_compute. reflexivity.
  - repeat constructor.
  - repeat constructor; by vm_compute.
Defined.

(** Each helper of a session hands the connection the pieces of what it adds to the
    output of [Session]; a slow write hands over whole characters. *)
Lemma pieces_are_the_output x label s :
  out (Session.Write x s) = out s ++ concat (write_pieces x s) /\
  out (SlowWrite x s) = out s ++ concat (slow_pieces x s) /\
  out (SlowProgress label s) = out s ++ concat (progress_pieces label s) /\
  Forall utf8 (slow_pieces x s).
Proof using.
  unfold Session.Write, SlowWrite, SlowProgress, write_pieces, slow_pieces, progress_pieces, Session.Write.
  destruct (capture s) eqn:E; [rewrite !app_nil_r; done |]. cbn [set_out capture out]. rewrite E. split_and!.
  - cbn. by rewrite app_nil_r.
  - cbn. by rewrite flat_map_concat_map.
  - cbn [set_out out]. rewrite concat_app, flat_map_concat_map. cbn [concat app]. by rewrite !app_assoc.
  - apply Forall_fmap. eapply Forall_impl; [apply runes_scalar | apply utf8_rune].
Qed.

(** The client of a recorded connection gets exactly what it would get without the
    recorder, and deadlines still reach the socket. *)
Lemma plain_transport c : plain c -> transport c = Socket.
Proof using. induction c as [| n c IH | c IH]; [done | apply IH | done]. Qed.

Definition twin (c c' : conn) : Prop := plain c' /\ (c = c' \/ c = recordConn c').

Lemma step_twin o c c' sent r :
  twin c c' ->
  exists d d' sent' r', step (Wire c sent r) o = Wire d sent' r' /\ step (Wire c' sent None) o = Wire d' sent' None /\ twin d d'.
Proof using.
  intros [Hp Hc]. assert (RawConn c = c' /\ RawConn c' = c') as [E E'] by (destruct Hc as [-> | ->]; by destruct c').
  destruct o as [a | b | b | n]; cbn [step w_conn w_sent w_rec]; unfold channel_of; rewrite ?E, ?E'.
  - rewrite (plain_write c') by done. destruct Hc as [-> | ->]; [| cbn [conn_Write]]; rewrite plain_write by done;
      repeat eexists; by auto.
  - rewrite !plain_write by done. repeat eexists; done.
  - repeat eexists; done.
  - assert (Rebind n c' = chanConn n c') as -> by by destruct c'. assert (plain (chanConn n c')) as Hn by done.
    destruct Hc as [-> | ->]; cbn; [rewrite ?E'|]; repeat eexists; eauto; by destruct c'; auto.
Qed.

Lemma recorder_is_transparent ops rec :
  w_sent (run_ops ops (accept rec)) = w_sent (run_ops ops (accept None)) /\
  transport (w_conn (run_ops ops (accept rec))) = Socket.
Proof using.
  assert (forall c c' sent r, twin c c' ->
    w_sent (run_ops ops (Wire c sent r)) = w_sent (run_ops ops (Wire c' sent None)) /\
    transport (w_conn (run_ops ops (Wire c sent r))) = Socket) as H.
  { induction ops as [| o ops IH]; intros c c' sent r Ht.
    - split; [done |]. destruct Ht as [Hp [-> | ->]]; by apply plain_transport in Hp.
    - destruct (step_twin o c c' sent r Ht) as (d & d' & sent' & r' & E & E' & Ht'). cbn [run_ops fold_left]. rewrite E, E'. by apply IH. }
  destruct rec; apply H; split; auto; done.
Qed.

(** ** What the player shows *)

(** Output of a terminal program: text, and the sequences the player knows. *)
Inductive piece : Type :=
  | Plain (x : list Z)
  | Csi (params inters : list Z) (final : Z)
  | Charset (b c : Z)
  | Single (c : Z).
Definition piece_ok (p : piece) : bool :=
  match p with
  | Plain x => forallb (fun c => negb (term_control c)) x
  | Csi ps im f => forallb csi_param ps && forallb csi_inter im && csi_final f
  | Charset b c => ((b =? 40) || (b =? 41)) && ((c =? 65) || (c =? 66) || unit_in 48 57 c)
  | Single c => (c =? 61) || (c =? 62) || (c =? 78) || (c =? 77)
  end.
Definition print_piece (p : piece) : list Z :=
  match p with
  | Plain x => x
  | Csi ps im f => 27 :: 91 :: ps ++ im ++ [f]
  | Charset b c => [27; b; c]
  | Single c => [27; c]
  end.
Definition shown (p : piece) : list Z := match p with Plain x => x | _ => [] end.

Lemma re_delete_skip m x rest : re_delete m (length x) (x ++ rest) = re_delete m 0 rest.
Proof using. induction x as [| c x IH]; [done | exact IH]. Qed.

Lemma re_delete_match m c x rest : m (c :: x ++ rest) = S (length x) -> re_delete m 0 (c :: x ++ rest) = re_delete m 0 rest.
Proof using. intros H. cbn [re_delete]. rewrite H. apply re_delete_skip. Qed.

(** Every pattern begins with an escape. *)
Definition escapes (m : list Z -> nat) : Prop := forall c s, c <> 27 -> m (c :: s) = 0%nat.

Lemma re_delete_plain m x rest : escapes m -> Forall (fun c => c <> 27) x -> re_delete m 0 (x ++ rest) = x ++ re_delete m 0 rest.
Proof using. intros Hm H. induction H as [| c x Hc _ IH]; [done |]. cbn [app re_delete]. by rewrite Hm, IH. Qed.

Lemma patterns_escape : escapes match_csi /\ escapes match_charset /\ escapes match_single.
Proof using.
  split_and!; intros c s Hc; [destruct s | destruct s as [| ? [|]] | destruct s]; cbn; try done;
    by rewrite (proj2 (Z.eqb_neq c 27)).
Qed.

Lemma span_len_all f x rest : forallb f x = true -> (forall c t, rest = c :: t -> f c = false) -> span_len f (x ++ rest) = length x.
Proof using.
  intros Hx Hr. induction x as [| c x IH]; cbn in Hx |- *.
  - destruct rest as [| c t]; [done |]. cbn. by rewrite (Hr c t eq_refl).
  - apply andb_prop in Hx as [-> Hx]. by rewrite IH.
Qed.

Lemma csi_disjoint c : (csi_inter c = true -> csi_param c = false) /\ (csi_final c = true -> csi_param c = false /\ csi_inter c = false).
Proof using.
  unfold csi_param, csi_inter, csi_final, unit_in. split; intros H; bool_hyps; split_and?;
    rewrite ?orb_false_iff, ?andb_false_iff, ?Z.leb_gt, ?Z.eqb_neq; lia.
Qed.

Lemma match_csi_piece ps im f rest :
  piece_ok (Csi ps im f) = true -> match_csi (27 :: 91 :: ps ++ im ++ f :: rest) = (3 + length ps + length im)%nat.
Proof using.
  cbn [piece_ok]. intros [[Hp Hi]%andb_prop Hf]%andb_prop. destruct (csi_disjoint f) as [_ Hd]. destruct (Hd Hf) as [Hd1 Hd2].
  cbn [match_csi]. cbn [Z.eqb andb Pos.eqb]. rewrite (span_len_all csi_param ps (im ++ f :: rest)); [| done |].
  - rewrite drop_app_length, (span_len_all csi_inter im (f :: rest)) by (try done; by intros c t [= <- _]).
    rewrite Nat.add_comm at 1. rewrite (Nat.add_comm (length im) (length ps)), <- drop_drop, drop_app_length, drop_app_length. by rewrite Hf.
  - intros c t E. destruct im as [| i im]; [by injection E as <- _ |]. injection E as <- _. cbn [forallb] in Hi. apply andb_prop in Hi as [Hi _].
    exact (proj1 (csi_disjoint _) Hi).
Qed.

(** The three passes, on a sequence of pieces. *)
Definition pass1 (p : piece) : list piece := match p with Csi _ _ _ => [] | p => [p] end.
Definition pass2 (p : piece) : list piece := match p with Charset _ _ => [] | p => [p] end.
Definition pass3 (p : piece) : list piece := match p with Single _ => [] | p => [p] end.

Lemma plain_no_escape x : piece_ok (Plain x) = true -> Forall (fun c => c <> 27) x.
Proof using.
  cbn. intros H. apply Forall_forall. intros c Hc ->. rewrite forallb_forall in H. apply list_elem_of_In, H in Hc. discriminate.
Qed.

Lemma pass_pieces m ok del l :
  (forall p rest, ok p = true -> re_delete m 0 (print_piece p ++ rest) = flat_map print_piece (del p) ++ re_delete m 0 rest) ->
  forallb ok l = true -> re_delete m 0 (flat_map print_piece l) = flat_map print_piece (flat_map del l).
Proof using.
  intros Hp. induction l as [| p l IH]; [done |]. cbn [forallb flat_map]. intros [H1 H2]%andb_prop.
  by rewrite Hp, IH, flat_map_app.
Qed.

Definition not_csi (p : piece) : bool := piece_ok p && match p with Csi _ _ _ => false | _ => true end.
Definition not_charset (p : piece) : bool := not_csi p && match p with Charset _ _ => false | _ => true end.

Lemma pass_ok (ok ok' : piece -> bool) del l :
  (forall p, ok p = true -> forallb ok' (del p) = true) -> forallb ok l = true -> forallb ok' (flat_map del l) = true.
Proof using.
  intros H. induction l as [| p l IH]; [done |]. cbn. intros [H1 H2]%andb_prop. rewrite forallb_app. by rewrite H, IH.
Qed.

Lemma re_delete_other m x rest :
  escapes m -> m (27 :: x ++ rest) = 0%nat -> Forall (fun c => c <> 27) x -> re_delete m 0 (27 :: x ++ rest) = 27 :: x ++ re_delete m 0 rest.
Proof using. intros Hm H Hx. cbn [re_delete]. by rewrite H, re_delete_plain. Qed.

(** The classes of the short sequences, told apart. *)
Ltac charset_class :=
  cbn [piece_ok] in *; unfold unit_in in *;
  repeat match goal with H : _ || _ = true |- _ => apply orb_prop in H as [H | H] end;
  bool_hyps; repeat constructor; lia.

Lemma csi_pass p rest :
  piece_ok p = true -> re_delete match_csi 0 (print_piece p ++ rest) = flat_map print_piece (pass1 p) ++ re_delete match_csi 0 rest.
Proof using.
  destruct patterns_escape as (Hm & _ & _). intros H. destruct p as [x | ps im f | b c | c]; cbn [pass1 flat_map print_piece app].
  - rewrite app_nil_r. apply re_delete_plain; [done | by apply plain_no_escape].
  - rewrite <- !app_assoc. change (27 :: 91 :: ps ++ im ++ [f] ++ rest) with (27 :: (91 :: ps ++ im ++ [f] ++ rest)).
    replace (91 :: ps ++ im ++ [f] ++ rest) with ((91 :: ps ++ im ++ [f]) ++ rest) by (cbn; by rewrite <- !app_assoc).
    apply re_delete_match. cbn [app]. rewrite <- !app_assoc. cbn [app]. rewrite match_csi_piece by done. cbn. rewrite !length_app. cbn. lia.
  - apply andb_prop in H as [Hb Hc]. apply (re_delete_other match_csi [b; c]); [done | | charset_class].
    cbn. by rewrite (proj2 (Z.eqb_neq b 91)) by charset_class.
  - apply (re_delete_other match_csi [c]); [done | | charset_class].
    cbn. by rewrite (proj2 (Z.eqb_neq c 91)) by charset_class.
Qed.

Lemma charset_pass p rest :
  not_csi p = true -> re_delete match_charset 0 (print_piece p ++ rest) = flat_map print_piece (pass2 p) ++ re_delete match_charset 0 rest.
Proof using.
  destruct patterns_escape as (_ & Hm & _). intros [H Hn]%andb_prop. destruct p as [x | ps im f | b c | c]; [| done | |];
    cbn [pass2 flat_map print_piece app].
  - rewrite app_nil_r. apply re_delete_plain; [done | by apply plain_no_escape].
  - apply (re_delete_match match_charset 27 [b; c]). cbn [app match_charset length]. cbn [piece_ok] in H. by rewrite <- andb_assoc, H.
  - apply (re_delete_other match_charset [c]); [done | | charset_class].
    cbn. destruct rest; [done |]. by rewrite (proj2 (Z.eqb_neq c 40)), (proj2 (Z.eqb_neq c 41)) by charset_class.
Qed.

Lemma single_pass p rest :
  not_charset p = true -> re_delete match_single 0 (print_piece p ++ rest) = flat_map print_piece (pass3 p) ++ re_delete match_single 0 rest.
Proof using.
  destruct patterns_escape as (_ & _ & Hm). intros [[H Hn]%andb_prop Hc]%andb_prop. destruct p as [x | ps im f | b c | c]; try done;
    cbn [pass3 flat_map print_piece app].
  - rewrite app_nil_r. apply re_delete_plain; [done | by apply plain_no_escape].
  - apply (re_delete_match match_single 27 [c]). cbn [app match_single length]. cbn [piece_ok] in H. by rewrite H.
Qed.



(** The terminal of an SSH shell echoes on its channel, below the recorder: what the
    visitor sees holds the command, the replay does not. *)
Definition ssh_ops : list op :=
  [Handshake $$"SSH-2.0-"; Channel 0; demo_put $$"root@web:~# "; Echo (Ssh.t_echo (Ssh.cook ($$"id" ++ [zb 13]) Ssh.newTTY)); demo_put $$"uid=0(root)"].
Example typed_commands_are_not_replayed :
  let w := run_ops ssh_ops (accept (New (cast_header 80 24 0) true)) in
  flat_map (fun x => match x.1 with Some _ => x.2 | None => [] end) (w_sent w) = $$"root@web:~# id" ++ [zb 13; zb 10] ++ $$"uid=0(root)" /\
  option_map (fun r => playFrames (parseCast (js_text (rc_file r)))) (w_rec w) = Some (lit $$"root@web:~# uid=0(root)").
Proof. split; vm_compute; reflexivity. Qed.

(** The negotiation a telnet session opens with is not text; each byte that is not
    becomes a replacement character of the replay. *)
Example negotiation_is_replayed_as_text :
  let w := run_ops [demo_put [Telnet.iac; Telnet.do; Telnet.optTType; Telnet.iac; Telnet.do; Telnet.optNaws]]
             (accept (New (cast_header 80 24 0) true)) in
  option_map (fun r => playFrames (parseCast (js_text (rc_file r)))) (w_rec w) = Some [65533; 65533; 65533; 65533].
Proof. vm_compute. reflexivity. Qed.
