(* ===== verification/LivePage.v ===== *)
(** * LivePage: the log, its live stream and the list the operator watches

    The logger appends lines ([Event]), the portal answers a query for the newest ones
    and streams the rest ([Feed]), the browser splits the stream into messages
    (EventSource) and the script of the dashboard keeps the list (html.go: [load],
    [connect], [prepend]).  [system] puts these together, with the moments at which each
    acts as an explicit sequence; [view] is the list of events the same sequence is
    meant to show.  [encode] and [decode] are [encoding/json] on an [Entry]. *)

From stdpp Require Import list.
From S2P Require Import Prelude GoStrings Event Feed.

(** ** The browser's side of a stream *)

(** The fields of the message being read: the id, which outlives messages, the type and
    the data. *)
Record message : Type := Message { m_id : str; m_type : str; m_data : str }.

(** One field of a line: what precedes the first colon, and what follows it without its
    first space. *)
Definition sse_field (line : str) : str * str :=
  match index_byte line ":"%char with
  | None => (line, [])
  | Some i => (take i line, trim_prefix (drop (S i) line) $$" ")
  end.
Definition sse_line (m : message) (line : str) : message :=
  let '(field, value) := sse_field line in
  if field =s $$"data" then Message (m_id m) (m_type m) (m_data m ++ value ++ [nl])
  else if field =s $$"event" then Message (m_id m) value (m_data m)
  else if field =s $$"id" then if bool_decide (zb 0 ∈ value) then m else Message value (m_type m) (m_data m)
  else m.
(** An empty line ends a message; without data it is dropped. *)
Fixpoint sse_messages (m : message) (lines : list str) : list message * message :=
  match lines with
  | [] => ([], m)
  | [] :: lines =>
      let next := Message (m_id m) [] [] in
      if m_data m =s [] then sse_messages next lines
      else let '(l, m') := sse_messages next lines in
           (Message (m_id m) (m_type m) (removelast (m_data m)) :: l, m')
  | line :: lines => sse_messages (sse_line m line) lines
  end.
(** The messages of what was received; a block that is not complete is not one. *)
Definition EventSource (lastID bytes : str) : list message :=
  (sse_messages (Message lastID [] []) (removelast (split_byte nl bytes))).1.

(** ** The script *)

Definition maxEntries : Z := 2000.
Definition prepend (e : Entry) (entries : list Entry) : list Entry :=
  let entries := e :: entries in
  if maxEntries <? zlen entries then removelast entries else entries.

Section page.
Context (encode : Entry -> str) (decode : str -> option Entry).

(** The listener of ['log'] messages. *)
Definition on_log (entries : list Entry) (m : message) : list Entry :=
  if m_type m =s $$"log" then match decode (m_data m) with Some e => prepend e entries | None => entries end else entries.

(** ** Together *)

Record system : Type := System {
  y_file : str;                       (* the log *)
  y_entries : list Entry;             (* the list of the page, newest first *)
  y_answer : option (list Entry);     (* an answer of the query under way *)
  y_stream : option stream;           (* the open stream *)
  y_lastID : str                      (* what a reconnect sends as Last-Event-ID *)
}.

Inductive event : Type :=
  | Append (e : Entry)                (* Logger.Log *)
  | Ask                               (* load: the portal answers *)
  | Answered                          (* ... and the answer arrives *)
  | Connect                           (* connect, and EventSource's reconnects *)
  | Poll (got : option nat).          (* one tick; [Some n]: the connection breaks after n messages *)

Definition file_line (e : Entry) : str := encode e ++ [nl].
Definition act (y : system) (x : event) : system :=
  let 'System file entries answer st lastID := y in
  match x with
  | Append e => System (file ++ file_line e) entries answer st lastID
  | Ask => System file entries (Some (logQuery decode file $$"200" [] [])) st lastID
  | Answered => System file (default entries answer) None st lastID
  | Connect => System file entries answer (Some (open_stream file lastID)) lastID
  | Poll got =>
      match st with
      | None => y
      | Some s =>
          let '(_, bytes, s) := tick file s in
          let msgs := EventSource lastID bytes in
          let msgs := match got with Some n => take n msgs | None => msgs end in
          System file (fold_left on_log msgs entries) answer (match got with Some _ => None | None => Some s end)
            (match last msgs with Some m => m_id m | None => lastID end)
      end
  end.
Definition act_all (xs : list event) (y : system) : system := fold_left act xs y.
End page.

(** ** What the page is meant to show *)

(** Positions count the events of the log. *)
Record view : Type := View {
  v_log : list Entry;
  v_shown : list Entry;
  v_answer : option (list Entry);
  v_pos : option nat;                 (* the next event of the open stream *)
  v_last : option nat                 (* the events up to the last one received *)
}.

Definition show_all (l shown : list Entry) : list Entry := fold_left (fun shown e => prepend e shown) l shown.
Definition see (v : view) (x : event) : view :=
  let 'View log shown answer pos last := v in
  match x with
  | Append e => View (log ++ [e]) shown answer pos last
  | Ask => View log shown (Some (take 200 (rev log))) pos last
  | Answered => View log (default shown answer) None pos last
  | Connect => View log shown answer (Some (default (length log) last)) last
  | Poll got =>
      match pos with
      | None => v
      | Some k =>
          let new := match got with Some n => take n (drop k log) | None => drop k log end in
          View log (show_all new shown) answer (match got with Some _ => None | None => Some (length log) end)
            (match new with [] => last | _ => Some (k + length new)%nat end)
      end
  end.
Definition see_all (xs : list event) (v : view) : view := fold_left see xs v.

(** * Theorems *)

Section proofs.
Context (encode : Entry -> str) (decode : str -> option Entry).

#[local] Notation text := (flat_map (file_line encode)).
#[local] Notation act := (act encode decode).
#[local] Notation act_all := (act_all encode decode).

(** ** The file *)

(** An event the log can hold: its text is read back as it was, is one line without a raw
    control character, and does not fill the scanner. *)
Record loggable (e : Entry) : Prop := Loggable {
  lg_back : decode (encode e) = Some e;
  lg_some : encode e <> [];
  lg_line : Forall (fun c => 32 <= bz c) (encode e);
  lg_short : zlen (encode e) < maxScanBytes
}.

Lemma encode_no c e : loggable e -> bz c < 32 -> c ∉ encode e.
Proof using. intros [_ _ H _] Hc Hin. rewrite Forall_forall in H. apply H in Hin. lia. Qed.

Lemma split_text log : Forall loggable log -> split_byte nl (text log) = map encode log ++ [[]].
Proof using.
  induction 1 as [| e log He _ IH]; [done |]. cbn [flat_map map]. unfold file_line at 1. rewrite <- app_assoc. cbn [app].
  rewrite split_byte_sep, split_byte_no, IH by (by apply encode_no). done.
Qed.

Lemma drop_cr_encode e : loggable e -> drop_cr (encode e) = encode e.
Proof using.
  intros He. unfold drop_cr. destruct (last (encode e)) as [c |] eqn:E; [| done]. rewrite bool_decide_eq_false_2; [done |]. intros ->.
  apply (encode_no (zb 13) e); [done | done | by apply last_Some_elem_of].
Qed.

Lemma scan_text log :
  Forall loggable log -> scan_lines (map encode log ++ [[]]) = (map encode log, true).
Proof using.
  induction 1 as [| e log He _ IH]; [done |]. pose proof (drop_cr_encode e He) as Hcr. destruct He as [_ Hne _ Hs]. cbn [map app].
  destruct (encode e) as [| c l] eqn:E; [done |]. cbn [scan_lines]. rewrite (proj2 (Z.leb_gt _ _)), IH by done.
  by rewrite Hcr.
Qed.

(** A query reads back the events it keeps. *)
Lemma read_entries_text keep log : Forall loggable log -> readEntries decode keep (text log) = (List.filter keep log, true).
Proof using.
  intros Hs. unfold readEntries. rewrite split_text, scan_text by done. do 2 f_equal.
  induction Hs as [| e log [Hb Hne _ _] _ IH]; [done |]. cbn [map omap list_omap].
  rewrite (proj2 (seqb_neq _ _) Hne), Hb. by f_equal.
Qed.

Lemma query_text log : Forall loggable log -> logQuery decode (text log) $$"200" [] [] = take 200 (rev log).
Proof using.
  intros Hs. unfold logQuery. rewrite read_entries_text by done.
  assert (forall l, List.filter (log_keep [] []) l = l) as -> by (intros l; induction l as [| e l IH]; [done | cbn; by rewrite IH]).
  rewrite reverse_rev. change (parseLimit $$"200") with 200. destruct (200 <? zlen (rev log)) eqn:E; [done |]. bool_hyps.
  rewrite take_ge; [done |]. unfold zlen in E. lia.
Qed.

(** ** The stream *)

(** The frames of [log] from offset [o]. *)
Fixpoint frames_of (o : Z) (log : list Entry) : list (Z * str) :=
  match log with
  | [] => []
  | e :: log => let o := o + zlen (file_line encode e) in (o, encode e) :: frames_of o log
  end.

Lemma read_line_bytes a b p o :
  nl ∉ a ->
  read_available (a ++ nl :: b) p o =
    (let raw := p ++ a ++ [nl] in
     let line := trim_right raw [zb 13; nl] in
     let '(frames, partial, last) := read_available b [] (o + zlen raw) in
     (if line =s [] then frames else (o + zlen raw, line) :: frames, partial, last)).
Proof using.
  revert p. induction a as [| c a IH]; intros p Ha; cbn [app read_available].
  - by rewrite bool_decide_eq_true_2.
  - apply not_elem_of_cons in Ha as [Hc Ha]. rewrite bool_decide_eq_false_2 by congruence.
    rewrite IH by done. by rewrite <- !app_assoc.
Qed.

Lemma trim_line e : loggable e -> trim_right (encode e ++ [nl]) [zb 13; nl] = encode e.
Proof using.
  intros He. unfold trim_right, trim_right_fn. rewrite rev_app_distr. cbn [rev app drop_while].
  replace (in_set [zb 13; nl] nl) with true by reflexivity. fold (trim_right_fn (in_set [zb 13; nl]) (encode e)).
  apply trim_right_fn_id. intros c t E. apply bool_decide_eq_false_2. intros Hin.
  apply (encode_no c e); [done | | rewrite E; apply elem_of_app; right; by left].
  repeat (apply elem_of_cons in Hin as [-> | Hin]; [done |]). by apply elem_of_nil in Hin.
Qed.

Lemma read_text log o : Forall loggable log -> read_available (text log) [] o = (frames_of o log, [], o + zlen (text log)).
Proof using.
  intros H. revert o. induction H as [| e log He _ IH]; intros o; cbn [flat_map frames_of]; [by rewrite Z.add_0_r |].
  unfold file_line at 1. rewrite <- app_assoc. cbn [app]. rewrite read_line_bytes by (by apply encode_no). cbn [app].
  rewrite trim_line, IH by done. destruct He as [_ Hne _ _]. rewrite (proj2 (seqb_neq _ _) Hne).
  f_equal. unfold file_line. rewrite !zlen_app. cbn. lia.
Qed.

Definition message_of (f : Z * str) : message := Message (itoa f.1) $$"log" f.2.
Definition sendable (f : Z * str) : Prop := 0 <= f.1 /\ f.2 <> [] /\ nl ∉ f.2.

Lemma itoa_plain n c : 0 <= n -> is_digit c = false -> c ∉ itoa n.
Proof using.
  intros Hn Hc Hin. destruct (itoa_nonneg n Hn) as (_ & Hd & _). rewrite Forall_forall in Hd. apply Hd in Hin. congruence.
Qed.

Lemma split_frames fs :
  Forall sendable fs ->
  split_byte nl (flat_map frame fs) = flat_map (fun f => [$$"id: " ++ itoa f.1; $$"event: log"; $$"data: " ++ f.2; []]) fs ++ [[]].
Proof using.
  assert (forall a rest, nl ∉ a -> split_byte nl (a ++ nl :: rest) = a :: split_byte nl rest) as Hline
    by (intros a rest Ha; by rewrite split_byte_sep, split_byte_no).
  induction 1 as [| [o line] fs (Ho & Hne & Hl) _ IH]; [done |]. cbn [flat_map fst snd] in *. rewrite <- app_assoc, <- IH.
  assert (nl ∉ $$"id: " ++ itoa o) as Hi.
  { rewrite elem_of_app. intros [Hin | Hin]; [by apply (bool_decide_unpack (nl ∉ $$"id: ")) in Hin | by apply (itoa_plain o nl)]. }
  assert (nl ∉ $$"data: " ++ line) as Hd.
  { rewrite elem_of_app. intros [Hin | Hin]; [by apply (bool_decide_unpack (nl ∉ $$"data: ")) in Hin | done]. }
  assert (nl ∉ $$"event: log") as He by (by apply (bool_decide_unpack (nl ∉ $$"event: log"))).
  replace (frame (o, line) ++ flat_map frame fs)
    with (($$"id: " ++ itoa o) ++ nl :: $$"event: log" ++ nl :: ($$"data: " ++ line) ++ nl :: [] ++ nl :: flat_map frame fs)
    by (unfold frame; by rewrite <- !app_assoc).
  rewrite !Hline by (done || apply not_elem_of_nil). done.
Qed.

Lemma sse_messages_line m line rest : line <> [] -> sse_messages m (line :: rest) = sse_messages (sse_line m line) rest.
Proof using. by destruct line. Qed.

(** What the portal writes, the browser reads back: one message for each frame. *)
Lemma EventSource_frames fs lastID : Forall sendable fs -> EventSource lastID (flat_map frame fs) = map message_of fs.
Proof using.
  intros H. unfold EventSource. rewrite split_frames by done. rewrite removelast_last.
  revert lastID. induction H as [| [o line] fs (Ho & Hne & Hl) _ IH]; intros lastID; [done |]. cbn [flat_map app fst snd map] in *.
  specialize (IH (itoa o)).
  assert (forall m, sse_line m ($$"id: " ++ itoa o) = Message (itoa o) (m_type m) (m_data m)) as H1.
  { intros m. change (sse_line m ($$"id: " ++ itoa o)) with (if bool_decide (zb 0 ∈ itoa o) then m else Message (itoa o) (m_type m) (m_data m)).
    rewrite bool_decide_eq_false_2; [done |]. by apply itoa_plain. }
  assert (forall m, sse_line m ($$"event: log") = Message (m_id m) $$"log" (m_data m)) as H2 by done.
  assert (forall m, sse_line m ($$"data: " ++ line) = Message (m_id m) (m_type m) (m_data m ++ line ++ [nl])) as H3 by done.
  rewrite !sse_messages_line by done. rewrite H1, H2, H3. cbn [m_id m_type m_data app sse_messages].
  rewrite (proj2 (seqb_neq (line ++ [nl]) [])) by (intros E; by apply app_eq_nil in E as [_ E]).
  destruct (sse_messages (Message (itoa o) [] []) _) as [l m'] eqn:Em. cbn [fst] in *. rewrite IH.
  unfold message_of at 1. cbn [fst snd]. by rewrite removelast_last.
Qed.

Lemma EventSource_ping lastID : EventSource lastID ($$": ping" ++ [nl; nl]) = [].
Proof using. reflexivity. Qed.

Lemma frames_sendable o log : 0 <= o -> Forall loggable log -> Forall sendable (frames_of o log).
Proof using.
  intros Ho H. revert o Ho. induction H as [| e log He _ IH]; intros o Ho; [constructor |]. cbn [frames_of].
  pose proof (zlen_nonneg (file_line encode e)). 
  constructor; [split_and!; cbn; [lia | apply He | by apply encode_no] | apply IH; lia].
Qed.

(** A tick hands the browser the events not yet read, as messages. *)
Lemma tick_text pre new idle lastID :
  Forall loggable new ->
  exists frames bytes idle',
    tick (text (pre ++ new)) (Stream (length (text pre)) [] (zlen (text pre)) idle) =
      (frames, bytes, Stream (length (text (pre ++ new))) [] (zlen (text (pre ++ new))) idle') /\
    EventSource lastID bytes = map message_of (frames_of (zlen (text pre)) new).
Proof using.
  intros Hn. unfold tick. cbn [st_pos st_partial st_offset st_idle]. rewrite flat_map_app, drop_app_length, read_text by done.
  rewrite <- zlen_app. pose proof (zlen_nonneg (text pre)) as Ho. pose proof (frames_sendable (zlen (text pre)) new Ho Hn) as Hs.
  destruct (frames_of (zlen (text pre)) new) as [| f fs] eqn:E.
  - destruct (idlePingEvery <=? idle + 1); do 3 eexists; (split; [reflexivity |]); [apply EventSource_ping | done].
  - do 3 eexists. split; [reflexivity |]. by apply EventSource_frames.
Qed.

Lemma on_log_frames o l entries : Forall loggable l -> fold_left (on_log decode) (map message_of (frames_of o l)) entries = show_all l entries.
Proof using.
  intros H. revert o entries. induction H as [| e l He _ IH]; intros o entries; [done |]. cbn [frames_of map fold_left show_all].
  unfold on_log at 2. cbn [message_of m_type m_data fst snd]. rewrite seqb_refl, (lg_back e He). apply IH.
Qed.

Lemma frames_of_take n o l : take n (frames_of o l) = frames_of o (take n l).
Proof using. revert n o. induction l as [| e l IH]; intros [| n] o; try done. cbn [frames_of take]. by rewrite IH. Qed.

Lemma last_frame o l lastID :
  match last (map message_of (frames_of o l)) with Some m => m_id m | None => lastID end =
  match l with [] => lastID | _ => itoa (o + zlen (text l)) end.
Proof using.
  destruct l as [| e l] using rev_ind; [done |]. clear IHl.
  assert (forall o, frames_of o (l ++ [e]) = frames_of o l ++ [(o + zlen (text (l ++ [e])), encode e)]) as ->.
  { induction l as [| x l IH]; intros o'; cbn [frames_of flat_map app]; [by rewrite app_nil_r |].
    by rewrite IH, (zlen_app (file_line encode x)), Z.add_assoc. }
  rewrite map_app, last_app. cbn. by destruct l.
Qed.

(** ** The simulation *)

Record rep (y : system) (v : view) : Prop := Rep {
  rp_file : y_file y = text (v_log v);
  rp_entries : y_entries y = v_shown v;
  rp_answer : y_answer y = v_answer v;
  rp_stream : match v_pos v with
    | None => y_stream y = None
    | Some k => (k <= length (v_log v))%nat /\
        exists idle, y_stream y = Some (Stream (length (text (take k (v_log v)))) [] (zlen (text (take k (v_log v)))) idle)
    end;
  rp_last : match v_last v with
    | None => y_lastID y = []
    | Some k => (k <= length (v_log v))%nat /\ y_lastID y = itoa (zlen (text (take k (v_log v))))
    end
}.

(** A log of such events whose size is an offset. *)
Definition readable (log : list Entry) : Prop := Forall loggable log /\ zlen (text log) <= max_int64.

Lemma zlen_text_take k log : zlen (text (take k log)) <= zlen (text log).
Proof using. rewrite <- (take_drop k log) at 2. rewrite flat_map_app, zlen_app. pose proof (zlen_nonneg (text (drop k log))). lia. Qed.

Lemma resume_text log k :
  readable log -> (k <= length log)%nat ->
  open_stream (text log) (itoa (zlen (text (take k log)))) =
    Stream (length (text (take k log))) [] (zlen (text (take k log))) 0.
Proof using.
  intros [_ Hm] Hk. pose proof (zlen_text_take k log) as Hle. pose proof (zlen_nonneg (text (take k log))) as H0.
  unfold open_stream. rewrite atoi_itoa by lia. replace ((0 <=? _) && (_ <=? _)) with true by (symmetry; rewrite andb_true_iff, !Z.leb_le; lia).
  destruct (itoa_nonneg (zlen (text (take k log))) H0) as (_ & _ & Hne). rewrite (proj2 (seqb_neq _ _) Hne).
  unfold zlen. by rewrite Nat2Z.id.
Qed.

Lemma take_before k (log : list Entry) e : (k <= length log)%nat -> take k (log ++ [e]) = take k log.
Proof using. intros H. by rewrite take_app_le. Qed.

Lemma take_more k n (log : list Entry) :
  (k <= length log)%nat ->
  let new := take n (drop k log) in
  (k + length new <= length log)%nat /\ take (k + length new) log = take k log ++ new.
Proof using.
  intros Hk new. assert (log = (take k log ++ new) ++ drop n (drop k log)) as E by (unfold new; by rewrite <- app_assoc, !take_drop).
  assert (length (take k log ++ new) = (k + length new)%nat) as Hl by (rewrite length_app, length_take; lia).
  split; [apply (f_equal length) in E; rewrite length_app in E; lia |]. rewrite E at 1. by apply take_app_length'.
Qed.

Lemma poll_rep y v got k : rep y v -> Forall loggable (v_log v) -> v_pos v = Some k -> rep (act y (Poll got)) (see v (Poll got)).
Proof using.
  intros [Hf He Ha Hs Hl] Hlog Hk. rewrite Hk in Hs. destruct y as [file entries answer st lastID], v as [log shown vans pos vlast].
  cbn [y_file y_entries y_answer y_stream y_lastID v_log v_shown v_answer v_pos v_last] in *. subst file entries answer pos.
  destruct Hs as (Hle & idle & ->).
  destruct (tick_text (take k log) (drop k log) idle lastID (Forall_drop _ _ _ Hlog)) as (frames & bytes & idle' & Ht & Hm). rewrite take_drop in Ht.
  unfold act; cbn [see]. rewrite Ht, Hm.
  assert (exists n, match got with Some n => take n (drop k log) | None => drop k log end = take n (drop k log)) as [n Hn]
    by (destruct got as [n |]; [by exists n | exists (length (drop k log)); by rewrite firstn_all]).
  destruct (take_more k n log Hle) as [Hb Hnew]. set (new := take n (drop k log)) in *.
  assert ((match got with Some n => take n (map message_of (frames_of (zlen (text (take k log))) (drop k log)))
           | None => map message_of (frames_of (zlen (text (take k log))) (drop k log)) end) =
          map message_of (frames_of (zlen (text (take k log))) new)) as ->.
  { destruct got as [m |]; [by rewrite firstn_map, frames_of_take, Hn | by rewrite Hn]. }
  rewrite Hn, on_log_frames, last_frame by (by apply Forall_take, Forall_drop). split; cbn [y_file y_entries y_answer y_stream y_lastID v_log v_shown v_answer v_pos v_last]; try done.
  - destruct got; [done |]. split; [done |]. rewrite firstn_all. eauto.
  - destruct new as [| e new'] eqn:E; [exact Hl |]. rewrite <- E in *. split; [done |]. by rewrite Hnew, flat_map_app, zlen_app.
Qed.

Lemma act_rep y v x : rep y v -> readable (v_log v) -> rep (act y x) (see v x).
Proof using.
  intros R Hr. destruct x as [e | | | | got].
  - destruct R as [Hf He Ha Hs Hl], y, v. cbn in *. subst. split; cbn; try done.
    + by rewrite flat_map_app; cbn; rewrite app_nil_r.
    + destruct v_pos0 as [k |]; [| done]. destruct Hs as [Hk Hs]. rewrite length_app, take_before by done. split; [lia | done].
    + destruct v_last0 as [k |]; [| done]. destruct Hl as [Hk Hl]. rewrite length_app, take_before by done. split; [lia | done].
  - destruct R as [Hf He Ha Hs Hl], y, v. cbn in *. subst. split; cbn; try done. by rewrite query_text by apply Hr.
  - destruct R as [Hf He Ha Hs Hl], y, v. cbn in *. subst. by split.
  - destruct R as [Hf He Ha Hs Hl], y, v. cbn in *. subst. split; cbn; try done. destruct v_last0 as [k |]; cbn.
    + destruct Hl as [Hk ->]. split; [done |]. eexists. by rewrite resume_text.
    + subst. split; [done |]. rewrite firstn_all. by eexists.
  - destruct (v_pos v) as [k |] eqn:Ek; [apply (poll_rep y v got k); [done | apply Hr | done] |]. pose proof (rp_stream y v R) as Hs. rewrite Ek in Hs.
    destruct y, v. cbn in *. by subst.
Qed.

Lemma see_log v x : exists more, v_log (see v x) = v_log v ++ more.
Proof using. destruct v, x; cbn; try (exists []; by rewrite app_nil_r); [by eexists |]. destruct v_pos0; exists []; by rewrite app_nil_r. Qed.

Lemma see_all_log xs v : exists more, v_log (see_all xs v) = v_log v ++ more.
Proof using.
  revert v. induction xs as [| x xs IH]; intros v; [exists []; by rewrite app_nil_r |].
  destruct (see_log v x) as [m1 E1]. destruct (IH (see v x)) as [m2 E2]. exists (m1 ++ m2). cbn. unfold see_all in E2. by rewrite E2, E1, app_assoc.
Qed.

Lemma readable_prefix a b : readable (a ++ b) -> readable a.
Proof using.
  intros [H1 H2]. apply Forall_app in H1 as [H1 _]. split; [done |]. rewrite flat_map_app, zlen_app in H2.
  pose proof (zlen_nonneg (text b)). lia.
Qed.

Definition empty_page (log : list Entry) : system := System (text log) [] None None [].
Definition empty_view (log : list Entry) : view := View log [] None None None.

Lemma act_all_rep xs y v : rep y v -> readable (v_log (see_all xs v)) -> rep (act_all xs y) (see_all xs v).
Proof using.
  revert y v. induction xs as [| x xs IH]; intros y v R Hr; [done |].
  apply (IH (act y x) (see v x)); [| exact Hr]. apply act_rep; [done |].
  destruct (see_log v x) as [m1 E1]. destruct (see_all_log xs (see v x)) as [m2 E2]. cbn in Hr. unfold see_all in E2. rewrite E2, E1 in Hr.
  by do 2 apply readable_prefix in Hr.
Qed.

Lemma empty_rep log : rep (empty_page log) (empty_view log).
Proof using. by split. Qed.

(** C13: the page shows what the view says: log lines, query, stream, the browser's messages
    and the script's list together do exactly what the list of events does, at every
    moment of every sequence of appends, answers, connections and broken connections. *)
Theorem page_refines_view log xs :
  let v := see_all xs (empty_view log) in
  readable (v_log v) ->
  let y := act_all xs (empty_page log) in
  y_file y = text (v_log v) /\ y_entries y = v_shown v /\ y_answer y = v_answer v /\
  (y_stream y = None <-> v_pos v = None).
Proof using.
  intros v Hr y. destruct (act_all_rep xs (empty_page log) (empty_view log) (empty_rep log) Hr) as [H1 H2 H3 H4 _].
  fold v y in H1, H2, H3, H4. split_and!; try done. destruct (v_pos v); [destruct H4 as (_ & i & H4); rewrite H4; by split | by rewrite H4].
Qed.

(** ** In step *)

Lemma prepend_take e shown : prepend e (take 2000 shown) = take 2000 (e :: shown).
Proof using.
  unfold prepend, maxEntries. rewrite zlen_cons, zlen_take. destruct (2000 <? _) eqn:E; bool_hyps; unfold zlen in *.
  - change (take 2000 (e :: shown)) with (e :: take 1999 shown).
    assert (exists x, take 2000 shown = take 1999 shown ++ [x]) as [x Hx].
    { destruct (lookup_lt_is_Some_2 shown 1999) as [x Hx]; [lia |]. exists x. by apply take_S_r. }
    rewrite Hx. apply (removelast_last (e :: take 1999 shown)).
  - rewrite !take_ge by (cbn; lia). done.
Qed.

Lemma show_all_take l shown : show_all l (take 2000 shown) = take 2000 (rev l ++ shown).
Proof using.
  revert shown. induction l as [| e l IH]; intros shown; [done |]. cbn [show_all fold_left rev]. rewrite prepend_take, <- app_assoc. apply IH.
Qed.

(** The list is the newest of the first [k] events since [lo], nothing is under way, and
    the stream, open or resumed, goes on from [k]. *)
Record in_step (lo : nat) (v : view) (k : nat) : Prop := InStep {
  is_range : (lo <= k <= length (v_log v))%nat;
  is_shown : v_shown v = take 2000 (rev (drop lo (take k (v_log v))));
  is_pos : v_pos v = None \/ v_pos v = Some k;
  is_last : v_last v = Some k
}.
Definition loading (x : event) : bool := match x with Ask | Answered => true | _ => false end.

Lemma shown_more lo k n (log : list Entry) :
  (lo <= k <= length log)%nat ->
  show_all (take n (drop k log)) (take 2000 (rev (drop lo (take k log)))) =
    take 2000 (rev (drop lo (take (k + length (take n (drop k log))) log))).
Proof using.
  intros H. destruct (take_more k n log) as [_ ->]; [lia |]. rewrite show_all_take, drop_app_le by (rewrite length_take; lia).
  by rewrite rev_app_distr.
Qed.

Lemma see_in_step lo v k x : in_step lo v k -> loading x = false -> exists k', in_step lo (see v x) k'.
Proof using.
  intros [Hr Hs Hp Hl] Hx. destruct v as [log shown answer pos last]. cbn in *. subst shown last. destruct x as [e | | | | got]; try done; cbn.
  - exists k. split; cbn; try done; rewrite ?length_app, ?take_before by lia; try done. lia.
  - exists k. split; cbn; auto.
  - destruct Hp as [-> | ->]; [exists k; split; cbn; auto |].
    assert (exists n, match got with Some n => take n (drop k log) | None => drop k log end = take n (drop k log) /\
              (got = None -> k + length (take n (drop k log)) = length log)%nat) as (n & -> & Hn).
    { destruct got as [n |]; [by exists n | exists (length (drop k log)); rewrite firstn_all, length_drop; split; [done | lia]]. }
    destruct (take_more k n log) as [Hb _]; [lia |]. exists (k + length (take n (drop k log)))%nat. split; cbn [v_log v_shown v_pos v_last].
    + lia.
    + by apply shown_more.
    + destruct got as [m |]; [by left | right; by rewrite Hn].
    + destruct (take n (drop k log)) eqn:E; [| done]. cbn. by rewrite Nat.add_0_r.
Qed.

Lemma see_all_in_step lo v k xs :
  in_step lo v k -> Forall (fun x => loading x = false) xs -> exists k', in_step lo (see_all xs v) k'.
Proof using.
  intros H Hx. revert v k H. induction Hx as [| x xs Hx _ IH]; intros v k H; [by exists k |].
  destruct (see_in_step lo v k x H Hx) as [k1 H1]. exact (IH _ _ H1).
Qed.

(** A new tick catches up. *)
Lemma in_step_catches_up lo v k :
  in_step lo v k -> v_shown (see_all [Connect; Poll None] v) = take 2000 (rev (drop lo (v_log v))).
Proof using.
  intros [Hr Hs _ Hl]. destruct v as [log shown answer pos last]. cbn in *. subst shown last.
  pose proof (shown_more lo k (length (drop k log)) log Hr) as E. rewrite firstn_all in E.
  etransitivity; [exact E |]. by rewrite length_drop, (take_ge log) by lia.
Qed.

Lemma see_appends l v : see_all (map Append l) v = View (v_log v ++ l) (v_shown v) (v_answer v) (v_pos v) (v_last v).
Proof using.
  revert v. induction l as [| e l IH]; intros v; [destruct v; cbn; by rewrite app_nil_r |].
  cbn [map]. change (see_all (Append e :: map Append l) v) with (see_all (map Append l) (see v (Append e))). rewrite IH. destruct v. cbn.
  by rewrite <- app_assoc.
Qed.

(** Opening the page: the query is answered and the stream opened with no event in
    between, the answer arrives before the first message, and a message arrives. *)
Definition opening (l1 l2 : list Entry) : list event :=
  [Ask; Connect] ++ map Append l1 ++ [Answered] ++ map Append l2 ++ [Poll None].

Lemma opening_in_step log l1 l2 :
  l1 ++ l2 <> [] ->
  let lo := (length log - 200)%nat in
  let v := see_all (opening l1 l2) (empty_view log) in
  in_step lo v (length (log ++ l1 ++ l2)) /\ v_log v = log ++ l1 ++ l2.
Proof using.
  intros Hne lo v. assert (v = see (View (log ++ l1 ++ l2) (take 200 (rev log)) None (Some (length log)) None) (Poll None)) as Hv.
  { unfold v, opening, see_all. rewrite !fold_left_app. cbn [fold_left see empty_view default].
    change (fold_left see (map Append l1)) with (see_all (map Append l1)). rewrite see_appends. cbn [fold_left see v_log v_shown v_answer v_pos v_last default].
    change (fold_left see (map Append l2)) with (see_all (map Append l2)). rewrite see_appends. cbn. by rewrite <- app_assoc. }
  rewrite Hv. cbn [see]. rewrite drop_app_length. destruct (l1 ++ l2) as [| e l] eqn:E; [done |]. rewrite <- E in *. clear E e l Hv v.
  assert (take 200 (rev log) = take 2000 (rev (drop lo log))) as Hs.
  { rewrite (take_ge _ 2000) by (rewrite length_rev, length_drop; lia).
    destruct (Nat.le_gt_cases (length log) 200) as [H | H].
    - replace lo with 0%nat by lia. rewrite drop_0. apply take_ge. rewrite length_rev. lia.
    - rewrite <- (take_drop lo log) at 1. rewrite rev_app_distr. apply take_app_length'. rewrite length_rev, length_drop. lia. }
  split; [| done]. split; cbn [v_log v_shown v_pos v_last]; rewrite ?length_app; try done.
  - lia.
  - rewrite Hs, show_all_take, (take_ge (log ++ l1 ++ l2)), drop_app_le by (rewrite ?length_app; lia). by rewrite (rev_app_distr (drop lo log)).
  - by right.
Qed.

(** C12: the page follows the log: opened with nothing logged between the answer of its query
    and the start of its stream, and after a first message, the page shows, whatever is
    logged and however often and wherever the connection breaks, once the stream is
    resumed exactly the newest events of the log since the oldest it loaded, newest
    first, up to its limit: none is missing and none is there twice. *)
Theorem page_follows_the_log log l1 l2 xs :
  l1 ++ l2 <> [] -> Forall (fun x => loading x = false) xs ->
  let run := opening l1 l2 ++ xs ++ [Connect; Poll None] in
  let final := v_log (see_all run (empty_view log)) in
  readable final ->
  y_file (act_all run (empty_page log)) = text final /\
  y_entries (act_all run (empty_page log)) = take 2000 (rev (drop (length log - 200) final)).
Proof using.
  intros Hne Hx run final Hr. destruct (act_all_rep run (empty_page log) (empty_view log) (empty_rep log) Hr) as [H1 H2 _ _ _].
  split; [exact H1 |]. rewrite H2. clear H1 H2. destruct (opening_in_step log l1 l2 Hne) as [H _].
  destruct (see_all_in_step _ _ _ xs H Hx) as [k Hk]. set (v := see_all xs _) in Hk.
  assert (see_all run (empty_view log) = see_all [Connect; Poll None] v) as E by (unfold run, v, see_all; by rewrite !fold_left_app).
  unfold final. rewrite E, (in_step_catches_up _ _ _ Hk). by destruct v.
Qed.
End proofs.

Definition demo_event (name : str) : Entry := base_entry name [] [] 0 [].
Definition demo_decode (s : str) : option Entry := Some (demo_event s).
Lemma demo_loggable n : In n [$$"A"; $$"B"; $$"C"; $$"D"; $$"E"] -> loggable e_Event demo_decode (demo_event n).
Proof.
  intros H. repeat destruct H as [<- | H]; try done;
    (split; [reflexivity | done | vm_compute; repeat (apply Forall_cons_2; [discriminate |]); apply Forall_nil_2 | reflexivity]).
Qed.
Ltac demo_readable :=
  split; [repeat (apply Forall_cons_2; [apply demo_loggable; cbn; tauto |]); apply Forall_nil_2 | vm_compute; discriminate].

(** The connection breaks in the middle of a tick; the resumed stream goes on with the
    next event. *)
Definition demo_run : list event :=
  opening [] [demo_event $$"B"] ++ [Append (demo_event $$"C"); Append (demo_event $$"D"); Poll (Some 1%nat); Append (demo_event $$"E")] ++ [Connect; Poll None].

Lemma page_refines_view_witness :
  map e_Event (y_entries (act_all e_Event demo_decode demo_run (empty_page e_Event [demo_event $$"A"]))) = [$$"E"; $$"D"; $$"C"; $$"B"; $$"A"].
Proof.
  destruct (page_refines_view e_Event demo_decode [demo_event $$"A"] demo_run) as (_ & H & _); [demo_readable |].
  rewrite H. reflexivity.
Defined.

Lemma page_follows_the_log_witness :
  map e_Event (y_entries (act_all e_Event demo_decode demo_run (empty_page e_Event [demo_event $$"A"]))) = [$$"E"; $$"D"; $$"C"; $$"B"; $$"A"].
Proof.
  destruct (page_follows_the_log e_Event demo_decode [demo_event $$"A"] [] [demo_event $$"B"]
    [Append (demo_event $$"C"); Append (demo_event $$"D"); Poll (Some 1%nat); Append (demo_event $$"E")]) as [_ H];
    [done | repeat constructor | demo_readable |].
  unfold demo_run. rewrite H. reflexivity.
Defined.

(** The conditions are needed.  An event logged after the query was answered and before
    the stream starts is not shown; one logged after the stream starts and before the
    query is answered is shown twice; and a stream that breaks before its first message
    starts again at the end of the log. *)
Definition demo_shown (xs : list event) : list str :=
  map e_Event (y_entries (act_all e_Event demo_decode xs (empty_page e_Event [demo_event $$"A"]))).
Example loading_misses_an_event :
  demo_shown [Ask; Append (demo_event $$"B"); Connect; Answered; Append (demo_event $$"C"); Poll None] = [$$"C"; $$"A"].
Proof. vm_compute. reflexivity. Qed.
Example loading_shows_an_event_twice :
  demo_shown [Connect; Append (demo_event $$"B"); Ask; Answered; Poll None] = [$$"B"; $$"B"; $$"A"].
Proof. vm_compute. reflexivity. Qed.
Example quiet_reconnect_misses_an_event :
  demo_shown [Ask; Connect; Answered; Poll (Some 0%nat); Append (demo_event $$"B"); Connect; Append (demo_event $$"C"); Poll None] = [$$"C"; $$"A"].
Proof. vm_compute. reflexivity. Qed.
