(* ===== verification/LogViews.v ===== *)
(** * LogViews: from the sessions of an instance to the portal's view of one

    The connections of an instance log side by side: the log is some interleaving of
    what each of their goroutines logs, stamped and written line by line ([Event.Log]
    holds the lock for one event at a time).  The portal's view of a session
    ([Feed.bySession]) is read back from the file. *)

From stdpp Require Import list.
From S2P Require Import Prelude GoStrings Event Session Server Feed LivePage ShellDemo Honeypot HoneypotFacts.

(** An interleaving of lists: their elements, those of each in order. *)
Inductive merge {A} : list (list A) -> list A -> Prop :=
  | merge_done ls : Forall (fun l => l = []) ls -> merge ls []
  | merge_next ls i x l out : ls !! i = Some (x :: l) -> merge (<[i := l]> ls) out -> merge ls (x :: out).

(** The fields [Log] stamps, erased. *)
Definition unstamp (e : Entry) : Entry := set_stamp e [] 0 [] [].

(** ** Interleavings *)

Lemma merge_filter {A} (f : A -> bool) ls out : merge ls out -> merge (map (List.filter f) ls) (List.filter f out).
Proof using.
  induction 1 as [ls H | ls i x l out Hi _ IH].
  - constructor. apply Forall_fmap. eapply Forall_impl; [exact H |]. by intros l ->.
  - cbn [List.filter]. assert (map (List.filter f) ls !! i = Some (List.filter f (x :: l))) as Hi' by (by rewrite list_lookup_fmap, Hi).
    rewrite list_fmap_insert in IH. cbn [List.filter] in Hi'. destruct (f x); [by eapply merge_next |].
    by rewrite list_insert_id in IH.
Qed.

Lemma merge_map {A B} (g : A -> B) ls out : merge ls out -> merge (map (map g) ls) (map g out).
Proof using.
  induction 1 as [ls H | ls i x l out Hi _ IH].
  - constructor. apply Forall_fmap. eapply Forall_impl; [exact H |]. by intros l ->.
  - cbn [map]. rewrite list_fmap_insert in IH. eapply merge_next; [| exact IH]. by rewrite list_lookup_fmap, Hi.
Qed.

(** Lists that are empty do not matter. *)
Lemma merge_ignores {A} (pre mid post : list (list A)) out :
  Forall (fun l => l = []) pre -> Forall (fun l => l = []) post -> merge (pre ++ mid ++ post) out -> merge mid out.
Proof using.
  intros Hpre Hpost H. remember (pre ++ mid ++ post) as ls eqn:E. revert mid E.
  induction H as [ls H | ls i x l out Hi _ IH]; intros mid ->.
  - constructor. by apply Forall_app in H as [_ [H _]%Forall_app].
  - destruct (Nat.lt_ge_cases i (length pre)) as [H1 | H1].
    { rewrite lookup_app_l in Hi by done. eapply Forall_lookup_1 in Hi; [| exact Hpre]. done. }
    rewrite lookup_app_r in Hi by done. destruct (Nat.lt_ge_cases (i - length pre) (length mid)) as [H2 | H2].
    + rewrite lookup_app_l in Hi by done. eapply merge_next; [exact Hi |]. apply IH.
      rewrite insert_app_r_alt, insert_app_l by done. done.
    + rewrite lookup_app_r in Hi by done. eapply Forall_lookup_1 in Hi; [| exact Hpost]. done.
Qed.

Lemma merge_single {A} (l out : list A) : merge [l; []] out -> out = l.
Proof using.
  intros H. remember [l; []] as ls eqn:E. revert l E. induction H as [ls H | ls i x l out Hi _ IH]; intros l' ->.
  - by apply Forall_cons in H as [-> _].
  - destruct i as [| [| i]]; try done. injection Hi as ->. f_equal. by apply IH.
Qed.

(** ** The file *)

Section log.
Context (rfc3339 : Z -> str) (encode : Entry -> str) (dur_string : Z -> str).
#[local] Notation stamp := (stamp rfc3339 dur_string).
#[local] Notation log_all := (log_all rfc3339 (fun e => Some (encode e)) dur_string).

(** What [Log] makes of an event at a time. *)
Definition stamped (sensor : str) (v : Z * bool * Entry) : Entry := stamp (NewLogger sensor) v.1.1 v.2.

Lemma log_all_lines l sensor evs :
  l_open l = true -> l_sensor l = sensor -> Forall (fun v => v.1.2 = true) evs ->
  l_lines (log_all l evs) = l_lines l ++ map (fun v => file_line encode (stamped sensor v)) evs.
Proof using.
  intros Ho Hs H. revert l Ho Hs. induction H as [| [[now ok] e] evs Hok _ IH]; intros l Ho Hs; [cbn; by rewrite app_nil_r |].
  cbn [fst snd] in Hok. subst ok sensor. cbn [Event.log_all map]. rewrite IH by (unfold Log; cbn; by rewrite Ho).
  unfold Log. cbn [negb fst l_lines]. rewrite Ho. cbn [negb fst l_lines]. rewrite <- app_assoc. done.
Qed.

Lemma log_file sensor evs :
  Forall (fun v => v.1.2 = true) evs ->
  concat (l_lines (log_all (NewLogger sensor) evs)) = flat_map (file_line encode) (map (stamped sensor) evs).
Proof using.
  intros H. rewrite (log_all_lines _ sensor) by done. cbn [NewLogger l_lines app]. by rewrite flat_map_concat_map, map_map.
Qed.

Lemma stamped_keeps sensor v : unstamp (stamped sensor v) = unstamp v.2 /\ e_Session (stamped sensor v) = e_Session v.2.
Proof using. destruct v as [[now ok] e]. unfold stamped, Event.stamp. cbn [fst snd]. by destruct (_ =s _), (_ =s _). Qed.

Lemma filter_stamped sensor id evs :
  map unstamp (List.filter (fun e => e_Session e =s id) (map (stamped sensor) evs)) =
  map unstamp (List.filter (fun e => e_Session e =s id) (map snd evs)).
Proof using.
  induction evs as [| v evs IH]; [done |]. cbn [map List.filter]. destruct (stamped_keeps sensor v) as [H1 H2]. rewrite H2.
  destruct (e_Session v.2 =s id); [| done]. cbn [map]. by rewrite H1, IH.
Qed.
End log.

(** ** The view of a session *)

(** Every event of a connection carries its id, or none. *)
Lemma accounted_ids srv c peer id duration f l e :
  accounted srv c peer id duration f -> l ∈ fate_logs f -> e ∈ l -> e_Session e = match f with Served _ _ => id | _ => [] end.
Proof using.
  destruct f as [| v | s late]; cbn [fate_logs]; intros H Hl He; [by apply elem_of_nil in Hl | |].
  - destruct v as [| | e' |]; try by apply elem_of_nil in Hl. apply list_elem_of_singleton in Hl as ->. apply list_elem_of_singleton in He as ->.
    cbn in H. destruct H as (_ & remote & ->). done.
  - destruct H as (remote & o & b & c' & _ & _ & _ & _ & Hall & _). rewrite Forall_forall in Hall.
    apply Hall, elem_of_app. apply elem_of_cons in Hl as [-> | Hl]; [by left |]. apply list_elem_of_singleton in Hl as ->. by right.
Qed.

Lemma filter_all {A} (f : A -> bool) l : (forall x, x ∈ l -> f x = true) -> List.filter f l = l.
Proof using.
  induction l as [| x l IH]; intros H; [done |]. cbn. rewrite (H x) by by left. rewrite IH; [done |]. intros y Hy. apply H. by right.
Qed.
Lemma filter_none {A} (f : A -> bool) l : (forall x, x ∈ l -> f x = false) -> List.filter f l = [].
Proof using.
  induction l as [| x l IH]; intros H; [done |]. cbn. rewrite (H x) by by left. apply IH. intros y Hy. apply H. by right.
Qed.

(** Of the logs of several connections, only those of one carry its id. *)
Lemma others_filtered (srv : arrival -> Server) l fates id :
  Forall2 (fun a f => accounted (srv a) (ar_open a) (ar_peer a) (ar_id a) (ar_duration a) f) l fates ->
  id <> [] -> Forall (fun a => ar_id a <> id) l ->
  Forall (fun x : list Entry => x = []) (map (List.filter (fun e => e_Session e =s id)) (flat_map fate_logs fates)).
Proof using.
  intros H Hid Hl. induction H as [| a f l fates Haf _ IH]; [constructor |]. apply Forall_cons in Hl as [Ha Hl].
  cbn [flat_map]. rewrite map_app. apply Forall_app. split; [| by apply IH]. apply Forall_fmap, Forall_forall. intros x Hx. cbn.
  apply filter_none. intros e He. rewrite (accounted_ids _ _ _ _ _ _ x e Haf Hx He). apply seqb_neq. destruct f; congruence.
Qed.

Section services.
Context (unmarshal : str -> option VfsLoad.manifest) (parse_rfc3339 parse_date : str -> option Z)
  (render : Persona.Persona -> str -> str -> option str) (nas_tree : list (str * VfsLoad.etree)) (png jpg : str).
Context (W : ShellState.World) (base : VfsNode.node) (p : Persona.Persona) (login_now : nat -> Z) (lucky : nat -> bool) (nas_now : Z).
Context (NewSignerFromKey : str -> bool)
  (NewServerConn : str -> Z -> (Ssh.auth_req -> Ssh.astate -> Ssh.astate * bool) -> Ssh.astate -> Ssh.astate * option Ssh.conn).
Context (md5 : str -> str) (date art backup : str) (unicode_upper : Z -> Z).
Context (rfc3339 : Z -> str) (encode : Entry -> str) (decode : str -> option Entry) (dur_string : Z -> str).
Hypothesis NewServerConn_handshake : forall banner tries cb st st' c,
  NewServerConn banner tries cb st = (st', c) -> exists l, SshFacts.handshake cb l st st' (Ssh.conn_user <$> c).
#[local] Notation serve_all := (serve_all unmarshal parse_rfc3339 parse_date render nas_tree png jpg W base p login_now lucky nas_now
  NewSignerFromKey NewServerConn md5 date art backup unicode_upper).

(** the portal's view of a session is what the session logged: however the connections
    of an instance interleave, the log read back under a session's id gives every event
    the session and its goroutines logged, each with the time it was logged at, in the
    order they were logged, and no event of another connection. *)
Theorem session_view_is_session_log cfg l h sensor evs :
  host_ok h -> NoDup (map ar_id l) ->
  let fates := (serve_all cfg l h).1 in
  merge (flat_map fate_logs fates) (map snd evs) -> Forall (fun v => v.1.2 = true) evs ->
  Forall (loggable encode decode) (map (stamped rfc3339 dur_string sensor) evs) ->
  let file := concat (l_lines (log_all rfc3339 (fun e => Some (encode e)) dur_string (NewLogger sensor) evs)) in
  forall i a s late, l !! i = Some a -> ar_id a <> [] -> fates !! i = Some (Served s late) ->
    merge [map unstamp (events s); map unstamp late] (map unstamp (bySession decode (ar_id a) file)).
Proof using NewServerConn_handshake.
  intros Hh Hnd fates Hm Hok Hlog file i a s late Ha Hid Hf.
  pose proof (serve_all_accounts unmarshal parse_rfc3339 parse_date render nas_tree png jpg W base p login_now lucky nas_now
    NewSignerFromKey NewServerConn md5 date art backup unicode_upper NewServerConn_handshake cfg l h Hh) as Hacc.
  unfold fates in *. destruct (serve_all cfg l h) as [fs h']. cbn [fst] in *. destruct Hacc as [Hacc _].
  set (f := fun e => e_Session e =s ar_id a).
  assert (bySession decode (ar_id a) file = List.filter f (map (stamped rfc3339 dur_string sensor) evs)) as ->.
  { unfold bySession, file. by rewrite log_file, (read_entries_text encode decode _ _ Hlog). }
  unfold f. rewrite filter_stamped. fold f. apply (merge_map unstamp [events s; late]).
  apply (merge_filter f) in Hm.
  rewrite <- (take_drop_middle l i a Ha) in Hacc, Hnd. rewrite <- (take_drop_middle fs i _ Hf) in Hacc, Hm.
  apply Forall2_app_inv in Hacc as [Hpre Hacc]; [| rewrite !length_take; apply lookup_lt_Some in Ha, Hf; lia].
  apply Forall2_cons in Hacc as [Hone Hpost]. rewrite map_app in Hnd. cbn [map] in Hnd.
  apply NoDup_app in Hnd as (_ & Hd & [Hn _]%NoDup_cons).
  rewrite flat_map_app, !map_app in Hm. cbn [flat_map] in Hm. rewrite map_app in Hm. apply merge_ignores in Hm.
  - replace [events s; late] with (map (List.filter f) (fate_logs (Served s late))); [exact Hm |]. cbn [fate_logs map].
    assert (forall x, x ∈ fate_logs (Served s late) -> List.filter f x = x) as Hk.
    { intros x Hx. apply filter_all. intros e He. unfold f. rewrite (accounted_ids _ _ _ _ _ _ x e Hone Hx He). apply seqb_refl. }
    rewrite !Hk; [done | right; by left | by left].
  - apply (others_filtered _ _ _ _ Hpre Hid). apply Forall_forall. intros b Hb E. apply (Hd (ar_id b)).
    + by apply list_elem_of_fmap_2.
    + rewrite E. by left.
  - apply (others_filtered _ _ _ _ Hpost Hid). apply Forall_forall. intros b Hb E. apply Hn. rewrite <- E. by apply list_elem_of_fmap_2.
Qed.
End services.

(** An interleaving by the list each element is taken from. *)
Fixpoint interleave {A} (idx : list nat) (ls : list (list A)) : option (list A) :=
  match idx with
  | [] => if forallb (fun l => match l with [] => true | _ => false end) ls then Some [] else None
  | i :: idx => match ls !! i with
                | Some (x :: l) => cons x <$> interleave idx (<[i := l]> ls)
                | _ => None
                end
  end.
Lemma interleave_merge {A} idx (ls : list (list A)) out : interleave idx ls = Some out -> merge ls out.
Proof.
  revert ls out. induction idx as [| i idx IH]; intros ls out; cbn [interleave].
  - destruct (forallb _ ls) eqn:E; [| done]. intros [= <-]. constructor. apply Forall_forall. intros l Hl.
    rewrite forallb_forall in E. apply list_elem_of_In, E in Hl. by destruct l.
  - destruct (ls !! i) as [[| x l] |] eqn:E; [done | | done]. destruct (interleave idx _) as [o |] eqn:Eo; [| done].
    intros [= <-]. eapply merge_next; [exact E | by apply IH].
Qed.

Definition demo_idx : list nat := [0; 2; 0; 4; 0; 2; 0; 0; 2; 0]%nat.
Definition demo_evs : list (Z * bool * Entry) :=
  Eval vm_compute in imap (fun i e => (Z.of_nat i, true, e)) (default [] (interleave demo_idx (flat_map fate_logs demo_serve.1))).
Definition demo_log : list Entry := Eval vm_compute in map (stamped itoa (fun _ => []) $$"hp") demo_evs.
Definition demo_find (s : str) : option Entry := List.find (fun e => e_Time e =s s) demo_log.

Lemma session_view_is_session_log_witness :
  exists s, demo_serve.1 !! 1%nat = Some (Served s []) /\
    map unstamp (bySession demo_find $$"B2"
      (concat (l_lines (log_all itoa (fun e => Some (e_Time e)) (fun _ => []) (NewLogger $$"hp") demo_evs)))) = map unstamp (events s).
Proof.
  assert (exists s, demo_serve.1 !! 1%nat = Some (Served s [])) as [s Hs] by (eexists; vm_compute; reflexivity).
  exists s. split; [exact Hs |]. apply merge_single.
  apply (session_view_is_session_log (fun _ => None) (fun _ => None) (fun _ => None) (fun _ _ _ => None) [] [] [] demo_world demo_base demo_persona
    (fun _ => 0) (fun _ => false) 0 (fun _ => true) (fun _ _ => SshFacts.scripted SshFacts.demo_attempts [SshFacts.demo_exec])
    (fun _ => []) [] [] [] (fun r => r) itoa e_Time demo_find (fun _ => []) (fun _ _ => SshFacts.scripted_handshake _ _)
    Config.DefaultConfig demo_arrivals (Host 7 0 None ∅) $$"hp" demo_evs) with (i := 1%nat) (a := demo_arrival 21 $$"ftp" ($$"USER root" ++ [zb 10] ++ $$"PASS toor" ++ [zb 10]) $$"B2") (late := []).
  - split; [by apply Z.leb_le | done].
  - apply (bool_decide_unpack (NoDup (map ar_id demo_arrivals))). vm_compute. exact I.
  - apply (interleave_merge demo_idx). vm_compute. reflexivity.
  - vm_compute. repeat (apply Forall_cons_2; [reflexivity |]). apply Forall_nil_2.
  - change (map (stamped itoa (fun _ => []) $$"hp") demo_evs) with demo_log. unfold demo_log.
    repeat (apply Forall_cons_2; [split; [vm_compute; reflexivity | discriminate | vm_compute; repeat (apply Forall_cons_2; [discriminate |]); apply Forall_nil_2 | vm_compute; reflexivity] |]).
    apply Forall_nil_2.
  - reflexivity.
  - discriminate.
  - exact Hs.
Defined.
