(* ===== verification/Process.v ===== *)
(** * Process: the running program (cmd/sweetty/main.go, internal/server/server.go)

    What [run] sets up and then waits for a signal over: the open listeners, the handlers
    of the connections, the portal's goroutine and the log they share, as a state machine
    whose steps are the atomic sections of the goroutines, in any order.  What one
    connection does is [Honeypot.handle], decided when its handler gets past the header;
    its events reach the log one at a time, in between those of the others.  Left out is
    the line of a panic that [handle] recovers, which nothing in its set-up raises. *)

From Stdlib Require Import SpecFloat.
From stdpp Require Import gmap.
From S2P Require Import Prelude GoStrings Net Config VfsNode VfsLoad Util Event Session Server Persona Auth ShellState Portal PortalMux Honeypot.
From S2P Require Ssh Haproxy.

#[export] Instance Listener_eq_dec : EqDecision Listener.
Proof. solve_decision. Defined.
#[export] Instance service_eq_dec : EqDecision service.
Proof. solve_decision. Defined.

(** ** State *)

(** A connection: what it sends, its fate once that is decided, and what its goroutines
    have still to log. *)
Record visit : Type := Visit { vi_arrival : arrival; vi_fate : option fate; vi_left : list (list Entry) }.

(** A line of the log: the connection that wrote it, if any, the time, and whether the
    disk took it. *)
Record line : Type := Line { ln_from : option nat; ln_now : Z; ln_ok : bool; ln_entry : Entry }.

Inductive phase : Type := Up | Stopping | Exited.

Record proc : Type := Proc {
  pr_phase : phase;
  pr_open : list (Listener * service);   (* listeners that accept *)
  pr_portal : bool;                      (* the portal's goroutine has not failed *)
  pr_count : counters;
  pr_visits : gmap nat visit;
  pr_shed : gmap Z shed_state;           (* by port *)
  pr_delay : gmap Z Z;                   (* accept back-off, by port *)
  pr_host : host;
  pr_log : list line
}.

Definition set_phase (x : phase) (p : proc) : proc :=
  Proc x (pr_open p) (pr_portal p) (pr_count p) (pr_visits p) (pr_shed p) (pr_delay p) (pr_host p) (pr_log p).
Definition set_open (x : list (Listener * service)) (p : proc) : proc :=
  Proc (pr_phase p) x (pr_portal p) (pr_count p) (pr_visits p) (pr_shed p) (pr_delay p) (pr_host p) (pr_log p).
Definition portal_down (p : proc) : proc :=
  Proc (pr_phase p) (pr_open p) false (pr_count p) (pr_visits p) (pr_shed p) (pr_delay p) (pr_host p) (pr_log p).
Definition set_count (x : counters) (p : proc) : proc :=
  Proc (pr_phase p) (pr_open p) (pr_portal p) x (pr_visits p) (pr_shed p) (pr_delay p) (pr_host p) (pr_log p).
Definition set_visit (i : nat) (v : visit) (p : proc) : proc :=
  Proc (pr_phase p) (pr_open p) (pr_portal p) (pr_count p) (<[i := v]> (pr_visits p)) (pr_shed p) (pr_delay p) (pr_host p) (pr_log p).
Definition set_shed (port : Z) (st : shed_state) (p : proc) : proc :=
  Proc (pr_phase p) (pr_open p) (pr_portal p) (pr_count p) (pr_visits p) (<[port := st]> (pr_shed p)) (pr_delay p) (pr_host p) (pr_log p).
Definition set_delay (port d : Z) (p : proc) : proc :=
  Proc (pr_phase p) (pr_open p) (pr_portal p) (pr_count p) (pr_visits p) (pr_shed p) (<[port := d]> (pr_delay p)) (pr_host p) (pr_log p).
Definition set_host (h : host) (p : proc) : proc :=
  Proc (pr_phase p) (pr_open p) (pr_portal p) (pr_count p) (pr_visits p) (pr_shed p) (pr_delay p) h (pr_log p).
Definition append (l : line) (p : proc) : proc :=
  Proc (pr_phase p) (pr_open p) (pr_portal p) (pr_count p) (pr_visits p) (pr_shed p) (pr_delay p) (pr_host p) (pr_log p ++ [l]).

(** When a step happens, in nanoseconds, and whether the disk takes a line just then. *)
Definition moment : Type := Z * bool.
Definition line_at (t : moment) (from : option nat) (e : Entry) : line := Line from (t.1 / ms) t.2 e.
Definition log_system (t : moment) (msg : str) (p : proc) : proc := append (line_at t None (System msg)) p.

(** ** Start-up *)

(** The zero [time.Time]. *)
Definition never : Z := -62135596800 * second.
Definition no_counters : counters := Counters 0 ∅ ∅.

Section boot.
(** The wording of durations ([%s]), of two decimals ([%.2f]), of quoted strings ([%q]),
    of the errors of [netip.ParsePrefix], and of the portal's notices. *)
Context (duration_string : Z -> str) (fixed2 : spec_float -> str) (quote prefix_error : str -> str) (notice_text : start_notice -> str).

Definition policy_line (x : BruteForceConfig * spec_float) : str :=
  $$"bruteforce: a source may be let in with the credential it tried after " ++ itoa (AfterTries x.1) ++ $$" attempts and " ++
  duration_string (After x.1) ++ $$" (p=" ++ fixed2 x.2 ++ $$")".
(** What [SetTrustedProxies] logs. *)
Definition proxy_lines (cidrs : list str) : list str :=
  omap (fun c => match ParsePrefix c with
                 | Some _ => None
                 | None => Some ($$"ignoring invalid proxy_trusted_cidrs entry " ++ quote c ++ $$": " ++ prefix_error c)
                 end) cidrs.
Definition exposed_line (bind : str) : str :=
  $$"WARNING: portal_bind=" ++ quote bind ++
  $$" is not loopback; the dashboard and console proxy are exposed on the network with no authentication. Bind 127.0.0.1 and reach it over the SSH tunnel.".

(** The lines of [run] up to its wait; [notices] are those of [portal.New]. *)
Definition boot_lines (cfg : Config) (notices : list start_notice) (out : outcome) : list str :=
  let setup bf := match bf with Some x => [policy_line x] | None => [] end ++
    flat_map (fun lc => match buildProtocol lc with Some _ => proxy_lines (ProxyTrustedCIDRs cfg) | None => [] end) (Listeners cfg) in
  match out with
  | Fatal _ => []
  | NoListeners => setup (bruteForce_of (c_BruteForce cfg)) ++ [$$"no listeners started; exiting"]
  | Running _ bf _ exposed =>
      setup bf ++ (if exposed then [exposed_line (PortalBind cfg)] else []) ++ map notice_text notices
  end.

(** The process that waits, if there is one; [clock] gives the moments of its lines. *)
Definition boot (cfg : Config) (notices : list start_notice) (clock : nat -> moment) (out : outcome) : option proc :=
  match out with
  | Running _ bf servers _ =>
      let policy := match bf with Some x => SetBruteForce x.1 | None => None end in
      Some (Proc Up servers true no_counters ∅ ∅ ∅ (Host 0 0 policy ∅)
              (imap (fun i msg => line_at (clock i) None (System msg)) (boot_lines cfg notices out)))
  | _ => None
  end.
End boot.

(** ** Steps *)

Inductive label : Type :=
  | Connect (i : nat) (a : arrival)         (* a listener accepts a connection *)
  | AcceptFails (port : Z) (err : str)
  | Proceed (i : nat)                       (* a handler gets past the header *)
  | Emit (i k : nat)                        (* goroutine [k] of a connection logs *)
  | Leave (i : nat)                         (* a handler returns *)
  | RecordFails (i : nat) (err : str)       (* its recording could not start *)
  | PortalFails (err : str)
  | Signal | CloseListener | Exit.

Definition with_open (c : counters) (a : arrival) : arrival :=
  Arrival (ar_listener a) c (ar_peer a) (ar_local a) (ar_input a) (ar_id a) (ar_now a) (ar_duration a).
(** Ids are drawn at random, 12 characters long: they do not repeat. *)
Definition fresh_id (id : str) (p : proc) : bool :=
  negb (id =s []) && forallb (fun v => negb (ar_id (vi_arrival v.2) =s id)) (map_to_list (pr_visits p)).

(** A connection is shed: the notice, when one is due. *)
Definition note_shed (t : moment) (port : Z) (text : Z -> str) (p : proc) : proc :=
  let '(st, due) := noteShed t.1 (default (ShedState 0 never) (pr_shed p !! port)) in
  let p := set_shed port st p in
  match due with Some n => log_system t (text n) p | None => p end.
Definition cap_text (cap : str) (limit port n : Z) : str :=
  cap ++ $$" cap (" ++ itoa limit ++ $$") reached on :" ++ itoa port ++ $$"; shed " ++ itoa n ++ $$" connection(s) recently".

(** A handler returns before it took a slot of its source, and after. *)
Definition gone (i : nat) (p : proc) : proc := set_count (set_handler i None (release_global (pr_count p))) p.
Definition left (i : nat) (k : Z * str) (p : proc) : proc :=
  set_count (set_handler i None (release_global (release k (pr_count p)))) p.

Section step.
(** The server of a connection's listener, with the surroundings of that connection. *)
Context (srv : arrival -> Server) (recording : bool).

(** The handler of [Server.handle] on a connection; [ar_open] are the others' slots. *)
Definition arrive (a : arrival) (h : host) : fate * host :=
  handle (srv a) (ar_open a) (ar_peer a) (ar_local a) (ar_input a) (ar_id a) (ar_now a) (ar_duration a) h.
(** The slot it takes: its listener and its source. *)
Definition slot (a : arrival) : option (Z * str) :=
  let s := srv a in
  '(remote, _, _) ← endpoints (config_of s) (ar_peer a) (ar_local a) (ar_input a);
  Some (srv_number s, HostOnly remote).

Definition connect (t : moment) (i : nat) (a : arrival) (p : proc) : option proc :=
  match pr_visits p !! i with
  | Some _ => None
  | None =>
      if bool_decide (ar_listener a ∈ pr_open p) && fresh_id (ar_id a) p then
        let port := srv_number (srv a) in
        let p := set_delay port 0 p in
        match tryAcquire (pr_count p) with
        | None => Some (note_shed t port (cap_text $$"connection" maxConns port) p)
        | Some c => Some (set_count (set_handler i (Some HGlobal) c) (set_visit i (Visit a None []) p))
        end
      else None
  end.

Definition proceed (t : moment) (i : nat) (p : proc) : option proc :=
  match pr_visits p !! i with
  | Some (Visit a None _) =>
      let port := srv_number (srv a) in
      let a := with_open (release_global (pr_count p)) a in
      let '(f, h) := arrive a (pr_host p) in
      let p := set_visit i (Visit a (Some f) (fate_logs f)) p in
      match f with
      | Overloaded | Refused (Serve _ _ _ _) => None
      | Refused Dropped => Some (gone i p)
      | Refused (Shed _) => Some (note_shed t port (cap_text $$"per-source" maxConnsPerIP port) (gone i p))
      | Refused (Scan _) | Served _ _ =>
          k ← slot a;
          c ← acquire k (pr_count p);
          Some (set_host h (set_count (set_handler i (Some (HSource k)) c) p))
      end
  | _ => None
  end.

Definition emit (t : moment) (i k : nat) (p : proc) : option proc :=
  match pr_visits p !! i with
  | Some v =>
      match vi_left v !! k with
      | Some (e :: l) => Some (append (line_at t (Some i) e) (set_visit i (Visit (vi_arrival v) (vi_fate v) (<[k := l]> (vi_left v))) p))
      | _ => None
      end
  | None => None
  end.

(** The session's own goroutine is done when it has logged everything; others may go on. *)
Definition leave (i : nat) (p : proc) : option proc :=
  match handlers (pr_count p) !! i, pr_visits p !! i with
  | Some (HSource k), Some v => match vi_left v !! 0%nat with Some [] => Some (left i k p) | _ => None end
  | _, _ => None
  end.

(** The recorder is opened before the session logs anything. *)
Definition record_fails (t : moment) (i : nat) (err : str) (p : proc) : option proc :=
  match handlers (pr_count p) !! i, pr_visits p !! i with
  | Some (HSource _), Some (Visit _ (Some (Served s late)) lv) =>
      if recording && (length (default [] (lv !! 0%nat)) =? length (events s))%nat
      then Some (log_system t ($$"session recording could not start: " ++ err) p) else None
  | _, _ => None
  end.

Definition accept_fails (t : moment) (port : Z) (err : str) (p : proc) : option proc :=
  if existsb (fun l => l_Port l.1 =? port) (pr_open p) then
    let delay := default 0 (pr_delay p !! port) in
    let p := set_delay port (next_delay delay) p in
    Some (if delay =? 0 then log_system t ($$"accept on :" ++ itoa port ++ $$" erroring, backing off: " ++ err) p else p)
  else None.

(** After a signal the listeners are closed one by one; then [run] returns, which closes
    the log and ends the process. *)
Definition step (t : moment) (l : label) (p : proc) : option proc :=
  match pr_phase p, l with
  | Exited, _ => None
  | _, Connect i a => connect t i a p
  | _, AcceptFails port err => accept_fails t port err p
  | _, Proceed i => proceed t i p
  | _, Emit i k => emit t i k p
  | _, Leave i => leave i p
  | _, RecordFails i err => record_fails t i err p
  | _, PortalFails err =>
      if pr_portal p then Some (log_system t ($$"portal failed to start: " ++ err) (portal_down p)) else None
  | Up, Signal =>
      Some (log_system t ($$"shutting down on signal; closing " ++ itoa (zlen (pr_open p)) ++ $$" listeners") (set_phase Stopping p))
  | Stopping, CloseListener => match pr_open p with _ :: l => Some (set_open l p) | [] => None end
  | Stopping, Exit => match pr_open p with [] => Some (set_phase Exited p) | _ :: _ => None end
  | _, _ => None
  end.

Fixpoint steps (l : list (moment * label)) (p : proc) : option proc :=
  match l with
  | [] => Some p
  | (t, x) :: l => p ← step t x p; steps l p
  end.
End step.

(** ** The whole program *)

(** What surrounds one connection: the clock and the draws at its logins, the time its
    NAS is built and its page is served, and the handshake its SSH client goes through. *)
Record surroundings : Type := Surroundings {
  en_login_now : nat -> Z; en_lucky : nat -> bool; en_nas_now : Z; en_date : str;
  en_NewServerConn : str -> Z -> (Ssh.auth_req -> Ssh.astate -> Ssh.astate * bool) -> Ssh.astate -> Ssh.astate * option Ssh.conn
}.

Section main.
Context (bind : list Z -> Z -> bool) (json_parse : str -> option jconfig) (persona_parse : str -> option Persona)
  (persona_print : Persona -> str) (writable : str -> bool).
Context (csv : str -> option (list (list str))) (url_parse : str -> option URL).
Context (duration_string : Z -> str) (fixed2 : spec_float -> str) (quote prefix_error : str -> str) (notice_text : start_notice -> str).
Context (unmarshal : str -> option manifest) (parse_rfc3339 parse_date : str -> option Z)
  (render : Persona -> str -> str -> option str) (nas_tree : list (str * etree)) (png jpg : str).
Context (W : World) (env : str -> surroundings) (NewSignerFromKey : str -> bool).
Context (md5 : str -> str) (art backup : str) (unicode_upper : Z -> Z) (fakeroot : list (str * etree)) (boot_now : Z).

Definition load_host (p : Persona) : option VfsNode.node :=
  fakehost_Load unmarshal parse_rfc3339 parse_date render p fakeroot boot_now.
(** The server a connection reaches. *)
Definition serve_on (cfg : Config) (base : VfsNode.node) (p : Persona) (a : arrival) : Server :=
  let e := env (ar_id a) in
  server_of unmarshal parse_rfc3339 parse_date render nas_tree png jpg W base p (en_login_now e) (en_lucky e) (en_nas_now e)
    NewSignerFromKey (en_NewServerConn e) md5 (en_date e) art backup unicode_upper cfg (ar_listener a).
(** [run] to its end: the configuration, the persona and the host's tree are loaded, the
    listeners started, the portal built; then the process takes the steps [ls]. *)
Definition main_run (configPath : str) (fresh : Persona) (d : gmap str str) (clock : nat -> moment) (ls : list (moment * label))
    : option (Config * Persona * proc) :=
  cfg ← Config.Load json_parse (d !! configPath);
  match fst (run bind json_parse persona_parse persona_print (fun p => bool_decide (is_Some (load_host p))) writable configPath fresh d) with
  | Running p bf servers exposed as out =>
      base ← load_host p;
      p0 ← boot duration_string fixed2 quote prefix_error notice_text cfg (PortalMux.New csv url_parse cfg).2 clock out;
      q ← steps (serve_on cfg base p) (negb (RecordDir cfg =s [])) ls p0;
      Some (cfg, p, q)
  | _ => None
  end.

(** The subcommand [hapwatch] up to its signal, one poll after the other. *)
Definition hapwatch_run (configPath table : str) (threshold cooldown : Z) (d : gmap str str) (polls : list poll) : option (list Entry) :=
  cfg ← Config.Load json_parse (d !! configPath);
  if writable (LogFile cfg) then
    Some (System ($$"hapwatch: watching HAProxy table " ++ quote table ++ $$" for floods over " ++ itoa threshold ++ $$" conn/10s") ::
          concat (hapwatch (false, Haproxy.NewWatcher threshold cooldown) polls))
  else None.
End main.
