(* ===== verification/ProcessFacts.v ===== *)
(** * ProcessFacts: the running program keeps account of everyone

    The invariant of [Process.step], by induction over its runs: the counters are those of
    [Server.conn_step], every connection that was decided is accounted for, and the log
    holds what its goroutines wrote so far, each in its order.  From it, the portal's view
    of a session at any moment, and what a signal does to the sessions in flight. *)

From stdpp Require Import gmap list.
From S2P Require Import Prelude GoStrings Config ConfigFacts Net VfsLoad Util Event Session Server Persona Auth ShellState Portal PortalMux Feed LivePage ShellDemo Honeypot HoneypotFacts LogViews Process.
From S2P Require Ssh SshFacts.

(** ** What is written and what is left *)

(** [drain ls out ls']: [out] takes the elements of the lists [ls] in some order, those of
    each in its own, and leaves [ls']. *)
Inductive drain {A} (ls : list (list A)) : list A -> list (list A) -> Prop :=
  | drain_none : drain ls [] ls
  | drain_one out ls' i x l : drain ls out ls' -> ls' !! i = Some (x :: l) -> drain ls (out ++ [x]) (<[i := l]> ls').

Lemma drain_elem {A} (ls ls' : list (list A)) out l :
  drain ls out ls' -> l ∈ ls' -> exists pre, pre ++ l ∈ ls.
Proof using.
  intros H. revert l. induction H as [| out ls' i x l H IH Hi]; intros l' Hl; [by exists [] |].
  apply list_elem_of_lookup in Hl as [j Hj]. destruct (decide (i = j)) as [<- | Hne].
  - rewrite list_lookup_insert_eq in Hj by (by eapply lookup_lt_Some). injection Hj as <-.
    destruct (IH (x :: l)) as [pre Hp]; [by eapply list_elem_of_lookup_2 |]. exists (pre ++ [x]). by rewrite <- app_assoc.
  - rewrite list_lookup_insert_ne in Hj by done. apply IH. by eapply list_elem_of_lookup_2.
Qed.

Lemma drain_length {A} (ls ls' : list (list A)) out : drain ls out ls' -> length ls' = length ls.
Proof using. induction 1 as [| out ls' i x l H IH Hi]; [done |]. by rewrite length_insert. Qed.

Lemma drain_map {A B} (g : A -> B) ls out ls' : drain ls out ls' -> drain (map (map g) ls) (map g out) (map (map g) ls').
Proof using.
  induction 1 as [| out ls' i x l H IH Hi]; [constructor |]. rewrite map_app. rewrite list_fmap_insert. cbn [map].
  eapply drain_one; [exact IH |]. by rewrite list_lookup_fmap, Hi.
Qed.

(** Written out, it is an interleaving. *)
Lemma drain_merge {A} (ls ls' : list (list A)) out out' : drain ls out ls' -> merge ls' out' -> merge ls (out ++ out').
Proof using.
  intros H. revert out'. induction H as [| out ls' i x l H IH Hi]; intros out' Hm; [done |].
  rewrite <- app_assoc. apply IH. by eapply merge_next.
Qed.

Lemma drain_done {A} (ls ls' : list (list A)) out : drain ls out ls' -> Forall (fun l => l = []) ls' -> merge ls out.
Proof using. intros H Hd. rewrite <- (app_nil_r out). eapply drain_merge; [exact H | by constructor]. Qed.

(** ** The invariant *)

Definition by_visit (i : nat) (l : line) : bool := bool_decide (ln_from l = Some i).
(** What a connection has logged so far. *)
Definition written (i : nat) (p : proc) : list Entry := map ln_entry (List.filter (by_visit i) (pr_log p)).

Section invariant.
Context (srv : arrival -> Server) (recording : bool) (servers : list (Listener * service)) (h0 : Z).
Context `{Hsrv : forall a, Confined (srv_protocol (srv a))}.

Definition visit_ok (i : nat) (p : proc) (v : visit) : Prop :=
  let a := vi_arrival v in
  ar_listener a ∈ servers /\ ar_id a <> [] /\
  match vi_fate v with
  | None => handlers (pr_count p) !! i = Some HGlobal /\ vi_left v = [] /\ written i p = []
  | Some f =>
      accounted (srv a) (ar_open a) (ar_peer a) (ar_id a) (ar_duration a) f /\
      drain (fate_logs f) (written i p) (vi_left v) /\
      match handlers (pr_count p) !! i with
      | None => default [] (vi_left v !! 0%nat) = []
      | Some HGlobal => False
      | Some (HSource _) => is_Some (vi_left v !! 0%nat)
      end
  end.

(** A line of a session carries its id; no other line carries any. *)
Definition line_ok (p : proc) (l : line) : Prop :=
  match ln_from l with
  | None => e_Session (ln_entry l) = []
  | Some i => exists v f, pr_visits p !! i = Some v /\ vi_fate v = Some f /\
      e_Session (ln_entry l) = match f with Served _ _ => ar_id (vi_arrival v) | _ => [] end
  end.

Record proc_ok (p : proc) : Prop := ProcOk {
  ok_count : rtc conn_step no_counters (pr_count p);
  ok_open : forall l, l ∈ pr_open p -> l ∈ servers;
  ok_host : host_ok (pr_host p) /\ h_overlay (pr_host p) = h0;
  ok_visits : forall i v, pr_visits p !! i = Some v -> visit_ok i p v;
  ok_none : forall i, pr_visits p !! i = None -> handlers (pr_count p) !! i = None;
  ok_ids : forall i j v w, pr_visits p !! i = Some v -> pr_visits p !! j = Some w -> ar_id (vi_arrival v) = ar_id (vi_arrival w) -> i = j;
  ok_lines : Forall (line_ok p) (pr_log p)
}.

(** States that differ in what the invariant does not read. *)
Definition same_account (p p' : proc) : Prop :=
  pr_count p' = pr_count p /\ pr_visits p' = pr_visits p /\ pr_host p' = pr_host p /\
  (forall l, l ∈ pr_open p' -> l ∈ pr_open p) /\
  (exists ls, pr_log p' = pr_log p ++ ls /\ Forall (fun l => ln_from l = None /\ e_Session (ln_entry l) = []) ls).

#[export] Instance same_account_preorder : PreOrder same_account.
Proof using.
  split.
  - intros p. split_and!; auto. exists []. by rewrite app_nil_r.
  - intros a b c (C1 & V1 & H1 & O1 & l1 & L1 & F1) (C2 & V2 & H2 & O2 & l2 & L2 & F2).
    split_and!; try congruence; [auto |]. exists (l1 ++ l2). split; [by rewrite L2, L1, app_assoc | by apply Forall_app].
Qed.

Lemma written_same p p' i : same_account p p' -> written i p' = written i p.
Proof using.
  intros (_ & _ & _ & _ & ls & E & Hls). unfold written. rewrite E, List.filter_app, map_app.
  rewrite (filter_none (by_visit i) ls); [apply app_nil_r |]. rewrite Forall_forall in Hls. intros l Hl.
  destruct (Hls l Hl) as [H _]. apply bool_decide_eq_false_2. by rewrite H.
Qed.

Lemma proc_ok_same p p' : same_account p p' -> proc_ok p -> proc_ok p'.
Proof using.
  intros Hs [H1 H2 H3 H4 H5 H6 H7]. pose proof (fun i => written_same p p' i Hs) as Hw.
  destruct Hs as (C & V & H & O & ls & L & F). split; rewrite ?C, ?V, ?H; auto.
  - intros i v Hv. specialize (H4 i v Hv). unfold visit_ok in *. by rewrite Hw, C.
  - rewrite L. apply Forall_app. split.
    + eapply Forall_impl; [exact H7 |]. intros l. unfold line_ok. by rewrite V.
    + eapply Forall_impl; [exact F |]. intros l [Hn Hl]. unfold line_ok. by rewrite Hn.
Qed.

Lemma same_log_system t msg p : same_account p (log_system t msg p).
Proof using. split_and!; auto. eexists. split; [reflexivity |]. by repeat constructor. Qed.
Lemma same_set_delay port d p : same_account p (set_delay port d p).
Proof using. split_and!; auto. exists []. cbn. by rewrite app_nil_r. Qed.
Lemma same_note_shed t port text p : same_account p (note_shed t port text p).
Proof using.
  unfold note_shed. destruct (noteShed _ _) as [st due].
  assert (same_account p (set_shed port st p)) as H by (split_and!; auto; exists []; cbn; by rewrite app_nil_r).
  destruct due as [n |]; [etransitivity; [exact H | apply same_log_system] | exact H].
Qed.

(** A line from connection [i], or none. *)
Lemma written_append i t from e p : from <> Some i -> written i (append (line_at t from e) p) = written i p.
Proof using.
  intros Hne. unfold written. cbn [append pr_log]. rewrite List.filter_app, map_app. cbn [List.filter].
  assert (by_visit i (line_at t from e) = false) as -> by (by apply bool_decide_eq_false_2). by rewrite app_nil_r.
Qed.
Lemma written_own i t e p : written i (append (line_at t (Some i) e) p) = written i p ++ [e].
Proof using.
  unfold written. cbn [append pr_log]. rewrite List.filter_app, map_app. cbn [List.filter].
  assert (by_visit i (line_at t (Some i) e) = true) as -> by (by apply bool_decide_eq_true_2). done.
Qed.

Lemma written_stranger p i : proc_ok p -> pr_visits p !! i = None -> written i p = [].
Proof using.
  intros Hp Hi. unfold written. rewrite filter_none; [done |]. intros l Hl. apply bool_decide_eq_false_2. intros E.
  pose proof (ok_lines p Hp) as H. rewrite Forall_forall in H. specialize (H l Hl). unfold line_ok in H. rewrite E in H.
  destruct H as (v & f & Hv & _). congruence.
Qed.

(** One connection moves; the rest stays. *)
Lemma proc_ok_update p p' i v :
  proc_ok p ->
  rtc conn_step (pr_count p) (pr_count p') ->
  (forall j, j <> i -> handlers (pr_count p') !! j = handlers (pr_count p) !! j) ->
  pr_visits p' = <[i := v]> (pr_visits p) ->
  match pr_visits p !! i with
  | Some v0 => ar_id (vi_arrival v) = ar_id (vi_arrival v0) /\ (vi_fate v0 = None \/ vi_fate v = vi_fate v0)
  | None => forall j w, pr_visits p !! j = Some w -> ar_id (vi_arrival w) <> ar_id (vi_arrival v)
  end ->
  pr_open p' = pr_open p ->
  host_ok (pr_host p') /\ h_overlay (pr_host p') = h0 ->
  (exists ls, pr_log p' = pr_log p ++ ls /\ Forall (fun l => ln_from l = Some i /\ line_ok p' l) ls) ->
  visit_ok i p' v -> proc_ok p'.
Proof using.
  intros [H1 H2 H3 H4 H5 H6 H7] Hc Hh Hv Hold Ho Hhost (ls & Hl & Hls) Hok.
  assert (forall j, j <> i -> written j p' = written j p) as Hw.
  { intros j Hj. unfold written. rewrite Hl, List.filter_app, map_app, (filter_none _ ls); [apply app_nil_r |].
    rewrite Forall_forall in Hls. intros l Hin. destruct (Hls l Hin) as [E _]. apply bool_decide_eq_false_2. congruence. }
  assert (forall j w w0, pr_visits p' !! j = Some w -> pr_visits p !! j = Some w0 -> ar_id (vi_arrival w) = ar_id (vi_arrival w0)) as Hid.
  { intros j w w0 Hj Hj0. rewrite Hv in Hj. destruct (decide (i = j)) as [<- | Hne].
    - rewrite lookup_insert_eq in Hj. injection Hj as <-. rewrite Hj0 in Hold. apply Hold.
    - rewrite lookup_insert_ne in Hj by done. congruence. }
  split; [by etransitivity | by rewrite Ho | done | | | |].
  - intros j w Hj. rewrite Hv in Hj. destruct (decide (i = j)) as [<- | Hne].
    + rewrite lookup_insert_eq in Hj. by injection Hj as <-.
    + rewrite lookup_insert_ne in Hj by done. specialize (H4 j w Hj). unfold visit_ok in *. by rewrite Hw, Hh by done.
  - intros j Hj. rewrite Hv in Hj. apply lookup_insert_None in Hj as [Hj Hne]. rewrite Hh by done. by apply H5.
  - intros j k w w' Hj Hk E. rewrite Hv in Hj, Hk.
    apply lookup_insert_Some in Hj as [[<- <-] | [Hj' Hj]], Hk as [[<- <-] | [Hk' Hk]]; [done | | | by eapply H6].
    + destruct (pr_visits p !! i) as [v0 |] eqn:E0; [eapply H6; [exact E0 | exact Hk | destruct Hold; congruence] |].
      by destruct (Hold k w' Hk).
    + destruct (pr_visits p !! i) as [v0 |] eqn:E0; [eapply H6; [exact Hj | exact E0 | destruct Hold; congruence] |].
      by destruct (Hold j w Hj).
  - rewrite Hl. apply Forall_app. split; [| eapply Forall_impl; [exact Hls | by intros l []]].
    eapply Forall_impl; [exact H7 |]. intros l. unfold line_ok. destruct (ln_from l) as [j |]; [| done].
    intros (w & f & Hj & Hf & E). rewrite Hv. destruct (decide (i = j)) as [<- | Hne].
    + rewrite Hj in Hold. destruct Hold as [Hi [Hn | Hsame]]; [congruence |]. exists v, f. rewrite lookup_insert_eq.
      split_and!; [done | congruence |]. rewrite E, Hi. done.
    + exists w, f. by rewrite lookup_insert_ne.
Qed.

(** Without a new line. *)
Lemma no_line p p' : pr_log p' = pr_log p -> forall i, exists ls, pr_log p' = pr_log p ++ ls /\ Forall (fun l => ln_from l = Some i /\ line_ok p' l) ls.
Proof using. intros E i. exists []. by rewrite app_nil_r. Qed.

Lemma fresh_id_spec id p : fresh_id id p = true -> id <> [] /\ forall j w, pr_visits p !! j = Some w -> ar_id (vi_arrival w) <> id.
Proof using.
  unfold fresh_id. intros [H1 H2]%andb_prop. apply negb_true_iff, seqb_neq in H1. split; [done |]. intros j w Hj.
  rewrite forallb_forall in H2. specialize (H2 (j, w)). cbn in H2. apply seqb_neq, negb_true_iff, H2.
  by apply list_elem_of_In, elem_of_map_to_list.
Qed.

Lemma connect_ok t i a p p' : proc_ok p -> connect srv t i a p = Some p' -> proc_ok p'.
Proof using.
  intros Hp. unfold connect. destruct (pr_visits p !! i) eqn:Ei; [done |]. destruct (bool_decide _) eqn:Eo; [| done]. cbn [andb].
  apply bool_decide_eq_true in Eo. destruct (fresh_id _ p) eqn:Ef; [| done]. apply fresh_id_spec in Ef as [Hid Hfresh].
  set (port := srv_number _). assert (proc_ok (set_delay port 0 p)) as Hp1 by exact (proc_ok_same _ _ (same_set_delay _ _ _) Hp).
  cbv zeta. destruct (tryAcquire _) as [c |] eqn:Ea; intros [= <-]; [| exact (proc_ok_same _ _ (same_note_shed _ _ _ _) Hp1)].
  assert (handlers (pr_count p) !! i = None) as Hn by by apply (ok_none p Hp).
  eapply (proc_ok_update _ _ i (Visit a None [])); [exact Hp1 | | | done | | done | apply (ok_host p Hp) | by apply no_line |]; cbn [set_count set_visit set_delay pr_count pr_visits pr_open pr_host].
  - apply rtc_once. by eapply step_accept.
  - unfold tryAcquire in Ea. destruct (_ <? _); [| done]. injection Ea as <-. intros j Hj. cbn. by rewrite lookup_insert_ne.
  - by rewrite Ei.
  - unfold visit_ok. cbn [vi_arrival vi_fate vi_left]. split_and!; [by apply (ok_open p Hp) | done | cbn; by rewrite lookup_insert_eq | done |].
    exact (written_stranger p i Hp Ei).
Qed.

(** The handler's decision is accounted for, whoever else is connected. *)
Lemma arrive_ok a h : host_ok h ->
  let '(f, h') := arrive srv a h in
  accounted (srv a) (ar_open a) (ar_peer a) (ar_id a) (ar_duration a) f /\ host_ok h' /\ h_overlay h' = h_overlay h.
Proof using Hsrv. intros Hh. unfold arrive. by apply handle_accounts. Qed.

Lemma acquire_spec k c c' : acquire k c = Some c' -> handlers c' = handlers c.
Proof using. unfold acquire. destruct (_ <=? _); [done |]. by intros [= <-]. Qed.

(** A handler that is past the header. *)
Lemma proceed_ok t i p p' : proc_ok p -> proceed srv t i p = Some p' -> proc_ok p'.
Proof using Hsrv.
  intros Hp. unfold proceed. destruct (pr_visits p !! i) as [[a [f |] lv] |] eqn:Ei; [done | | done].
  pose proof (ok_visits p Hp i _ Ei) as (Hl & Hid & Hg & _ & Hw). cbn [vi_arrival] in Hl, Hid.
  destruct (ok_host p Hp) as [Hh Ho]. set (a' := with_open _ a). pose proof (arrive_ok a' (pr_host p) Hh) as Ha.
  destruct (arrive srv a' (pr_host p)) as [f h]. destruct Ha as (Hacc & Hh' & Ho'). cbv zeta.
  assert (forall q, proc_ok p ->
    rtc conn_step (pr_count p) (pr_count q) -> (forall j, j <> i -> handlers (pr_count q) !! j = handlers (pr_count p) !! j) ->
    match handlers (pr_count q) !! i with
    | None => default [] (fate_logs f !! 0%nat) = []
    | Some HGlobal => False
    | Some (HSource _) => is_Some (fate_logs f !! 0%nat)
    end -> pr_visits q = <[i := Visit a' (Some f) (fate_logs f)]> (pr_visits p) -> pr_open q = pr_open p -> pr_log q = pr_log p ->
    host_ok (pr_host q) /\ h_overlay (pr_host q) = h0 -> proc_ok q) as Hgo.
  { intros q _ Hc Hne Hi Hv Hop Hlog Hq.
    eapply (proc_ok_update p q i _ Hp Hc Hne Hv); [| done | done | by apply no_line |].
    - rewrite Ei. cbn. auto.
    - unfold visit_ok. cbn [vi_arrival vi_fate vi_left]. split_and!; try done.
      assert (written i q = []) as -> by (unfold written in *; by rewrite Hlog). constructor. }
  assert (fate_logs f = [] -> proc_ok (gone i (set_visit i (Visit a' (Some f) (fate_logs f)) p))) as Hgone.
  { intros Hf. apply Hgo; try done; cbn [gone set_count set_visit pr_count].
    - apply rtc_once. by constructor.
    - intros j Hj. cbn. by rewrite lookup_delete_ne.
    - cbn. by rewrite lookup_delete_eq, Hf. }
  assert (fate_logs f <> [] -> (k ← slot srv a'; c ← acquire k (pr_count p);
    Some (set_host h (set_count (set_handler i (Some (HSource k)) c) (set_visit i (Visit a' (Some f) (fate_logs f)) p)))) = Some p' -> proc_ok p') as Hin.
  { intros Hf. destruct (slot srv a') as [k |]; [| done]. cbn. destruct (acquire k _) as [c |] eqn:Ec; [| done]. cbn. intros [= <-].
    apply Hgo; try done; cbn [set_host set_count set_visit pr_count pr_host].
    - apply rtc_once. by eapply step_source.
    - intros j Hj. cbn. rewrite lookup_insert_ne by done. by erewrite acquire_spec.
    - cbn. rewrite lookup_insert_eq. destruct (fate_logs f); [done | by eexists].
    - split; [done | by rewrite Ho']. }
  destruct f as [| [| src | e |] | s late]; try done.
  - intros [= <-]. by apply Hgone.
  - intros [= <-]. eapply proc_ok_same; [apply same_note_shed | by apply Hgone].
  - by apply Hin.
  - by apply Hin.
Qed.

Lemma emit_ok t i k p p' : proc_ok p -> emit t i k p = Some p' -> proc_ok p'.
Proof using.
  intros Hp. unfold emit. destruct (pr_visits p !! i) as [[a f lv] |] eqn:Ei; [| done]. cbn [vi_left vi_arrival vi_fate].
  destruct (lv !! k) as [[| e l] |] eqn:Ek; [done | | done]. intros [= <-].
  pose proof (ok_visits p Hp i _ Ei) as (Hl & Hid & Hf). cbn [vi_arrival vi_fate vi_left] in Hl, Hid, Hf.
  destruct f as [f |]; [| by destruct Hf as (_ & -> & _)]. destruct Hf as (Hacc & Hd & Hc).
  eapply (proc_ok_update p _ i _ Hp); [done | done | done | | done | apply (ok_host p Hp) | |].
  - rewrite Ei. cbn. auto.
  - eexists. split; [done |]. constructor; [| done]. split; [done |]. cbn. exists (Visit a (Some f) (<[k := l]> lv)), f.
    rewrite lookup_insert_eq. split_and!; [done | done |]. cbn [vi_arrival].
    destruct (drain_elem _ _ _ (e :: l) Hd) as [pre Hpre]; [by eapply list_elem_of_lookup_2 |].
    eapply accounted_ids; [exact Hacc | exact Hpre | apply elem_of_app; right; by left].
  - unfold visit_ok. cbn [vi_arrival vi_fate vi_left]. split_and!; try done; [rewrite written_own; by eapply drain_one |].
    cbn [append set_visit pr_count]. destruct (handlers _ !! i) as [[| k'] |]; [done | |].
    + destruct k; [exists l; by rewrite list_lookup_insert_eq by by eapply lookup_lt_Some | by rewrite list_lookup_insert_ne].
    + destruct k; [by rewrite Ek in Hc | by rewrite list_lookup_insert_ne].
Qed.

(** Both slots are given back, in the order of the deferred calls. *)
Lemma leave_count i k c : handlers c !! i = Some (HSource k) -> rtc conn_step c (set_handler i None (release_global (release k c))).
Proof using.
  intros H.
  assert (set_handler i None (release_global (release k c)) =
          set_handler i None (release_global (set_handler i (Some HGlobal) (release k c)))) as ->
    by (unfold set_handler; cbn; by rewrite delete_insert_eq).
  eapply rtc_l; [by eapply step_source_done |]. apply rtc_once, step_end. cbn. by rewrite lookup_insert_eq.
Qed.

Lemma leave_ok i p p' : proc_ok p -> leave i p = Some p' -> proc_ok p'.
Proof using.
  intros Hp. unfold leave. destruct (handlers _ !! i) as [[| k] |] eqn:Eh; [done | | done].
  destruct (pr_visits p !! i) as [v |] eqn:Ei; [| done]. destruct (vi_left v !! 0%nat) as [[|] |] eqn:E0; [| done | done]. intros [= <-].
  pose proof (ok_visits p Hp i _ Ei) as (Hl & Hid & Hf).
  eapply (proc_ok_update p _ i v Hp); [| | | | done | apply (ok_host p Hp) | by apply no_line |].
  - by apply leave_count.
  - intros j Hj. cbn. by rewrite lookup_delete_ne.
  - cbn. by rewrite insert_id.
  - rewrite Ei. auto.
  - unfold visit_ok. split_and!; [done | done |]. destruct (vi_fate v) as [f |]; [| destruct Hf; congruence].
    destruct Hf as (Hacc & Hd & Hc). split_and!; [done | done |]. cbn. by rewrite lookup_delete_eq, E0.
Qed.

Lemma record_fails_same recording' t i err p p' : record_fails recording' t i err p = Some p' -> same_account p p'.
Proof using. unfold record_fails. repeat case_match; try done. intros [= <-]. apply same_log_system. Qed.

Lemma step_ok t l p p' : proc_ok p -> step srv recording t l p = Some p' -> proc_ok p'.
Proof using Hsrv.
  intros Hp. unfold step. destruct (pr_phase p) eqn:Eph; [| | done]; destruct l; try done;
    first [by eapply connect_ok | by eapply proceed_ok | by eapply emit_ok | by eapply leave_ok |
           by intros E; eapply proc_ok_same; [eapply record_fails_same, E |] | idtac].
  all: repeat case_match; try done.
  all: unfold accept_fails; repeat case_match; try done; intros [= <-]; (eapply proc_ok_same; [| exact Hp]).
  all: try (etransitivity; [| apply same_log_system]).
  all: split_and!; auto; try (exists []; cbn; by rewrite app_nil_r).
  intros x Hx. cbn in Hx. subst. rewrite H. by right.
Qed.

Lemma steps_ok ls p p' : proc_ok p -> steps srv recording ls p = Some p' -> proc_ok p'.
Proof using Hsrv.
  revert p. induction ls as [| [t l] ls IH]; intros p Hp; cbn [steps]; [by intros [= <-] |].
  destruct (step srv recording t l p) as [q |] eqn:E; [| done]. cbn. apply IH. by eapply step_ok.
Qed.

(** ** Every connection can end *)

Lemma handle_conn_slot cfg active peer local i :
  match handle_conn cfg active peer local i with
  | Scan _ | Serve _ _ _ _ => exists remote dst rest, endpoints cfg peer local i = Some (remote, dst, rest) /\ active (HostOnly remote) < maxConnsPerIP
  | _ => True
  end.
Proof using.
  unfold handle_conn. destruct (endpoints cfg peer local i) as [[[remote dst] rest] |]; [| done]. cbv zeta.
  destruct (maxConnsPerIP <=? _) eqn:E; bool_hyps; [done |]. destruct (_ && _); exists remote, dst, rest; (split; [done | lia]).
Qed.

(** The decision of a handler always leads on: its slots are there. *)
Lemma proceed_enabled t i p a lv : proc_ok p -> pr_visits p !! i = Some (Visit a None lv) -> exists p', proceed srv t i p = Some p'.
Proof using Hsrv.
  intros Hp Ei. unfold proceed. rewrite Ei. set (a' := with_open _ a).
  pose proof (arrive_ok a' (pr_host p) (proj1 (ok_host p Hp))) as Ha. destruct (arrive srv a' (pr_host p)) as [f h] eqn:Ef. destruct Ha as [Ha _].
  pose proof (ci_max _ (conn_reachable_inv _ (ok_count p Hp))) as Hmax. cbv zeta.
  assert (match f with Refused (Scan _) | Served _ _ => exists k c, slot srv a' = Some k /\ acquire k (pr_count p) = Some c | _ => True end) as Hslot.
  { unfold arrive, handle in Ef. destruct (tryAcquire _) as [c |] eqn:Et; [| by injection Ef as <- _].
    unfold tryAcquire in Et. destruct (_ <? _); [| done]. injection Et as <-.
    match type of Ef with match ?v with _ => _ end = _ => pose proof (handle_conn_slot (config_of (srv a'))
      (fun src => active_of (pr_count p) (srv_number (srv a'), src)) (ar_peer a') (ar_local a') (ar_input a')) as H; change (handle_conn _ _ _ _ _) with v in H end.
    assert (forall remote dst rest, endpoints (config_of (srv a')) (ar_peer a') (ar_local a') (ar_input a') = Some (remote, dst, rest) ->
      active_of (pr_count p) (srv_number (srv a'), HostOnly remote) < maxConnsPerIP ->
      exists k c, slot srv a' = Some k /\ acquire k (pr_count p) = Some c) as Hk.
    { intros remote dst rest He Hlt. unfold slot. rewrite He. cbn. do 2 eexists. split; [done |]. unfold acquire.
      by rewrite (proj2 (Z.leb_gt _ _)) by exact Hlt. }
    destruct (handle_conn _ _ _ _ _) as [| src | e | remote src dst rest]; injection Ef as <- _; try done;
      destruct H as (r & d & rs & He & Hlt); by eapply Hk. }
  destruct f as [| [| src | e |] | s late]; cbn in Ha; eauto.
  - change (maxConns <= tokens (pr_count p) - 1) in Ha. lia.
  - destruct Hslot as (k & c & -> & Hc). cbn. rewrite Hc. cbn. eauto.
  - done.
  - destruct Hslot as (k & c & -> & Hc). cbn. rewrite Hc. cbn. eauto.
Qed.

(** What connection [i] does by itself. *)
Definition own (i : nat) (l : label) : Prop := l = Proceed i \/ l = Emit i 0 \/ l = Leave i.

Lemma step_running (t : moment) l p : pr_phase p <> Exited ->
  match l with
  | Proceed i => step srv recording t l p = proceed srv t i p
  | Emit i k => step srv recording t l p = emit t i k p
  | Leave i => step srv recording t l p = leave i p
  | _ => True
  end.
Proof using. intros H. unfold step. destruct (pr_phase p), l; done. Qed.

Lemma note_shed_keeps t port text p : pr_phase (note_shed t port text p) = pr_phase p /\ pr_visits (note_shed t port text p) = pr_visits p.
Proof using. unfold note_shed. by destruct (noteShed _ _) as [st [n |]]. Qed.

Lemma proceed_decides t i p q : proceed srv t i p = Some q ->
  pr_phase q = pr_phase p /\ exists a f, pr_visits q !! i = Some (Visit a (Some f) (fate_logs f)).
Proof using.
  unfold proceed. destruct (pr_visits p !! i) as [[a [f |] lv] |]; [done | | done]. destruct (arrive srv _ _) as [f h]. cbv zeta.
  set (a' := with_open _ a).
  assert (forall c h, let q := set_host h (set_count c (set_visit i (Visit a' (Some f) (fate_logs f)) p)) in
    pr_phase q = pr_phase p /\ exists a f, pr_visits q !! i = Some (Visit a (Some f) (fate_logs f))) as H
    by (intros c h'; cbn; rewrite lookup_insert_eq; eauto).
  assert ((k ← slot srv a'; c ← acquire k (pr_count p);
    Some (set_host h (set_count (set_handler i (Some (HSource k)) c) (set_visit i (Visit a' (Some f) (fate_logs f)) p)))) = Some q ->
    pr_phase q = pr_phase p /\ exists a f, pr_visits q !! i = Some (Visit a (Some f) (fate_logs f))) as Hin.
  { destruct (slot srv a') as [k |]; [| done]. cbn. destruct (acquire k _); [| done]. cbn. intros [= <-]. apply H. }
  destruct f as [| [| src | e |] | s late]; try done.
  - intros [= <-]. cbn. rewrite lookup_insert_eq. split; [done |]. by exists a', (Refused Dropped).
  - intros [= <-]. match goal with |- context [note_shed ?t ?port ?text ?q] => destruct (note_shed_keeps t port text q) as [-> ->] end.
    cbn. rewrite lookup_insert_eq. split; [done |]. by exists a', (Refused (Shed src)).
Qed.

(** A session writes what it has left and leaves. *)
Lemma session_ends (t : moment) i l : forall p v k, proc_ok p -> pr_phase p <> Exited ->
  handlers (pr_count p) !! i = Some (HSource k) -> pr_visits p !! i = Some v -> vi_left v !! 0%nat = Some l ->
  exists ls p', Forall (fun x => own i x.2) ls /\ steps srv recording ls p = Some p' /\ handlers (pr_count p') !! i = None.
Proof using Hsrv.
  induction l as [| e l IH]; intros p v k Hp Hx Hh Hv H0.
  - exists [(t, Leave i)]. eexists. split; [by repeat constructor; right; right |]. cbn [steps]. rewrite (step_running t (Leave i) p Hx).
    unfold leave. rewrite Hh, Hv, H0. cbn. split; [done |]. cbn. by rewrite lookup_delete_eq.
  - assert (step srv recording t (Emit i 0) p = emit t i 0 p) as Hs by by apply (step_running t (Emit i 0) p).
    assert (exists q, emit t i 0 p = Some q) as [q Hq] by (unfold emit; rewrite Hv, H0; eauto).
    assert (proc_ok q) as Hok by by eapply emit_ok.
    unfold emit in Hq. rewrite Hv, H0 in Hq. injection Hq as <-.
    destruct (IH _ (Visit (vi_arrival v) (vi_fate v) (<[0%nat := l]> (vi_left v))) k Hok) as (ls & p' & Hls & Hst & Hend); try done.
    + cbn. by rewrite lookup_insert_eq.
    + cbn. by rewrite list_lookup_insert_eq by by eapply lookup_lt_Some.
    + exists ((t, Emit i 0) :: ls), p'. split_and!; [constructor; [by right; left | done] | | done]. cbn [steps]. rewrite Hs.
      unfold emit. rewrite Hv, H0. exact Hst.
Qed.

Lemma connection_ends (t : moment) i p st : proc_ok p -> pr_phase p <> Exited -> handlers (pr_count p) !! i = Some st ->
  exists ls p', Forall (fun x => own i x.2) ls /\ steps srv recording ls p = Some p' /\ handlers (pr_count p') !! i = None.
Proof using Hsrv.
  intros Hp Hx Hh. destruct (pr_visits p !! i) as [v |] eqn:Ei; [| by rewrite (ok_none p Hp i Ei) in Hh].
  pose proof (ok_visits p Hp i v Ei) as (_ & _ & Hf). destruct (vi_fate v) as [f |] eqn:Efate.
  - destruct Hf as (_ & _ & Hf). rewrite Hh in Hf. destruct st as [| k]; [done |]. destruct Hf as [l Hl]. by eapply session_ends.
  - destruct Hf as (Hg & Hlv & _). destruct v as [a f lv]. cbn in Efate, Hlv. subst f lv.
    destruct (proceed_enabled t i p a [] Hp Ei) as [q Hq]. assert (proc_ok q) as Hok by by eapply proceed_ok.
    assert (step srv recording t (Proceed i) p = Some q) as Hs by (rewrite (step_running t (Proceed i) p Hx); exact Hq).
    destruct (proceed_decides t i p q Hq) as (Hph & a' & f & Hv). pose proof (ok_visits q Hok i _ Hv) as (_ & _ & _ & _ & Hf).
    cbn [vi_left] in Hf. destruct (handlers (pr_count q) !! i) as [[| k] |] eqn:Eq; [done | |].
    + destruct Hf as [l Hl].
      destruct (session_ends t i l q (Visit a' (Some f) (fate_logs f)) k Hok) as (ls & p' & Hls & Hst & Hend); [by rewrite Hph | done | done | done |].
      exists ((t, Proceed i) :: ls), p'. split_and!; [constructor; [by left | done] | cbn [steps]; by rewrite Hs | done].
    + exists [(t, Proceed i)], q. split_and!; [by repeat constructor; left | cbn [steps]; by rewrite Hs | done].
Qed.
End invariant.

Lemma steps_app srv recording l1 l2 p : steps srv recording (l1 ++ l2) p = (q ← steps srv recording l1 p; steps srv recording l2 q).
Proof. revert p. induction l1 as [| [t l] l1 IH]; intros p; [done |]. cbn. destruct (step srv recording t l p) as [q |]; [apply IH | done]. Qed.

(** Of the log, the lines of a session are those its goroutines wrote. *)
Lemma session_lines srv servers h0 p i v s late :
  proc_ok srv servers h0 p -> pr_visits p !! i = Some v -> vi_fate v = Some (Served s late) ->
  List.filter (fun e => e_Session e =s ar_id (vi_arrival v)) (map ln_entry (pr_log p)) = written i p.
Proof.
  intros Hp Hi Hf. pose proof (ok_visits _ _ _ p Hp i v Hi) as (_ & Hid & _). unfold written.
  assert (Forall (fun l => by_visit i l = (e_Session (ln_entry l) =s ar_id (vi_arrival v))) (pr_log p)) as H.
  { eapply Forall_impl; [exact (ok_lines _ _ _ p Hp) |]. intros l. unfold line_ok, by_visit.
    destruct (ln_from l) as [j |] eqn:E.
    - intros (w & f & Hw & Hfw & ->). case_bool_decide as Hij.
      + injection Hij as ->. rewrite Hi in Hw. injection Hw as <-. rewrite Hf in Hfw. injection Hfw as <-. by rewrite seqb_refl.
      + symmetry. apply seqb_neq. destruct f; try done. intros Heq. apply Hij. f_equal. by eapply (ok_ids _ _ _ p Hp).
    - intros ->. rewrite bool_decide_eq_false_2 by done. symmetry. by apply seqb_neq. }
  clear -H. induction H as [| l log Hl _ IH]; [done |]. cbn [map List.filter]. rewrite Hl. destruct (_ =s _); [cbn; by f_equal | done].
Qed.

(** ** The whole program *)

Section main.
Context (bind : list Z -> Z -> bool) (json_parse : str -> option jconfig) (persona_parse : str -> option Persona)
  (persona_print : Persona -> str) (writable : str -> bool).
Context (csv : str -> option (list (list str))) (url_parse : str -> option URL).
Context (duration_string : Z -> str) (fixed2 : SpecFloat.spec_float -> str) (quote prefix_error : str -> str) (notice_text : start_notice -> str).
Context (unmarshal : str -> option manifest) (parse_rfc3339 parse_date : str -> option Z)
  (render : Persona -> str -> str -> option str) (nas_tree : list (str * etree)) (png jpg : str).
Context (W : World) (env : str -> surroundings) (NewSignerFromKey : str -> bool).
Context (md5 : str -> str) (art backup : str) (unicode_upper : Z -> Z) (fakeroot : list (str * etree)) (boot_now : Z).
Hypothesis NewServerConn_handshake : forall id banner tries cb st st' c,
  en_NewServerConn (env id) banner tries cb st = (st', c) -> exists l, SshFacts.handshake cb l st st' (Ssh.conn_user <$> c).
#[local] Notation main_run := (main_run bind json_parse persona_parse persona_print writable csv url_parse duration_string fixed2 quote
  prefix_error notice_text unmarshal parse_rfc3339 parse_date render nas_tree png jpg W env NewSignerFromKey md5 art backup
  unicode_upper fakeroot boot_now).
#[local] Notation load_host := (load_host unmarshal parse_rfc3339 parse_date render fakeroot boot_now).
#[local] Notation serve_on := (serve_on unmarshal parse_rfc3339 parse_date render nas_tree png jpg W env NewSignerFromKey md5 art backup
  unicode_upper).
#[local] Notation run := (run bind json_parse persona_parse persona_print (fun p => bool_decide (is_Some (load_host p))) writable).

#[local] Instance serve_on_confined cfg base p a : Confined (srv_protocol (serve_on cfg base p a)).
Proof using NewServerConn_handshake. apply implementation_confined. intros. by eapply NewServerConn_handshake. Qed.

(** What [run] starts is what the configuration lists. *)
Definition listed (cfg : Config) (l : Listener * service) : Prop := l.1 ∈ Listeners cfg /\ buildProtocol l.1 = Some l.2.

Lemma run_listed configPath fresh d d' cfg p bf servers exposed :
  Config.Load json_parse (d !! configPath) = Some cfg -> run configPath fresh d = (Running p bf servers exposed, d') ->
  forall l, l ∈ servers -> listed cfg l.
Proof using.
  intros Hc. unfold Config.run. rewrite Hc. destruct (negb _); [done |]. cbv zeta.
  destruct (LoadOrCreate _ _ _) as [[q w] |]; [| done]. destruct (_ && _); [done |]. destruct (negb _); [done |].
  destruct (start_listeners bind [] (Listeners cfg)) as [| s0 ss] eqn:E; [done |]. intros [= -> _ <- _ _] [lc v] Hl. rewrite <- E in Hl.
  split.
  - eapply elem_of_sublist; [exact (list_elem_of_fmap_2 fst _ (lc, v) Hl) | apply start_listeners_sublist].
  - pose proof (start_listeners_built bind (Listeners cfg) []) as H. rewrite Forall_forall in H. by apply (H (lc, v)).
Qed.

(** A running program satisfies the invariant of its listeners. *)
Lemma main_run_ok configPath fresh d clock ls cfg p q :
  main_run configPath fresh d clock ls = Some (cfg, p, q) ->
  exists base servers, load_host p = Some base /\ (forall l, l ∈ servers -> listed cfg l) /\
    proc_ok (serve_on cfg base p) servers 0 q /\
    forall l1, main_run configPath fresh d clock (ls ++ l1) = q' ← steps (serve_on cfg base p) (negb (RecordDir cfg =s [])) l1 q; Some (cfg, p, q').
Proof using NewServerConn_handshake.
  unfold Process.main_run. destruct (Config.Load _ _) as [c |] eqn:Ec; [| done]. cbn.
  destruct (run configPath fresh d) as [out d'] eqn:Er. cbn [fst]. destruct out as [| | p' bf servers exposed]; [done | done |].
  destruct (load_host p') as [base |] eqn:Eb; [| done]. cbn.
  set (p0 := Proc _ _ _ _ _ _ _ _ _). destruct (steps _ _ ls p0) as [q' |] eqn:Es; [| done]. cbn. intros [= <- <- <-].
  exists base, servers. split_and!; [done | by eapply run_listed | |].
  - refine (steps_ok (serve_on c base p') (negb (RecordDir c =s [])) servers 0 ls p0 q' _ Es). unshelve eapply (@ProcOk _ _ _ p0); cbn.
    + done.
    + done.
    + split; [| done]. split; cbn; [done |]. destruct bf as [x |]; [| done]. unfold SetBruteForce. by destruct (Enabled _).
    + intros i v Hv. by rewrite lookup_empty in Hv.
    + intros i _. by rewrite lookup_empty.
    + intros i j v w Hv. by rewrite lookup_empty in Hv.
    + apply Forall_forall. intros l Hl. apply elem_of_lookup_imap in Hl as (i & msg & -> & _). done.
  - intros l1. rewrite steps_app, Es. done.
Qed.



Context (rfc3339 : Z -> str) (encode : Entry -> str) (decode : str -> option Entry) (dur_string : Z -> str).
(** The file a log makes: its lines, as [Event.Log] writes them. *)
Definition log_text (sensor : str) (l : list line) : str :=
  concat (l_lines (log_all rfc3339 (fun e => Some (encode e)) dur_string (NewLogger sensor)
    (map (fun x => (ln_now x, ln_ok x, ln_entry x)) l))).

End main.

(** ** Three visitors of a program: one over SSH, one over FTP, one bare connect *)

Definition demo_listeners : list Listener := [MkListener 22 $$"ssh" []; MkListener 21 $$"ftp" []; MkListener 80 $$"http" []].
Definition demo_env (_ : str) : surroundings :=
  Surroundings (fun _ => 0) (fun _ => false) 0 [] (fun _ _ => SshFacts.scripted SshFacts.demo_attempts [SshFacts.demo_exec]).
Definition demo_main (ls : list (moment * label)) : option (Config * Persona * proc) :=
  main_run demo_bind (fun _ => Some (fields (set_Listeners demo_listeners DefaultConfig))) (fun _ => Some demo_persona)
    (fun _ => []) (fun _ => true) (fun _ => None) (fun _ => None) (fun _ => []) (fun _ => []) (fun s => s) (fun s => s) (fun _ => $$"portal")
    (fun _ => None) (fun _ => None) (fun _ => None) (fun _ _ _ => None) [] [] [] demo_world demo_env (fun _ => true)
    (fun _ => []) [] [] (fun r => r) [] 0
    $$"config.json" demo_persona {[ $$"config.json" := $$"{}"; $$"persona.json" := $$"p" ]} (fun _ => (0, true)) ls.
Definition demo_visit (port : Z) (proto input id : str) : label :=
  Connect (Z.to_nat port) (demo_arrival port proto input id).
(** Steps one after the other, a second apart. *)
Definition timed (ls : list label) : list (moment * label) := imap (fun i l => ((Z.of_nat i * second, true), l)) ls.
Definition demo_labels : list label :=
  [demo_visit 22 $$"ssh" [] $$"A1"; Proceed 22; Emit 22 0; demo_visit 21 $$"ftp" ($$"USER root" ++ [zb 10] ++ $$"PASS toor" ++ [zb 10]) $$"B2";
   Emit 22 0; Proceed 21; Emit 21 0; demo_visit 80 $$"http" [] $$"C3"; Emit 22 0; Proceed 80; Emit 80 0; Leave 80; Emit 21 0; Emit 21 0; Leave 21].
Definition demo_log_of (q : proc) : list (str * str) := map (fun l => (e_Session (ln_entry l), e_Event (ln_entry l))) (pr_log q).

Definition demo_lines : list line := Eval vm_compute in default [] ((fun x => pr_log x.2) <$> demo_main (timed demo_labels)).
Definition demo_stamped (l : line) : Entry := stamped itoa (fun _ => []) $$"hp" (ln_now l, ln_ok l, ln_entry l).
Definition demo_decoded : list Entry := Eval vm_compute in map demo_stamped demo_lines.
Definition demo_read (s : str) : option Entry := List.find (fun e => e_Time e =s s) demo_decoded.
Lemma demo_main_log : (fun x => pr_log x.2) <$> demo_main (timed demo_labels) = Some demo_lines.
Proof. vm_compute. reflexivity. Qed.
Lemma demo_lines_readable :
  Forall (fun l => ln_ok l = true /\ loggable e_Time demo_read (stamped itoa (fun _ => []) $$"hp" (ln_now l, ln_ok l, ln_entry l))) demo_lines.
Proof.
  apply (Forall_impl (fun l => ln_ok l = true /\ loggable e_Time demo_read (demo_stamped l))); [| done]. unfold demo_lines.
  repeat (apply Forall_cons_2; [split; [reflexivity |]; split; [vm_compute; reflexivity | discriminate |
    vm_compute; repeat (apply Forall_cons_2; [discriminate |]); apply Forall_nil_2 | vm_compute; reflexivity] |]).
  apply Forall_nil_2.
Qed.
Lemma demo_handshake : forall id banner tries cb st st' c,
  en_NewServerConn (demo_env id) banner tries cb st = (st', c) -> exists l, SshFacts.handshake cb l st st' (Ssh.conn_user <$> c).
Proof. intros id banner tries. apply SshFacts.scripted_handshake. Qed.




(** A signal cuts the sessions short: the comment on [Server.Close] says they run until
    they end on their own, but [run] returns once the listeners are closed, the process
    ends, and what they had still to log, their end included, is never written. *)
Example signal_cuts_sessions :
  match demo_main (timed (demo_labels ++ [Signal; CloseListener; CloseListener; CloseListener; Exit])) with
  | Some (_, _, q) =>
      pr_phase q = Exited /\ handlers (pr_count q) !! 22%nat = Some (HSource (22, $$"198.51.100.7")) /\
      (fun v => map (map e_Event) (vi_left v)) <$> pr_visits q !! 22%nat =
        Some [[$$"CREDENTIAL"; $$"COMMAND"; $$"SESSION_END"]; []] /\
      last (map (fun l => e_Message (ln_entry l)) (pr_log q)) = Some $$"shutting down on signal; closing 3 listeners" /\
      forall srv recording t l, step srv recording t l q = None
  | None => False
  end.
Proof. vm_compute. split_and!; reflexivity. Qed.
