(* ===== verification/Harness.v ===== *)
(** * Harness: the test harness (internal/testharness)

    A scripted client talks to a service over a pipe ([Honeypot.RunConn]) and reads the
    log file back.  A read of the pipe gives bytes, a time-out or an error; what the reads
    give and the clock at each turn of a loop are inputs, a list with one item per turn.
    A loop that has not ended when its list does gives [None]. *)

From stdpp Require Import list.
From S2P Require Import Prelude GoStrings Util Event Session Server Feed LivePage ShellDemo Config ConfigFacts Honeypot HoneypotFacts LogViews.

(** ** The client's end *)

Inductive reading : Type := Chunk (b : str) | TimedOut | Failed.
Definition turn : Type := Z * reading.

Definition SendLine (s : str) : str := s ++ [zb 13; zb 10].

(** [ReadFor]: the text, and the readings it leaves. *)
Fixpoint read_for (deadline : Z) (sb : str) (idle : nat) (l : list turn) : option (str * list turn) :=
  match l with
  | [] => None
  | (now, r) :: rest =>
      if now <? deadline then
        match r with
        | Chunk b => read_for deadline (sb ++ b) 0 rest
        | TimedOut => match sb with
                      | [] => read_for deadline sb idle rest
                      | _ => if (2 <=? S idle)%nat then Some (sb, rest) else read_for deadline sb (S idle) rest
                      end
        | Failed => Some (sb, rest)
        end
      else Some (sb, l)
  end.
Definition ReadFor (start d : Z) (l : list turn) : option (str * list turn) := read_for (start + d) [] 0 l.

(** [ReadUntil]: the text, whether the string was seen, and what is left. *)
Fixpoint read_until (substr : str) (deadline : Z) (sb : str) (l : list turn) : option (str * bool * list turn) :=
  match l with
  | [] => None
  | (now, r) :: rest =>
      if now <? deadline then
        match r with
        | Chunk b => if contains (sb ++ b) substr then Some (sb ++ b, true, rest) else read_until substr deadline (sb ++ b) rest
        | TimedOut => read_until substr deadline sb rest
        | Failed => Some (sb, false, rest)
        end
      else Some (sb, false, l)
  end.
Definition ReadUntil (substr : str) (start d : Z) (l : list turn) : option (str * bool * list turn) :=
  read_until substr (start + d) [] l.

(** ** The log *)

Section log.
Context (decode : str -> option Entry).

(** [Entries]; a file that cannot be read has none. *)
Definition Entries (file : option str) : list Entry :=
  omap (fun line => let line := trim_space line in if line =s [] then None else decode line) (split_byte (zb 10) (default [] file)).
Definition FindEvent (name : str) (file : option str) : option Entry := List.find (fun e => e_Event e =s name) (Entries file).
Definition HasEvent (name : str) (file : option str) : bool := existsb (fun e => e_Event e =s name) (Entries file).
Definition Commands (file : option str) : list str :=
  omap (fun e => if e_Event e =s $$"COMMAND" then Some (e_Command e) else None) (Entries file).

(** [WaitEvent]: the file at each poll, and the clock after it. *)
Fixpoint wait_event (name : str) (deadline : Z) (polls : list (option str * Z)) : option (option Entry) :=
  match polls with
  | [] => None
  | (file, now) :: rest =>
      match FindEvent name file with
      | Some e => Some (Some e)
      | None => if deadline <? now then Some None else wait_event name deadline rest
      end
  end.
Definition WaitEvent (name : str) (start d : Z) (polls : list (option str * Z)) : option (option Entry) :=
  wait_event name (start + d) polls.
End log.

(** [New]: the service runs on a pipe, whose ends are both called so. *)
Definition pipe : str := $$"pipe".
Definition New (P : Protocol) (id : str) (now duration : Z) (input : str) (h : host) : fate * host := RunConn P id now pipe pipe input duration h.

(** ** Reading loses nothing *)

Definition bytes_of (l : list turn) : str := concat (map (fun t => match t.2 with Chunk b => b | _ => [] end) l).

Lemma read_for_exact deadline l : forall sb idle text rest,
  read_for deadline sb idle l = Some (text, rest) -> text ++ bytes_of rest = sb ++ bytes_of l.
Proof.
  induction l as [| [now r] l IH]; intros sb idle text rest; cbn [read_for]; [done |]. unfold bytes_of in *. cbn [map concat].
  destruct (now <? deadline); [| by intros [= <- <-]].
  destruct r as [b | |]; cbn [snd app].
  - intros H. apply IH in H. by rewrite H, <- app_assoc.
  - destruct sb as [| c sb]; [by intros H%IH |]. destruct (2 <=? S idle)%nat; [by intros [= <- <-] | by intros H%IH].
  - by intros [= <- <-].
Qed.

(** Whatever the service writes and however the reads cut it, what [ReadFor] returns and
    what the next read starts from are together the bytes of the pipe, in order. *)
Theorem ReadFor_loses_nothing start d l text rest :
  ReadFor start d l = Some (text, rest) -> text ++ bytes_of rest = bytes_of l.
Proof. intros H. exact (read_for_exact _ _ _ _ _ _ H). Qed.
Lemma ReadFor_loses_nothing_witness :
  let l := [(0, TimedOut); (40, Chunk $$"log"); (41, Chunk $$"in: "); (80, TimedOut); (120, TimedOut); (160, Chunk $$"late")] in
  ReadFor 0 1000 l = Some ($$"login: ", [(160, Chunk $$"late")]) /\ $$"login: " ++ bytes_of [(160, Chunk $$"late")] = bytes_of l.
Proof. intros l. split; [reflexivity |]. apply (ReadFor_loses_nothing 0 1000 l). reflexivity. Defined.

(** [ReadUntil] says that it saw the string exactly when it is in what it returns, and
    loses nothing either. *)
Theorem ReadUntil_correct substr start d l text seen rest :
  substr <> [] -> ReadUntil substr start d l = Some (text, seen, rest) ->
  text ++ bytes_of rest = bytes_of l /\ seen = contains text substr.
Proof.
  intros Hs. unfold ReadUntil. generalize (start + d). intros deadline.
  assert (forall l sb text seen rest, contains sb substr = false -> read_until substr deadline sb l = Some (text, seen, rest) ->
    text ++ bytes_of rest = sb ++ bytes_of l /\ seen = contains text substr) as H.
  { clear. induction l as [| [now r] l IH]; intros sb text seen rest Hsb; cbn [read_until]; [done |].
    unfold bytes_of in *. cbn [map concat]. destruct (now <? deadline); [| by intros [= <- <- <-]]. destruct r as [b | |]; cbn [snd app].
    - destruct (contains (sb ++ b) substr) eqn:E; [intros [= <- <- <-]; by rewrite <- app_assoc |].
      intros H. apply IH in H as [H1 H2]; [| done]. by rewrite H1, <- app_assoc.
    - intros H. by apply IH in H.
    - by intros [= <- <- <-]. }
  apply (H l []). by destruct substr.
Qed.
Lemma ReadUntil_correct_witness :
  $$"Password: " ++ bytes_of [] = bytes_of [(1, Chunk $$"Pass"); (2, Chunk $$"word: ")] /\ true = contains $$"Password: " $$"word:".
Proof. apply (ReadUntil_correct $$"word:" 0 50 [(1, Chunk $$"Pass"); (2, Chunk $$"word: ")] _ true []); [discriminate | reflexivity]. Defined.

(** ** The log is the session's *)

Section read.
Context (rfc3339 : Z -> str) (encode : Entry -> str) (decode : str -> option Entry) (dur_string : Z -> str).
(** A line that survives the trimming of blanks. *)
Definition readable (e : Entry) : Prop := loggable encode decode e /\ trim_space (encode e) = encode e.

Lemma Entries_text es : Forall readable es -> Entries decode (Some (flat_map (file_line encode) es)) = es.
Proof using.
  intros H. unfold Entries. cbn [default]. unfold id.
  assert (split_byte (zb 10) (flat_map (file_line encode) es) = map encode es ++ [[]]) as ->
    by (apply (split_text encode decode); eapply Forall_impl; [exact H | by intros e []]).
  induction H as [| e es [[Hb Hne _ _] Ht] _ IH]; [done |]. cbn [map app omap list_omap] in *. rewrite Ht.
  rewrite (proj2 (seqb_neq _ _) Hne), Hb. by f_equal.
Qed.

Lemma find_prefix {A} (f : A -> bool) pre post x : List.find f pre = Some x -> List.find f (pre ++ post) = Some x.
Proof using. induction pre as [| y pre IH]; [done |]. cbn. by destruct (f y). Qed.

(** A file that grows while [WaitEvent] polls it: each poll sees the first few events. *)
Definition polls_of (es : list Entry) (l : list (nat * Z)) : list (option str * Z) :=
  map (fun x => (Some (flat_map (file_line encode) (take x.1 es)), x.2)) l.

(** [WaitEvent] returns the first event of that name that the run logs, however much of
    the file each poll catches, unless none of the polls up to the deadline had one. *)
Theorem WaitEvent_correct name start d es l r :
  Forall readable es -> WaitEvent decode name start d (polls_of es l) = Some r ->
  match r with
  | Some e => List.find (fun e => e_Event e =s name) es = Some e
  | None => exists pre k now post, l = pre ++ (k, now) :: post /\ start + d < now /\
      Forall (fun x => List.find (fun e => e_Event e =s name) (take x.1 es) = None) (pre ++ [(k, now)])
  end.
Proof using.
  intros Hes. unfold WaitEvent. induction l as [| [k now] l IH]; [done |]. cbn [polls_of map wait_event fst snd].
  unfold FindEvent. rewrite Entries_text by by apply Forall_take.
  destruct (List.find _ (take k es)) as [e |] eqn:E.
  - intros [= <-]. rewrite <- (take_drop k es). by apply find_prefix.
  - destruct (start + d <? now) eqn:Ed; bool_hyps.
    + intros [= <-]. exists [], k, now, l. split_and!; [done | done |]. by constructor.
    + intros H. apply IH in H. destruct r as [e |]; [done |]. destruct H as (pre & k' & now' & post & -> & H1 & H2).
      exists ((k, now) :: pre), k', now', post. split_and!; [done | done |]. by constructor.
Qed.

(** What the harness reads of a connection is what its session logged. *)
Theorem harness_reads_the_session P `{!Confined P} id now duration input h sensor evs s :
  (New P id now duration input h).1 = Served s [] ->
  merge (fate_logs (Served s [])) (map snd evs) -> Forall (fun v => v.1.2 = true) evs ->
  Forall readable (map (stamped rfc3339 dur_string sensor) evs) ->
  let file := concat (l_lines (log_all rfc3339 (fun e => Some (encode e)) dur_string (NewLogger sensor) evs)) in
  map unstamp (Entries decode (Some file)) = map unstamp (events s) /\
  Commands decode (Some file) = omap (fun e => if e_Event e =s $$"COMMAND" then Some (e_Command e) else None) (events s).
Proof using.
  intros _ Hm Hok Hr file. unfold file. rewrite log_file by done. unfold Commands. rewrite Entries_text by done.
  apply merge_single in Hm. rewrite <- Hm.
  split; [rewrite !map_map; apply map_ext; intros v; apply stamped_keeps |].
  clear. induction evs as [| v evs IH]; [done |]. cbn [map omap list_omap]. rewrite IH.
  assert (e_Event (stamped rfc3339 dur_string sensor v) = e_Event v.2 /\ e_Command (stamped rfc3339 dur_string sensor v) = e_Command v.2) as [-> ->].
  { destruct v as [[t ok] e]. unfold stamped, Event.stamp. cbn [fst snd]. cbv zeta. by destruct (e_Message _ =s _). }
  done.
Qed.
End read.

(** ** A script against the FTP service *)

Definition demo_ftp_run : fate * host :=
  New (ftp demo_persona (fun r => r)) $$"T1" 0 5 ($$"USER root" ++ [zb 13; zb 10] ++ SendLine $$"PASS toor") (Host 0 0 None ∅).
Definition demo_session : sess := match demo_ftp_run.1 with Served s _ => s | _ => demo_sess [] end.
Definition demo_stamps : list (Z * bool * Entry) := Eval vm_compute in imap (fun i e => (Z.of_nat i, true, e)) (events demo_session).
Definition demo_written : list Entry := Eval vm_compute in map (stamped itoa (fun _ => []) $$"hp") demo_stamps.
Definition demo_parse (s : str) : option Entry := List.find (fun e => e_Time e =s s) demo_written.
Lemma demo_readable : Forall (readable e_Time demo_parse) demo_written.
Proof.
  unfold demo_written. repeat (apply Forall_cons_2; [split; [split; [vm_compute; reflexivity | discriminate |
    vm_compute; repeat (apply Forall_cons_2; [discriminate |]); apply Forall_nil_2 | vm_compute; reflexivity] | vm_compute; reflexivity] |]).
  apply Forall_nil_2.
Qed.

Lemma harness_reads_the_session_witness :
  map e_Event (events demo_session) = [$$"SESSION_START"; $$"CREDENTIAL"; $$"SESSION_END"] /\
  map unstamp (Entries demo_parse (Some (concat (l_lines (log_all itoa (fun e => Some (e_Time e)) (fun _ => []) (NewLogger $$"hp") demo_stamps))))) =
    map unstamp (events demo_session).
Proof.
  split; [vm_compute; reflexivity |].
  apply (harness_reads_the_session itoa e_Time demo_parse (fun _ => []) (ftp demo_persona (fun r => r)) $$"T1" 0 5
    ($$"USER root" ++ [zb 13; zb 10] ++ SendLine $$"PASS toor") (Host 0 0 None ∅) $$"hp" demo_stamps demo_session).
  - vm_compute. reflexivity.
  - apply (interleave_merge [0; 0; 0]%nat). vm_compute. reflexivity.
  - repeat (apply Forall_cons_2; [reflexivity |]). apply Forall_nil_2.
  - exact demo_readable.
Defined.

Lemma WaitEvent_correct_witness :
  let polls := polls_of e_Time demo_written [(0%nat, 0); (1%nat, 25); (3%nat, 50)] in
  exists e, WaitEvent demo_parse $$"CREDENTIAL" 0 1000 polls = Some (Some e) /\
    List.find (fun e => e_Event e =s $$"CREDENTIAL") demo_written = Some e.
Proof.
  intros polls. destruct (WaitEvent demo_parse $$"CREDENTIAL" 0 1000 polls) as [[e |] |] eqn:E; [| vm_compute in E; discriminate ..].
  exists e. split; [reflexivity |].
  exact (WaitEvent_correct e_Time demo_parse $$"CREDENTIAL" 0 1000 demo_written [(0%nat, 0); (1%nat, 25); (3%nat, 50)] (Some e) demo_readable E).
Defined.
