(* ===== verification/PageScript.v ===== *)
(** * PageScript: the source drawer of the dashboard (html.go)

    The script builds elements and sets their text; nothing it is given becomes markup.
    An element is its tag, class, text, tooltip and children; colours, the positions in
    the timeline and the listeners of a click are left out.  A field that is missing from
    a JSON object is falsy, as an empty string or zero is here.  A script object used as a
    map is an association list in the order its keys were set: an id is twelve characters
    long, so none is an array index, which the language would put first. *)

From stdpp Require Import list.
From S2P Require Import Prelude GoStrings Event Analyze.

Inductive dom : Type := El (tag cls text title : str) (kids : list dom).
Definition el (tag cls text : str) : dom := El tag cls text [] [].
Definition box (tag cls : str) (kids : list dom) : dom := El tag cls [] [] kids.

(** ** Fields of an event *)

Definition orelse (a b : str) : str := if a =s [] then b else a.
Definition hms (t : str) : str := take 8 (drop 11 t).
Definition hostOnly (addr : str) : str :=
  match index_byte addr ":"%char, last_index_byte addr ":"%char with
  | Some i, Some j => if (i =? j)%nat then take j addr else addr
  | _, _ => addr
  end.
Definition srcOf (e : Entry) : str := orelse (e_SrcIP e) (hostOnly (e_IP e)).
Definition svcOf (e : Entry) : str :=
  if (e_Protocol e =s []) && (e_Port e =? 0) then []
  else orelse (e_Protocol e) $$"?" ++ (if e_Port e =? 0 then [] else $$":" ++ itoa (e_Port e)).
Definition summary (e : Entry) : str :=
  if negb (e_Message e =s []) then e_Message e
  else if negb (e_Command e =s []) then e_Command e
  else if negb (e_Username e =s []) && negb (e_Password e =s []) then e_Username e ++ $$" / " ++ e_Password e
  else if negb (e_Username e =s []) then $$"user=" ++ e_Username e
  else orelse (e_URL e) (orelse (e_Request e) (e_Path e)).

(** ** The live list *)

Definition badgeEl (ev : str) : dom := box $$"span" $$"badge" [el $$"span" $$"bd" []; el $$"span" $$"bn" ev].
Definition rowEl (e : Entry) : dom :=
  box $$"div" $$"row" [el $$"span" $$"t" (hms (e_Time e)); badgeEl (e_Event e); el $$"span" $$"ip" (srcOf e); el $$"span" $$"svc" (svcOf e);
                       el $$"span" $$"msg" (summary e)].
Definition renderFeed (entries : list Entry) : list dom :=
  match entries with
  | [] => [el $$"div" $$"empty" $$"No events yet. The console is listening."]
  | _ => map rowEl entries
  end.

(** ** The assessment of a source *)

Definition VERDICTLBL : list (str * str) :=
  [($$"bot:loader", $$"Bot · loader"); ($$"bot:bruteforce", $$"Bot · brute-force"); ($$"scanner", $$"Scanner"); ($$"human?", $$"Human?");
   ($$"unknown", $$"Unknown")].
Definition verdict_label (kind : str) : str :=
  match List.find (fun kv => kv.1 =s kind) VERDICTLBL with Some (_, l) => l | None => kind end.

Definition buildPhases : dom :=
  box $$"div" $$"ribbon" [el $$"span" $$"rstep" $$"Recon"; el $$"span" $$"rarrow" $$"›"; el $$"span" $$"rstep" $$"Brute"; el $$"span" $$"rarrow" $$"›";
                          el $$"span" $$"rstep" $$"Access"; el $$"span" $$"rarrow" $$"›"; el $$"span" $$"rstep" $$"Exploit"].
Definition timeline_title (i : nat) (v : Visit) : str :=
  $$"visit " ++ itoa (Z.of_nat (S i)) ++ $$": " ++ hms (v_Start v) ++ $$" to " ++ hms (v_End v) ++ $$"  ·  " ++ itoa (v_Events v) ++ $$" events  ·  " ++
  v_Phase v ++ (if v_Accepted v then $$"  ·  shell" else []).
Definition buildTimeline (a : Assessment) : dom :=
  box $$"div" $$"tlwrap" [box $$"div" $$"tlbar" (imap (fun i v => El $$"span" $$"tlseg" [] (timeline_title i v) []) (Visits a))].
Definition assess_meta (a : Assessment) : list str :=
  (if CadenceMs a =? 0 then [] else [itoa (CadenceMs a) ++ $$"ms between commands"]) ++
  (match Visits a with [] => [] | [_] => [$$"1 visit"] | l => [itoa (zlen l) ++ $$" visits"] end).
Definition buildAssessment (a : Assessment) : dom :=
  box $$"div" $$"assess" (
    box $$"div" $$"assesshead" (el $$"span" $$"verdict" (verdict_label (Kind a)) ::
      (if Confidence a =? 0 then [] else [el $$"span" $$"conf" (itoa (Confidence a) ++ $$"%")]) ++
      (if Returning a then [el $$"span" $$"retflag" $$"↩ returning"] else [])) ::
    (match assess_meta a with [] => [] | l => [el $$"div" $$"assessmeta" (join $$"  ·  " l)] end) ++
    (match Reasons a with
     | [] => []
     | l => [box $$"div" $$"reasons" (map (fun r => box $$"div" $$"reason" [el $$"span" $$"rdot" $$"•"; el $$"span" [] r]) l)]
     end) ++
    [buildPhases] ++ (match Visits a with [] => [] | _ => [buildTimeline a] end)).

(** ** The drawer *)

(** [m[k]=(m[k]||0)+1]. *)
Fixpoint bump (k : str) (m : list (str * Z)) : list (str * Z) :=
  match m with
  | [] => [(k, 1)]
  | (k', n) :: m => if k' =s k then (k', n + 1) :: m else (k', n) :: bump k m
  end.
Record gathered : Type := Gathered { g_sessions : list (str * Z); g_creds : list Entry; g_cmds : list Entry; g_dls : list Entry }.
Definition gather (g : gathered) (e : Entry) : gathered :=
  Gathered (if e_Session e =s [] then g_sessions g else bump (e_Session e) (g_sessions g))
    (if (e_Username e =s []) && (e_Password e =s []) then g_creds g else g_creds g ++ [e])
    (if e_Event e =s $$"COMMAND" then g_cmds g ++ [e] else g_cmds g)
    (if e_Event e =s $$"DOWNLOAD_ATTEMPT" then g_dls g ++ [e] else g_dls g).

Definition sect (title : str) (n : Z) : dom := el $$"div" $$"sect" (title ++ $$" (" ++ itoa n ++ $$")").
(** A section that says so when it is empty. *)
Definition section (title : str) (items : list dom) : list dom :=
  sect title (zlen items) :: match items with [] => [el $$"div" $$"item muted" $$"none"] | _ => items end.

(** [recordings] tells which ids have one. *)
Definition session_item (recordings : str -> bool) (s : str * Z) : dom :=
  box $$"div" $$"item" (el $$"span" [] (s.1 ++ $$"  (" ++ itoa s.2 ++ $$" events)") ::
                        if recordings s.1 then [el $$"span" $$"replaylink" $$"replay"] else []).
Definition cred_text (c : Entry) : str :=
  e_Username c ++ $$" / " ++ e_Password c ++
  (if e_Protocol c =s [] then []
   else $$"   [" ++ e_Protocol c ++ (if e_Port c =? 0 then [] else $$":" ++ itoa (e_Port c)) ++ $$"]").
Definition command_text (e : Entry) : str := orelse (e_Command e) (summary e).
Definition download_text (e : Entry) : str := orelse (e_URL e) (orelse (e_Filename e) (summary e)).
Definition item (text : Entry -> str) (e : Entry) : dom := el $$"div" $$"item" (text e).
Definition tline (e : Entry) : dom :=
  box $$"div" $$"tline" [el $$"span" $$"tt" (hms (e_Time e)); el $$"span" $$"te" (e_Event e); el $$"span" $$"tm" (summary e)].

(** [renderDetail]: the heading, the line under it, and the body. *)
Definition renderDetail (recordings : str -> bool) (ip : str) (l : list Entry) (profile : option Assessment) : str * str * list dom :=
  let g := foldl gather (Gathered [] [] [] []) l in
  (ip, itoa (zlen l) ++ $$" events",
   (match profile with Some a => if Kind a =s [] then [] else [buildAssessment a] | None => [] end) ++
   section $$"Sessions" (map (session_item recordings) (g_sessions g)) ++
   section $$"Credentials" (map (item cred_text) (g_creds g)) ++
   section $$"Commands" (map (item command_text) (g_cmds g)) ++
   section $$"Downloads" (map (item download_text) (g_dls g)) ++
   sect $$"Transcript" (zlen l) :: map tline l).
