(* ===== verification/PageScriptFacts.v ===== *)
(** * PageScriptFacts: what an operator reads of a source

    The drawer of a source, from the log of the running program over the portal's answer
    to the elements the script builds. *)

From stdpp Require Import gmap list.
From S2P Require Import Prelude GoStrings Paths Config Net VfsLoad Util Event Session Server Persona Auth ShellState Geo Analyze Portal Feed PortalMux PortalMuxFacts LivePage Honeypot HoneypotFacts LogViews Process ProcessFacts PageScript.
From S2P Require Ssh SshFacts.

(** ** What the drawer gathers *)

Definition count_of (k : str) (l : list Entry) : Z := zlen (List.filter (fun e => e_Session e =s k) l).
(** Each session once, with the number of its events. *)
Record counts (l : list Entry) (m : list (str * Z)) : Prop := Counts {
  cn_once : NoDup (map fst m);
  cn_each : forall k n, (k, n) ∈ m <-> k <> [] /\ 0 < n /\ n = count_of k l
}.

Lemma bump_keys k m : k ∈ map fst m -> map fst (bump k m) = map fst m.
Proof.
  induction m as [| [k' n] m IH]; cbn [map bump]; [by intros ?%elem_of_nil |].
  destruct (k' =s k) eqn:E; [done |]. apply seqb_neq in E. intros [-> | H]%elem_of_cons; [by destruct E |]. cbn [map fst]. by rewrite IH.
Qed.
Lemma bump_new k m : k ∉ map fst m -> bump k m = m ++ [(k, 1)].
Proof.
  induction m as [| [k' n] m IH]; [done |]. cbn [map bump fst]. intros [Hne H]%not_elem_of_cons.
  rewrite (proj2 (seqb_neq k' k)) by congruence. by rewrite IH.
Qed.
Lemma bump_elem k m : NoDup (map fst m) -> k ∈ map fst m ->
  forall k' n, (k', n) ∈ bump k m <-> if k' =s k then (k', n - 1) ∈ m else (k', n) ∈ m.
Proof.
  induction m as [| [k0 n0] m IH]; cbn [map bump fst]; [by intros _ ?%elem_of_nil |]. intros [Hn Hnd]%NoDup_cons Hk k' n.
  assert (forall x, (k0, x) ∈ m -> False) as Hno by (intros x Hx; by apply Hn, (list_elem_of_fmap_2 fst _ (k0, x))).
  destruct (k0 =s k) eqn:E.
  - apply seqb_eq in E as ->. rewrite elem_of_cons. destruct (k' =s k) eqn:E'.
    + apply seqb_eq in E' as ->. rewrite elem_of_cons. split; intros [[= Hx] | H]; try (by destruct (Hno _ H)); left; f_equal; lia.
    + apply seqb_neq in E'. rewrite elem_of_cons. split; (intros [[= -> _] | H]; [done | by right]).
  - apply seqb_neq in E. apply elem_of_cons in Hk as [-> | Hk]; [done |]. rewrite elem_of_cons, (IH Hnd Hk).
    destruct (k' =s k) eqn:E'; rewrite elem_of_cons; [| done]. apply seqb_eq in E' as ->.
    split; (intros [[= Hx _] | H]; [congruence | by right]).
Qed.

Lemma count_snoc k l e : count_of k (l ++ [e]) = count_of k l + if e_Session e =s k then 1 else 0.
Proof. unfold count_of. rewrite List.filter_app, zlen_app. cbn [List.filter]. by destruct (_ =s k). Qed.
Lemma count_nonneg k l : 0 <= count_of k l. Proof. unfold count_of, zlen. lia. Qed.

Lemma counts_key l m k : counts l m -> k ∈ map fst m <-> k <> [] /\ 0 < count_of k l.
Proof.
  intros [_ H]. rewrite list_elem_of_fmap. split.
  - intros ([k' n] & -> & (H1 & H2 & ->)%H). done.
  - intros [H1 H2]. exists (k, count_of k l). split; [done |]. by apply H.
Qed.

Lemma counts_snoc l m e : counts l m -> counts (l ++ [e]) (if e_Session e =s [] then m else bump (e_Session e) m).
Proof.
  intros Hc. pose proof (counts_key l m (e_Session e) Hc) as Hkey. destruct Hc as [H1 H2]. destruct (e_Session e =s []) eqn:E.
  - apply seqb_eq in E. split; [done |]. intros k n. rewrite H2, count_snoc, E.
    destruct ([] =s k) eqn:Ek; [apply seqb_eq in Ek; naive_solver | by rewrite Z.add_0_r].
  - apply seqb_neq in E. pose proof (count_nonneg (e_Session e) l) as Hpos.
    destruct (decide (e_Session e ∈ map fst m)) as [Hin | Hout].
    + split; [by rewrite bump_keys |]. intros k n. rewrite (bump_elem _ _ H1 Hin), count_snoc. apply Hkey in Hin as [_ Hc].
      destruct (k =s e_Session e) eqn:Ek.
      * apply seqb_eq in Ek as ->. rewrite H2, seqb_refl. split; intros (? & ? & ?); split_and!; try done; lia.
      * rewrite (proj2 (seqb_neq (e_Session e) k)) by (apply seqb_neq in Ek; congruence). by rewrite H2, Z.add_0_r.
    + assert (count_of (e_Session e) l = 0) as H0.
      { destruct (decide (count_of (e_Session e) l = 0)); [done |]. destruct Hout. apply Hkey. split; [done | lia]. }
      rewrite bump_new by done. split.
      * rewrite map_app. apply NoDup_app. split_and!; [done | | apply NoDup_singleton]. by intros x Hx ->%list_elem_of_singleton.
      * intros k n. rewrite elem_of_app, list_elem_of_singleton, H2, count_snoc. destruct (e_Session e =s k) eqn:Ek.
        -- apply seqb_eq in Ek as <-. rewrite H0. split; [intros [(? & ? & ?) | [= ->]]; [lia | by split_and!] | intros (_ & _ & ->); by right].
        -- rewrite Z.add_0_r. apply seqb_neq in Ek. split; [intros [H | [= -> _]]; done | by left].
Qed.

Definition has_creds (e : Entry) : bool := negb ((e_Username e =s []) && (e_Password e =s [])).
Definition event_is (name : str) (e : Entry) : bool := e_Event e =s name.

Lemma gathered_spec l :
  let g := foldl gather (Gathered [] [] [] []) l in
  counts l (g_sessions g) /\ g_creds g = List.filter has_creds l /\ g_cmds g = List.filter (event_is $$"COMMAND") l /\
  g_dls g = List.filter (event_is $$"DOWNLOAD_ATTEMPT") l.
Proof.
  induction l as [| e l IH] using rev_ind.
  - split_and!; try done. split; [constructor |]. intros k n. split; [by intros ?%elem_of_nil | intros (_ & H1 & H2); change (count_of k []) with 0 in H2; lia].
  - rewrite foldl_snoc. destruct (foldl gather _ l) as [s c m d]. cbn zeta in IH. destruct IH as (H1 & H2 & H3 & H4).
    cbn zeta. cbn [gather g_sessions g_creds g_cmds g_dls] in *. rewrite !List.filter_app. cbn [List.filter].
    unfold has_creds at 2, event_is at 2 4.
    split_and!; [by apply counts_snoc | | |]; subst; repeat case_match; try done; by rewrite ?app_nil_r.
Qed.

(** ** From the log to the drawer *)

Section main.
Context (bind : list Z -> Z -> bool) (json_parse : str -> option jconfig) (persona_parse : str -> option Persona)
  (persona_print : Persona -> str) (writable : str -> bool).
Context (csv : str -> option (list (list str))) (url_parse : str -> option URL).
Context (duration_string : Z -> str) (fixed2 : SpecFloat.spec_float -> str) (quote prefix_error : str -> str) (notice_text : start_notice -> str).
Context (unmarshal : str -> option manifest) (parse_rfc3339 parse_date : str -> option Z)
  (render : Persona -> str -> str -> option str) (nas_tree : list (str * etree)) (png jpg : str).
Context (W : World) (env : str -> surroundings) (NewSignerFromKey : str -> bool).
Context (md5 : str -> str) (art backup : str) (unicode_upper : Z -> Z) (fakeroot : list (str * etree)) (boot_now : Z).
Hypothesis NewServerConn_handshake : forall id banner tries cb st st' c,
  en_NewServerConn (env id) banner tries cb st = (st', c) -> exists l, SshFacts.handshake cb l st st' (Ssh.conn_user <$> c).
#[local] Notation main_run := (main_run bind json_parse persona_parse persona_print writable csv url_parse duration_string fixed2 quote
  prefix_error notice_text unmarshal parse_rfc3339 parse_date render nas_tree png jpg W env NewSignerFromKey md5 art backup
  unicode_upper fakeroot boot_now).
Context (rfc3339 : Z -> str) (encode : Entry -> str) (decode : str -> option Entry) (dur_string : Z -> str) (rfc : str -> option Z).
Context (read : str -> option str) (read_dir : str -> option (list str)) (todayStr : str)
  (ports : gmap Z Overview.portStat -> list Overview.portStat) (agents : gmap str (Overview.agentStat * gset str) -> list Overview.agentStat)
  (consoles_range : gmap str consoleEntry -> list consoleEntry) (jtPrizeJPG : str).
#[local] Notation engine := (engine decode rfc read read_dir todayStr ports agents consoles_range jtPrizeJPG).

(** The request [openIP] makes. *)
Definition drawer_request (ip : str) : request := Request $$"GET" (page_url $$"/dashboard/ip/" ip) [] ∅.

Lemma unstamped_keep (f : Entry -> bool) sensor (l : list line) :
  (forall e e', unstamp e = unstamp e' -> f e = f e') ->
  map unstamp (List.filter f (map (fun x => stamped rfc3339 dur_string sensor (ln_now x, ln_ok x, ln_entry x)) l)) =
  map unstamp (List.filter f (map ln_entry l)).
Proof using.
  intros Hf. induction l as [| x l IH]; [done |]. cbn [map List.filter].
  destruct (stamped_keeps rfc3339 dur_string sensor (ln_now x, ln_ok x, ln_entry x)) as [H _]. cbn [snd] in H.
  rewrite (Hf _ _ H). destruct (f (ln_entry x)); [cbn [map]; by rewrite H, IH | exact IH].
Qed.
Lemma byIP_keep_unstamp ip e e' : unstamp e = unstamp e' -> byIP_keep ip e = byIP_keep ip e'.
Proof using.
  intros H. unfold byIP_keep, Feed.srcOf. pose proof (f_equal e_SrcIP H) as H1. pose proof (f_equal e_IP H) as H2. cbn in H1, H2. by rewrite H1, H2.
Qed.
Lemma count_unstamp k l l' : map unstamp l = map unstamp l' -> count_of k l = count_of k l'.
Proof using.
  revert l'. induction l as [| e l IH]; intros [| e' l'] H; try done. assert (e_Session e = e_Session e' /\ map unstamp l = map unstamp l') as [Hs Hl] by (injection H; auto).
  pose proof (IH l' Hl) as Hc. unfold count_of in *. cbn [List.filter]. rewrite Hs. destruct (_ =s k); [| exact Hc]. rewrite !zlen_cons. lia.
Qed.

Lemma sublist_filter {A} (f g : A -> bool) l : (forall x, x ∈ l -> f x = true -> g x = true) -> sublist (List.filter f l) (List.filter g l).
Proof using.
  induction l as [| x l IH]; intros H; cbn [List.filter]; [constructor |].
  assert (sublist (List.filter f l) (List.filter g l)) as Hl by (apply IH; intros y Hy; apply H; by right).
  destruct (f x) eqn:Ef; [rewrite (H x ltac:(by left) Ef); by apply sublist_skip |].
  destruct (g x); [by apply sublist_cons | exact Hl].
Qed.

(** The lines of a session, in the log of its source. *)
Lemma session_in_source srv servers h0 q i v s late src :
  proc_ok srv servers h0 q -> pr_visits q !! i = Some v -> vi_fate v = Some (Served s late) -> src <> [] ->
  Forall (fun e => e_SrcIP e = src) (events s ++ late) ->
  let all := List.filter (byIP_keep src) (map ln_entry (pr_log q)) in
  sublist (written i q) all /\ count_of (ar_id (vi_arrival v)) all = zlen (written i q).
Proof using.
  intros Hq Hi Hf Hsrc Hall all. pose proof (session_lines _ _ _ q i v s late Hq Hi Hf) as Hw.
  pose proof (ok_visits _ _ _ q Hq i v Hi) as (_ & _ & Hv). rewrite Hf in Hv. destruct Hv as (_ & Hd & _).
  set (f := fun e => e_Session e =s ar_id (vi_arrival v)) in *.
  assert (forall e, e ∈ map ln_entry (pr_log q) -> f e = true -> byIP_keep src e = true) as Hkeep.
  { intros e He Hfe. assert (e ∈ written i q) as Hin by (rewrite <- Hw; apply list_elem_of_In, filter_In; split; [by apply list_elem_of_In | done]).
    assert (e ∈ events s ++ late) as Hin'.
    { clear -Hd Hin. apply elem_of_app. remember (written i q) as out eqn:E. clear E. revert e Hin.
      induction Hd as [| out ls' j x l Hd IH Hj]; intros e He; [by apply elem_of_nil in He |].
      apply elem_of_app in He as [He | ->%list_elem_of_singleton]; [by apply IH |].
      destruct (drain_elem _ _ _ (x :: l) Hd) as [pre Hpre]; [by eapply list_elem_of_lookup_2 |].
      cbn [fate_logs] in Hpre. apply elem_of_cons in Hpre as [<- | <-%list_elem_of_singleton]; [left | right]; apply elem_of_app; right; by left. }
    rewrite Forall_forall in Hall. unfold byIP_keep. rewrite (Hall e Hin'), seqb_refl. by rewrite orb_true_r. }
  split.
  - rewrite <- Hw. by apply sublist_filter.
  - unfold count_of. fold f. f_equal. rewrite <- Hw. unfold all. clear -Hkeep. induction (map ln_entry (pr_log q)) as [| e l IH]; [done |].
    cbn [List.filter]. assert (List.filter f (List.filter (byIP_keep src) l) = List.filter f l) as Hl by (apply IH; intros x Hx; apply Hkeep; by right).
    destruct (f e) eqn:Ef.
    + rewrite (Hkeep e ltac:(by left) Ef). cbn [List.filter]. by rewrite Ef, Hl.
    + destruct (byIP_keep src e); [cbn [List.filter]; by rewrite Ef | done].
Qed.

End main.

(** The drawer of a visitor over SSH and FTP, whose FTP session is over. *)
Definition demo_portal : Portal := MkPortal (set_Listeners demo_listeners DefaultConfig) NewResolver ∅ [].
Definition demo_read_file (lines : list line) (_ : str) : option str := Some (log_text itoa e_Time (fun _ => []) $$"hp" lines).

